(** * LemonTV: identity and consistency layer

    A shallow embedding of the D1 storage class ([D1Storage]), of the schema it
    runs against and of the login route ([POST], [generateAuthCookie],
    [generateSignature]), with the properties of the specification stated over it.

    Conventions of the embedding.
    - A JavaScript string is a [string]: a sequence of bytes, read as the UTF-8
      form of the text.  The order of strings is the one of JavaScript, by
      UTF-16 code units ([js_leb]).  [String.prototype.toUpperCase] is the
      platform's: the route takes it from its environment.
    - SQL INTEGER columns and JavaScript integers are [Z].
    - A table is the list of its rows in insertion order.
    - The storage collaborator (D1, a SQLite engine) is not part of the
      repository.  Its statements are given the SQLite meaning, one definition per
      statement text; every round trip consults an oracle that may make it fail.
    - [async] code is sequential here: one invocation runs alone on the store.
    - The body of a login request is read at its three fields, each a string
      or absent.

    The embedding comes first, then the vocabulary of the properties, then the
    properties with their proofs; C1 to C10 name the claims of the
    specification, X1 to X30 further properties of the code. *)

From Stdlib Require Import ZArith List String Ascii Bool Lia Arith DecimalString.
From Stdlib Require Import Permutation Sorted.
Import ListNotations.
Open Scope string_scope.
Open Scope list_scope.
Open Scope nat_scope.

Set Implicit Arguments.

(** ** Characters and strings *)

Definition code (c : ascii) : nat := nat_of_ascii c.

Definition dquote : ascii := "034"%char.
Definition backslash : ascii := "092"%char.

Definition chars (s : string) : list ascii := list_ascii_of_string s.
Definition text (l : list ascii) : string := string_of_list_ascii l.

(** JavaScript truthiness of a string: every string but the empty one. *)
Definition truthy (s : string) : bool :=
  match s with EmptyString => false | String _ _ => true end.

(** Truthiness of [string | null | undefined]. *)
Definition truthy_opt (o : option string) : bool :=
  match o with Some s => truthy s | None => false end.

Definition upper_char (c : ascii) : ascii :=
  let n := code c in
  if (97 <=? n) && (n <=? 122) then ascii_of_nat (n - 32) else c.

(** What [String.prototype.toUpperCase] does to a text of ASCII characters:
    the letters [a] to [z] go to [A] to [Z].  On other texts the mapping is
    the one of Unicode, which the platform brings; see [environment]. *)
Fixpoint upper_ascii (s : string) : string :=
  match s with
  | EmptyString => EmptyString
  | String c s' => String (upper_char c) (upper_ascii s')
  end.

(** ** The order of strings

    JavaScript compares two strings, with [<] as in the default comparator of
    [Array.prototype.sort], by their UTF-16 code units.  A text is kept here
    by its UTF-8 bytes; the code units are computed from them.  The order is
    the one of the bytes except where a character above U+FFFF, two
    surrogates in UTF-16, meets a character from U+E000 to U+FFFF. *)

(** The six bits a byte [10xxxxxx] carries. *)
Definition tail_bits (c : ascii) : option Z :=
  let n := Z.of_nat (code c) in
  if ((128 <=? n) && (n <? 192))%Z then Some (n - 128)%Z else None.

(** U+FFFD, which stands for bytes that are no UTF-8. *)
Definition replacement : Z := 65533.

(** The code points of a UTF-8 text. *)
Fixpoint code_points (l : list ascii) : list Z :=
  match l with
  | [] => []
  | b :: l1 =>
      let n := Z.of_nat (code b) in
      if (n <? 128)%Z then n :: code_points l1
      else
        match l1 with
        | [] => [replacement]
        | c1 :: l2 =>
            match tail_bits c1 with
            | None => replacement :: code_points l1
            | Some t1 =>
                if ((194 <=? n) && (n <? 224))%Z then
                  ((n - 192) * 64 + t1)%Z :: code_points l2
                else
                  match l2 with
                  | [] => replacement :: code_points l1
                  | c2 :: l3 =>
                      match tail_bits c2 with
                      | None => replacement :: code_points l1
                      | Some t2 =>
                          if ((224 <=? n) && (n <? 240))%Z then
                            ((n - 224) * 4096 + t1 * 64 + t2)%Z :: code_points l3
                          else
                            match l3 with
                            | [] => replacement :: code_points l1
                            | c3 :: l4 =>
                                match tail_bits c3 with
                                | None => replacement :: code_points l1
                                | Some t3 =>
                                    if ((240 <=? n) && (n <? 245))%Z then
                                      ((n - 240) * 262144 + t1 * 4096 + t2 * 64 + t3)%Z
                                        :: code_points l4
                                    else replacement :: code_points l1
                                end
                            end
                      end
                  end
            end
        end
  end.

(** The UTF-16 form of a code point: itself, or two surrogates. *)
Definition surrogates (cp : Z) : list Z :=
  if (cp <? 65536)%Z then [cp]
  else [(55296 + (cp - 65536) / 1024)%Z; (56320 + (cp - 65536) mod 1024)%Z].

Definition code_units (s : string) : list Z := flat_map surrogates (code_points (chars s)).

Fixpoint units_leb (a b : list Z) : bool :=
  match a, b with
  | [], _ => true
  | _ :: _, [] => false
  | x :: a', y :: b' =>
      if (x <? y)%Z then true else if (y <? x)%Z then false else units_leb a' b'
  end.

(** [a <= b] and [a < b] on strings, as JavaScript has them. *)
Definition js_leb (a b : string) : bool := units_leb (code_units a) (code_units b).

Definition js_ltb (a b : string) : bool := negb (js_leb b a).

(** [Array.prototype.sort] with the default comparator, on a pair of strings:
    the smaller one first, and the given order kept when they are equal. *)
Definition sort2 (a b : string) : string * string :=
  if js_leb a b then (a, b) else (b, a).

(** ** The text of a SQL statement

    The statements are kept as the source writes them.  What the engine checks
    of a statement before running it is computed from this text: the number of
    [?] placeholders against the number of bound values, and for an INSERT the
    number of listed columns against the number of VALUES terms. *)

Definition quote : ascii := "'"%char.

(** Number of [?] outside single-quoted literals. *)
Fixpoint count_placeholders (inlit : bool) (l : list ascii) : nat :=
  match l with
  | [] => 0
  | c :: l' =>
      if Ascii.eqb c quote then count_placeholders (negb inlit) l'
      else if inlit then count_placeholders inlit l'
      else if Ascii.eqb c "?"%char then S (count_placeholders inlit l')
      else count_placeholders inlit l'
  end.

Definition placeholders (sql : string) : nat := count_placeholders false (chars sql).

(** The parenthesised groups of a statement, outermost level only, each given
    as its number of comma-separated terms.  [depth] is the nesting depth and
    [n] the number of commas met so far in the open outermost group. *)
Fixpoint scan_groups (inlit : bool) (depth n : nat) (l : list ascii) : list nat :=
  match l with
  | [] => []
  | c :: l' =>
      if Ascii.eqb c quote then scan_groups (negb inlit) depth n l'
      else if inlit then scan_groups inlit depth n l'
      else if Ascii.eqb c "("%char then
        scan_groups inlit (S depth) (match depth with 0 => 0 | _ => n end) l'
      else if Ascii.eqb c ")"%char then
        match depth with
        | 0 => scan_groups inlit 0 n l'
        | 1 => S n :: scan_groups inlit 0 0 l'
        | S d => scan_groups inlit d n l'
        end
      else if Ascii.eqb c ","%char then
        scan_groups inlit depth (match depth with 1 => S n | _ => n end) l'
      else scan_groups inlit depth n l'
  end.

Definition groups (sql : string) : list nat := scan_groups false 0 0 (chars sql).

Definition is_insert (sql : string) : bool := String.prefix "INSERT" sql.

(** An INSERT lists as many columns as it gives VALUES terms. *)
Definition insert_arity_ok (sql : string) : bool :=
  if is_insert sql then
    match groups sql with
    | [columns; values] => columns =? values
    | _ => false
    end
  else true.

Definition statement_ok (sql : string) (bound : nat) : bool :=
  (placeholders sql =? bound) && insert_arity_ok sql.

(** ** The schema

    The tables of the initialisation script, each with its columns in the
    order of the script.  A statement that names a column the table lacks is
    rejected by the engine. *)

Definition schema : list (string * list string) :=
  [ ("users", ["username"; "password"; "avatar_base64"; "created_at"]);
    ("play_records",
      ["id"; "username"; "key"; "title"; "source_name"; "cover"; "year";
       "index_episode"; "total_episodes"; "play_time"; "total_time";
       "save_time"; "search_title"]);
    ("favorites",
      ["id"; "username"; "key"; "title"; "source_name"; "cover"; "year";
       "total_episodes"; "save_time"]);
    ("search_history", ["id"; "username"; "keyword"; "created_at"]);
    ("admin_config", ["id"; "config"; "updated_at"]);
    ("skip_configs",
      ["id"; "username"; "source"; "id_video"; "enable"; "intro_time";
       "outro_time"]);
    ("danmus",
      ["id"; "video_id"; "username"; "text"; "color"; "mode"; "time";
       "timestamp"]);
    ("machine_codes", ["username"; "machine_code"; "device_info"; "bind_time"]);
    ("conversations",
      ["id"; "name"; "participants"; "type"; "created_at"; "updated_at"]);
    ("messages",
      ["id"; "conversation_id"; "sender_id"; "sender_name"; "content";
       "message_type"; "timestamp"; "is_read"]);
    ("friends", ["user1"; "user2"; "status"; "added_at"]);
    ("friend_requests",
      ["id"; "from_user"; "to_user"; "message"; "status"; "created_at";
       "updated_at"]) ].

Definition mem (x : string) (l : list string) : bool := existsb (String.eqb x) l.

Definition has_column (table column : string) : bool :=
  match find (fun t => String.eqb (fst t) table) schema with
  | Some (_, columns) => mem column columns
  | None => false
  end.

Definition columns_ok (table : string) (columns : list string) : bool :=
  forallb (has_column table) columns.

(** The rows, one record per table; a nullable column is an [option]. *)

Record user_row := {
  u_username : string;           (* PRIMARY KEY *)
  u_password : string;
  u_avatar_base64 : option string;
  u_created_at : Z }.

Record play_record_row := {
  pr_id : Z; pr_username : string; pr_key : string; pr_title : string;
  pr_source_name : string; pr_cover : string; pr_year : string;
  pr_index_episode : Z; pr_total_episodes : Z; pr_play_time : Z;
  pr_total_time : Z; pr_save_time : Z; pr_search_title : option string }.

Record favorite_row := {
  fav_id : Z; fav_username : string; fav_key : string; fav_title : string;
  fav_source_name : string; fav_cover : string; fav_year : string;
  fav_total_episodes : Z; fav_save_time : Z }.

Record search_history_row := {
  sh_id : Z; sh_username : string; sh_keyword : string; sh_created_at : Z }.

Record skip_config_row := {
  sk_id : Z; sk_username : string; sk_source : string; sk_id_video : string;
  sk_enable : Z; sk_intro_time : Z; sk_outro_time : Z }.

(** [time] is a REAL column; the model keeps it in milliseconds. *)
Record danmu_row := {
  dm_id : string; dm_video_id : string; dm_username : string; dm_text : string;
  dm_color : string; dm_mode : Z; dm_time : Z; dm_timestamp : Z }.

Record machine_code_row := {
  mc_username : string;          (* PRIMARY KEY, REFERENCES users *)
  mc_machine_code : string;      (* UNIQUE *)
  mc_device_info : option string;
  mc_bind_time : Z }.

Record conversation_row := {
  cv_id : string;                (* PRIMARY KEY *)
  cv_name : string;
  cv_participants : string;      (* the JSON text of the handle list *)
  cv_type : string;
  cv_created_at : Z;
  cv_updated_at : Z }.

Record message_row := {
  msg_id : string;               (* PRIMARY KEY *)
  msg_conversation_id : string;  (* REFERENCES conversations *)
  msg_sender_id : string;
  msg_sender_name : string;
  msg_content : string;
  msg_message_type : string;
  msg_timestamp : Z;
  msg_is_read : Z }.

Record friend_row := {
  fr_user1 : string;             (* PRIMARY KEY (user1, user2), both REFERENCES users *)
  fr_user2 : string;
  fr_status : string;
  fr_added_at : Z }.

Record friend_request_row := {
  rq_id : string;                (* PRIMARY KEY *)
  rq_from_user : string;         (* REFERENCES users *)
  rq_to_user : string;           (* REFERENCES users *)
  rq_message : option string;
  rq_status : string;
  rq_created_at : Z;
  rq_updated_at : Z }.

Record database := {
  users : list user_row;
  play_records : list play_record_row;
  favorites : list favorite_row;
  search_history : list search_history_row;
  skip_configs : list skip_config_row;
  danmus : list danmu_row;
  machine_codes : list machine_code_row;
  conversations : list conversation_row;
  messages : list message_row;
  friends : list friend_row;
  friend_requests : list friend_request_row }.

Definition empty_database : database :=
  {| users := []; play_records := []; favorites := []; search_history := [];
     skip_configs := []; danmus := []; machine_codes := []; conversations := [];
     messages := []; friends := []; friend_requests := [] |}.

Definition set_users (v : list user_row) (d : database) : database :=
  {| users := v; play_records := play_records d; favorites := favorites d;
     search_history := search_history d; skip_configs := skip_configs d;
     danmus := danmus d; machine_codes := machine_codes d;
     conversations := conversations d; messages := messages d;
     friends := friends d; friend_requests := friend_requests d |}.

Definition set_play_records (v : list play_record_row) (d : database) : database :=
  {| users := users d; play_records := v; favorites := favorites d;
     search_history := search_history d; skip_configs := skip_configs d;
     danmus := danmus d; machine_codes := machine_codes d;
     conversations := conversations d; messages := messages d;
     friends := friends d; friend_requests := friend_requests d |}.

Definition set_favorites (v : list favorite_row) (d : database) : database :=
  {| users := users d; play_records := play_records d; favorites := v;
     search_history := search_history d; skip_configs := skip_configs d;
     danmus := danmus d; machine_codes := machine_codes d;
     conversations := conversations d; messages := messages d;
     friends := friends d; friend_requests := friend_requests d |}.

Definition set_search_history (v : list search_history_row) (d : database) : database :=
  {| users := users d; play_records := play_records d; favorites := favorites d;
     search_history := v; skip_configs := skip_configs d;
     danmus := danmus d; machine_codes := machine_codes d;
     conversations := conversations d; messages := messages d;
     friends := friends d; friend_requests := friend_requests d |}.

Definition set_skip_configs (v : list skip_config_row) (d : database) : database :=
  {| users := users d; play_records := play_records d; favorites := favorites d;
     search_history := search_history d; skip_configs := v;
     danmus := danmus d; machine_codes := machine_codes d;
     conversations := conversations d; messages := messages d;
     friends := friends d; friend_requests := friend_requests d |}.

Definition set_danmus (v : list danmu_row) (d : database) : database :=
  {| users := users d; play_records := play_records d; favorites := favorites d;
     search_history := search_history d; skip_configs := skip_configs d;
     danmus := v; machine_codes := machine_codes d;
     conversations := conversations d; messages := messages d;
     friends := friends d; friend_requests := friend_requests d |}.

Definition set_machine_codes (v : list machine_code_row) (d : database) : database :=
  {| users := users d; play_records := play_records d; favorites := favorites d;
     search_history := search_history d; skip_configs := skip_configs d;
     danmus := danmus d; machine_codes := v;
     conversations := conversations d; messages := messages d;
     friends := friends d; friend_requests := friend_requests d |}.

Definition set_conversations (v : list conversation_row) (d : database) : database :=
  {| users := users d; play_records := play_records d; favorites := favorites d;
     search_history := search_history d; skip_configs := skip_configs d;
     danmus := danmus d; machine_codes := machine_codes d;
     conversations := v; messages := messages d;
     friends := friends d; friend_requests := friend_requests d |}.

Definition set_messages (v : list message_row) (d : database) : database :=
  {| users := users d; play_records := play_records d; favorites := favorites d;
     search_history := search_history d; skip_configs := skip_configs d;
     danmus := danmus d; machine_codes := machine_codes d;
     conversations := conversations d; messages := v;
     friends := friends d; friend_requests := friend_requests d |}.

Definition set_friends (v : list friend_row) (d : database) : database :=
  {| users := users d; play_records := play_records d; favorites := favorites d;
     search_history := search_history d; skip_configs := skip_configs d;
     danmus := danmus d; machine_codes := machine_codes d;
     conversations := conversations d; messages := messages d;
     friends := v; friend_requests := friend_requests d |}.

Definition set_friend_requests (v : list friend_request_row) (d : database) : database :=
  {| users := users d; play_records := play_records d; favorites := favorites d;
     search_history := search_history d; skip_configs := skip_configs d;
     danmus := danmus d; machine_codes := machine_codes d;
     conversations := conversations d; messages := messages d;
     friends := friends d; friend_requests := v |}.

(** ** SQL operators on text *)

(** First byte of a character of several bytes, and the bytes that follow it. *)
Definition is_lead (c : ascii) : bool := 192 <=? code c.
Definition is_cont (c : ascii) : bool := (128 <=? code c) && (code c <? 192).

Fixpoint skip_cont (t : list ascii) : list ascii :=
  match t with
  | [] => []
  | c :: t' => if is_cont c then skip_cont t' else t
  end.

(** The matches of [f] that start at a character of [t]; [skipping] is set
    while the bytes of a character already stepped over are passed. *)
Fixpoint any_start (f : list ascii -> bool) (skipping : bool) (t : list ascii) : bool :=
  match t with
  | [] => f []
  | d :: t' =>
      if skipping && is_cont d then any_start f true t'
      else f t || any_start f (is_lead d) t'
  end.

(** SQLite's LIKE without ESCAPE: [%] stands for any run of characters, [_]
    for one character, and any other character for itself up to the case of
    the ASCII letters. *)
Fixpoint like (p : list ascii) : list ascii -> bool :=
  match p with
  | [] => fun t => match t with [] => true | _ :: _ => false end
  | c :: p' =>
      if Ascii.eqb c "%"%char then any_start (like p') false
      else if Ascii.eqb c "_"%char then
        fun t =>
          match t with
          | [] => false
          | d :: t' => like p' (if is_lead d then skip_cont t' else t')
          end
      else
        fun t =>
          match t with
          | [] => false
          | d :: t' => Ascii.eqb (upper_char c) (upper_char d) && like p' t'
          end
  end.

Definition LIKE (value pattern : string) : bool := like (chars pattern) (chars value).

(** ORDER BY key DESC; rows of equal key keep their table order. *)
Fixpoint insert_desc (A : Type) (key : A -> Z) (x : A) (l : list A) : list A :=
  match l with
  | [] => [x]
  | y :: l' => if (key y <=? key x)%Z then x :: l else y :: insert_desc key x l'
  end.

Definition order_by_desc (A : Type) (key : A -> Z) (l : list A) : list A :=
  fold_right (insert_desc key) [] l.

(** ORDER BY key ASC, with the same treatment of equal keys. *)
Fixpoint insert_asc (A : Type) (key : A -> Z) (x : A) (l : list A) : list A :=
  match l with
  | [] => [x]
  | y :: l' => if (key x <=? key y)%Z then x :: l else y :: insert_asc key x l'
  end.

Definition order_by_asc (A : Type) (key : A -> Z) (l : list A) : list A :=
  fold_right (insert_asc key) [] l.

(** LIMIT n OFFSET m; a negative limit is no limit, a negative offset is 0. *)
Definition limit_offset (A : Type) (limit offset : Z) (l : list A) : list A :=
  let l' := skipn (Z.to_nat offset) l in
  if (limit <? 0)%Z then l' else firstn (Z.to_nat limit) l'.

(** ** JSON *)

Definition hex_digit (n : nat) : ascii :=
  if n <? 10 then ascii_of_nat (48 + n) else ascii_of_nat (87 + n).

(** One character inside a JSON string, as [JSON.stringify] writes it. *)
Definition json_escape_char (c : ascii) : list ascii :=
  let n := code c in
  if Ascii.eqb c dquote then [backslash; dquote]
  else if Ascii.eqb c backslash then [backslash; backslash]
  else if n =? 8 then [backslash; "b"%char]
  else if n =? 9 then [backslash; "t"%char]
  else if n =? 10 then [backslash; "n"%char]
  else if n =? 12 then [backslash; "f"%char]
  else if n =? 13 then [backslash; "r"%char]
  else if n <? 32 then
    [backslash; "u"%char; "0"%char; "0"%char; hex_digit (n / 16); hex_digit (n mod 16)]
  else [c].

Definition json_quote (s : list ascii) : list ascii :=
  dquote :: flat_map json_escape_char s ++ [dquote].

Fixpoint json_elements (l : list (list ascii)) : list ascii :=
  match l with
  | [] => []
  | [s] => json_quote s
  | s :: l' => json_quote s ++ ","%char :: json_elements l'
  end.

(** [JSON.stringify] of an array of strings. *)
Definition JSON_stringify_array (l : list string) : string :=
  text ("["%char :: json_elements (map chars l) ++ ["]"%char]).

Definition hex_value (c : ascii) : option nat :=
  let n := code c in
  if (48 <=? n) && (n <=? 57) then Some (n - 48)
  else if (97 <=? n) && (n <=? 102) then Some (n - 87)
  else if (65 <=? n) && (n <=? 70) then Some (n - 55)
  else None.

(** The UTF-8 bytes of a code point of the basic plane. *)
Definition utf8_of_code_point (n : nat) : list ascii :=
  if n <? 128 then [ascii_of_nat n]
  else if n <? 2048 then [ascii_of_nat (192 + n / 64); ascii_of_nat (128 + n mod 64)]
  else [ascii_of_nat (224 + n / 4096); ascii_of_nat (128 + (n / 64) mod 64);
        ascii_of_nat (128 + n mod 64)].

Definition json_unescape (c : ascii) : option ascii :=
  if Ascii.eqb c dquote then Some dquote
  else if Ascii.eqb c backslash then Some backslash
  else if Ascii.eqb c "/"%char then Some "/"%char
  else if Ascii.eqb c "b"%char then Some (ascii_of_nat 8)
  else if Ascii.eqb c "t"%char then Some (ascii_of_nat 9)
  else if Ascii.eqb c "n"%char then Some (ascii_of_nat 10)
  else if Ascii.eqb c "f"%char then Some (ascii_of_nat 12)
  else if Ascii.eqb c "r"%char then Some (ascii_of_nat 13)
  else None.

(** The body of a JSON string, after its opening quote: the text it stands for
    and what follows the closing quote.  A [\u] escape of a surrogate half is
    rendered on its own. *)
Fixpoint parse_json_string (l : list ascii) : option (list ascii * list ascii) :=
  match l with
  | [] => None
  | c :: l1 =>
      if Ascii.eqb c dquote then Some ([], l1)
      else if Ascii.eqb c backslash then
        match l1 with
        | [] => None
        | e :: l2 =>
            if Ascii.eqb e "u"%char then
              match l2 with
              | h1 :: h2 :: h3 :: h4 :: l3 =>
                  match hex_value h1, hex_value h2, hex_value h3, hex_value h4,
                        parse_json_string l3 with
                  | Some a, Some b, Some c', Some d, Some (s, rest) =>
                      Some (utf8_of_code_point (((a * 16 + b) * 16 + c') * 16 + d) ++ s, rest)
                  | _, _, _, _, _ => None
                  end
              | _ => None
              end
            else
              match json_unescape e, parse_json_string l2 with
              | Some x, Some (s, rest) => Some (x :: s, rest)
              | _, _ => None
              end
        end
      else if code c <? 32 then None
      else
        match parse_json_string l1 with
        | Some (s, rest) => Some (c :: s, rest)
        | None => None
        end
  end.

Definition is_space (c : ascii) : bool :=
  let n := code c in (n =? 32) || (n =? 9) || (n =? 10) || (n =? 13).

Fixpoint skip_space (l : list ascii) : list ascii :=
  match l with
  | [] => []
  | c :: l' => if is_space c then skip_space l' else l
  end.

(** The elements of an array after one of them has been read. *)
Fixpoint parse_json_more (fuel : nat) (l : list ascii) : option (list string) :=
  match fuel with
  | 0 => None
  | S fuel' =>
      match skip_space l with
      | c :: l1 =>
          if Ascii.eqb c "]"%char then
            match skip_space l1 with [] => Some [] | _ :: _ => None end
          else if Ascii.eqb c ","%char then
            match skip_space l1 with
            | q :: l2 =>
                if Ascii.eqb q dquote then
                  match parse_json_string l2 with
                  | Some (s, rest) =>
                      match parse_json_more fuel' rest with
                      | Some ss => Some (text s :: ss)
                      | None => None
                      end
                  | None => None
                  end
                else None
            | [] => None
            end
          else None
      | [] => None
      end
  end.

(** [JSON.parse] on the text of an array of strings; [None] where it throws.
    The participants column holds such an array. *)
Definition JSON_parse_array (s : string) : option (list string) :=
  match skip_space (chars s) with
  | c :: l1 =>
      if Ascii.eqb c "["%char then
        match skip_space l1 with
        | q :: l2 =>
            if Ascii.eqb q "]"%char then
              match skip_space l2 with [] => Some [] | _ :: _ => None end
            else if Ascii.eqb q dquote then
              match parse_json_string l2 with
              | Some (s0, rest) =>
                  match parse_json_more (S (List.length rest)) rest with
                  | Some ss => Some (text s0 :: ss)
                  | None => None
                  end
              | None => None
              end
            else None
        | [] => None
        end
      else None
  | [] => None
  end.

(** ** The world of one invocation *)

Inductive error :=
| StorageFailure                      (* the collaborator failed or timed out *)
| StatementRejected                   (* the engine refused the text or its bindings *)
| ConstraintFailed (what : string)    (* a constraint of the schema *)
| JsError (what : string).            (* an exception of the runtime *)

Inductive outcome (A : Type) :=
| Returned (a : A)
| Thrown (e : error).

Arguments Thrown {A} e.

(** [faults] is the oracle of the collaborator: every round trip takes its
    head, and fails when it is [true]; an exhausted oracle never fails.
    [foreign_keys] tells whether the engine enforces the REFERENCES clauses of
    the schema (D1 does); [clock] is [Date.now()]. *)
Record world := {
  store : database;
  foreign_keys : bool;
  faults : list bool;
  clock : Z }.

Definition set_store (d : database) (w : world) : world :=
  {| store := d; foreign_keys := foreign_keys w; faults := faults w; clock := clock w |}.

Definition set_faults (f : list bool) (w : world) : world :=
  {| store := store w; foreign_keys := foreign_keys w; faults := f; clock := clock w |}.

Definition M (A : Type) : Type := world -> outcome A * world.

Definition ret (A : Type) (a : A) : M A := fun w => (Returned a, w).

Definition throw (A : Type) (e : error) : M A := fun w => (Thrown e, w).

Arguments throw {A} e.

Definition bind (A B : Type) (m : M A) (k : A -> M B) : M B :=
  fun w =>
    match m w with
    | (Returned a, w') => k a w'
    | (Thrown e, w') => (Thrown e, w')
    end.

(** [try { body } catch (err) { handler }] *)
Definition try_catch (A : Type) (body : M A) (handler : error -> M A) : M A :=
  fun w =>
    match body w with
    | (Returned a, w') => (Returned a, w')
    | (Thrown e, w') => handler e w'
    end.

Declare Scope m_scope.
Delimit Scope m_scope with M.
Notation "x <- m ;; k" := (bind m (fun x => k))
  (at level 61, m at next level, right associativity) : m_scope.
Notation "m ;;; k" := (bind m (fun _ => k))
  (at level 61, right associativity) : m_scope.
Open Scope m_scope.

Definition fault_next (w : world) : bool := hd false (faults w).

Definition after_trip (w : world) : world := set_faults (tl (faults w)) w.

Definition round_trip : M unit :=
  fun w =>
    (if fault_next w then Thrown StorageFailure else Returned tt, after_trip w).

(** No round trip of the invocation fails. *)
Definition calm (w : world) : Prop := Forall (fun b => b = false) (faults w).

(** ** Prepared statements

    [sql] is the text given to [prepare], [bound] the number of values given to
    [bind], [table] and [columns] the table and the columns the text names, and
    [meaning] what the engine does with the statement on a store. *)
Record statement (A : Type) := Statement {
  sql : string;
  bound : nat;
  table : string;
  columns : list string;
  meaning : world -> outcome (A * database) }.

Definition accepted (A : Type) (s : statement A) : bool :=
  statement_ok (sql s) (bound s) && columns_ok (table s) (columns s).

(** [first], [all] and [run]: one round trip, then the statement. *)
Definition run (A : Type) (s : statement A) : M A :=
  fun w =>
    match round_trip w with
    | (Thrown e, w') => (Thrown e, w')
    | (Returned _, w') =>
        if accepted s then
          match meaning s w' with
          | Returned (a, d) => (Returned a, set_store d w')
          | Thrown e => (Thrown e, w')
          end
        else (Thrown StatementRejected, w')
    end.

(** [batch]: the statements run in order inside one transaction; when one of
    them fails the store is left as it was. *)
Fixpoint run_all (ss : list (statement unit)) (w : world) : outcome database :=
  match ss with
  | [] => Returned (store w)
  | s :: rest =>
      if accepted s then
        match meaning s w with
        | Returned (_, d) => run_all rest (set_store d w)
        | Thrown e => Thrown e
        end
      else Thrown StatementRejected
  end.

Definition batch (ss : list (statement unit)) : M unit :=
  fun w =>
    match round_trip w with
    | (Thrown e, w') => (Thrown e, w')
    | (Returned _, w') =>
        match run_all ss w' with
        | Returned d => (Returned tt, set_store d w')
        | Thrown e => (Thrown e, w')
        end
    end.

Definition query (A : Type) (f : database -> A) : world -> outcome (A * database) :=
  fun w => Returned (f (store w), store w).

Definition update (f : database -> database) : world -> outcome (unit * database) :=
  fun w => Returned (tt, f (store w)).

(** ** Row operations of the engine *)

Definition delete_where (A : Type) (p : A -> bool) (l : list A) : list A :=
  filter (fun r => negb (p r)) l.

(** UPDATE ... SET ... WHERE: the rows that match are rewritten in place. *)
Definition update_where (A : Type) (p : A -> bool) (f : A -> A) (l : list A) : list A :=
  map (fun r => if p r then f r else r) l.

(** INTEGER PRIMARY KEY AUTOINCREMENT: an inserted row gets an id above every
    id of the table.  The class never reads an id back; what its statements
    rely on is that the id is new. *)
Definition next_id (ids : list Z) : Z := (1 + fold_right Z.max 0 ids)%Z.

(** The text of a statement as the engine reads it: the white space a
    template literal starts with is skipped. *)
Definition sql_text (s : string) : string := text (skip_space (chars s)).

(** ON DELETE CASCADE from users: the bindings, friend edges and friend
    requests that reference a deleted handle go with it. *)
Definition cascade_users (fk : bool) (gone : list string) (d : database) : database :=
  if fk then
    set_friend_requests
      (delete_where (fun r => mem (rq_from_user r) gone || mem (rq_to_user r) gone)
         (friend_requests d))
      (set_friends
         (delete_where (fun r => mem (fr_user1 r) gone || mem (fr_user2 r) gone)
            (friends d))
         (set_machine_codes
            (delete_where (fun r => mem (mc_username r) gone) (machine_codes d)) d))
  else d.

Definition delete_users (p : user_row -> bool) (w : world) : database :=
  let d := store w in
  cascade_users (foreign_keys w) (map u_username (filter p (users d)))
    (set_users (delete_where p (users d)) d).

(** ON DELETE CASCADE from conversations: their messages go with them. *)
Definition cascade_conversations (fk : bool) (gone : list string) (d : database) : database :=
  if fk then
    set_messages (delete_where (fun r => mem (msg_conversation_id r) gone) (messages d)) d
  else d.

Definition delete_conversations (p : conversation_row -> bool) (w : world) : database :=
  let d := store w in
  cascade_conversations (foreign_keys w) (map cv_id (filter p (conversations d)))
    (set_conversations (delete_where p (conversations d)) d).

Definition user_exists (h : string) (d : database) : bool :=
  existsb (fun r => String.eqb (u_username r) h) (users d).

Definition conversation_exists (c : string) (d : database) : bool :=
  existsb (fun r => String.eqb (cv_id r) c) (conversations d).

(** A REFERENCES clause on insertion: the parent row must be there. *)
Definition references (w : world) (present : bool) : bool :=
  negb (foreign_keys w) || present.

Definition constraint (A : Type) (holds : bool) (what : string)
    (k : outcome A) : outcome A :=
  if holds then k else Thrown (ConstraintFailed what).

(** D1 takes a LIKE pattern of at most 50 bytes.  The engine looks at the
    pattern when it evaluates LIKE on a row: over a table that has a row, a
    longer pattern makes the statement fail (LIKE or GLOB pattern too
    complex). *)
Definition like_pattern_limit : nat := 50.

Definition like_runs (A : Type) (pattern : string) (rows : list A) : bool :=
  (String.length pattern <=? like_pattern_limit)
  || match rows with [] => true | _ :: _ => false end.

Definition like_checked (A B : Type) (pattern : string) (rows : list A)
    (k : outcome B) : outcome B :=
  if like_runs pattern rows then k else Thrown StatementRejected.

(** ** The values the storage class exchanges with its callers

    [Friend], [Conversation] and [ChatMessage] are declared in a module of
    types that is not among the sources at hand: their fields are the ones the
    class reads and writes.  A friend request travels as its row. *)

Record Friend := {
  friend_id : string;
  friend_username : string;
  friend_status : string;
  friend_added_at : Z }.

Record Conversation := {
  conv_id : string;
  conv_name : string;
  conv_participants : list string;
  conv_type : string;
  conv_created_at : Z;
  conv_updated_at : Z }.

Record ChatMessage := {
  cm_id : string;
  cm_conversation_id : string;
  cm_sender_id : string;
  cm_sender_name : string;
  cm_content : string;
  cm_message_type : string;
  cm_timestamp : Z;
  cm_is_read : bool }.

(** [PlayRecord], [Favorite] and [SkipConfig], from the same module of types;
    [search_title] is the one optional field. *)
Record PlayRecord := {
  rec_title : string;
  rec_source_name : string;
  rec_cover : string;
  rec_year : string;
  rec_index : Z;
  rec_total_episodes : Z;
  rec_play_time : Z;
  rec_total_time : Z;
  rec_save_time : Z;
  rec_search_title : option string }.

Record Favorite := {
  fv_title : string;
  fv_source_name : string;
  fv_cover : string;
  fv_year : string;
  fv_total_episodes : Z;
  fv_save_time : Z;
  fv_search_title : option string }.

Record SkipConfig := {
  skip_enable : bool;
  skip_intro_time : Z;
  skip_outro_time : Z }.

(** The argument [danmu] of [saveDanmu]. *)
Record Danmu := {
  danmu_text : string;
  danmu_color : string;
  danmu_mode : Z;
  danmu_time : Z;
  danmu_timestamp : Z }.

(** A value of the object [getMachineCodeUsers] returns. *)
Record BoundDevice := {
  bd_machineCode : string;
  bd_deviceInfo : option string;
  bd_bindTime : Z }.

(** [Partial<Conversation>]: the fields an update carries. *)
Record ConversationUpdates := {
  upd_id : option string;
  upd_name : option string;
  upd_participants : option (list string);
  upd_type : option string;
  upd_created_at : option Z;
  upd_updated_at : option Z }.

(** [{ ...current, ...updates }] *)
Definition spread (current : Conversation) (updates : ConversationUpdates) : Conversation :=
  let pick (A : Type) (o : option A) (d : A) := match o with Some a => a | None => d end in
  {| conv_id := pick _ (upd_id updates) (conv_id current);
     conv_name := pick _ (upd_name updates) (conv_name current);
     conv_participants := pick _ (upd_participants updates) (conv_participants current);
     conv_type := pick _ (upd_type updates) (conv_type current);
     conv_created_at := pick _ (upd_created_at updates) (conv_created_at current);
     conv_updated_at := pick _ (upd_updated_at updates) (conv_updated_at current) |}.

(** A JavaScript object made by [{}] and filled key by key, as
    [Record<string, T>].  The object is kept by its own members, the ones
    [JSON.stringify], [Object.keys] and a spread read of it.  The list is read
    by key only: the order in which JavaScript enumerates the members (keys
    that are integers first) is not modelled.  [put] writes an own member. *)
Fixpoint put (A : Type) (k : string) (v : A) (o : list (string * A)) : list (string * A) :=
  match o with
  | [] => [(k, v)]
  | (k', v') :: o' =>
      if String.eqb k' k then (k, v) :: o' else (k', v') :: put k v o'
  end.

(** [o[k] = v]: under the key [__proto__] the assignment goes to the setter
    of [Object.prototype], which changes the prototype of the object and adds
    no member; under any other key it writes an own member. *)
Definition assign (A : Type) (k : string) (v : A) (o : list (string * A)) : list (string * A) :=
  if String.eqb k "__proto__" then o else put k v o.

(** The own member of the object under a key, absent when it has none. *)
Definition property (A : Type) (k : string) (o : list (string * A)) : option A :=
  option_map snd (find (fun kv => String.eqb (fst kv) k) o).

(** [x || null] and [x || undefined] on an optional string: the empty string
    goes with the absent one. *)
Definition or_absent (o : option string) : option string :=
  match o with
  | Some s => if truthy s then Some s else None
  | None => None
  end.

(** A number in a template literal: its decimal digits. *)
Definition decimal (z : Z) : string := NilZero.string_of_int (Z.to_int z).

Definition Date_now : M Z := fun w => (Returned (clock w), w).

(** The pattern [`%"${userName}"%`]. *)
Definition participant_pattern (userName : string) : string :=
  "%" ++ String dquote (userName ++ String dquote "%").

(** ** The statements of the storage class, by table *)

Module Sql.

Definition name_is (userName : string) (r : user_row) : bool :=
  String.eqb (u_username r) userName.

Definition insert_user (userName password : string) : statement unit :=
  {| sql := "INSERT INTO users (username, password) VALUES (?, ?)";
     bound := 2; table := "users"; columns := ["username"; "password"];
     meaning := fun w =>
       constraint (negb (user_exists userName (store w)))
         "UNIQUE constraint failed: users.username"
         (Returned (tt,
            set_users
              (users (store w) ++
               [{| u_username := userName; u_password := password;
                   u_avatar_base64 := None;
                   u_created_at := (clock w / 1000)%Z |}])
              (store w))) |}.

Definition select_password (userName : string) : statement (option string) :=
  {| sql := "SELECT password FROM users WHERE username = ?";
     bound := 1; table := "users"; columns := ["password"; "username"];
     meaning := query (fun d => option_map u_password (find (name_is userName) (users d))) |}.

Definition select_one_user (userName : string) : statement (option Z) :=
  {| sql := "SELECT 1 FROM users WHERE username = ?";
     bound := 1; table := "users"; columns := ["username"];
     meaning := query (fun d => option_map (fun _ => 1%Z) (find (name_is userName) (users d))) |}.

(** The text asks for a column [avatar]; the users table of the schema has
    [avatar_base64], so the engine refuses the statement and its meaning is
    never reached. *)
Definition select_avatar (userName : string) : statement (option string) :=
  {| sql := "SELECT avatar FROM users WHERE username = ?";
     bound := 1; table := "users"; columns := ["avatar"; "username"];
     meaning := query (fun d =>
       match find (name_is userName) (users d) with
       | Some r => u_avatar_base64 r
       | None => None
       end) |}.

Definition search_usernames (pattern : string) : statement (list string) :=
  {| sql := "SELECT username FROM users WHERE username LIKE ? LIMIT 20";
     bound := 1; table := "users"; columns := ["username"];
     meaning := fun w =>
       like_checked pattern (users (store w))
         (query (fun d =>
            firstn 20 (map u_username (filter (fun r => LIKE (u_username r) pattern) (users d))))
            w) |}.

Definition delete_user (userName : string) : statement unit :=
  {| sql := "DELETE FROM users WHERE username = ?";
     bound := 1; table := "users"; columns := ["username"];
     meaning := fun w => Returned (tt, delete_users (name_is userName) w) |}.

Definition delete_play_records (userName : string) : statement unit :=
  {| sql := "DELETE FROM play_records WHERE username = ?";
     bound := 1; table := "play_records"; columns := ["username"];
     meaning := update (fun d =>
       set_play_records
         (delete_where (fun r => String.eqb (pr_username r) userName) (play_records d)) d) |}.

Definition delete_favorites (userName : string) : statement unit :=
  {| sql := "DELETE FROM favorites WHERE username = ?";
     bound := 1; table := "favorites"; columns := ["username"];
     meaning := update (fun d =>
       set_favorites
         (delete_where (fun r => String.eqb (fav_username r) userName) (favorites d)) d) |}.

Definition delete_search_history (userName : string) : statement unit :=
  {| sql := "DELETE FROM search_history WHERE username = ?";
     bound := 1; table := "search_history"; columns := ["username"];
     meaning := update (fun d =>
       set_search_history
         (delete_where (fun r => String.eqb (sh_username r) userName) (search_history d)) d) |}.

Definition delete_skip_configs (userName : string) : statement unit :=
  {| sql := "DELETE FROM skip_configs WHERE username = ?";
     bound := 1; table := "skip_configs"; columns := ["username"];
     meaning := update (fun d =>
       set_skip_configs
         (delete_where (fun r => String.eqb (sk_username r) userName) (skip_configs d)) d) |}.

Definition delete_danmus (userName : string) : statement unit :=
  {| sql := "DELETE FROM danmus WHERE username = ?";
     bound := 1; table := "danmus"; columns := ["username"];
     meaning := update (fun d =>
       set_danmus
         (delete_where (fun r => String.eqb (dm_username r) userName) (danmus d)) d) |}.

(** machine_codes *)

Definition select_machine_code (userName : string) : statement (option string) :=
  {| sql := "SELECT machine_code FROM machine_codes WHERE username = ?";
     bound := 1; table := "machine_codes"; columns := ["machine_code"; "username"];
     meaning := query (fun d =>
       option_map mc_machine_code
         (find (fun r => String.eqb (mc_username r) userName) (machine_codes d))) |}.

(** INSERT OR REPLACE: the rows that collide with the new one on the primary
    key [username] or on the UNIQUE column [machine_code] are deleted first. *)
Definition replace_machine_code (userName machineCode deviceInfo : string) (now : Z)
    : statement unit :=
  {| sql := "INSERT OR REPLACE INTO machine_codes (username, machine_code, device_info, bind_time) VALUES (?, ?, ?, ?)";
     bound := 4; table := "machine_codes";
     columns := ["username"; "machine_code"; "device_info"; "bind_time"];
     meaning := fun w =>
       constraint (references w (user_exists userName (store w)))
         "FOREIGN KEY constraint failed"
         (Returned (tt,
            set_machine_codes
              (delete_where
                 (fun r => String.eqb (mc_username r) userName
                           || String.eqb (mc_machine_code r) machineCode)
                 (machine_codes (store w)) ++
               [{| mc_username := userName; mc_machine_code := machineCode;
                   mc_device_info := Some deviceInfo; mc_bind_time := now |}])
              (store w))) |}.

Definition delete_machine_code (userName : string) : statement unit :=
  {| sql := "DELETE FROM machine_codes WHERE username = ?";
     bound := 1; table := "machine_codes"; columns := ["username"];
     meaning := update (fun d =>
       set_machine_codes
         (delete_where (fun r => String.eqb (mc_username r) userName) (machine_codes d)) d) |}.

Definition select_code_owner (machineCode : string) : statement (option string) :=
  {| sql := "SELECT username FROM machine_codes WHERE machine_code = ?";
     bound := 1; table := "machine_codes"; columns := ["username"; "machine_code"];
     meaning := query (fun d =>
       option_map mc_username
         (find (fun r => String.eqb (mc_machine_code r) machineCode) (machine_codes d))) |}.

(** messages *)

Definition insert_message (m : ChatMessage) : statement unit :=
  {| sql := "INSERT INTO messages (id, conversation_id, sender_id, sender_name, content, message_type, timestamp, is_read) VALUES (?, ?, ?, ?, ?, ?)";
     bound := 8; table := "messages";
     columns := ["id"; "conversation_id"; "sender_id"; "sender_name"; "content";
                 "message_type"; "timestamp"; "is_read"];
     meaning := fun w =>
       constraint
         (negb (existsb (fun r => String.eqb (msg_id r) (cm_id m)) (messages (store w))))
         "UNIQUE constraint failed: messages.id"
         (constraint
            (references w (conversation_exists (cm_conversation_id m) (store w)))
            "FOREIGN KEY constraint failed"
            (Returned (tt,
               set_messages
                 (messages (store w) ++
                  [{| msg_id := cm_id m;
                      msg_conversation_id := cm_conversation_id m;
                      msg_sender_id := cm_sender_id m;
                      msg_sender_name := cm_sender_name m;
                      msg_content := cm_content m;
                      msg_message_type := cm_message_type m;
                      msg_timestamp := cm_timestamp m;
                      msg_is_read := if cm_is_read m then 1%Z else 0%Z |}])
                 (store w)))) |}.

Definition select_messages (conversationId : string) (limit offset : Z)
    : statement (list message_row) :=
  {| sql := "SELECT * FROM messages WHERE conversation_id = ? ORDER BY timestamp DESC LIMIT ? OFFSET ?";
     bound := 3; table := "messages"; columns := ["conversation_id"; "timestamp"];
     meaning := query (fun d =>
       limit_offset limit offset
         (order_by_desc msg_timestamp
            (filter (fun r => String.eqb (msg_conversation_id r) conversationId)
               (messages d)))) |}.

Definition delete_messages_of_conversation (conversationId : string) : statement unit :=
  {| sql := "DELETE FROM messages WHERE conversation_id = ?";
     bound := 1; table := "messages"; columns := ["conversation_id"];
     meaning := update (fun d =>
       set_messages
         (delete_where (fun r => String.eqb (msg_conversation_id r) conversationId)
            (messages d)) d) |}.

Definition delete_messages_of_sender (userName : string) : statement unit :=
  {| sql := "DELETE FROM messages WHERE sender_name = ?";
     bound := 1; table := "messages"; columns := ["sender_name"];
     meaning := update (fun d =>
       set_messages
         (delete_where (fun r => String.eqb (msg_sender_name r) userName) (messages d)) d) |}.

(** conversations *)

Definition select_conversations_like (pattern : string) : statement (list conversation_row) :=
  {| sql := "SELECT * FROM conversations WHERE participants LIKE ? ORDER BY updated_at DESC";
     bound := 1; table := "conversations"; columns := ["participants"; "updated_at"];
     meaning := fun w =>
       like_checked pattern (conversations (store w))
         (query (fun d =>
            order_by_desc cv_updated_at
              (filter (fun r => LIKE (cv_participants r) pattern) (conversations d)))
            w) |}.

Definition select_conversation (conversationId : string) : statement (option conversation_row) :=
  {| sql := "SELECT * FROM conversations WHERE id = ?";
     bound := 1; table := "conversations"; columns := ["id"];
     meaning := query (fun d =>
       find (fun r => String.eqb (cv_id r) conversationId) (conversations d)) |}.

Definition insert_conversation (c : Conversation) : statement unit :=
  {| sql := "INSERT INTO conversations (id, name, participants, type, created_at, updated_at) VALUES (?, ?, ?, ?, ?, ?)";
     bound := 6; table := "conversations";
     columns := ["id"; "name"; "participants"; "type"; "created_at"; "updated_at"];
     meaning := fun w =>
       constraint (negb (conversation_exists (conv_id c) (store w)))
         "UNIQUE constraint failed: conversations.id"
         (Returned (tt,
            set_conversations
              (conversations (store w) ++
               [{| cv_id := conv_id c; cv_name := conv_name c;
                   cv_participants := JSON_stringify_array (conv_participants c);
                   cv_type := conv_type c;
                   cv_created_at := conv_created_at c;
                   cv_updated_at := conv_updated_at c |}])
              (store w))) |}.

Definition delete_conversation (conversationId : string) : statement unit :=
  {| sql := "DELETE FROM conversations WHERE id = ?";
     bound := 1; table := "conversations"; columns := ["id"];
     meaning := fun w =>
       Returned (tt, delete_conversations (fun r => String.eqb (cv_id r) conversationId) w) |}.

Definition delete_conversations_like (pattern : string) : statement unit :=
  {| sql := "DELETE FROM conversations WHERE participants LIKE ?";
     bound := 1; table := "conversations"; columns := ["participants"];
     meaning := fun w =>
       like_checked pattern (conversations (store w))
         (Returned (tt, delete_conversations (fun r => LIKE (cv_participants r) pattern) w)) |}.

(** friends *)

Definition names (userName : string) (r : friend_row) : bool :=
  String.eqb (fr_user1 r) userName || String.eqb (fr_user2 r) userName.

Definition select_friends (userName : string) : statement (list friend_row) :=
  {| sql := "SELECT * FROM friends WHERE (user1 = ? OR user2 = ?) AND status = 'accepted'";
     bound := 2; table := "friends"; columns := ["user1"; "user2"; "status"];
     meaning := query (fun d =>
       filter (fun r => names userName r && String.eqb (fr_status r) "accepted") (friends d)) |}.

Definition same_edge (user1 user2 : string) (r : friend_row) : bool :=
  String.eqb (fr_user1 r) user1 && String.eqb (fr_user2 r) user2.

(** INSERT OR REPLACE on the primary key (user1, user2). *)
Definition replace_friend (user1 user2 : string) (added_at : Z) : statement unit :=
  {| sql := "INSERT OR REPLACE INTO friends (user1, user2, status, added_at) VALUES (?, ?, 'accepted', ?)";
     bound := 3; table := "friends"; columns := ["user1"; "user2"; "status"; "added_at"];
     meaning := fun w =>
       constraint
         (references w (user_exists user1 (store w) && user_exists user2 (store w)))
         "FOREIGN KEY constraint failed"
         (Returned (tt,
            set_friends
              (delete_where (same_edge user1 user2) (friends (store w)) ++
               [{| fr_user1 := user1; fr_user2 := user2; fr_status := "accepted";
                   fr_added_at := added_at |}])
              (store w))) |}.

Definition delete_friend (user1 user2 : string) : statement unit :=
  {| sql := "DELETE FROM friends WHERE user1 = ? AND user2 = ?";
     bound := 2; table := "friends"; columns := ["user1"; "user2"];
     meaning := update (fun d =>
       set_friends (delete_where (same_edge user1 user2) (friends d)) d) |}.

Definition delete_friends_of (userName : string) : statement unit :=
  {| sql := "DELETE FROM friends WHERE user1 = ? OR user2 = ?";
     bound := 2; table := "friends"; columns := ["user1"; "user2"];
     meaning := update (fun d =>
       set_friends (delete_where (names userName) (friends d)) d) |}.

(** friend_requests *)

Definition concerns (userName : string) (r : friend_request_row) : bool :=
  String.eqb (rq_to_user r) userName || String.eqb (rq_from_user r) userName.

Definition select_friend_requests (userName : string) : statement (list friend_request_row) :=
  {| sql := "SELECT * FROM friend_requests WHERE to_user = ? OR from_user = ? ORDER BY created_at DESC";
     bound := 2; table := "friend_requests"; columns := ["to_user"; "from_user"; "created_at"];
     meaning := query (fun d =>
       order_by_desc rq_created_at (filter (concerns userName) (friend_requests d))) |}.

Definition insert_friend_request (r : friend_request_row) : statement unit :=
  {| sql := "INSERT INTO friend_requests (id, from_user, to_user, message, status, created_at, updated_at) VALUES (?, ?, ?, ?, ?, ?, ?)";
     bound := 7; table := "friend_requests";
     columns := ["id"; "from_user"; "to_user"; "message"; "status"; "created_at"; "updated_at"];
     meaning := fun w =>
       constraint
         (negb (existsb (fun x => String.eqb (rq_id x) (rq_id r)) (friend_requests (store w))))
         "UNIQUE constraint failed: friend_requests.id"
         (constraint (mem (rq_status r) ["pending"; "accepted"; "rejected"])
            "CHECK constraint failed: status"
            (constraint
               (references w
                  (user_exists (rq_from_user r) (store w)
                   && user_exists (rq_to_user r) (store w)))
               "FOREIGN KEY constraint failed"
               (Returned (tt,
                  set_friend_requests (friend_requests (store w) ++ [r]) (store w))))) |}.

Definition delete_friend_requests_of (userName : string) : statement unit :=
  {| sql := "DELETE FROM friend_requests WHERE from_user = ? OR to_user = ?";
     bound := 2; table := "friend_requests"; columns := ["from_user"; "to_user"];
     meaning := update (fun d =>
       set_friend_requests (delete_where (concerns userName) (friend_requests d)) d) |}.

(** *** users: the other statements *)

Definition with_password (newPassword : string) (r : user_row) : user_row :=
  {| u_username := u_username r; u_password := newPassword;
     u_avatar_base64 := u_avatar_base64 r; u_created_at := u_created_at r |}.

Definition with_avatar (avatar : option string) (r : user_row) : user_row :=
  {| u_username := u_username r; u_password := u_password r;
     u_avatar_base64 := avatar; u_created_at := u_created_at r |}.

Definition update_password (newPassword userName : string) : statement unit :=
  {| sql := "UPDATE users SET password = ? WHERE username = ?";
     bound := 2; table := "users"; columns := ["password"; "username"];
     meaning := update (fun d =>
       set_users (update_where (name_is userName) (with_password newPassword) (users d)) d) |}.

Definition select_usernames : statement (list string) :=
  {| sql := "SELECT username FROM users ORDER BY created_at ASC";
     bound := 0; table := "users"; columns := ["username"; "created_at"];
     meaning := query (fun d => map u_username (order_by_asc u_created_at (users d))) |}.

(** The two statements below name the column [avatar] as [select_avatar]
    does, and are refused like it. *)
Definition update_avatar (avatarData userName : string) : statement unit :=
  {| sql := "UPDATE users SET avatar = ? WHERE username = ?";
     bound := 2; table := "users"; columns := ["avatar"; "username"];
     meaning := update (fun d =>
       set_users (update_where (name_is userName) (with_avatar (Some avatarData)) (users d)) d) |}.

Definition clear_avatar (userName : string) : statement unit :=
  {| sql := "UPDATE users SET avatar = NULL WHERE username = ?";
     bound := 1; table := "users"; columns := ["avatar"; "username"];
     meaning := update (fun d =>
       set_users (update_where (name_is userName) (with_avatar None) (users d)) d) |}.

Definition delete_all_users : statement unit :=
  {| sql := "DELETE FROM users";
     bound := 0; table := "users"; columns := [];
     meaning := fun w => Returned (tt, delete_users (fun _ => true) w) |}.

(** *** play_records *)

Definition play_key (userName key : string) (r : play_record_row) : bool :=
  String.eqb (pr_username r) userName && String.eqb (pr_key r) key.

Definition select_play_record (userName key : string) : statement (option play_record_row) :=
  {| sql := "SELECT * FROM play_records WHERE username = ? AND key = ?";
     bound := 2; table := "play_records"; columns := ["username"; "key"];
     meaning := query (fun d => find (play_key userName key) (play_records d)) |}.

(** INSERT OR REPLACE: the row that collides on UNIQUE(username, key) is
    deleted first; the new row gets a new id. *)
Definition replace_play_record (userName key title source_name cover year : string)
    (index_episode total_episodes play_time total_time save_time : Z)
    (search_title : option string) : statement unit :=
  {| sql := sql_text "
          INSERT OR REPLACE INTO play_records 
          (username, key, title, source_name, cover, year, index_episode, total_episodes, play_time, total_time, save_time, search_title)
          VALUES (?, ?, ?, ?, ?, ?, ?, ?, ?, ?, ?, ?)
        ";
     bound := 12; table := "play_records";
     columns := ["username"; "key"; "title"; "source_name"; "cover"; "year";
                 "index_episode"; "total_episodes"; "play_time"; "total_time";
                 "save_time"; "search_title"];
     meaning := update (fun d =>
       set_play_records
         (delete_where (play_key userName key) (play_records d) ++
          [{| pr_id := next_id (map pr_id (play_records d));
              pr_username := userName; pr_key := key; pr_title := title;
              pr_source_name := source_name; pr_cover := cover; pr_year := year;
              pr_index_episode := index_episode; pr_total_episodes := total_episodes;
              pr_play_time := play_time; pr_total_time := total_time;
              pr_save_time := save_time; pr_search_title := search_title |}])
         d) |}.

Definition select_play_records (userName : string) : statement (list play_record_row) :=
  {| sql := "SELECT * FROM play_records WHERE username = ? ORDER BY save_time DESC";
     bound := 1; table := "play_records"; columns := ["username"; "save_time"];
     meaning := query (fun d =>
       order_by_desc pr_save_time
         (filter (fun r => String.eqb (pr_username r) userName) (play_records d))) |}.

Definition delete_play_record (userName key : string) : statement unit :=
  {| sql := "DELETE FROM play_records WHERE username = ? AND key = ?";
     bound := 2; table := "play_records"; columns := ["username"; "key"];
     meaning := update (fun d =>
       set_play_records (delete_where (play_key userName key) (play_records d)) d) |}.

Definition delete_all_play_records : statement unit :=
  {| sql := "DELETE FROM play_records";
     bound := 0; table := "play_records"; columns := [];
     meaning := update (set_play_records []) |}.

(** *** favorites *)

Definition favorite_key (userName key : string) (r : favorite_row) : bool :=
  String.eqb (fav_username r) userName && String.eqb (fav_key r) key.

Definition select_favorite (userName key : string) : statement (option favorite_row) :=
  {| sql := "SELECT * FROM favorites WHERE username = ? AND key = ?";
     bound := 2; table := "favorites"; columns := ["username"; "key"];
     meaning := query (fun d => find (favorite_key userName key) (favorites d)) |}.

Definition replace_favorite (userName key title source_name cover year : string)
    (total_episodes save_time : Z) : statement unit :=
  {| sql := sql_text "
          INSERT OR REPLACE INTO favorites 
          (username, key, title, source_name, cover, year, total_episodes, save_time)
          VALUES (?, ?, ?, ?, ?, ?, ?, ?)
        ";
     bound := 8; table := "favorites";
     columns := ["username"; "key"; "title"; "source_name"; "cover"; "year";
                 "total_episodes"; "save_time"];
     meaning := update (fun d =>
       set_favorites
         (delete_where (favorite_key userName key) (favorites d) ++
          [{| fav_id := next_id (map fav_id (favorites d));
              fav_username := userName; fav_key := key; fav_title := title;
              fav_source_name := source_name; fav_cover := cover; fav_year := year;
              fav_total_episodes := total_episodes; fav_save_time := save_time |}])
         d) |}.

Definition select_favorites (userName : string) : statement (list favorite_row) :=
  {| sql := "SELECT * FROM favorites WHERE username = ? ORDER BY save_time DESC";
     bound := 1; table := "favorites"; columns := ["username"; "save_time"];
     meaning := query (fun d =>
       order_by_desc fav_save_time
         (filter (fun r => String.eqb (fav_username r) userName) (favorites d))) |}.

Definition delete_favorite (userName key : string) : statement unit :=
  {| sql := "DELETE FROM favorites WHERE username = ? AND key = ?";
     bound := 2; table := "favorites"; columns := ["username"; "key"];
     meaning := update (fun d =>
       set_favorites (delete_where (favorite_key userName key) (favorites d)) d) |}.

Definition delete_all_favorites : statement unit :=
  {| sql := "DELETE FROM favorites";
     bound := 0; table := "favorites"; columns := [];
     meaning := update (set_favorites []) |}.

(** *** search_history *)

Definition searched_by (userName : string) (r : search_history_row) : bool :=
  String.eqb (sh_username r) userName.

Definition searched (userName keyword : string) (r : search_history_row) : bool :=
  String.eqb (sh_username r) userName && String.eqb (sh_keyword r) keyword.

(** The rows of a handle, latest first, as both the read and the trim of the
    history take them. *)
Definition latest (userName : string) (limit : Z) (rows : list search_history_row)
    : list search_history_row :=
  limit_offset limit 0 (order_by_desc sh_created_at (filter (searched_by userName) rows)).

Definition select_keywords (userName : string) (limit : Z) : statement (list string) :=
  {| sql := "SELECT keyword FROM search_history WHERE username = ? ORDER BY created_at DESC LIMIT ?";
     bound := 2; table := "search_history"; columns := ["keyword"; "username"; "created_at"];
     meaning := query (fun d => map sh_keyword (latest userName limit (search_history d))) |}.

Definition delete_keyword (userName keyword : string) : statement unit :=
  {| sql := "DELETE FROM search_history WHERE username = ? AND keyword = ?";
     bound := 2; table := "search_history"; columns := ["username"; "keyword"];
     meaning := update (fun d =>
       set_search_history (delete_where (searched userName keyword) (search_history d)) d) |}.

(** [created_at] is left to its default, the time in seconds. *)
Definition insert_keyword (userName keyword : string) : statement unit :=
  {| sql := "INSERT INTO search_history (username, keyword) VALUES (?, ?)";
     bound := 2; table := "search_history"; columns := ["username"; "keyword"];
     meaning := fun w =>
       constraint (negb (existsb (searched userName keyword) (search_history (store w))))
         "UNIQUE constraint failed: search_history.username, search_history.keyword"
         (Returned (tt,
            set_search_history
              (search_history (store w) ++
               [{| sh_id := next_id (map sh_id (search_history (store w)));
                   sh_username := userName; sh_keyword := keyword;
                   sh_created_at := (clock w / 1000)%Z |}])
              (store w))) |}.

(** The rows of the handle whose id is not among its latest [limit] go. *)
Definition trim_search_history (userName : string) (limit : Z) : statement unit :=
  {| sql := "
          DELETE FROM search_history 
          WHERE username = ? AND id NOT IN (
            SELECT id FROM search_history 
            WHERE username = ? 
            ORDER BY created_at DESC 
            LIMIT ?
          )
        ";
     bound := 3; table := "search_history"; columns := ["username"; "id"; "created_at"];
     meaning := update (fun d =>
       let kept := map sh_id (latest userName limit (search_history d)) in
       set_search_history
         (delete_where
            (fun r => searched_by userName r && negb (existsb (Z.eqb (sh_id r)) kept))
            (search_history d))
         d) |}.

Definition delete_all_search_history : statement unit :=
  {| sql := "DELETE FROM search_history";
     bound := 0; table := "search_history"; columns := [];
     meaning := update (set_search_history []) |}.

(** *** skip_configs *)

Definition skip_key (userName source id : string) (r : skip_config_row) : bool :=
  String.eqb (sk_username r) userName && String.eqb (sk_source r) source
  && String.eqb (sk_id_video r) id.

Definition select_skip_config (userName source id : string)
    : statement (option skip_config_row) :=
  {| sql := "SELECT * FROM skip_configs WHERE username = ? AND source = ? AND id_video = ?";
     bound := 3; table := "skip_configs"; columns := ["username"; "source"; "id_video"];
     meaning := query (fun d => find (skip_key userName source id) (skip_configs d)) |}.

Definition replace_skip_config (userName source id : string)
    (enable intro_time outro_time : Z) : statement unit :=
  {| sql := sql_text "
          INSERT OR REPLACE INTO skip_configs 
          (username, source, id_video, enable, intro_time, outro_time)
          VALUES (?, ?, ?, ?, ?, ?)
        ";
     bound := 6; table := "skip_configs";
     columns := ["username"; "source"; "id_video"; "enable"; "intro_time"; "outro_time"];
     meaning := update (fun d =>
       set_skip_configs
         (delete_where (skip_key userName source id) (skip_configs d) ++
          [{| sk_id := next_id (map sk_id (skip_configs d));
              sk_username := userName; sk_source := source; sk_id_video := id;
              sk_enable := enable; sk_intro_time := intro_time;
              sk_outro_time := outro_time |}])
         d) |}.

Definition delete_skip_config (userName source id : string) : statement unit :=
  {| sql := "DELETE FROM skip_configs WHERE username = ? AND source = ? AND id_video = ?";
     bound := 3; table := "skip_configs"; columns := ["username"; "source"; "id_video"];
     meaning := update (fun d =>
       set_skip_configs (delete_where (skip_key userName source id) (skip_configs d)) d) |}.

Definition select_skip_configs (userName : string) : statement (list skip_config_row) :=
  {| sql := "SELECT source, id_video, enable, intro_time, outro_time FROM skip_configs WHERE username = ?";
     bound := 1; table := "skip_configs";
     columns := ["source"; "id_video"; "enable"; "intro_time"; "outro_time"; "username"];
     meaning := query (fun d =>
       filter (fun r => String.eqb (sk_username r) userName) (skip_configs d)) |}.

Definition delete_all_skip_configs : statement unit :=
  {| sql := "DELETE FROM skip_configs";
     bound := 0; table := "skip_configs"; columns := [];
     meaning := update (set_skip_configs []) |}.

(** *** danmus *)

Definition select_danmus (videoId : string) : statement (list danmu_row) :=
  {| sql := "SELECT * FROM danmus WHERE video_id = ? ORDER BY time ASC";
     bound := 1; table := "danmus"; columns := ["video_id"; "time"];
     meaning := query (fun d =>
       order_by_asc dm_time
         (filter (fun r => String.eqb (dm_video_id r) videoId) (danmus d))) |}.

Definition insert_danmu (r : danmu_row) : statement unit :=
  {| sql := "INSERT INTO danmus (id, video_id, username, text, color, mode, time, timestamp) VALUES (?, ?, ?, ?, ?, ?, ?, ?)";
     bound := 8; table := "danmus";
     columns := ["id"; "video_id"; "username"; "text"; "color"; "mode"; "time"; "timestamp"];
     meaning := fun w =>
       constraint (negb (existsb (fun x => String.eqb (dm_id x) (dm_id r)) (danmus (store w))))
         "UNIQUE constraint failed: danmus.id"
         (Returned (tt, set_danmus (danmus (store w) ++ [r]) (store w))) |}.

Definition delete_danmu (danmuId videoId : string) : statement unit :=
  {| sql := "DELETE FROM danmus WHERE id = ? AND video_id = ?";
     bound := 2; table := "danmus"; columns := ["id"; "video_id"];
     meaning := update (fun d =>
       set_danmus
         (delete_where
            (fun r => String.eqb (dm_id r) danmuId && String.eqb (dm_video_id r) videoId)
            (danmus d))
         d) |}.

(** *** machine_codes, messages, conversations, friend_requests: the other statements *)

Definition select_bindings : statement (list machine_code_row) :=
  {| sql := "SELECT username, machine_code, device_info, bind_time FROM machine_codes";
     bound := 0; table := "machine_codes";
     columns := ["username"; "machine_code"; "device_info"; "bind_time"];
     meaning := query machine_codes |}.

Definition as_read (r : message_row) : message_row :=
  {| msg_id := msg_id r; msg_conversation_id := msg_conversation_id r;
     msg_sender_id := msg_sender_id r; msg_sender_name := msg_sender_name r;
     msg_content := msg_content r; msg_message_type := msg_message_type r;
     msg_timestamp := msg_timestamp r; msg_is_read := 1%Z |}.

Definition mark_read (messageId : string) : statement unit :=
  {| sql := "UPDATE messages SET is_read = 1 WHERE id = ?";
     bound := 1; table := "messages"; columns := ["is_read"; "id"];
     meaning := update (fun d =>
       set_messages
         (update_where (fun r => String.eqb (msg_id r) messageId) as_read (messages d)) d) |}.

Definition update_conversation (name participants type : string)
    (created_at updated_at : Z) (conversationId : string) : statement unit :=
  {| sql := "UPDATE conversations SET name = ?, participants = ?, type = ?, created_at = ?, updated_at = ? WHERE id = ?";
     bound := 6; table := "conversations";
     columns := ["name"; "participants"; "type"; "created_at"; "updated_at"; "id"];
     meaning := update (fun d =>
       set_conversations
         (update_where (fun r => String.eqb (cv_id r) conversationId)
            (fun r => {| cv_id := cv_id r; cv_name := name; cv_participants := participants;
                         cv_type := type; cv_created_at := created_at;
                         cv_updated_at := updated_at |})
            (conversations d))
         d) |}.

Definition with_status (status : string) (now : Z) (r : friend_request_row)
    : friend_request_row :=
  {| rq_id := rq_id r; rq_from_user := rq_from_user r; rq_to_user := rq_to_user r;
     rq_message := rq_message r; rq_status := status;
     rq_created_at := rq_created_at r; rq_updated_at := now |}.

(** The CHECK on [status] is evaluated on the rows the update rewrites. *)
Definition update_friend_request (status : string) (now : Z) (requestId : string)
    : statement unit :=
  {| sql := "UPDATE friend_requests SET status = ?, updated_at = ? WHERE id = ?";
     bound := 3; table := "friend_requests"; columns := ["status"; "updated_at"; "id"];
     meaning := fun w =>
       constraint
         (negb (existsb (fun r => String.eqb (rq_id r) requestId) (friend_requests (store w)))
          || mem status ["pending"; "accepted"; "rejected"])
         "CHECK constraint failed: status"
         (Returned (tt,
            set_friend_requests
              (update_where (fun r => String.eqb (rq_id r) requestId) (with_status status now)
                 (friend_requests (store w)))
              (store w))) |}.

Definition delete_friend_request (requestId : string) : statement unit :=
  {| sql := "DELETE FROM friend_requests WHERE id = ?";
     bound := 1; table := "friend_requests"; columns := ["id"];
     meaning := update (fun d =>
       set_friend_requests
         (delete_where (fun r => String.eqb (rq_id r) requestId) (friend_requests d)) d) |}.


End Sql.

(** ** The storage class *)

Module D1Storage.

Definition registerUser (userName password : string) : M unit :=
  try_catch (run (Sql.insert_user userName password)) (fun err => throw err).

Definition verifyUser (userName password : string) : M bool :=
  try_catch
    (result <- run (Sql.select_password userName) ;;
     ret (match result with
          | Some stored => String.eqb stored password
          | None => false
          end))
    (fun err => throw err).

Definition checkUserExist (userName : string) : M bool :=
  try_catch
    (result <- run (Sql.select_one_user userName) ;;
     ret (match result with Some _ => true | None => false end))
    (fun err => throw err).

Definition getUserAvatar (userName : string) : M (option string) :=
  try_catch (run (Sql.select_avatar userName)) (fun err => throw err).

Definition getUserMachineCode (userName : string) : M (option string) :=
  try_catch (run (Sql.select_machine_code userName)) (fun _ => ret None).

Definition setUserMachineCode (userName machineCode : string)
    (deviceInfo : option string) : M unit :=
  try_catch
    (now <- Date_now ;;
     run (Sql.replace_machine_code userName machineCode
            (match deviceInfo with
             | Some info => if truthy info then info else ""
             | None => ""
             end) now))
    (fun err => throw err).

Definition deleteUserMachineCode (userName : string) : M unit :=
  try_catch (run (Sql.delete_machine_code userName)) (fun err => throw err).

Definition isMachineCodeBound (machineCode : string) : M (option string) :=
  try_catch (run (Sql.select_code_owner machineCode)) (fun _ => ret None).

Definition saveMessage (message : ChatMessage) : M unit :=
  try_catch (run (Sql.insert_message message)) (fun err => throw err).

Definition getMessages (conversationId : string) (limit offset : Z)
    : M (list message_row) :=
  try_catch
    (results <- run (Sql.select_messages conversationId limit offset) ;;
     ret (rev results))
    (fun _ => ret []).

Definition to_conversation (row : conversation_row) : option Conversation :=
  match JSON_parse_array (cv_participants row) with
  | Some participants =>
      Some {| conv_id := cv_id row; conv_name := cv_name row;
              conv_participants := participants; conv_type := cv_type row;
              conv_created_at := cv_created_at row;
              conv_updated_at := cv_updated_at row |}
  | None => None
  end.

Fixpoint to_conversations (rows : list conversation_row) : option (list Conversation) :=
  match rows with
  | [] => Some []
  | row :: rest =>
      match to_conversation row, to_conversations rest with
      | Some c, Some cs => Some (c :: cs)
      | _, _ => None
      end
  end.

Definition getConversations (userName : string) : M (list Conversation) :=
  try_catch
    (results <- run (Sql.select_conversations_like (participant_pattern userName)) ;;
     match to_conversations results with
     | Some cs => ret cs
     | None => throw (JsError "SyntaxError")
     end)
    (fun _ => ret []).

Definition getConversation (conversationId : string) : M (option Conversation) :=
  try_catch
    (result <- run (Sql.select_conversation conversationId) ;;
     match result with
     | None => ret None
     | Some row =>
         match to_conversation row with
         | Some c => ret (Some c)
         | None => throw (JsError "SyntaxError")
         end
     end)
    (fun _ => ret None).

Definition createConversation (conversation : Conversation) : M unit :=
  try_catch (run (Sql.insert_conversation conversation)) (fun err => throw err).

Definition deleteConversation (conversationId : string) : M unit :=
  try_catch
    (batch [ Sql.delete_messages_of_conversation conversationId;
             Sql.delete_conversation conversationId ])
    (fun err => throw err).

Definition getFriends (userName : string) : M (list Friend) :=
  try_catch
    (results <- run (Sql.select_friends userName) ;;
     ret (map (fun row =>
                 let friendUsername :=
                   if String.eqb (fr_user1 row) userName then fr_user2 row
                   else fr_user1 row in
                 {| friend_id := friendUsername; friend_username := friendUsername;
                    friend_status := "offline"; friend_added_at := fr_added_at row |})
              results))
    (fun _ => ret []).

Definition addFriend (userName : string) (friend : Friend) : M unit :=
  try_catch
    (let (user1, user2) := sort2 userName (friend_username friend) in
     run (Sql.replace_friend user1 user2 (friend_added_at friend)))
    (fun err => throw err).

Definition removeFriend (userName friendId : string) : M unit :=
  try_catch
    (let (user1, user2) := sort2 userName friendId in
     run (Sql.delete_friend user1 user2))
    (fun err => throw err).

Definition getFriendRequests (userName : string) : M (list friend_request_row) :=
  try_catch (run (Sql.select_friend_requests userName)) (fun _ => ret []).

Definition createFriendRequest (request : friend_request_row) : M unit :=
  try_catch (run (Sql.insert_friend_request request)) (fun err => throw err).

Definition searchUsers (query : string) : M (list Friend) :=
  try_catch
    (results <- run (Sql.search_usernames ("%" ++ query ++ "%")) ;;
     ret (map (fun name =>
                 {| friend_id := name; friend_username := name;
                    friend_status := "offline"; friend_added_at := 0%Z |})
              results))
    (fun _ => ret []).

Definition deleteUser (userName : string) : M unit :=
  try_catch
    (batch [ Sql.delete_user userName;
             Sql.delete_play_records userName;
             Sql.delete_favorites userName;
             Sql.delete_search_history userName;
             Sql.delete_skip_configs userName;
             Sql.delete_danmus userName;
             Sql.delete_machine_code userName;
             Sql.delete_conversations_like (participant_pattern userName);
             Sql.delete_messages_of_sender userName;
             Sql.delete_friends_of userName;
             Sql.delete_friend_requests_of userName ])
    (fun err => throw err).

(** *** The other methods of the class *)

Definition SEARCH_HISTORY_LIMIT : Z := 20.

Definition to_play_record (row : play_record_row) : PlayRecord :=
  {| rec_title := pr_title row; rec_source_name := pr_source_name row;
     rec_cover := pr_cover row; rec_year := pr_year row;
     rec_index := pr_index_episode row; rec_total_episodes := pr_total_episodes row;
     rec_play_time := pr_play_time row; rec_total_time := pr_total_time row;
     rec_save_time := pr_save_time row;
     rec_search_title := or_absent (pr_search_title row) |}.

Definition getPlayRecord (userName key : string) : M (option PlayRecord) :=
  try_catch
    (result <- run (Sql.select_play_record userName key) ;;
     match result with
     | None => ret None
     | Some row => ret (Some (to_play_record row))
     end)
    (fun err => throw err).

Definition setPlayRecord (userName key : string) (record : PlayRecord) : M unit :=
  try_catch
    (run (Sql.replace_play_record userName key (rec_title record) (rec_source_name record)
            (rec_cover record) (rec_year record) (rec_index record)
            (rec_total_episodes record) (rec_play_time record) (rec_total_time record)
            (rec_save_time record) (or_absent (rec_search_title record))))
    (fun err => throw err).

Definition getAllPlayRecords (userName : string) : M (list (string * PlayRecord)) :=
  try_catch
    (result <- run (Sql.select_play_records userName) ;;
     ret (fold_left (fun records row => assign (pr_key row) (to_play_record row) records)
            result []))
    (fun err => throw err).

Definition deletePlayRecord (userName key : string) : M unit :=
  try_catch (run (Sql.delete_play_record userName key)) (fun err => throw err).

(** The favorites table has no [search_title] column: the field of a row read
    back is [undefined]. *)
Definition to_favorite (row : favorite_row) : Favorite :=
  {| fv_title := fav_title row; fv_source_name := fav_source_name row;
     fv_cover := fav_cover row; fv_year := fav_year row;
     fv_total_episodes := fav_total_episodes row; fv_save_time := fav_save_time row;
     fv_search_title := None |}.

Definition getFavorite (userName key : string) : M (option Favorite) :=
  try_catch
    (result <- run (Sql.select_favorite userName key) ;;
     match result with
     | None => ret None
     | Some row => ret (Some (to_favorite row))
     end)
    (fun err => throw err).

Definition setFavorite (userName key : string) (favorite : Favorite) : M unit :=
  try_catch
    (run (Sql.replace_favorite userName key (fv_title favorite) (fv_source_name favorite)
            (fv_cover favorite) (fv_year favorite) (fv_total_episodes favorite)
            (fv_save_time favorite)))
    (fun err => throw err).

Definition getAllFavorites (userName : string) : M (list (string * Favorite)) :=
  try_catch
    (result <- run (Sql.select_favorites userName) ;;
     ret (fold_left (fun favorites row => assign (fav_key row) (to_favorite row) favorites)
            result []))
    (fun err => throw err).

Definition deleteFavorite (userName key : string) : M unit :=
  try_catch (run (Sql.delete_favorite userName key)) (fun err => throw err).

Definition changePassword (userName newPassword : string) : M unit :=
  try_catch (run (Sql.update_password newPassword userName)) (fun err => throw err).

Definition getSearchHistory (userName : string) : M (list string) :=
  try_catch (run (Sql.select_keywords userName SEARCH_HISTORY_LIMIT)) (fun err => throw err).

(** Three statements, each in a round trip of its own. *)
Definition addSearchHistory (userName keyword : string) : M unit :=
  try_catch
    (run (Sql.delete_keyword userName keyword) ;;;
     run (Sql.insert_keyword userName keyword) ;;;
     run (Sql.trim_search_history userName SEARCH_HISTORY_LIMIT))
    (fun err => throw err).

Definition deleteSearchHistory (userName : string) (keyword : option string) : M unit :=
  try_catch
    (match or_absent keyword with
     | Some k => run (Sql.delete_keyword userName k)
     | None => run (Sql.delete_search_history userName)
     end)
    (fun err => throw err).

Definition getAllUsers : M (list string) :=
  try_catch (run Sql.select_usernames) (fun err => throw err).

(** [Boolean(row.enable)] *)
Definition to_skip_config (row : skip_config_row) : SkipConfig :=
  {| skip_enable := negb (sk_enable row =? 0)%Z;
     skip_intro_time := sk_intro_time row;
     skip_outro_time := sk_outro_time row |}.

Definition getSkipConfig (userName source id : string) : M (option SkipConfig) :=
  try_catch
    (result <- run (Sql.select_skip_config userName source id) ;;
     match result with
     | None => ret None
     | Some row => ret (Some (to_skip_config row))
     end)
    (fun err => throw err).

Definition setSkipConfig (userName source id : string) (config : SkipConfig) : M unit :=
  try_catch
    (run (Sql.replace_skip_config userName source id
            (if skip_enable config then 1%Z else 0%Z)
            (skip_intro_time config) (skip_outro_time config)))
    (fun err => throw err).

Definition deleteSkipConfig (userName source id : string) : M unit :=
  try_catch (run (Sql.delete_skip_config userName source id)) (fun err => throw err).

Definition getAllSkipConfigs (userName : string) : M (list (string * SkipConfig)) :=
  try_catch
    (result <- run (Sql.select_skip_configs userName) ;;
     ret (fold_left
            (fun configs row =>
               assign (sk_source row ++ "+" ++ sk_id_video row) (to_skip_config row) configs)
            result []))
    (fun err => throw err).

Definition setUserAvatar (userName avatarData : string) : M unit :=
  try_catch (run (Sql.update_avatar avatarData userName)) (fun err => throw err).

Definition deleteUserAvatar (userName : string) : M unit :=
  try_catch (run (Sql.clear_avatar userName)) (fun err => throw err).

Definition getDanmu (videoId : string) : M (list danmu_row) :=
  try_catch (run (Sql.select_danmus videoId)) (fun err => throw err).

(** [random] is what [Math.random().toString(36).substr(2, 9)] gives in the
    call. *)
Definition saveDanmu (videoId userName : string) (danmu : Danmu) (random : string) : M unit :=
  try_catch
    (now <- Date_now ;;
     let danmuId := (decimal now ++ "-" ++ random)%string in
     run (Sql.insert_danmu
            {| dm_id := danmuId; dm_video_id := videoId; dm_username := userName;
               dm_text := danmu_text danmu; dm_color := danmu_color danmu;
               dm_mode := danmu_mode danmu; dm_time := danmu_time danmu;
               dm_timestamp := danmu_timestamp danmu |}))
    (fun err => throw err).

Definition deleteDanmu (videoId danmuId : string) : M unit :=
  try_catch (run (Sql.delete_danmu danmuId videoId)) (fun err => throw err).

Definition getMachineCodeUsers : M (list (string * BoundDevice)) :=
  try_catch
    (results <- run Sql.select_bindings ;;
     ret (fold_left
            (fun machineCodeUsers row =>
               assign (mc_username row)
                 {| bd_machineCode := mc_machine_code row;
                    bd_deviceInfo := mc_device_info row;
                    bd_bindTime := mc_bind_time row |}
                 machineCodeUsers)
            results []))
    (fun _ => ret []).

Definition markMessageAsRead (messageId : string) : M unit :=
  try_catch (run (Sql.mark_read messageId)) (fun err => throw err).

Definition updateConversation (conversationId : string) (updates : ConversationUpdates)
    : M unit :=
  try_catch
    (current <- getConversation conversationId ;;
     match current with
     | None => ret tt
     | Some c =>
         let updated := spread c updates in
         run (Sql.update_conversation (conv_name updated)
                (JSON_stringify_array (conv_participants updated)) (conv_type updated)
                (conv_created_at updated) (conv_updated_at updated) conversationId)
     end)
    (fun err => throw err).

(** The method only logs a warning. *)
Definition updateFriendStatus (friendId status : string) : M unit := ret tt.

Definition updateFriendRequest (requestId status : string) : M unit :=
  try_catch
    (now <- Date_now ;;
     run (Sql.update_friend_request status now requestId))
    (fun err => throw err).

Definition deleteFriendRequest (requestId : string) : M unit :=
  try_catch (run (Sql.delete_friend_request requestId)) (fun err => throw err).

Definition clearAllData : M unit :=
  try_catch
    (batch [ Sql.delete_all_users;
             Sql.delete_all_play_records;
             Sql.delete_all_favorites;
             Sql.delete_all_search_history;
             Sql.delete_all_skip_configs ])
    (fun err => throw err).


End D1Storage.

(** ** SHA-256 and HMAC (FIPS 180-4, RFC 2104)

    [crypto.subtle] is a service of the platform.  The algorithm the source
    asks of it, [{ name: 'HMAC', hash: 'SHA-256' }], is written out so that the
    credential can be computed.  A byte is a [Z] below 256, a word a [Z] below
    [2^32]. *)

Module SHA256.

Local Open Scope Z_scope.

Definition word (x : Z) : Z := x mod 2 ^ 32.
Definition plus (x y : Z) : Z := word (x + y).
Definition rotr (n x : Z) : Z := Z.lor (Z.shiftr x n) (word (Z.shiftl x (32 - n))).
Definition complement (x : Z) : Z := Z.lxor x (2 ^ 32 - 1).

Definition Ch (x y z : Z) : Z := Z.lxor (Z.land x y) (Z.land (complement x) z).
Definition Maj (x y z : Z) : Z :=
  Z.lxor (Z.lxor (Z.land x y) (Z.land x z)) (Z.land y z).
Definition Sum0 (x : Z) : Z := Z.lxor (Z.lxor (rotr 2 x) (rotr 13 x)) (rotr 22 x).
Definition Sum1 (x : Z) : Z := Z.lxor (Z.lxor (rotr 6 x) (rotr 11 x)) (rotr 25 x).
Definition sig0 (x : Z) : Z := Z.lxor (Z.lxor (rotr 7 x) (rotr 18 x)) (Z.shiftr x 3).
Definition sig1 (x : Z) : Z := Z.lxor (Z.lxor (rotr 17 x) (rotr 19 x)) (Z.shiftr x 10).

(** The constants are fractional parts of roots of the first primes: the
    round constants come from cube roots, the initial state from square roots. *)

Definition is_prime (p : Z) : bool :=
  (2 <=? p) && forallb (fun d => negb (p mod (Z.of_nat d) =? 0)) (seq 2 (Z.to_nat p - 2)).

Definition primes : list Z := filter is_prime (map Z.of_nat (seq 2 310)).

(** The largest [r] in [lo, hi) whose cube is at most [n]. *)
Fixpoint cube_root (fuel : nat) (lo hi n : Z) : Z :=
  match fuel with
  | O => lo
  | S fuel' =>
      if hi - lo <=? 1 then lo
      else
        let mid := (lo + hi) / 2 in
        if mid * mid * mid <=? n then cube_root fuel' mid hi n
        else cube_root fuel' lo mid n
  end.

Definition K : list Z :=
  Eval vm_compute in map (fun p => word (cube_root 64 0 (2 ^ 36) (p * 2 ^ 96))) primes.

Definition H0 : list Z :=
  Eval vm_compute in map (fun p => word (Z.sqrt (p * 2 ^ 64))) (firstn 8 primes).

(** Big-endian bytes of a number. *)
Fixpoint be_bytes (n : nat) (x : Z) : list Z :=
  match n with
  | O => []
  | S n' => (Z.shiftr x (8 * Z.of_nat n')) mod 256 :: be_bytes n' x
  end.

Definition pad (msg : list Z) : list Z :=
  let len := Z.of_nat (List.length msg) in
  msg ++ [128] ++ repeat 0 (Z.to_nat ((55 - len) mod 64)) ++ be_bytes 8 (8 * len).

Fixpoint words (fuel : nat) (bytes : list Z) : list Z :=
  match fuel, bytes with
  | S fuel', a :: b :: c :: d :: rest =>
      (((a * 256 + b) * 256 + c) * 256 + d) :: words fuel' rest
  | _, _ => []
  end.

Fixpoint blocks (fuel : nat) (ws : list Z) : list (list Z) :=
  match fuel, ws with
  | S fuel', _ :: _ => firstn 16 ws :: blocks fuel' (skipn 16 ws)
  | _, _ => []
  end.

(** The message schedule, latest word first. *)
Fixpoint extend (n : nat) (recent : list Z) : list Z :=
  match n with
  | O => recent
  | S n' =>
      let w := plus (plus (sig1 (nth 1 recent 0)) (nth 6 recent 0))
                    (plus (sig0 (nth 14 recent 0)) (nth 15 recent 0)) in
      extend n' (w :: recent)
  end.

Definition schedule (block : list Z) : list Z := rev (extend 48 (rev block)).

Definition round (s : list Z) (kw : Z * Z) : list Z :=
  match s with
  | [a; b; c; d; e; f; g; h] =>
      let t1 := plus (plus (plus h (Sum1 e)) (plus (Ch e f g) (fst kw))) (snd kw) in
      let t2 := plus (Sum0 a) (Maj a b c) in
      [plus t1 t2; a; b; c; plus d t1; e; f; g]
  | _ => s
  end.

Fixpoint plus_all (xs ys : list Z) : list Z :=
  match xs, ys with
  | x :: xs', y :: ys' => plus x y :: plus_all xs' ys'
  | _, _ => []
  end.

Definition compress (state : list Z) (block : list Z) : list Z :=
  plus_all state (fold_left round (combine K (schedule block)) state).

Definition digest (msg : list Z) : list Z :=
  let padded := pad msg in
  let ws := words (List.length padded) padded in
  flat_map (be_bytes 4) (fold_left compress (blocks (List.length ws) ws) H0).

End SHA256.

Definition xor_with (x : Z) (key : list Z) : list Z := map (Z.lxor x) key.

(** HMAC with SHA-256: the key is hashed when longer than a block, then
    filled with zeros to the 64 bytes of a block. *)
Definition hmac_sha256 (key msg : list Z) : list Z :=
  let k := if 64 <? List.length key then SHA256.digest key else key in
  let k' := k ++ repeat 0%Z (64 - List.length k) in
  SHA256.digest (xor_with 92 k' ++ SHA256.digest (xor_with 54 k' ++ msg)).

(** [TextEncoder.encode]: the bytes of the text. *)
Definition encode (s : string) : list Z := map (fun c => Z.of_nat (code c)) (chars s).

(** [b.toString(16).padStart(2, '0')], joined. *)
Definition hex (bytes : list Z) : string :=
  text (flat_map (fun b => [hex_digit (Z.to_nat (b / 16)); hex_digit (Z.to_nat (b mod 16))]) bytes).

(** ** The session credential *)

Inductive json :=
| JString (s : string)
| JNumber (z : Z)
| JBool (b : bool)
| JNull.

Definition json_value (v : json) : list ascii :=
  match v with
  | JString s => json_quote (chars s)
  | JNumber z => chars (NilZero.string_of_int (Z.to_int z))
  | JBool true => chars "true"
  | JBool false => chars "false"
  | JNull => chars "null"
  end.

Fixpoint json_members (o : list (string * json)) : list ascii :=
  match o with
  | [] => []
  | [(k, v)] => json_quote (chars k) ++ ":"%char :: json_value v
  | (k, v) :: o' => json_quote (chars k) ++ ":"%char :: json_value v ++ ","%char :: json_members o'
  end.

(** [JSON.stringify] of an object, its keys in insertion order. *)
Definition JSON_stringify (o : list (string * json)) : string :=
  text ("{"%char :: json_members o ++ ["}"%char]).

Definition in_range (lo hi : nat) (c : ascii) : bool := (lo <=? code c) && (code c <=? hi).

(** The characters [encodeURIComponent] leaves as they are. *)
Definition unreserved (c : ascii) : bool :=
  in_range 65 90 c || in_range 97 122 c || in_range 48 57 c
  || existsb (Ascii.eqb c) (chars "-_.!~*'()").

Definition upper_hex_digit (n : nat) : ascii :=
  if n <? 10 then ascii_of_nat (48 + n) else ascii_of_nat (55 + n).

Definition percent_encode (c : ascii) : list ascii :=
  if unreserved c then [c]
  else ["%"%char; upper_hex_digit (code c / 16); upper_hex_digit (code c mod 16)].

Definition encodeURIComponent (s : string) : string :=
  text (flat_map percent_encode (chars s)).

(** The deployment: [process.env], the configuration collaborator and the
    platform.  [getConfig] is the result of the call of that name, given as
    the list [UserConfig.Users] or as the error it throws; an entry has the
    fields the route reads.  [toUpperCase] is [String.prototype.toUpperCase],
    the case mapping of Unicode as the platform has it: the route is modelled
    for whatever that mapping is.  On texts of ASCII characters it is
    [upper_ascii]. *)
Record user_config := {
  uc_username : string;
  uc_role : option string;
  uc_banned : bool }.

Record environment := {
  USERNAME : option string;
  PASSWORD : option string;
  NEXT_PUBLIC_STORAGE_TYPE : option string;
  getConfig : outcome (list user_config);
  toUpperCase : string -> string }.

Definition STORAGE_TYPE (env : environment) : string :=
  match NEXT_PUBLIC_STORAGE_TYPE env with
  | Some s => if truthy s then s else "localstorage"
  | None => "localstorage"
  end.

Definition or_default (o : option string) (default : string) : string :=
  match o with
  | Some s => if truthy s then s else default
  | None => default
  end.

(** [importKey] refuses a key of no bytes; otherwise the signature is the
    HMAC of the data under the secret, in lower-case hexadecimal. *)
Definition generateSignature (data secret : string) : M string :=
  if truthy secret then ret (hex (hmac_sha256 (encode secret) (encode data)))
  else throw (JsError "DataError").

(** The object [authData] as [generateAuthCookie] fills it. *)
Definition authData (env : environment) (username password role : option string)
    (includePassword : bool) : M (list (string * json)) :=
  let base := [("role", JString (or_default role "user"))] in
  let withPassword :=
    match password with
    | Some p => if includePassword && truthy p then base ++ [("password", JString p)] else base
    | None => base
    end in
  match username, PASSWORD env with
  | Some u, Some secret =>
      if truthy u && truthy secret then
        signature <- generateSignature u secret ;;
        now <- Date_now ;;
        ret (withPassword ++
             [("username", JString u); ("signature", JString signature);
              ("timestamp", JNumber now)])
      else ret withPassword
  | _, _ => ret withPassword
  end.

Definition generateAuthCookie (env : environment) (username password role : option string)
    (includePassword : bool) : M string :=
  data <- authData env username password role includePassword ;;
  ret (encodeURIComponent (JSON_stringify data)).

(** ** The login route *)

Record credentials := {
  username : option string;      (* [None]: absent or not a string *)
  password : option string;      (* [None]: absent or not a string *)
  machineCode : option string }. (* [None]: absent; a code is a string *)

Record cookie := {
  cookie_name : string;
  cookie_value : string;
  cookie_path : string;
  cookie_expires : Z;            (* milliseconds since the epoch *)
  cookie_sameSite : string;
  cookie_httpOnly : bool;
  cookie_secure : bool }.

Record response := {
  body : list (string * json);
  status : nat;
  cookies : list cookie }.

Definition json_response (b : list (string * json)) (s : nat) : response :=
  {| body := b; status := s; cookies := [] |}.

Definition set_cookie (value : string) (expires : Z) (r : response) : response :=
  {| body := body r; status := status r;
     cookies := cookies r ++
       [{| cookie_name := "auth"; cookie_value := value; cookie_path := "/";
           cookie_expires := expires; cookie_sameSite := "lax";
           cookie_httpOnly := false; cookie_secure := false |}] |}.

Definition seven_days : Z := 7 * 24 * 60 * 60 * 1000.

(** The tail common to the three successful logins: sign, then set the cookie
    for seven days. *)
Definition with_auth_cookie (env : environment) (r : response)
    (user pass role : option string) (includePassword : bool) : M response :=
  cookieValue <- generateAuthCookie env user pass role includePassword ;;
  now <- Date_now ;;
  ret (set_cookie cookieValue (now + seven_days)%Z r).

Definition invalid_credentials : response :=
  json_response [("error", JString "用户名或密码错误")] 401.

Definition banned_response : response :=
  json_response [("error", JString "用户被封禁")] 401.

Definition code_required : response :=
  json_response
    [("error", JString "该账户已绑定设备，请提供机器码"); ("requireMachineCode", JBool true)] 403.

Definition code_mismatch : response :=
  json_response
    [("error", JString "机器码不匹配，此账户只能在绑定的设备上使用");
     ("machineCodeMismatch", JBool true)] 403.

Definition code_taken (codeOwner : string) : response :=
  json_response
    [("error", JString ("该机器码已被用户 " ++ codeOwner ++ " 绑定"));
     ("machineCodeTaken", JBool true)] 409.

Definition login_ok (bound : bool) (name : string) : response :=
  json_response
    [("ok", JBool true); ("machineCodeBound", JBool bound); ("username", JString name)] 200.

(** The body of the inner [try] of the route: the password of an ordinary
    account, then its device binding.  [user] is the entry of the account in
    the configuration, if it has one. *)
Definition checkPasswordAndBinding (env : environment) (name pass : string)
    (code : option string) (user : option user_config) : M response :=
  pass_ok <- D1Storage.verifyUser name pass ;;
  if negb pass_ok then ret invalid_credentials
  else
    boundMachineCode <- D1Storage.getUserMachineCode name ;;
    let proceed :=
      with_auth_cookie env (login_ok (truthy_opt boundMachineCode) name)
        (Some name) (Some pass)
        (Some (or_default (match user with Some u => uc_role u | None => None end) "user"))
        false in
    if truthy_opt boundMachineCode then
      if negb (truthy_opt code) then ret code_required
      else if negb (String.eqb (toUpperCase env (or_default code ""))
                               (toUpperCase env (or_default boundMachineCode "")))
      then ret code_mismatch
      else proceed
    else if truthy_opt code then
      codeOwner <- D1Storage.isMachineCodeBound (or_default code "") ;;
      if truthy_opt codeOwner && negb (String.eqb (or_default codeOwner "") name)
      then ret (code_taken (or_default codeOwner ""))
      else proceed
    else proceed.

Definition is_owner (env : environment) (name : string) : bool :=
  match USERNAME env with Some o => String.eqb name o | None => false end.

Definition is_owner_password (env : environment) (pass : string) : bool :=
  match PASSWORD env with Some p => String.eqb pass p | None => false end.

Definition config_user (users : list user_config) (name : string) : option user_config :=
  find (fun u => String.eqb (uc_username u) name) users.

Definition is_banned (user : option user_config) : bool :=
  match user with Some u => uc_banned u | None => false end.

(** [req] is the parsed body, [None] when [req.json()] throws.  [db] is the
    storage manager of the deployment; with the D1 backend its methods are
    those of [D1Storage]. *)
Definition POST (env : environment) (req : option credentials) : M response :=
  try_catch
    (if String.eqb (STORAGE_TYPE env) "localstorage" then
       if negb (truthy_opt (PASSWORD env)) then
         ret (set_cookie "" 0%Z (json_response [("ok", JBool true)] 200))
       else
         match req with
         | None => throw (JsError "SyntaxError")
         | Some r =>
             match password r with
             | None => ret (json_response [("error", JString "密码不能为空")] 400)
             | Some p =>
                 if negb (String.eqb p (or_default (PASSWORD env) "")) then
                   ret (json_response
                          [("ok", JBool false); ("error", JString "密码错误")] 401)
                 else
                   with_auth_cookie env (json_response [("ok", JBool true)] 200)
                     None (Some p) (Some "user") true
             end
         end
     else
       match req with
       | None => throw (JsError "SyntaxError")
       | Some r =>
           if negb (truthy_opt (username r)) then
             ret (json_response [("error", JString "用户名不能为空")] 400)
           else if negb (truthy_opt (password r)) then
             ret (json_response [("error", JString "密码不能为空")] 400)
           else
             let name := or_default (username r) "" in
             let pass := or_default (password r) "" in
             if is_owner env name && is_owner_password env pass then
               try_catch
                 (ownerExists <- D1Storage.checkUserExist name ;;
                  if negb ownerExists then D1Storage.registerUser name pass else ret tt)
                 (fun _ => ret tt) ;;;
               with_auth_cookie env (json_response [("ok", JBool true)] 200)
                 (Some name) (Some pass) (Some "owner") false
             else if is_owner env name then ret invalid_credentials
             else
               match getConfig env with
               | Thrown e => throw e
               | Returned configUsers =>
                   let user := config_user configUsers name in
                   if is_banned user then ret banned_response
                   else
                     try_catch
                       (checkPasswordAndBinding env name pass (machineCode r) user)
                       (fun _ => ret (json_response [("error", JString "数据库错误")] 500))
               end
       end)
    (fun _ => ret (json_response [("error", JString "服务器错误")] 500)).

(** ** The avatar route *)

(** What the helper that reads the cookie gives the routes that write: the
    handle and the role of the caller. *)
Record auth_info := {
  auth_username : option string;
  auth_role : option string }.

(** The body of an upload, read at its two fields, each a string or absent. *)
Record upload := {
  upload_avatar : option string;
  upload_targetUser : option string }.

Module Avatar.

(** [GET] of the avatar route.  [authInfo] is what the cookie of the request
    is read as by a helper that is not among the sources at hand: the handle
    of the caller, if there is one; [user] is the parameter of that name in
    the query string. *)
Definition GET (authInfo : option string) (user : option string) : M response :=
  try_catch
    (if negb (truthy_opt authInfo) then
       ret (json_response [("error", JString "Unauthorized")] 401)
     else
       let targetUser := if truthy_opt user then or_default user "" else or_default authInfo "" in
       avatar <- D1Storage.getUserAvatar targetUser ;;
       if negb (truthy_opt avatar) then ret (json_response [("avatar", JNull)] 200)
       else ret (json_response [("avatar", JString (or_default avatar ""))] 200))
    (fun _ => ret (json_response [("error", JString "获取头像失败")] 500)).

Fixpoint after_comma (l : list ascii) : option (list ascii) :=
  match l with
  | [] => None
  | c :: l' => if Ascii.eqb c ","%char then Some l' else after_comma l'
  end.

Fixpoint until_comma (l : list ascii) : list ascii :=
  match l with
  | [] => []
  | c :: l' => if Ascii.eqb c ","%char then [] else c :: until_comma l'
  end.

(** [avatar.split(',')[1]] *)
Definition second_piece (avatar : string) : option string :=
  option_map (fun l => text (until_comma l)) (after_comma (chars avatar)).

Definition privileged (info : auth_info) : bool :=
  match auth_role info with
  | Some role => String.eqb role "admin" || String.eqb role "owner"
  | None => false
  end.

Definition unauthorized : response :=
  json_response [("error", JString "Unauthorized")] 401.

Definition permission_denied : response :=
  json_response [("error", JString "Permission denied")] 403.

Definition bad_request (message : string) : response :=
  json_response [("error", JString message)] 400.

Definition two_megabytes : Z := 2 * 1024 * 1024.

(** [POST] of the avatar route.  [body] is [None] when [request.json()]
    throws or gives [null]; [URL_parses] tells whether [new URL] accepts a
    text, which is a matter of the platform. *)
Definition POST (URL_parses : string -> bool) (authInfo : option auth_info)
    (body : option upload) : M response :=
  try_catch
    (match authInfo with
     | None => ret unauthorized
     | Some info =>
         match or_absent (auth_username info) with
         | None => ret unauthorized
         | Some caller =>
             match body with
             | None => throw (JsError "TypeError")
             | Some b =>
                 match or_absent (upload_avatar b) with
                 | None => ret (bad_request "头像数据不能为空且必须为字符串")
                 | Some avatar =>
                     let userToUpdate :=
                       match or_absent (upload_targetUser b) with
                       | Some target => target
                       | None => caller
                       end in
                     let canUpdate := String.eqb userToUpdate caller || privileged info in
                     if negb canUpdate then ret permission_denied
                     else
                       let save :=
                         D1Storage.setUserAvatar userToUpdate avatar ;;;
                         ret (json_response
                                [("success", JBool true); ("message", JString "头像更新成功")] 200) in
                       let isBase64 := String.prefix "data:image/" avatar in
                       let isUrl :=
                         String.prefix "http://" avatar || String.prefix "https://" avatar in
                       if isBase64 then
                         match or_absent (second_piece avatar) with
                         | None => ret (bad_request "无效的 Base64 图片格式")
                         | Some base64Data =>
                             (* sizeInBytes = length * 3 / 4, compared with 2 MB *)
                             if (4 * two_megabytes <? Z.of_nat (String.length base64Data) * 3)%Z
                             then ret (bad_request "图片大小不能超过2MB")
                             else save
                         end
                       else if isUrl then
                         if URL_parses avatar then save
                         else ret (bad_request "无效的图片 URL 格式")
                       else ret (bad_request "无效的头像数据格式，请提供 Base64 或有效的 URL")
                 end
             end
         end
     end)
    (fun _ => ret (json_response [("error", JString "上传头像失败")] 500)).

(** [DELETE] of the avatar route; [user] is the parameter of that name in the
    query string. *)
Definition DELETE (authInfo : option auth_info) (user : option string) : M response :=
  try_catch
    (match authInfo with
     | None => ret unauthorized
     | Some info =>
         match or_absent (auth_username info) with
         | None => ret unauthorized
         | Some caller =>
             let targetUser :=
               match or_absent user with
               | Some target => target
               | None => caller
               end in
             let canDelete := String.eqb targetUser caller || privileged info in
             if negb canDelete then ret permission_denied
             else
               D1Storage.deleteUserAvatar targetUser ;;;
               ret (json_response
                      [("success", JBool true); ("message", JString "头像删除成功")] 200)
         end
     end)
    (fun _ => ret (json_response [("error", JString "删除头像失败")] 500)).


End Avatar.

(** ** The route of the public configuration *)

Module PublicConfig.

(** The configuration of the administrator, at the one path the route reads:
    [config?.SiteConfig?.EnableChat], each step of which may be absent. *)
Record SiteConfig := { EnableChat : option bool }.

Record AdminConfig := { SiteConfig_of : option SiteConfig }.

(** [GET] of the route.  [getAdminConfig] is the call of that name on the
    storage manager, [null] when no configuration is stored. *)
Definition GET (getAdminConfig : M (option AdminConfig)) : M response :=
  try_catch
    (config <- getAdminConfig ;;
     let enableChat :=
       match config with
       | Some c =>
           match SiteConfig_of c with
           | Some site => match EnableChat site with Some b => b | None => true end
           | None => true
           end
       | None => true
       end in
     ret (json_response [("EnableChat", JBool enableChat)] 200))
    (fun _ => ret (json_response [("EnableChat", JBool true)] 200)).

End PublicConfig.

(** * The vocabulary of the properties *)

Unset Implicit Arguments.

(** ** Conversations: [deleteConversation] *)

Definition of_conversation (conversationId : string) (r : message_row) : bool :=
  String.eqb (msg_conversation_id r) conversationId.

Definition is_conversation (conversationId : string) (r : conversation_row) : bool :=
  String.eqb (cv_id r) conversationId.

(** ** Friend edges: [addFriend] *)

(** Every stored edge has its smaller handle first. *)
Definition canonical (d : database) : Prop :=
  forall r, In r (friends d) -> js_leb (fr_user1 r) (fr_user2 r) = true.

(** The rows that stand for the unordered pair of [a] and [b]. *)
Definition links (a b : string) (r : friend_row) : bool :=
  Sql.same_edge a b r || Sql.same_edge b a r.

Definition edges_between (a b : string) (d : database) : list friend_row :=
  filter (links a b) (friends d).

Definition edge (a b : string) (added_at : Z) : friend_row :=
  {| fr_user1 := a; fr_user2 := b; fr_status := "accepted"; fr_added_at := added_at |}.

(** ** Worlds used by the examples *)

Definition account (name pass : string) : user_row :=
  {| u_username := name; u_password := pass; u_avatar_base64 := None; u_created_at := 0%Z |}.

Definition binding (name machine_code : string) : machine_code_row :=
  {| mc_username := name; mc_machine_code := machine_code;
     mc_device_info := Some ""; mc_bind_time := 0%Z |}.

Definition friend_named (name : string) (added_at : Z) : Friend :=
  {| friend_id := name; friend_username := name; friend_status := "offline";
     friend_added_at := added_at |}.

(** A world over the store [d] with an engine that enforces the references of
    the schema and a collaborator that answers. *)
Definition world_of (d : database) : world :=
  {| store := d; foreign_keys := true; faults := []; clock := 1700000000000%Z |}.

Definition alice_and_bob : database :=
  set_users [account "alice" "pw1"; account "bob" "pw2"] empty_database.

(** ** Device bindings: [setUserMachineCode] *)

(** A handle has at most one code and a code at most one handle. *)
Definition bindings_unique (d : database) : Prop :=
  NoDup (map mc_username (machine_codes d)) /\
  NoDup (map mc_machine_code (machine_codes d)).

Definition collides (userName machineCode : string) (r : machine_code_row) : bool :=
  String.eqb (mc_username r) userName || String.eqb (mc_machine_code r) machineCode.

Definition new_binding (userName machineCode : string) (deviceInfo : option string)
    (now : Z) : machine_code_row :=
  {| mc_username := userName; mc_machine_code := machineCode;
     mc_device_info := Some (or_default deviceInfo ""); mc_bind_time := now |}.

Definition bob_bound : database :=
  set_machine_codes [binding "bob" "C1"] alice_and_bob.

(** ** Best-effort reads *)

Definition failing (w : world) : world := set_faults [true] w.

(** ** The participants pattern *)

(** A handle that [JSON.stringify] writes as it is: no control character, no
    double quote, no backslash. *)
Definition plain_char (c : ascii) : bool :=
  (32 <=? code c) && negb (Ascii.eqb c dquote) && negb (Ascii.eqb c backslash).

Definition json_plain (s : string) : bool := forallb plain_char (chars s).

(** ** Account purge: [deleteUser] *)

(** No row of the store names the handle: the account, its records, its
    binding, the conversations its pattern matches, the messages sent under
    its name, its friend edges and its friend requests are absent. *)
Record purged (h : string) (d : database) : Prop := {
  purged_account : forall r, In r (users d) -> u_username r <> h;
  purged_play_records : forall r, In r (play_records d) -> pr_username r <> h;
  purged_favorites : forall r, In r (favorites d) -> fav_username r <> h;
  purged_search_history : forall r, In r (search_history d) -> sh_username r <> h;
  purged_skip_configs : forall r, In r (skip_configs d) -> sk_username r <> h;
  purged_danmus : forall r, In r (danmus d) -> dm_username r <> h;
  purged_binding : forall r, In r (machine_codes d) -> mc_username r <> h;
  purged_conversations :
    forall r, In r (conversations d) ->
              LIKE (cv_participants r) (participant_pattern h) = false;
  purged_messages : forall r, In r (messages d) -> msg_sender_name r <> h;
  purged_friends :
    forall r, In r (friends d) -> fr_user1 r <> h /\ fr_user2 r <> h;
  purged_friend_requests :
    forall r, In r (friend_requests d) -> rq_from_user r <> h /\ rq_to_user r <> h }.

(** The store the batch of [deleteUser] leaves.  Where the engine enforces
    the references of the schema, the deletion of the account and of the
    conversations cascades first. *)
Definition purge (h : string) (w : world) : database :=
  let d := store w in
  let gone_users := map u_username (filter (Sql.name_is h) (users d)) in
  let gone_conversations :=
    map cv_id (filter (fun r => LIKE (cv_participants r) (participant_pattern h))
                 (conversations d)) in
  let cascaded (A : Type) (p : A -> bool) (l : list A) :=
    if foreign_keys w then delete_where p l else l in
  {| users := delete_where (Sql.name_is h) (users d);
     play_records := delete_where (fun r => String.eqb (pr_username r) h) (play_records d);
     favorites := delete_where (fun r => String.eqb (fav_username r) h) (favorites d);
     search_history := delete_where (fun r => String.eqb (sh_username r) h) (search_history d);
     skip_configs := delete_where (fun r => String.eqb (sk_username r) h) (skip_configs d);
     danmus := delete_where (fun r => String.eqb (dm_username r) h) (danmus d);
     machine_codes :=
       delete_where (fun r => String.eqb (mc_username r) h)
         (cascaded _ (fun r => mem (mc_username r) gone_users) (machine_codes d));
     conversations :=
       delete_where (fun r => LIKE (cv_participants r) (participant_pattern h))
         (conversations d);
     messages :=
       delete_where (fun r => String.eqb (msg_sender_name r) h)
         (cascaded _ (fun r => mem (msg_conversation_id r) gone_conversations) (messages d));
     friends :=
       delete_where (Sql.names h)
         (cascaded _ (fun r => mem (fr_user1 r) gone_users || mem (fr_user2 r) gone_users)
            (friends d));
     friend_requests :=
       delete_where (Sql.concerns h)
         (cascaded _ (fun r => mem (rq_from_user r) gone_users || mem (rq_to_user r) gone_users)
            (friend_requests d)) |}.

(** A handle with a double quote in it: [JSON.stringify] writes the quote with
    a backslash and the pattern has it bare. *)
Definition quoted_handle : string := String "a" (String dquote "b").

(** A handle of forty-seven bytes: its pattern has fifty-one. *)
Definition long_handle : string := "aaaaaaaaaaaaaaaaaaaaaaaaaaaaaaaaaaaaaaaaaaaaaaa".

Definition chat_of (h : string) : Conversation :=
  {| conv_id := "c1"; conv_name := "pair"; conv_participants := [h; "bob"];
     conv_type := "direct"; conv_created_at := 1%Z; conv_updated_at := 1%Z |}.

(** ** The session credential: [generateAuthCookie] *)

(** The members [generateAuthCookie] puts in [authData] at time [now]. *)
Definition signed_members (env : environment) (username : option string) (now : Z)
    : list (string * json) :=
  if truthy_opt username && truthy_opt (PASSWORD env) then
    [("username", JString (or_default username ""));
     ("signature",
      JString (hex (hmac_sha256 (encode (or_default (PASSWORD env) ""))
                                (encode (or_default username "")))));
     ("timestamp", JNumber now)]
  else [].

Definition password_member (password : option string) (includePassword : bool)
    : list (string * json) :=
  if includePassword && truthy_opt password then
    [("password", JString (or_default password ""))]
  else [].

Definition session_data (env : environment) (username password role : option string)
    (includePassword : bool) (now : Z) : list (string * json) :=
  ("role", JString (or_default role "user"))
  :: password_member password includePassword ++ signed_members env username now.

(** The value of a member of an object. *)
Definition member (key : string) (o : list (string * json)) : option json :=
  option_map snd (find (fun kv => String.eqb (fst kv) key) o).

(** A text made of unreserved characters and of [%] escapes with two
    upper-case hexadecimal digits. *)
Inductive url_safe : list ascii -> Prop :=
| url_safe_nil : url_safe []
| url_safe_char c l : unreserved c = true -> url_safe l -> url_safe (c :: l)
| url_safe_escape a b l :
    hex_value a <> None -> hex_value b <> None -> url_safe l ->
    url_safe ("%"%char :: a :: b :: l).

(** Reading the escapes back: the text a credential was encoded from. *)
Fixpoint percent_decode (l : list ascii) : option (list ascii) :=
  match l with
  | [] => Some []
  | c :: rest =>
      if Ascii.eqb c "%"%char then
        match rest with
        | a :: b :: rest' =>
            match hex_value a, hex_value b, percent_decode rest' with
            | Some x, Some y, Some r => Some (ascii_of_nat (x * 16 + y) :: r)
            | _, _, _ => None
            end
        | _ => None
        end
      else
        match percent_decode rest with
        | Some r => Some (c :: r)
        | None => None
        end
  end.

Definition no_secret : environment :=
  {| USERNAME := None; PASSWORD := None; NEXT_PUBLIC_STORAGE_TYPE := Some "d1";
     getConfig := Returned [];
     toUpperCase := upper_ascii |}.

Definition login (name pass : string) (code : option string) : option credentials :=
  Some {| username := Some name; password := Some pass; machineCode := code |}.

(** ** The login route: reads of the store *)

Definition stored_password (name : string) (d : database) : option string :=
  option_map u_password (find (Sql.name_is name) (users d)).

(** The code bound to a handle, and the handle a code is bound to. *)
Definition bound_code (name : string) (d : database) : option string :=
  option_map mc_machine_code
    (find (fun r => String.eqb (mc_username r) name) (machine_codes d)).

Definition code_owner (machineCode : string) (d : database) : option string :=
  option_map mc_username
    (find (fun r => String.eqb (mc_machine_code r) machineCode) (machine_codes d)).

Definition password_matches (name pass : string) (d : database) : bool :=
  match stored_password name d with
  | Some stored => String.eqb stored pass
  | None => false
  end.

(** The response of a login that goes through: the answer with the cookie
    of the session, good for seven days. *)
Definition session (env : environment) (answer : response) (name pass : string)
    (role : option string) (now : Z) : response :=
  set_cookie
    (encodeURIComponent
       (JSON_stringify (session_data env (Some name) (Some pass) role false now)))
    (now + seven_days)%Z answer.

Definition database_error : response :=
  json_response [("error", JString "数据库错误")] 500.

(** An ordinary login: a well-formed request to a deployment on D1, for a
    handle that is neither the owner of the deployment nor banned. *)
Record ordinary (env : environment) (configUsers : list user_config)
    (name pass : string) : Prop := {
  ordinary_mode : STORAGE_TYPE env = "d1";
  ordinary_name : truthy name = true;
  ordinary_pass : truthy pass = true;
  ordinary_not_owner : is_owner env name = false;
  ordinary_config : getConfig env = Returned configUsers;
  ordinary_not_banned : is_banned (config_user configUsers name) = false }.

(** ** The login route: the device binding *)

Definition role_of (configUsers : list user_config) (name : string) : option string :=
  Some (or_default
          (match config_user configUsers name with Some u => uc_role u | None => None end)
          "user").

Definition deployment : environment :=
  {| USERNAME := Some "admin"; PASSWORD := Some "secret";
     NEXT_PUBLIC_STORAGE_TYPE := Some "d1"; getConfig := Returned [];
     toUpperCase := upper_ascii |}.

Definition alice_bound : database :=
  set_machine_codes [binding "alice" "ABC123"] alice_and_bob.

Definition returned (A : Type) (o : outcome A) : option A :=
  match o with Returned a => Some a | Thrown _ => None end.

Arguments returned {A} o.

Definition owner_bound : database :=
  set_machine_codes [binding "admin" "ABC123"]
    (set_users [account "admin" "secret"] empty_database).

(** ** The login route: a code bound to another handle *)

(** A computation that leaves the bindings table as it found it. *)
Definition keeps_bindings (A : Type) (m : M A) : Prop :=
  forall w, machine_codes (store (snd (m w))) = machine_codes (store w).

Arguments keeps_bindings {A} m.

Definition both_bound : database :=
  set_machine_codes [binding "alice" "C1"; binding "bob" "D2"] alice_and_bob.

(** ** The login route: refused credentials *)

(** What a refused login is answered: the generic signal, unless the
    configuration flags the handle as banned. *)
Definition failure_signal (env : environment) (configUsers : list user_config)
    (name : string) : response :=
  if is_owner env name then invalid_credentials
  else if is_banned (config_user configUsers name) then banned_response
  else invalid_credentials.

Definition mallory_banned : environment :=
  {| USERNAME := Some "admin"; PASSWORD := Some "secret";
     NEXT_PUBLIC_STORAGE_TYPE := Some "d1";
     getConfig := Returned [{| uc_username := "mallory"; uc_role := Some "user";
                                uc_banned := true |}];
     toUpperCase := upper_ascii |}.

Definition with_mallory : database :=
  set_users [account "alice" "pw1"; account "mallory" "pw3"] empty_database.

(** ** Invariants of the stores the class writes:
    the two shapes the properties above ask of a store, canonical friend
    edges and unique bindings, hold of the empty store and are kept by every
    write of the class, whatever the collaborator does. *)

Definition well_formed (d : database) : Prop := canonical d /\ bindings_unique d.

Inductive operation :=
| RegisterUser (userName pass : string)
| SetUserMachineCode (userName machineCode : string) (deviceInfo : option string)
| DeleteUserMachineCode (userName : string)
| SaveMessage (message : ChatMessage)
| CreateConversation (conversation : Conversation)
| DeleteConversation (conversationId : string)
| AddFriend (userName : string) (friend : Friend)
| RemoveFriend (userName friendId : string)
| CreateFriendRequest (request : friend_request_row)
| DeleteUser (userName : string)
| SetPlayRecord (userName key : string) (record : PlayRecord)
| DeletePlayRecord (userName key : string)
| SetFavorite (userName key : string) (favorite : Favorite)
| DeleteFavorite (userName key : string)
| ChangePassword (userName newPassword : string)
| AddSearchHistory (userName keyword : string)
| DeleteSearchHistory (userName : string) (keyword : option string)
| SetSkipConfig (userName source id : string) (config : SkipConfig)
| DeleteSkipConfig (userName source id : string)
| SetUserAvatar (userName avatarData : string)
| DeleteUserAvatar (userName : string)
| SaveDanmu (videoId userName : string) (danmu : Danmu) (random : string)
| DeleteDanmu (videoId danmuId : string)
| MarkMessageAsRead (messageId : string)
| UpdateConversation (conversationId : string) (updates : ConversationUpdates)
| UpdateFriendStatus (friendId status : string)
| UpdateFriendRequest (requestId status : string)
| DeleteFriendRequest (requestId : string)
| ClearAllData.

Definition perform (op : operation) : M unit :=
  match op with
  | RegisterUser n p => D1Storage.registerUser n p
  | SetUserMachineCode n c i => D1Storage.setUserMachineCode n c i
  | DeleteUserMachineCode n => D1Storage.deleteUserMachineCode n
  | SaveMessage m => D1Storage.saveMessage m
  | CreateConversation c => D1Storage.createConversation c
  | DeleteConversation c => D1Storage.deleteConversation c
  | AddFriend n f => D1Storage.addFriend n f
  | RemoveFriend n f => D1Storage.removeFriend n f
  | CreateFriendRequest r => D1Storage.createFriendRequest r
  | DeleteUser n => D1Storage.deleteUser n
  | SetPlayRecord n k r => D1Storage.setPlayRecord n k r
  | DeletePlayRecord n k => D1Storage.deletePlayRecord n k
  | SetFavorite n k f => D1Storage.setFavorite n k f
  | DeleteFavorite n k => D1Storage.deleteFavorite n k
  | ChangePassword n p => D1Storage.changePassword n p
  | AddSearchHistory n k => D1Storage.addSearchHistory n k
  | DeleteSearchHistory n k => D1Storage.deleteSearchHistory n k
  | SetSkipConfig n s i c => D1Storage.setSkipConfig n s i c
  | DeleteSkipConfig n s i => D1Storage.deleteSkipConfig n s i
  | SetUserAvatar n a => D1Storage.setUserAvatar n a
  | DeleteUserAvatar n => D1Storage.deleteUserAvatar n
  | SaveDanmu v n d r => D1Storage.saveDanmu v n d r
  | DeleteDanmu v i => D1Storage.deleteDanmu v i
  | MarkMessageAsRead m => D1Storage.markMessageAsRead m
  | UpdateConversation c u => D1Storage.updateConversation c u
  | UpdateFriendStatus f s => D1Storage.updateFriendStatus f s
  | UpdateFriendRequest r s => D1Storage.updateFriendRequest r s
  | DeleteFriendRequest r => D1Storage.deleteFriendRequest r
  | ClearAllData => D1Storage.clearAllData
  end.

Fixpoint perform_all (ops : list operation) (w : world) : world :=
  match ops with
  | [] => w
  | op :: rest => perform_all rest (snd (perform op w))
  end.

(** A relation between the store before a computation and the store after. *)
Definition relates (R : database -> database -> Prop) (A : Type) (m : M A) : Prop :=
  forall w, R (store w) (store (snd (m w))).

Arguments relates R {A} m.

Definition stays_well_formed (d d' : database) : Prop :=
  well_formed d -> well_formed d'.

(** The messages after are messages of before, by their ids. *)
Definition no_new_message (d d' : database) : Prop :=
  incl (map msg_id (messages d')) (map msg_id (messages d)).

(** ** The scenarios of the specification, run on the model *)

Definition fresh : world := world_of empty_database.

Definition then_run (A B : Type) (w : outcome A * world) (m : M B) : outcome B * world :=
  m (snd w).

Arguments then_run {A B} w m.

Definition answer (r : outcome response * world) : option (list (string * json) * nat) :=
  option_map (fun x => (body x, status x)) (returned (fst r)).

Definition message_in (id conversationId sender : string) : message_row :=
  {| msg_id := id; msg_conversation_id := conversationId; msg_sender_id := sender;
     msg_sender_name := sender; msg_content := "hi"; msg_message_type := "text";
     msg_timestamp := 1%Z; msg_is_read := 0%Z |}.

Definition conversation_of (id : string) (participants : list string) : conversation_row :=
  {| cv_id := id; cv_name := id; cv_participants := JSON_stringify_array participants;
     cv_type := "direct"; cv_created_at := 1%Z; cv_updated_at := 1%Z |}.

Definition two_conversations : database :=
  set_messages [message_in "m1" "C" "alice"; message_in "m2" "C" "bob";
                message_in "m3" "D" "bob"]
    (set_conversations [conversation_of "C" ["alice"; "bob"];
                        conversation_of "D" ["bob"; "carol"]]
       (set_users [account "alice" "pw1"; account "bob" "pw2"; account "carol" "pw3"]
          empty_database)).

(** ** JSON: reading back what was written *)

(** What follows the first element in the text of an array. *)
Fixpoint json_rest (l : list (list ascii)) : list ascii :=
  match l with
  | [] => ["]"%char]
  | s :: l' => ","%char :: json_quote s ++ json_rest l'
  end.

(** ** The vocabulary of the further properties *)

(** ** Accounts: [registerUser], [changePassword], [getAllUsers] *)

(** The row [registerUser] writes: no avatar, and the time of the insertion
    in seconds. *)
Definition new_account (userName password : string) (now : Z) : user_row :=
  {| u_username := userName; u_password := password; u_avatar_base64 := None;
     u_created_at := (now / 1000)%Z |}.

(** ** Records kept per handle and key *)

(** What a play record reads back as: an empty search title is stored as
    NULL and comes back absent. *)
Definition stored_record (record : PlayRecord) : PlayRecord :=
  {| rec_title := rec_title record; rec_source_name := rec_source_name record;
     rec_cover := rec_cover record; rec_year := rec_year record;
     rec_index := rec_index record; rec_total_episodes := rec_total_episodes record;
     rec_play_time := rec_play_time record; rec_total_time := rec_total_time record;
     rec_save_time := rec_save_time record;
     rec_search_title := or_absent (rec_search_title record) |}.

(** What a favorite reads back as: its search title is not kept. *)
Definition stored_favorite (favorite : Favorite) : Favorite :=
  {| fv_title := fv_title favorite; fv_source_name := fv_source_name favorite;
     fv_cover := fv_cover favorite; fv_year := fv_year favorite;
     fv_total_episodes := fv_total_episodes favorite;
     fv_save_time := fv_save_time favorite; fv_search_title := None |}.


(** The row [setPlayRecord] writes in a table whose rows are [rows]. *)
Definition play_row (userName key : string) (record : PlayRecord)
    (rows : list play_record_row) : play_record_row :=
  {| pr_id := next_id (map pr_id rows);
     pr_username := userName; pr_key := key; pr_title := rec_title record;
     pr_source_name := rec_source_name record; pr_cover := rec_cover record;
     pr_year := rec_year record; pr_index_episode := rec_index record;
     pr_total_episodes := rec_total_episodes record;
     pr_play_time := rec_play_time record; pr_total_time := rec_total_time record;
     pr_save_time := rec_save_time record;
     pr_search_title := or_absent (rec_search_title record) |}.

Definition favorite_row_of (userName key : string) (favorite : Favorite)
    (rows : list favorite_row) : favorite_row :=
  {| fav_id := next_id (map fav_id rows);
     fav_username := userName; fav_key := key; fav_title := fv_title favorite;
     fav_source_name := fv_source_name favorite; fav_cover := fv_cover favorite;
     fav_year := fv_year favorite; fav_total_episodes := fv_total_episodes favorite;
     fav_save_time := fv_save_time favorite |}.

Definition skip_row (userName source id : string) (config : SkipConfig)
    (rows : list skip_config_row) : skip_config_row :=
  {| sk_id := next_id (map sk_id rows);
     sk_username := userName; sk_source := source; sk_id_video := id;
     sk_enable := if skip_enable config then 1%Z else 0%Z;
     sk_intro_time := skip_intro_time config;
     sk_outro_time := skip_outro_time config |}.

(** The schema keeps one row per handle and key in [play_records] and in
    [favorites], and one per handle, source and video in [skip_configs]. *)
Definition unique_play_keys (d : database) : Prop :=
  NoDup (map (fun r => (pr_username r, pr_key r)) (play_records d)).

Definition unique_favorite_keys (d : database) : Prop :=
  NoDup (map (fun r => (fav_username r, fav_key r)) (favorites d)).

Definition unique_skip_keys (d : database) : Prop :=
  NoDup (map (fun r => (sk_username r, sk_source r, sk_id_video r)) (skip_configs d)).

Definition a_record : PlayRecord :=
  {| rec_title := "Film"; rec_source_name := "src"; rec_cover := "c.png"; rec_year := "2024";
     rec_index := 3%Z; rec_total_episodes := 12%Z; rec_play_time := 100%Z;
     rec_total_time := 2400%Z; rec_save_time := 1700000000000%Z;
     rec_search_title := Some "" |}.

Definition a_favorite : Favorite :=
  {| fv_title := "Film"; fv_source_name := "src"; fv_cover := "c.png"; fv_year := "2024";
     fv_total_episodes := 12%Z; fv_save_time := 1700000000000%Z;
     fv_search_title := Some "film" |}.

Definition a_skip_config : SkipConfig :=
  {| skip_enable := true; skip_intro_time := 90%Z; skip_outro_time := 60%Z |}.

(** A text without the sign [+], which [getAllSkipConfigs] puts between the
    source and the video of a key. *)
Definition no_plus (s : string) : Prop := ~ In "+"%char (chars s).

Definition stored_configs : database :=
  set_skip_configs
    [{| sk_id := 1%Z; sk_username := "alice"; sk_source := "src"; sk_id_video := "42";
        sk_enable := 1%Z; sk_intro_time := 90%Z; sk_outro_time := 60%Z |};
     {| sk_id := 2%Z; sk_username := "alice"; sk_source := "src"; sk_id_video := "7+1";
        sk_enable := 0%Z; sk_intro_time := 0%Z; sk_outro_time := 0%Z |}]
    alice_and_bob.

Definition stored_records : database :=
  set_favorites [favorite_row_of "alice" "src+42" a_favorite []]
    (set_play_records
       [play_row "alice" "src+42" a_record []; play_row "bob" "src+42" a_record []]
       alice_and_bob).

(** ** Search history *)

Definition history_of (userName : string) (d : database) : list search_history_row :=
  filter (Sql.searched_by userName) (search_history d).

(** The row [addSearchHistory] inserts in a table whose rows are [rows]. *)
Definition keyword_row (userName keyword : string) (now : Z)
    (rows : list search_history_row) : search_history_row :=
  {| sh_id := next_id (map sh_id rows); sh_username := userName; sh_keyword := keyword;
     sh_created_at := (now / 1000)%Z |}.

(** What the third statement of [addSearchHistory] leaves of a table. *)
Definition trimmed (userName : string) (rows : list search_history_row)
    : list search_history_row :=
  delete_where
    (fun r =>
       Sql.searched_by userName r
       && negb (existsb (Z.eqb (sh_id r))
                  (map sh_id (Sql.latest userName D1Storage.SEARCH_HISTORY_LIMIT rows))))
    rows.

(** The keywords a handle searched before, latest first, without one of them. *)
Definition earlier_keywords (userName keyword : string) (d : database) : list string :=
  map sh_keyword
    (order_by_desc sh_created_at
       (delete_where (Sql.searched userName keyword) (history_of userName d))).

Definition searched_row (id : Z) (userName keyword : string) (at_second : Z)
    : search_history_row :=
  {| sh_id := id; sh_username := userName; sh_keyword := keyword; sh_created_at := at_second |}.

Definition alice_searched : database :=
  set_search_history
    [searched_row 1 "alice" "matrix" 1699999000; searched_row 2 "bob" "alien" 1699999100;
     searched_row 3 "alice" "alien" 1699999200]
    alice_and_bob.

(** A world whose collaborator fails at the second round trip. *)
Definition second_trip_fails (d : database) : world :=
  {| store := d; foreign_keys := true; faults := [false; true]; clock := 1700000000000%Z |}.

(** ** Avatars *)

(** The answers of the avatar routes that are not a success. *)
Definition refusal (r : response) : Prop :=
  status r = 400 \/ status r = 401 \/ status r = 403 \/ status r = 500.

Definition plain_user (name : string) : auth_info :=
  {| auth_username := Some name; auth_role := Some "user" |}.

Definition a_picture : string := "data:image/png;base64,iVBORw0KGgo=".

(** ** Danmus *)

(** The id [saveDanmu] gives a danmu: the time of the call, a dash and the
    random text. *)
Definition danmu_id (now : Z) (random : string) : string :=
  decimal now ++ "-" ++ random.

Definition danmu_row_of (videoId userName : string) (danmu : Danmu) (now : Z)
    (random : string) : danmu_row :=
  {| dm_id := danmu_id now random; dm_video_id := videoId; dm_username := userName;
     dm_text := danmu_text danmu; dm_color := danmu_color danmu;
     dm_mode := danmu_mode danmu; dm_time := danmu_time danmu;
     dm_timestamp := danmu_timestamp danmu |}.

Definition of_video (videoId : string) (r : danmu_row) : bool :=
  String.eqb (dm_video_id r) videoId.

Definition a_danmu : Danmu :=
  {| danmu_text := "nice"; danmu_color := "#fff"; danmu_mode := 0%Z; danmu_time := 12500%Z;
     danmu_timestamp := 1700000000000%Z |}.

(** ** Bindings, as the administrator lists them *)

Definition device_of (row : machine_code_row) : BoundDevice :=
  {| bd_machineCode := mc_machine_code row; bd_deviceInfo := mc_device_info row;
     bd_bindTime := mc_bind_time row |}.

(** ** Messages of a conversation *)

Definition chronological (l : list message_row) : Prop :=
  StronglySorted (fun a b => (msg_timestamp a <= msg_timestamp b)%Z) l.

Definition message_at (id conversationId : string) (timestamp : Z) : message_row :=
  {| msg_id := id; msg_conversation_id := conversationId; msg_sender_id := "alice";
     msg_sender_name := "alice"; msg_content := "hi"; msg_message_type := "text";
     msg_timestamp := timestamp; msg_is_read := 0%Z |}.

Definition long_talk : database :=
  set_messages
    [message_at "m1" "C" 30; message_at "m2" "C" 10; message_at "m3" "D" 15;
     message_at "m4" "C" 20]
    two_conversations.

(** ** Conversations: [createConversation], [updateConversation] *)

(** The row a conversation is stored as. *)
Definition conversation_row_of (c : Conversation) : conversation_row :=
  {| cv_id := conv_id c; cv_name := conv_name c;
     cv_participants := JSON_stringify_array (conv_participants c);
     cv_type := conv_type c; cv_created_at := conv_created_at c;
     cv_updated_at := conv_updated_at c |}.

(** Every stored list of participants reads as JSON. *)
Definition participants_parse (d : database) : Prop :=
  forall r, In r (conversations d) -> JSON_parse_array (cv_participants r) <> None.

(** The conversation an update leaves: the fields of the update over those
    of the current one, under the id the update was asked for. *)
Definition updated_conversation (conversationId : string) (current : Conversation)
    (updates : ConversationUpdates) : Conversation :=
  let merged := spread current updates in
  {| conv_id := conversationId; conv_name := conv_name merged;
     conv_participants := conv_participants merged; conv_type := conv_type merged;
     conv_created_at := conv_created_at merged;
     conv_updated_at := conv_updated_at merged |}.

Definition a_conversation : Conversation :=
  {| conv_id := "c9"; conv_name := "pair"; conv_participants := ["alice"; "bob"];
     conv_type := "direct"; conv_created_at := 5%Z; conv_updated_at := 5%Z |}.

Definition renamed : ConversationUpdates :=
  {| upd_id := Some "other"; upd_name := Some "team"; upd_participants := None;
     upd_type := None; upd_created_at := None; upd_updated_at := Some 9%Z |}.

(** ** Friend requests *)

Definition valid_status (status : string) : bool :=
  mem status ["pending"; "accepted"; "rejected"].

Definition has_request (requestId : string) (r : friend_request_row) : bool :=
  String.eqb (rq_id r) requestId.

Definition a_request : friend_request_row :=
  {| rq_id := "r1"; rq_from_user := "alice"; rq_to_user := "bob";
     rq_message := Some "hello"; rq_status := "pending";
     rq_created_at := 1700000000000%Z; rq_updated_at := 1700000000000%Z |}.

(** ** [clearAllData] *)

(** The store the batch of [clearAllData] leaves. *)
Definition cleared (w : world) : database :=
  let d := store w in
  let gone := map u_username (filter (fun _ => true) (users d)) in
  let cascaded (A : Type) (p : A -> bool) (l : list A) :=
    if foreign_keys w then delete_where p l else l in
  {| users := delete_where (fun _ => true) (users d);
     play_records := []; favorites := []; search_history := []; skip_configs := [];
     danmus := danmus d;
     machine_codes := cascaded _ (fun r => mem (mc_username r) gone) (machine_codes d);
     conversations := conversations d;
     messages := messages d;
     friends :=
       cascaded _ (fun r => mem (fr_user1 r) gone || mem (fr_user2 r) gone) (friends d);
     friend_requests :=
       cascaded _ (fun r => mem (rq_from_user r) gone || mem (rq_to_user r) gone)
         (friend_requests d) |}.

(** ** Friends: both ends of an edge *)

(** The friend [getFriends] makes of a row for the handle that asks. *)
Definition friend_across (userName : string) (row : friend_row) : Friend :=
  let friendUsername :=
    if String.eqb (fr_user1 row) userName then fr_user2 row else fr_user1 row in
  {| friend_id := friendUsername; friend_username := friendUsername;
     friend_status := "offline"; friend_added_at := fr_added_at row |}.

Definition accepted_of (userName : string) (r : friend_row) : bool :=
  Sql.names userName r && String.eqb (fr_status r) "accepted".

(** ** The login route: what it writes and what it answers *)

(** A computation that leaves the store as it found it. *)
Definition reads_only (A : Type) (m : M A) : Prop :=
  forall w, store (snd (m w)) = store w.

Arguments reads_only {A} m.

(** Every value the computation returns satisfies [Q]. *)
Definition answers (A : Type) (Q : A -> Prop) (m : M A) : Prop :=
  forall w a w', m w = (Returned a, w') -> Q a.

Arguments answers {A} Q m.

(** A request the route takes for the owner of the deployment. *)
Definition owner_login (env : environment) (req : option credentials) : bool :=
  negb (String.eqb (STORAGE_TYPE env) "localstorage")
  && match req with
     | Some r =>
         truthy_opt (username r) && truthy_opt (password r)
         && is_owner env (or_default (username r) "")
         && is_owner_password env (or_default (password r) "")
     | None => false
     end.

(** The cookie of a session, whatever its value and its expiry. *)
Definition auth_cookie (c : cookie) : Prop :=
  cookie_name c = "auth" /\ cookie_path c = "/" /\ cookie_sameSite c = "lax" /\
  cookie_httpOnly c = false /\ cookie_secure c = false.

(** A success carries one cookie, any other answer none. *)
Definition cookie_with_success (r : response) : Prop :=
  (status r = 200 /\ exists c, cookies r = [c] /\ auth_cookie c) \/
  (status r <> 200 /\ cookies r = []).

Definition server_error : response :=
  json_response [("error", JString "服务器错误")] 500.

Definition local_mode (secret : option string) : environment :=
  {| USERNAME := None; PASSWORD := secret; NEXT_PUBLIC_STORAGE_TYPE := None;
     getConfig := Returned [];
     toUpperCase := upper_ascii |}.

(** The answers of the route in the mode without a database. *)
Definition local_answer (secret : option string) (req : option credentials) (now : Z)
    : response :=
  match or_absent secret with
  | None => set_cookie "" 0%Z (json_response [("ok", JBool true)] 200)
  | Some expected =>
      match req with
      | None => server_error
      | Some r =>
          match password r with
          | None => json_response [("error", JString "密码不能为空")] 400
          | Some p =>
              if String.eqb p expected then
                set_cookie
                  (encodeURIComponent
                     (JSON_stringify [("role", JString "user"); ("password", JString p)]))
                  (now + seven_days)%Z
                  (json_response [("ok", JBool true)] 200)
              else json_response [("ok", JBool false); ("error", JString "密码错误")] 401
          end
      end
  end.

(** ** The signature *)

Definition lower_hex (c : ascii) : bool := in_range 48 57 c || in_range 97 102 c.

Definition is_byte (b : Z) : Prop := (0 <= b < 256)%Z.


(** ** What every write of the class keeps *)

(** The rows of a table differ by their keys. *)
Definition distinct (Row Key : Type) (rows : database -> list Row) (key : Row -> Key)
    (d : database) : Prop :=
  NoDup (map key (rows d)).

Arguments distinct {Row Key} rows key d.

(** A property of the store before holds of the store after. *)
Definition keeps (P : database -> Prop) (d d' : database) : Prop := P d -> P d'.

(** The PRIMARY KEY and UNIQUE clauses of the schema on the tables the class
    writes; those of [machine_codes] are in [bindings_unique]. *)
Definition schema_keys (d : database) : Prop :=
  distinct users u_username d /\
  distinct play_records pr_id d /\ unique_play_keys d /\
  distinct favorites fav_id d /\ unique_favorite_keys d /\
  distinct search_history sh_id d /\
  distinct search_history (fun r => (sh_username r, sh_keyword r)) d /\
  distinct skip_configs sk_id d /\ unique_skip_keys d /\
  distinct danmus dm_id d /\
  distinct conversations cv_id d /\
  distinct friends (fun r => (fr_user1 r, fr_user2 r)) d /\
  distinct friend_requests rq_id d.

(** A store that meets the schema and reads back: keys are unique, friend
    edges canonical, and every list of participants is JSON. *)
Definition sound (d : database) : Prop :=
  well_formed d /\ schema_keys d /\ participants_parse d.

(** Some writes, one of which fails. *)
Definition some_writes : list operation :=
  [ RegisterUser "alice" "pw1"; RegisterUser "alice" "pw2";
    SetPlayRecord "alice" "src+42" a_record; SetPlayRecord "alice" "src+42" a_record;
    AddSearchHistory "alice" "matrix"; AddSearchHistory "alice" "matrix";
    CreateConversation a_conversation; UpdateConversation "c9" renamed;
    SaveDanmu "v1" "alice" a_danmu "k3"; DeleteUser "alice" ].

(** The world after a handle and Bob have registered and a conversation of
    the two has been created, all through the class, from the empty store. *)
Definition with_chat_of (h : string) : world :=
  perform_all
    [RegisterUser h "pw1"; RegisterUser "bob" "pw2"; CreateConversation (chat_of h)]
    fresh.

(** * Properties *)

(** ** Lists and rows *)

Lemma delete_where_In (A : Type) (p : A -> bool) (l : list A) (r : A) :
  In r (delete_where p l) <-> In r l /\ p r = false.
Proof.
  unfold delete_where. rewrite filter_In.
  destruct (p r); simpl; intuition congruence.
Qed.

Lemma delete_where_none (A : Type) (p : A -> bool) (l : list A) :
  filter p (delete_where p l) = [].
Proof.
  induction l as [|x l IH]; simpl; auto.
  destruct (p x) eqn:E; simpl; auto. now rewrite E.
Qed.

Lemma filter_nil_iff (A : Type) (p : A -> bool) (l : list A) :
  filter p l = [] <-> forall r, In r l -> p r = false.
Proof.
  induction l as [|x l IH]; simpl.
  - split; auto. intros _ r [].
  - destruct (p x) eqn:E.
    + split; [discriminate|]. intros H. specialize (H x (or_introl eq_refl)). congruence.
    + rewrite IH. split; intros H r; [intros [<-|Hr]|]; auto.
Qed.

Lemma find_none_iff (A : Type) (p : A -> bool) (l : list A) :
  find p l = None <-> forall r, In r l -> p r = false.
Proof.
  induction l as [|x l IH]; simpl.
  - split; auto. intros _ r [].
  - destruct (p x) eqn:E.
    + split; [discriminate|]. intros H. specialize (H x (or_introl eq_refl)). congruence.
    + rewrite IH. split; intros H r; [intros [<-|Hr]|]; auto.
Qed.

Lemma order_by_desc_nil (A : Type) (key : A -> Z) (l : list A) :
  l = [] -> order_by_desc key l = [].
Proof. now intros ->. Qed.

Lemma mem_In (x : string) (l : list string) : mem x l = true <-> In x l.
Proof.
  unfold mem. rewrite existsb_exists. split.
  - intros (y & Hy & E). apply String.eqb_eq in E. now subst.
  - intros H. exists x. split; auto. apply String.eqb_refl.
Qed.

(** ** Round trips *)

Lemma calm_next (w : world) : calm w -> fault_next w = false.
Proof.
  unfold calm, fault_next. destruct (faults w); simpl; auto.
  now inversion 1.
Qed.

Lemma calm_after_trip (w : world) : calm w -> calm (after_trip w).
Proof.
  unfold calm, after_trip. simpl. destruct (faults w); simpl; auto.
  now inversion 1.
Qed.

Lemma calm_set_store (d : database) (w : world) : calm w -> calm (set_store d w).
Proof. auto. Qed.

Lemma run_fault (A : Type) (s : statement A) (w : world) :
  fault_next w = true -> run s w = (Thrown StorageFailure, after_trip w).
Proof. unfold run, round_trip. now intros ->. Qed.

Lemma run_accepted (A : Type) (s : statement A) (w : world) :
  fault_next w = false -> accepted s = true ->
  run s w =
  match meaning s (after_trip w) with
  | Returned (a, d) => (Returned a, set_store d (after_trip w))
  | Thrown e => (Thrown e, after_trip w)
  end.
Proof. unfold run, round_trip. now intros -> ->. Qed.

Lemma run_rejected (A : Type) (s : statement A) (w : world) :
  accepted s = false -> exists e, run s w = (Thrown e, after_trip w).
Proof.
  unfold run, round_trip. intros ->. destruct (fault_next w); eauto.
Qed.

Lemma run_query (A : Type) (s : statement A) (f : database -> A) (w : world) :
  fault_next w = false -> accepted s = true -> meaning s = query f ->
  run s w = (Returned (f (store w)), after_trip w).
Proof.
  intros Hf Ha Hm. rewrite run_accepted by assumption. rewrite Hm.
  unfold query. simpl. destruct w; reflexivity.
Qed.

(** A read through LIKE: refused when the pattern is too long for a table
    that has a row. *)
Lemma run_like (A Row : Type) (s : statement A) (pattern : string)
    (rows : database -> list Row) (f : database -> A) (w : world) :
  fault_next w = false -> accepted s = true ->
  meaning s = (fun v => like_checked pattern (rows (store v)) (query f v)) ->
  run s w =
  if like_runs pattern (rows (store w)) then (Returned (f (store w)), after_trip w)
  else (Thrown StatementRejected, after_trip w).
Proof.
  intros Hf Ha Hm. rewrite run_accepted by assumption. rewrite Hm.
  unfold like_checked, query. destruct w as [d fk fs c]. simpl.
  destruct (like_runs pattern (rows d)); reflexivity.
Qed.

Lemma like_runs_short (A : Type) (pattern : string) (rows : list A) :
  String.length pattern <= like_pattern_limit -> like_runs pattern rows = true.
Proof.
  intros H. unfold like_runs. apply Nat.leb_le in H. now rewrite H.
Qed.

Lemma length_participant_pattern (h : string) :
  String.length (participant_pattern h) = String.length h + 4.
Proof.
  unfold participant_pattern. simpl. f_equal.
  induction h as [|c h IH]; simpl; [reflexivity|]. now rewrite IH.
Qed.

Lemma like_runs_handle (A : Type) (h : string) (rows : list A) :
  String.length h <= 46 -> like_runs (participant_pattern h) rows = true.
Proof.
  intros H. apply like_runs_short. rewrite length_participant_pattern.
  unfold like_pattern_limit. lia.
Qed.

Lemma batch_fault (ss : list (statement unit)) (w : world) :
  fault_next w = true -> batch ss w = (Thrown StorageFailure, after_trip w).
Proof. unfold batch, round_trip. now intros ->. Qed.

Lemma batch_ok (ss : list (statement unit)) (w : world) :
  fault_next w = false ->
  batch ss w =
  match run_all ss (after_trip w) with
  | Returned d => (Returned tt, set_store d (after_trip w))
  | Thrown e => (Thrown e, after_trip w)
  end.
Proof. unfold batch, round_trip. now intros ->. Qed.

(** ** Messages: [saveMessage] *)

Lemma insert_message_rejected (message : ChatMessage) :
  accepted (Sql.insert_message message) = false.
Proof. reflexivity. Qed.

(** C6.  The INSERT of [saveMessage] lists eight columns, gives six VALUES
    terms, all of them placeholders, and binds eight values.  The engine never
    runs it: for every message and in every world the call throws, and the
    store is what it was, so no message is appended. *)
Theorem saveMessage_never_persists (message : ChatMessage) (w : world) :
  groups (sql (Sql.insert_message message)) = [8; 6] /\
  placeholders (sql (Sql.insert_message message)) = 6 /\
  bound (Sql.insert_message message) = 8 /\
  exists e w',
    D1Storage.saveMessage message w = (Thrown e, w') /\
    store w' = store w /\
    messages (store w') = messages (store w).
Proof.
  repeat split; try reflexivity.
  destruct (run_rejected _ (Sql.insert_message message) w (insert_message_rejected message))
    as [e He].
  exists e, (after_trip w).
  unfold D1Storage.saveMessage, try_catch, throw. rewrite He. auto.
Qed.

(** ** Conversations: [deleteConversation] *)

Lemma delete_where_twice (A : Type) (p q : A -> bool) (l : list A) :
  (forall r, q r = true -> p r = true) ->
  delete_where q (delete_where p l) = delete_where p l.
Proof.
  intros H. unfold delete_where. induction l as [|x l IH]; simpl; auto.
  destruct (p x) eqn:E; simpl; auto.
  destruct (q x) eqn:E'; simpl.
  - apply H in E'. congruence.
  - now rewrite IH.
Qed.

(** What the batch of [deleteConversation] leaves, with or without the
    cascade of the schema. *)
Lemma deleteConversation_batch (conversationId : string) (w : world) :
  run_all [ Sql.delete_messages_of_conversation conversationId;
            Sql.delete_conversation conversationId ] w =
  Returned
    (set_conversations (delete_where (is_conversation conversationId) (conversations (store w)))
       (set_messages (delete_where (of_conversation conversationId) (messages (store w)))
          (store w))).
Proof.
  simpl. unfold delete_conversations, cascade_conversations. simpl.
  destruct (foreign_keys w); [|reflexivity].
  f_equal. unfold set_messages, set_conversations; simpl. f_equal.
  apply delete_where_twice. intros r Hr.
  apply mem_In, in_map_iff in Hr. destruct Hr as (c & Hc & Hin).
  apply filter_In in Hin. destruct Hin as [_ Hid].
  unfold of_conversation. apply String.eqb_eq in Hid. rewrite <- Hc, Hid.
  apply String.eqb_refl.
Qed.

Lemma getConversation_absent (conversationId : string) (w : world) :
  (forall r, In r (conversations (store w)) -> cv_id r <> conversationId) ->
  fst (D1Storage.getConversation conversationId w) = Returned None.
Proof.
  intros H. unfold D1Storage.getConversation, try_catch, bind, ret.
  destruct (fault_next w) eqn:F.
  - now rewrite run_fault.
  - rewrite (run_query _ (Sql.select_conversation conversationId) _ w F eq_refl eq_refl).
    replace (find _ _) with (@None conversation_row); [reflexivity|].
    symmetry. apply find_none_iff. intros r Hr.
    apply String.eqb_neq. auto.
Qed.

(** C5.  [deleteConversation] is one batch.  When its round trip succeeds the
    messages of the conversation and the conversation row are gone together
    and every other row of the two tables is kept; when it fails the store is
    untouched.  No outcome leaves one removal without the other.  After a
    deletion, a point read of the conversation returns null, whatever the
    collaborator does during that read. *)
Theorem deleteConversation_all_or_nothing (conversationId : string) (w : world) :
  exists w',
    (fault_next w = false /\
     D1Storage.deleteConversation conversationId w = (Returned tt, w') /\
     messages (store w') =
       delete_where (of_conversation conversationId) (messages (store w)) /\
     conversations (store w') =
       delete_where (is_conversation conversationId) (conversations (store w)) /\
     (forall m, In m (messages (store w')) -> msg_conversation_id m <> conversationId) /\
     (forall c, In c (conversations (store w')) -> cv_id c <> conversationId) /\
     (forall oracle,
        fst (D1Storage.getConversation conversationId (set_faults oracle w')) = Returned None))
    \/
    (fault_next w = true /\
     D1Storage.deleteConversation conversationId w = (Thrown StorageFailure, w') /\
     store w' = store w).
Proof.
  unfold D1Storage.deleteConversation, try_catch, throw.
  destruct (fault_next w) eqn:F.
  - exists (after_trip w). right. rewrite batch_fault by assumption. auto.
  - rewrite batch_ok by assumption. rewrite deleteConversation_batch.
    eexists. left. split; [reflexivity|]. split; [reflexivity|]. simpl.
    assert (Hm : forall m,
      In m (delete_where (of_conversation conversationId) (messages (store w))) ->
      msg_conversation_id m <> conversationId).
    { intros m Hm. apply delete_where_In in Hm. destruct Hm as [_ Hm].
      now apply String.eqb_neq. }
    assert (Hc : forall c,
      In c (delete_where (is_conversation conversationId) (conversations (store w))) ->
      cv_id c <> conversationId).
    { intros c Hc. apply delete_where_In in Hc. destruct Hc as [_ Hc].
      now apply String.eqb_neq. }
    repeat split; auto.
    intros oracle. apply getConversation_absent. exact Hc.
Qed.

(** ** Friend edges: [addFriend] *)

Lemma units_leb_total (a b : list Z) : units_leb a b = false -> units_leb b a = true.
Proof.
  revert b. induction a as [|x a IH]; intros [|y b]; simpl; auto; try discriminate.
  destruct (Z.ltb_spec x y); [discriminate|].
  destruct (Z.ltb_spec y x); [reflexivity|]. apply IH.
Qed.

Lemma units_leb_refl (a : list Z) : units_leb a a = true.
Proof.
  induction a as [|x a IH]; simpl; [reflexivity|]. now rewrite Z.ltb_irrefl.
Qed.

Lemma js_leb_total (a b : string) : js_leb a b = false -> js_leb b a = true.
Proof. apply units_leb_total. Qed.

Lemma js_leb_refl (a : string) : js_leb a a = true.
Proof. apply units_leb_refl. Qed.

Lemma ltb_leb (a b : string) :
  js_ltb a b = true -> js_leb a b = true /\ js_leb b a = false.
Proof.
  unfold js_ltb. intros H. apply negb_true_iff in H. split; [|exact H].
  now apply js_leb_total.
Qed.

Lemma js_ltb_differ (a b : string) : js_ltb a b = true -> a <> b.
Proof.
  intros H ->. destruct (ltb_leb b b H) as [H1 H2]. congruence.
Qed.

(** The order is the one of the code units, not the one of the bytes or of
    the code points: a character above U+FFFF comes before U+FF21. *)
Remark sort2_by_code_units :
  sort2 "Ａ" "😀" = ("😀", "Ａ") /\ String.ltb "Ａ" "😀" = true /\
  code_units "Ａ" = [65313%Z] /\ code_units "😀" = [55357%Z; 56832%Z] /\
  sort2 "bob" "alice" = ("alice", "bob") /\ sort2 "é" "z" = ("z", "é").
Proof. repeat split. Qed.

Lemma sort2_either (a b x y : string) :
  js_ltb a b = true ->
  (x, y) = (a, b) \/ (x, y) = (b, a) ->
  sort2 x y = (a, b).
Proof.
  intros Hlt H. destruct (ltb_leb a b Hlt) as [H1 H2]. unfold sort2.
  destruct H as [E|E]; inversion E; subst; now rewrite ?H1, ?H2.
Qed.

Lemma empty_canonical : canonical empty_database.
Proof. intros r []. Qed.

Lemma replace_friend_edges (a b : string) (t : Z) (l : list friend_row) :
  js_ltb a b = true ->
  (forall r, In r l -> js_leb (fr_user1 r) (fr_user2 r) = true) ->
  filter (links a b) (delete_where (Sql.same_edge a b) l ++ [edge a b t]) = [edge a b t].
Proof.
  intros Hlt Hcan. destruct (ltb_leb a b Hlt) as [_ Hba].
  rewrite filter_app.
  replace (filter (links a b) (delete_where (Sql.same_edge a b) l)) with (@nil friend_row).
  - simpl. unfold links, Sql.same_edge. simpl. now rewrite !String.eqb_refl.
  - symmetry. apply filter_nil_iff. intros r Hr.
    apply delete_where_In in Hr. destruct Hr as [Hin Hne].
    unfold links. rewrite Hne. simpl.
    unfold Sql.same_edge.
    destruct (String.eqb (fr_user1 r) b) eqn:E1; simpl; auto.
    destruct (String.eqb (fr_user2 r) a) eqn:E2; simpl; auto.
    apply String.eqb_eq in E1, E2. specialize (Hcan r Hin). congruence.
Qed.

Lemma replace_friend_canonical (a b : string) (t : Z) (l : list friend_row) :
  js_ltb a b = true ->
  (forall r, In r l -> js_leb (fr_user1 r) (fr_user2 r) = true) ->
  forall r, In r (delete_where (Sql.same_edge a b) l ++ [edge a b t]) ->
            js_leb (fr_user1 r) (fr_user2 r) = true.
Proof.
  intros Hlt Hcan r Hr. apply in_app_or in Hr. destruct Hr as [Hr|[<-|[]]].
  - apply delete_where_In in Hr. now apply Hcan.
  - simpl. now apply ltb_leb.
Qed.

(** One call of [addFriend], in either orientation. *)
Lemma addFriend_step (a b x : string) (friend : Friend) (w : world) :
  js_ltb a b = true ->
  (x, friend_username friend) = (a, b) \/ (x, friend_username friend) = (b, a) ->
  fault_next w = false ->
  (foreign_keys w = true ->
   user_exists a (store w) = true /\ user_exists b (store w) = true) ->
  D1Storage.addFriend x friend w =
  (Returned tt,
   set_store
     (set_friends
        (delete_where (Sql.same_edge a b) (friends (store w))
         ++ [edge a b (friend_added_at friend)])
        (store w))
     (after_trip w)).
Proof.
  intros Hlt Hor Hf Hfk. unfold D1Storage.addFriend, try_catch.
  rewrite (sort2_either a b _ _ Hlt Hor).
  rewrite run_accepted by (auto; reflexivity).
  simpl. unfold references, constraint. simpl.
  destruct (foreign_keys w); simpl; [|reflexivity].
  destruct (Hfk eq_refl) as [-> ->]. reflexivity.
Qed.

(** C4.  For handles [a < b] in the order of JavaScript, the one
    [Array.prototype.sort] puts the pair in, registered when the engine
    enforces the references of the schema, and a store whose edges are
    canonical, as every store the class writes is: [addFriend] in either
    orientation leaves exactly one row for the pair, keyed [(a, b)], and
    adding the pair again, in either orientation, still leaves exactly one.
    The edges stay canonical. *)
Theorem addFriend_one_canonical_row
    (a b x x' : string) (friend friend' : Friend) (w : world) :
  js_ltb a b = true ->
  (x, friend_username friend) = (a, b) \/ (x, friend_username friend) = (b, a) ->
  (x', friend_username friend') = (a, b) \/ (x', friend_username friend') = (b, a) ->
  canonical (store w) ->
  calm w ->
  (foreign_keys w = true ->
   user_exists a (store w) = true /\ user_exists b (store w) = true) ->
  exists w1 w2,
    D1Storage.addFriend x friend w = (Returned tt, w1) /\
    edges_between a b (store w1) = [edge a b (friend_added_at friend)] /\
    canonical (store w1) /\
    D1Storage.addFriend x' friend' w1 = (Returned tt, w2) /\
    edges_between a b (store w2) = [edge a b (friend_added_at friend')] /\
    canonical (store w2).
Proof.
  intros Hlt Hor Hor' Hcan Hcalm Hfk.
  pose proof (addFriend_step a b x friend w Hlt Hor (calm_next w Hcalm) Hfk) as H1.
  eexists. eexists. split; [exact H1|].
  split; [apply replace_friend_edges; assumption|].
  split; [intros r; apply replace_friend_canonical; assumption|].
  match goal with |- D1Storage.addFriend _ _ ?w1 = _ /\ _ =>
    assert (H2 := addFriend_step a b x' friend' w1 Hlt Hor'
                    (calm_next w1 (calm_after_trip w Hcalm)) Hfk)
  end.
  split; [exact H2|].
  split.
  - apply replace_friend_edges; [assumption|].
    intros r; apply replace_friend_canonical; assumption.
  - intros r. apply replace_friend_canonical; [assumption|].
    intros r'; apply replace_friend_canonical; assumption.
Qed.

Lemma addFriend_one_canonical_row_witness :
  exists w1 w2,
    D1Storage.addFriend "bob" (friend_named "alice" 5%Z) (world_of alice_and_bob)
      = (Returned tt, w1) /\
    edges_between "alice" "bob" (store w1) = [edge "alice" "bob" 5%Z] /\
    canonical (store w1) /\
    D1Storage.addFriend "alice" (friend_named "bob" 9%Z) w1 = (Returned tt, w2) /\
    edges_between "alice" "bob" (store w2) = [edge "alice" "bob" 9%Z] /\
    canonical (store w2).
Proof.
  apply (addFriend_one_canonical_row "alice" "bob" "bob" "alice"
           (friend_named "alice" 5%Z) (friend_named "bob" 9%Z) (world_of alice_and_bob)).
  - reflexivity.
  - right. reflexivity.
  - left. reflexivity.
  - intros r [].
  - constructor.
  - intros _. split; reflexivity.
Defined.

(** ** Device bindings: [setUserMachineCode] *)

(** Deleting rows keeps a key column free of duplicates. *)
Lemma delete_where_keeps_NoDup (Row Key : Type) (key : Row -> Key)
    (rows : list Row) (gone : Row -> bool) :
  NoDup (map key rows) -> NoDup (map key (delete_where gone rows)).
Proof.
  unfold delete_where.
  induction rows as [|x rows IH]; simpl; auto.
  intros H. inversion H as [|? ? Hx Hrest]; subst.
  destruct (gone x); simpl; auto.
  constructor; auto.
  intros Hin. apply Hx. apply in_map_iff in Hin. destruct Hin as (y & Hy & Hin).
  apply filter_In in Hin. apply in_map_iff. exists y. tauto.
Qed.

Lemma NoDup_snoc (B : Type) (l : list B) (x : B) :
  NoDup l -> ~ In x l -> NoDup (l ++ [x]).
Proof.
  induction l as [|y l IH]; simpl; intros H Hx.
  - constructor; auto.
  - inversion H; subst. constructor.
    + rewrite in_app_iff. simpl. intuition congruence.
    + apply IH; auto.
Qed.

Lemma collides_split (userName machineCode : string) (r : machine_code_row) :
  collides userName machineCode r = false <->
  mc_username r <> userName /\ mc_machine_code r <> machineCode.
Proof.
  unfold collides. rewrite orb_false_iff, !String.eqb_neq. tauto.
Qed.

(** C10, as the code has it.  The upsert of [setUserMachineCode], for a handle
    that is registered when the engine enforces the references of the schema,
    writes the row of the handle and deletes every row that collides with it:
    the prior row of the handle and the row of any other handle that holds
    the same code.  The rows of other handles with other codes are exactly
    the ones kept, and uniqueness of handles and of codes is maintained. *)
Theorem setUserMachineCode_upsert
    (userName machineCode : string) (deviceInfo : option string) (w : world) :
  fault_next w = false ->
  (foreign_keys w = true -> user_exists userName (store w) = true) ->
  bindings_unique (store w) ->
  exists w',
    D1Storage.setUserMachineCode userName machineCode deviceInfo w = (Returned tt, w') /\
    (forall r,
       In r (machine_codes (store w')) <->
       r = new_binding userName machineCode deviceInfo (clock w) \/
       (In r (machine_codes (store w)) /\
        mc_username r <> userName /\ mc_machine_code r <> machineCode)) /\
    bindings_unique (store w').
Proof.
  intros Hf Hfk [Hu Hc].
  unfold D1Storage.setUserMachineCode, try_catch, bind, Date_now.
  rewrite run_accepted by (auto; reflexivity).
  simpl. unfold references, constraint. simpl.
  assert (Hok : negb (foreign_keys w) || user_exists userName (store w) = true).
  { destruct (foreign_keys w); simpl; auto. }
  rewrite Hok. eexists. split; [reflexivity|]. simpl.
  fold (collides userName machineCode).
  replace (match deviceInfo with
           | Some info => if truthy info then info else ""
           | None => ""
           end) with (or_default deviceInfo "") by reflexivity.
  fold (new_binding userName machineCode deviceInfo (clock w)).
  split.
  - intros r. rewrite in_app_iff, delete_where_In, collides_split. simpl.
    intuition.
  - unfold bindings_unique. simpl.
    split; rewrite map_app; simpl; apply NoDup_snoc.
    + now apply delete_where_keeps_NoDup.
    + intros Hin. apply in_map_iff in Hin. destruct Hin as (r & Hr & Hin).
      apply delete_where_In in Hin. destruct Hin as [_ Hin].
      apply collides_split in Hin. tauto.
    + now apply delete_where_keeps_NoDup.
    + intros Hin. apply in_map_iff in Hin. destruct Hin as (r & Hr & Hin).
      apply delete_where_In in Hin. destruct Hin as [_ Hin].
      apply collides_split in Hin. tauto.
Qed.

Lemma setUserMachineCode_upsert_witness :
  exists w',
    D1Storage.setUserMachineCode "alice" "C2" None (world_of bob_bound) = (Returned tt, w') /\
    (forall r,
       In r (machine_codes (store w')) <->
       r = new_binding "alice" "C2" None 1700000000000%Z \/
       (In r (machine_codes bob_bound) /\
        mc_username r <> "alice" /\ mc_machine_code r <> "C2")) /\
    bindings_unique (store w').
Proof.
  apply (setUserMachineCode_upsert "alice" "C2" None (world_of bob_bound)).
  - reflexivity.
  - intros _. reflexivity.
  - split; simpl; constructor; simpl; auto; constructor.
Defined.

(** Bob holds the code C1.  The upsert of C1 for Alice succeeds and Bob's row
    is gone: the row of another handle is not left unchanged. *)
Lemma setUserMachineCode_takes_code_over :
  In (binding "bob" "C1") (machine_codes (store (world_of bob_bound))) /\
  mc_username (binding "bob" "C1") <> "alice" /\
  fst (D1Storage.setUserMachineCode "alice" "C1" None (world_of bob_bound)) = Returned tt /\
  machine_codes
    (store (snd (D1Storage.setUserMachineCode "alice" "C1" None (world_of bob_bound))))
  = [new_binding "alice" "C1" None 1700000000000%Z] /\
  ~ In (binding "bob" "C1")
      (machine_codes
         (store (snd (D1Storage.setUserMachineCode "alice" "C1" None (world_of bob_bound))))).
Proof.
  repeat split.
  - left. reflexivity.
  - discriminate.
  - intros [H|[]]. discriminate H.
Qed.

(** ** Best-effort reads *)

(** The users table of the schema has no column [avatar]: the avatar read
    fails on a healthy store as well. *)
Remark getUserAvatar_always_throws (userName : string) (w : world) :
  exists e w', D1Storage.getUserAvatar userName w = (Thrown e, w').
Proof.
  destruct (run_rejected _ (Sql.select_avatar userName) w eq_refl) as [e He].
  exists e, (after_trip w).
  unfold D1Storage.getUserAvatar, try_catch, throw. now rewrite He.
Qed.

(** The five best-effort reads return in every world: no failure of the
    collaborator, no rejected statement and no unreadable participants text
    reaches their caller. *)
Lemma best_effort_reads_return (userName query machineCode : string) (w : world) :
  (exists v, fst (D1Storage.getFriends userName w) = Returned v) /\
  (exists v, fst (D1Storage.getConversations userName w) = Returned v) /\
  (exists v, fst (D1Storage.searchUsers query w) = Returned v) /\
  (exists v, fst (D1Storage.getUserMachineCode userName w) = Returned v) /\
  (exists v, fst (D1Storage.isMachineCodeBound machineCode w) = Returned v).
Proof.
  unfold D1Storage.getFriends, D1Storage.getConversations, D1Storage.searchUsers,
    D1Storage.getUserMachineCode, D1Storage.isMachineCodeBound, try_catch, bind, ret, throw.
  destruct (fault_next w) eqn:F.
  - rewrite !run_fault by assumption. repeat split; eexists; reflexivity.
  - rewrite (run_query _ (Sql.select_friends userName) _ w F eq_refl eq_refl).
    rewrite (run_like _ _ (Sql.select_conversations_like (participant_pattern userName))
               _ conversations _ w F eq_refl eq_refl).
    rewrite (run_like _ _ (Sql.search_usernames ("%" ++ query ++ "%"))
               _ users _ w F eq_refl eq_refl).
    rewrite (run_query _ (Sql.select_machine_code userName) _ w F eq_refl eq_refl).
    rewrite (run_query _ (Sql.select_code_owner machineCode) _ w F eq_refl eq_refl).
    repeat split; try (eexists; reflexivity).
    + destruct (like_runs _ _); [|eexists; reflexivity].
      destruct (D1Storage.to_conversations _); eexists; reflexivity.
    + destruct (like_runs _ _); eexists; reflexivity.
Qed.

(** C9, as the code has it.  When the collaborator fails, the friends list,
    the conversations list, the user search and the two machine-code lookups
    catch the failure and return the empty list or null; the avatar lookup
    catches it and throws it again to its caller. *)
Theorem best_effort_reads
    (userName query machineCode : string) (w : world) :
  fault_next w = true ->
  D1Storage.getFriends userName w = (Returned [], after_trip w) /\
  D1Storage.getConversations userName w = (Returned [], after_trip w) /\
  D1Storage.searchUsers query w = (Returned [], after_trip w) /\
  D1Storage.getUserMachineCode userName w = (Returned None, after_trip w) /\
  D1Storage.isMachineCodeBound machineCode w = (Returned None, after_trip w) /\
  D1Storage.getUserAvatar userName w = (Thrown StorageFailure, after_trip w).
Proof.
  intros F.
  unfold D1Storage.getFriends, D1Storage.getConversations, D1Storage.searchUsers,
    D1Storage.getUserMachineCode, D1Storage.isMachineCodeBound,
    D1Storage.getUserAvatar, try_catch, bind, ret, throw.
  rewrite !run_fault by assumption. repeat split.
Qed.

Lemma best_effort_reads_witness :
  D1Storage.getFriends "alice" (failing (world_of alice_and_bob))
    = (Returned [], after_trip (failing (world_of alice_and_bob))) /\
  D1Storage.getConversations "alice" (failing (world_of alice_and_bob))
    = (Returned [], after_trip (failing (world_of alice_and_bob))) /\
  D1Storage.searchUsers "al" (failing (world_of alice_and_bob))
    = (Returned [], after_trip (failing (world_of alice_and_bob))) /\
  D1Storage.getUserMachineCode "alice" (failing (world_of alice_and_bob))
    = (Returned None, after_trip (failing (world_of alice_and_bob))) /\
  D1Storage.isMachineCodeBound "C1" (failing (world_of alice_and_bob))
    = (Returned None, after_trip (failing (world_of alice_and_bob))) /\
  D1Storage.getUserAvatar "alice" (failing (world_of alice_and_bob))
    = (Thrown StorageFailure, after_trip (failing (world_of alice_and_bob))).
Proof.
  apply (best_effort_reads "alice" "al" "C1" (failing (world_of alice_and_bob))).
  reflexivity.
Defined.

(** A storage failure during the avatar lookup reaches the caller as an
    error; it is not turned into null, and the avatar route answers it with
    status 500. *)
Lemma getUserAvatar_fails_the_caller :
  fst (D1Storage.getUserAvatar "alice" (failing (world_of alice_and_bob)))
    = Thrown StorageFailure /\
  fst (D1Storage.getUserAvatar "alice" (failing (world_of alice_and_bob)))
    <> Returned None /\
  fst (Avatar.GET (Some "bob") (Some "alice") (failing (world_of alice_and_bob)))
    = Returned (json_response [("error", JString "获取头像失败")] 500).
Proof. split; [reflexivity|split; [discriminate|reflexivity]]. Qed.

(** ** The participants pattern *)

Lemma chars_app (s1 s2 : string) : chars (s1 ++ s2) = chars s1 ++ chars s2.
Proof. induction s1 as [|c s1 IH]; simpl; auto. unfold chars in *. simpl. now rewrite IH. Qed.

Lemma chars_text (l : list ascii) : chars (text l) = l.
Proof. apply list_ascii_of_string_of_list_ascii. Qed.

Lemma any_start_here (f : list ascii -> bool) (t : list ascii) :
  f t = true -> any_start f false t = true.
Proof. destruct t; simpl; auto. now intros ->. Qed.

Lemma like_percent_all (t : list ascii) (skipping : bool) :
  any_start (like []) skipping t = true.
Proof.
  revert skipping. induction t as [|d t IH]; intros skipping; simpl; auto.
  destruct (skipping && is_cont d); simpl; auto.
Qed.

(** A pattern matches a text that begins with the pattern itself, when the
    rest of the pattern matches the rest of the text. *)
Lemma like_prefix (p q t : list ascii) :
  like q t = true -> like (p ++ q) (p ++ t) = true.
Proof.
  intros H. induction p as [|c p IH]; simpl; auto.
  destruct (Ascii.eqb c "%"%char) eqn:E1.
  - apply Ascii.eqb_eq in E1. subst c. simpl.
    change (is_lead "%"%char) with false.
    rewrite (any_start_here _ _ IH). apply orb_true_r.
  - destruct (Ascii.eqb c "_"%char) eqn:E2.
    + apply Ascii.eqb_eq in E2. subst c. exact IH.
    + now rewrite Ascii.eqb_refl.
Qed.

(** [%] in front lets the match start after any text that ends where a
    character begins. *)
Lemma like_after (p a x : list ascii) (d : ascii) (skipping : bool) :
  is_cont d = false -> like p (d :: x) = true ->
  any_start (like p) skipping (a ++ d :: x) = true.
Proof.
  intros Hd H. revert skipping. induction a as [|e a IH]; intros skipping; simpl.
  - rewrite Hd, andb_false_r. simpl in H. now rewrite H.
  - destruct (skipping && is_cont e); auto.
    rewrite IH. apply orb_true_r.
Qed.

Lemma like_contains (s a b : list ascii) (d : ascii) :
  is_cont d = false ->
  like ("%"%char :: (d :: s) ++ ["%"%char]) (a ++ (d :: s) ++ b) = true.
Proof.
  intros Hd.
  apply (like_after ((d :: s) ++ ["%"%char]) a (s ++ b) d false Hd).
  apply (like_prefix (d :: s) ["%"%char] b).
  exact (like_percent_all b false).
Qed.

Lemma json_escape_plain (c : ascii) : plain_char c = true -> json_escape_char c = [c].
Proof.
  unfold plain_char, json_escape_char. intros H.
  apply andb_prop in H. destruct H as [H Hb].
  apply andb_prop in H. destruct H as [Hn Hq].
  apply negb_true_iff in Hb, Hq. rewrite Hb, Hq.
  apply Nat.leb_le in Hn.
  repeat match goal with
         | |- context [?n =? ?k] =>
             destruct (Nat.eqb_spec n k); [lia|]
         | |- context [?n <? ?k] =>
             destruct (Nat.ltb_spec n k); [lia|]
         end.
  reflexivity.
Qed.

Lemma json_quote_plain (l : list ascii) :
  forallb plain_char l = true -> json_quote l = dquote :: l ++ [dquote].
Proof.
  intros H. unfold json_quote. f_equal. f_equal.
  induction l as [|c l IH]; simpl in *; auto.
  apply andb_prop in H. destruct H as [Hc Hl].
  rewrite (json_escape_plain c Hc), IH; auto.
Qed.

Lemma json_elements_In (s : list ascii) (l : list (list ascii)) :
  In s l -> exists pre post, json_elements l = pre ++ json_quote s ++ post.
Proof.
  induction l as [|x l IH]; [intros []|].
  intros [->|Hin].
  - exists []. destruct l as [|y l].
    + exists []. simpl. now rewrite app_nil_r.
    + exists (","%char :: json_elements (y :: l)). reflexivity.
  - destruct (IH Hin) as (pre & post & E).
    destruct l as [|y l]; [destruct Hin|].
    exists (json_quote x ++ ","%char :: pre), post.
    change (json_elements (x :: y :: l))
      with (json_quote x ++ ","%char :: json_elements (y :: l)).
    rewrite E. now rewrite <- app_assoc.
Qed.

(** The pattern of a plain handle matches the stored text of every
    participant list that contains the handle. *)
Lemma pattern_matches_member (h : string) (participants : list string) :
  json_plain h = true -> In h participants ->
  LIKE (JSON_stringify_array participants) (participant_pattern h) = true.
Proof.
  intros Hp Hin. unfold LIKE, JSON_stringify_array, participant_pattern.
  rewrite chars_text.
  destruct (json_elements_In (chars h) (map chars participants)) as (pre & post & E).
  { now apply in_map. }
  rewrite E, (json_quote_plain _ Hp).
  assert (Hpat : chars ("%" ++ String dquote (h ++ String dquote "%"))
                 = "%"%char :: (dquote :: (chars h ++ [dquote])) ++ ["%"%char]).
  { change (chars ("%" ++ String dquote (h ++ String dquote "%")))
      with ("%"%char :: dquote :: chars (h ++ String dquote "%")).
    rewrite chars_app. simpl. do 2 f_equal. now rewrite <- app_assoc. }
  assert (Htxt : "["%char :: (pre ++ (dquote :: chars h ++ [dquote]) ++ post) ++ ["]"%char]
                 = ("["%char :: pre) ++ (dquote :: (chars h ++ [dquote])) ++ (post ++ ["]"%char])).
  { simpl. f_equal. rewrite <- (app_assoc pre). f_equal. simpl. f_equal.
    now rewrite <- app_assoc. }
  rewrite Hpat, Htxt. apply like_contains. reflexivity.
Qed.

(** ** Account purge: [deleteUser] *)

Lemma In_firstn (A : Type) (n : nat) (l : list A) (x : A) : In x (firstn n l) -> In x l.
Proof.
  revert l. induction n as [|n IH]; intros l; simpl.
  - intros [].
  - destruct l as [|y l]; simpl.
    + intros [].
    + intros [->|H]; auto.
Qed.

Lemma In_skipn (A : Type) (n : nat) (l : list A) (x : A) : In x (skipn n l) -> In x l.
Proof.
  revert l. induction n as [|n IH]; intros l; simpl; auto.
  destruct l as [|y l]; simpl; auto.
Qed.

Lemma In_insert_desc (A : Type) (key : A -> Z) (x y : A) (l : list A) :
  In y (insert_desc key x l) -> y = x \/ In y l.
Proof.
  induction l as [|z l IH]; simpl.
  - intros [<-|[]]. now left.
  - destruct (key z <=? key x)%Z; simpl.
    + intros [<-|H]; auto.
    + intros [<-|H]; auto. destruct (IH H); auto.
Qed.

Lemma In_order_by_desc (A : Type) (key : A -> Z) (l : list A) (y : A) :
  In y (order_by_desc key l) -> In y l.
Proof.
  induction l as [|x l IH]; simpl; auto.
  intros H. apply In_insert_desc in H. destruct H as [->|H]; auto.
Qed.

Lemma In_limit_offset (A : Type) (limit offset : Z) (l : list A) (y : A) :
  In y (limit_offset limit offset l) -> In y l.
Proof.
  unfold limit_offset. destruct (limit <? 0)%Z; intros H.
  - eapply In_skipn; eauto.
  - eapply In_skipn. eapply In_firstn; eauto.
Qed.

Lemma limit_offset_nil (A : Type) (limit offset : Z) :
  limit_offset limit offset (@nil A) = [].
Proof.
  unfold limit_offset. rewrite skipn_nil. destruct (limit <? 0)%Z; auto.
  apply firstn_nil.
Qed.

Ltac deleted :=
  repeat match goal with
         | H : In _ (delete_where _ _) |- _ =>
             apply delete_where_In in H; destruct H
         | H : (_ || _) = false |- _ => apply orb_false_iff in H; destruct H
         | H : String.eqb _ _ = false |- _ => apply String.eqb_neq in H
         end.

Lemma deleteUser_batch (h : string) (w : world) :
  run_all [ Sql.delete_user h; Sql.delete_play_records h; Sql.delete_favorites h;
            Sql.delete_search_history h; Sql.delete_skip_configs h;
            Sql.delete_danmus h; Sql.delete_machine_code h;
            Sql.delete_conversations_like (participant_pattern h);
            Sql.delete_messages_of_sender h; Sql.delete_friends_of h;
            Sql.delete_friend_requests_of h ] w =
  if like_runs (participant_pattern h) (conversations (store w))
  then Returned (purge h w) else Thrown StatementRejected.
Proof.
  destruct w as [d fk fs c]. cbn [store].
  destruct (like_runs (participant_pattern h) (conversations d)) eqn:L;
    destruct fk; simpl; unfold like_checked; simpl; rewrite L; reflexivity.
Qed.

Lemma purge_purged (h : string) (w : world) : purged h (purge h w).
Proof.
  constructor; unfold purge; simpl; intros r Hr; deleted;
    unfold Sql.name_is, Sql.names, Sql.concerns in *; deleted; auto.
Qed.

(** With the cascade of the schema, the messages of the conversations that
    the purge deletes are deleted as well. *)
Lemma purge_cascades_messages (h : string) (w : world) (c : conversation_row) :
  foreign_keys w = true ->
  In c (conversations (store w)) ->
  LIKE (cv_participants c) (participant_pattern h) = true ->
  forall m, In m (messages (purge h w)) -> msg_conversation_id m <> cv_id c.
Proof.
  intros Hfk Hc Hlike m Hm. unfold purge in Hm. simpl in Hm. rewrite Hfk in Hm.
  deleted. intros E.
  match goal with H : mem _ _ = false |- _ =>
    apply not_true_iff_false in H; apply H end.
  apply mem_In. rewrite E. apply in_map. apply filter_In. auto.
Qed.

(** The reads after a purge. *)

Lemma purged_checkUserExist (h : string) (w : world) :
  purged h (store w) -> fault_next w = false ->
  fst (D1Storage.checkUserExist h w) = Returned false.
Proof.
  intros P F. unfold D1Storage.checkUserExist, try_catch, bind, ret.
  rewrite (run_query _ (Sql.select_one_user h) _ w F eq_refl eq_refl).
  replace (find (Sql.name_is h) (users (store w))) with (@None user_row); [reflexivity|].
  symmetry. apply find_none_iff. intros r Hr. apply String.eqb_neq.
  now apply (purged_account _ _ P).
Qed.

Lemma purged_getFriends (h : string) (w : world) :
  purged h (store w) -> fst (D1Storage.getFriends h w) = Returned [].
Proof.
  intros P. unfold D1Storage.getFriends, try_catch, bind, ret.
  destruct (fault_next w) eqn:F; [now rewrite run_fault|].
  rewrite (run_query _ (Sql.select_friends h) _ w F eq_refl eq_refl).
  replace (filter _ (friends (store w))) with (@nil friend_row); [reflexivity|].
  symmetry. apply filter_nil_iff. intros r Hr.
  destruct (purged_friends _ _ P r Hr) as [H1 H2].
  unfold Sql.names. apply String.eqb_neq in H1, H2. now rewrite H1, H2.
Qed.

Lemma purged_getFriendRequests (h : string) (w : world) :
  purged h (store w) -> fst (D1Storage.getFriendRequests h w) = Returned [].
Proof.
  intros P. unfold D1Storage.getFriendRequests, try_catch, ret.
  destruct (fault_next w) eqn:F; [now rewrite run_fault|].
  rewrite (run_query _ (Sql.select_friend_requests h) _ w F eq_refl eq_refl).
  replace (filter _ (friend_requests (store w))) with (@nil friend_request_row);
    [reflexivity|].
  symmetry. apply filter_nil_iff. intros r Hr.
  destruct (purged_friend_requests _ _ P r Hr) as [H1 H2].
  unfold Sql.concerns. apply String.eqb_neq in H1, H2. now rewrite H1, H2.
Qed.

Lemma purged_getConversations (h : string) (w : world) :
  purged h (store w) -> fst (D1Storage.getConversations h w) = Returned [].
Proof.
  intros P. unfold D1Storage.getConversations, try_catch, bind, ret.
  destruct (fault_next w) eqn:F; [now rewrite run_fault|].
  rewrite (run_like _ _ (Sql.select_conversations_like (participant_pattern h)) _
             conversations _ w F eq_refl eq_refl).
  destruct (like_runs _ _); [|reflexivity].
  replace (filter _ (conversations (store w))) with (@nil conversation_row);
    [reflexivity|].
  symmetry. apply filter_nil_iff. intros r Hr. now apply (purged_conversations _ _ P).
Qed.

Lemma getMessages_returns (conversationId : string) (limit offset : Z) (w : world) :
  exists ms,
    fst (D1Storage.getMessages conversationId limit offset w) = Returned ms /\
    forall m, In m ms ->
              In m (messages (store w)) /\ msg_conversation_id m = conversationId.
Proof.
  unfold D1Storage.getMessages, try_catch, bind, ret.
  destruct (fault_next w) eqn:F.
  - rewrite run_fault by assumption. exists []. split; [reflexivity|]. intros m [].
  - rewrite (run_query _ (Sql.select_messages conversationId limit offset) _ w F
               eq_refl eq_refl).
    eexists. split; [reflexivity|]. intros m Hm.
    apply in_rev, In_limit_offset, In_order_by_desc, filter_In in Hm.
    destruct Hm as [Hin E]. split; auto. now apply String.eqb_eq.
Qed.

Lemma getMessages_none (conversationId : string) (limit offset : Z) (w : world) :
  (forall m, In m (messages (store w)) -> msg_conversation_id m <> conversationId) ->
  fst (D1Storage.getMessages conversationId limit offset w) = Returned [].
Proof.
  intros H. unfold D1Storage.getMessages, try_catch, bind, ret.
  destruct (fault_next w) eqn:F; [now rewrite run_fault|].
  rewrite (run_query _ (Sql.select_messages conversationId limit offset) _ w F
             eq_refl eq_refl).
  replace (filter _ (messages (store w))) with (@nil message_row).
  - simpl. now rewrite limit_offset_nil.
  - symmetry. apply filter_nil_iff. intros r Hr. apply String.eqb_neq. auto.
Qed.

(** [deleteUser] is one batch: when its round trip fails, or when the engine
    refuses the pattern of the handle, nothing is removed.  The pattern is
    refused when it is longer than fifty bytes, that is for a handle of more
    than forty-six, and a conversation is stored.  When the batch succeeds the
    store holds no account row for the handle, none of its play records,
    favorites, search history, skip configs and danmus, no binding, no
    conversation whose participants text matches the pattern of the handle
    (so, for a handle that JSON writes as it is, no conversation whose
    participant list contains it), no message whose sender name is the
    handle, no friend edge and no friend request naming it.  Afterwards the
    existence check answers false, and the friends, friend requests,
    conversations and messages reads return without error, whatever the
    collaborator does. *)
Theorem deleteUser_purges (h : string) (w : world) :
  (String.length h <= 46 ->
   like_runs (participant_pattern h) (conversations (store w)) = true) /\
  exists w',
    (fault_next w = false /\
     like_runs (participant_pattern h) (conversations (store w)) = true /\
     D1Storage.deleteUser h w = (Returned tt, w') /\
     purged h (store w') /\
     (json_plain h = true ->
      forall r participants,
        In r (conversations (store w')) ->
        cv_participants r = JSON_stringify_array participants ->
        ~ In h participants) /\
     (forall oracle,
        (fault_next (set_faults oracle w') = false ->
         fst (D1Storage.checkUserExist h (set_faults oracle w')) = Returned false) /\
        fst (D1Storage.getFriends h (set_faults oracle w')) = Returned [] /\
        fst (D1Storage.getFriendRequests h (set_faults oracle w')) = Returned [] /\
        fst (D1Storage.getConversations h (set_faults oracle w')) = Returned [] /\
        (forall conversationId limit offset,
           exists ms,
             fst (D1Storage.getMessages conversationId limit offset (set_faults oracle w'))
               = Returned ms /\
             forall m, In m ms -> msg_sender_name m <> h) /\
        (foreign_keys w = true ->
         forall c limit offset,
           In c (conversations (store w)) ->
           LIKE (cv_participants c) (participant_pattern h) = true ->
           fst (D1Storage.getMessages (cv_id c) limit offset (set_faults oracle w'))
             = Returned [])))
    \/
    (fault_next w = false /\
     like_runs (participant_pattern h) (conversations (store w)) = false /\
     D1Storage.deleteUser h w = (Thrown StatementRejected, w') /\
     store w' = store w)
    \/
    (fault_next w = true /\
     D1Storage.deleteUser h w = (Thrown StorageFailure, w') /\
     store w' = store w).
Proof.
  split; [apply like_runs_handle|].
  unfold D1Storage.deleteUser, try_catch, throw.
  destruct (fault_next w) eqn:F.
  - exists (after_trip w). right. right. rewrite batch_fault by assumption. auto.
  - rewrite batch_ok by assumption. rewrite deleteUser_batch.
    change (store (after_trip w)) with (store w).
    destruct (like_runs (participant_pattern h) (conversations (store w))) eqn:L;
      [|exists (after_trip w); right; left; auto].
    eexists. left. split; [reflexivity|]. split; [reflexivity|]. split; [reflexivity|].
    change (store (set_store (purge h (after_trip w)) (after_trip w)))
      with (purge h (after_trip w)).
    pose proof (purge_purged h (after_trip w)) as P.
    split; [exact P|]. split.
    + intros Hplain r ps Hr Hps Hin.
      pose proof (purged_conversations _ _ P r Hr) as Hno.
      rewrite Hps, (pattern_matches_member h ps Hplain Hin) in Hno. discriminate.
    + intros oracle. repeat split.
      * intros Fo. now apply purged_checkUserExist.
      * now apply purged_getFriends.
      * now apply purged_getFriendRequests.
      * now apply purged_getConversations.
      * intros cid limit offset.
        destruct (getMessages_returns cid limit offset
                    (set_faults oracle (set_store (purge h (after_trip w)) (after_trip w))))
          as (ms & Hms & Hall).
        exists ms. split; [exact Hms|]. intros m Hm.
        apply (purged_messages _ _ P). now apply Hall.
      * intros Hfk c limit offset Hc Hlike. apply getMessages_none.
        apply (purge_cascades_messages h (after_trip w) c); auto.
Qed.

(** C1.  The purge at two handles that took part in a conversation, each on
    a store the class has written.  At a handle of forty-seven bytes the
    engine refuses the pattern of the conversations: the batch throws and
    nothing is removed, the account is still there.  At a handle with a
    double quote the batch succeeds and the conversation of the handle
    outlives it: its participants still read with the handle among them. *)
Lemma deleteUser_leaves_conversations :
  String.length long_handle = 47 /\
  D1Storage.deleteUser long_handle (with_chat_of long_handle)
    = (Thrown StatementRejected, after_trip (with_chat_of long_handle)) /\
  fst (D1Storage.checkUserExist long_handle
         (snd (D1Storage.deleteUser long_handle (with_chat_of long_handle))))
    = Returned true /\
  fst (D1Storage.getConversation "c1"
         (snd (D1Storage.deleteUser long_handle (with_chat_of long_handle))))
    = Returned (Some (chat_of long_handle)) /\
  fst (D1Storage.deleteUser quoted_handle (with_chat_of quoted_handle)) = Returned tt /\
  fst (D1Storage.checkUserExist quoted_handle
         (snd (D1Storage.deleteUser quoted_handle (with_chat_of quoted_handle))))
    = Returned false /\
  fst (D1Storage.getConversation "c1"
         (snd (D1Storage.deleteUser quoted_handle (with_chat_of quoted_handle))))
    = Returned (Some (chat_of quoted_handle)) /\
  In quoted_handle (conv_participants (chat_of quoted_handle)).
Proof.
  repeat split; try reflexivity. left. reflexivity.
Qed.

(** ** The session credential: [generateAuthCookie] *)

Lemma truthy_or_default (o : option string) :
  truthy_opt o = true -> o = Some (or_default o "").
Proof. destruct o as [[|c s]|]; simpl; auto; discriminate. Qed.

Lemma authData_returns (env : environment) (username password role : option string)
    (includePassword : bool) (w : world) :
  authData env username password role includePassword w =
  (Returned (session_data env username password role includePassword (clock w)), w).
Proof.
  unfold authData, session_data, password_member, signed_members.
  assert (Hp : match password with
               | Some p =>
                   if includePassword && truthy p
                   then [("role", JString (or_default role "user"))] ++ [("password", JString p)]
                   else [("role", JString (or_default role "user"))]
               | None => [("role", JString (or_default role "user"))]
               end
               = ("role", JString (or_default role "user"))
                 :: (if includePassword && truthy_opt password
                     then [("password", JString (or_default password ""))] else [])).
  { destruct password as [[|c p]|]; simpl; destruct includePassword; reflexivity. }
  rewrite Hp. clear Hp.
  destruct username as [[|c u]|]; simpl; rewrite ?app_nil_r; try reflexivity;
    try (destruct (PASSWORD env); reflexivity).
  destruct (PASSWORD env) as [[|c' s]|]; simpl; rewrite ?app_nil_r; try reflexivity.
Qed.

Lemma generateAuthCookie_returns (env : environment)
    (username password role : option string) (includePassword : bool) (w : world) :
  generateAuthCookie env username password role includePassword w =
  (Returned (encodeURIComponent
               (JSON_stringify
                  (session_data env username password role includePassword (clock w)))), w).
Proof. unfold generateAuthCookie, bind. now rewrite authData_returns. Qed.

Lemma upper_hex_digit_hex (n : nat) : n < 16 -> hex_value (upper_hex_digit n) <> None.
Proof.
  intros H. do 16 (destruct n as [|n]; [discriminate|]). lia.
Qed.

Lemma encodeURIComponent_url_safe (s : string) : url_safe (chars (encodeURIComponent s)).
Proof.
  unfold encodeURIComponent. rewrite chars_text.
  induction (chars s) as [|c l IH]; [constructor|].
  cbn [flat_map]. unfold percent_encode at 1.
  destruct (unreserved c) eqn:E; cbn [app].
  - now constructor.
  - pose proof (nat_ascii_bounded c) as Hc. fold (code c) in Hc.
    constructor; auto; apply upper_hex_digit_hex.
    + apply Nat.Div0.div_lt_upper_bound. lia.
    + apply Nat.mod_upper_bound. lia.
Qed.

Lemma upper_hex_digit_value (n : nat) : n < 16 -> hex_value (upper_hex_digit n) = Some n.
Proof.
  intros H. do 16 (destruct n as [|n]; [reflexivity|]). lia.
Qed.

Lemma percent_decode_encode (l : list ascii) :
  percent_decode (flat_map percent_encode l) = Some l.
Proof.
  induction l as [|c l IH]; [reflexivity|].
  cbn [flat_map]. unfold percent_encode at 1.
  pose proof (nat_ascii_bounded c) as Hc. fold (code c) in Hc.
  destruct (unreserved c) eqn:E; cbn [app percent_decode].
  - destruct (Ascii.eqb c "%"%char) eqn:P.
    + apply Ascii.eqb_eq in P. subst c. discriminate E.
    + now rewrite IH.
  - change (Ascii.eqb "%"%char "%"%char) with true. cbv iota.
    rewrite !upper_hex_digit_value, IH.
    + rewrite Nat.mul_comm, <- Nat.div_mod_eq. unfold code.
      now rewrite ascii_nat_embedding.
    + apply Nat.mod_upper_bound. lia.
    + apply Nat.Div0.div_lt_upper_bound. lia.
Qed.

Lemma encodeURIComponent_decodes (s : string) :
  percent_decode (chars (encodeURIComponent s)) = Some (chars s).
Proof. unfold encodeURIComponent. rewrite chars_text. apply percent_decode_encode. Qed.

(** C7, as the code has it.  The credential is the URI-encoded JSON text of an
    object; the text is made of unreserved characters and [%] escapes, and
    reading the escapes back gives the JSON text.  The object always has the
    role.  It has the handle, the signature and the
    issuance time exactly when a handle is given and the secret of the server
    ([PASSWORD]) is set; the signature is then the HMAC-SHA-256 of the handle
    under that secret, in hexadecimal. *)
Theorem session_credential
    (env : environment) (username password role : option string)
    (includePassword : bool) (w : world) :
  exists data,
    authData env username password role includePassword w = (Returned data, w) /\
    generateAuthCookie env username password role includePassword w =
      (Returned (encodeURIComponent (JSON_stringify data)), w) /\
    url_safe (chars (encodeURIComponent (JSON_stringify data))) /\
    percent_decode (chars (encodeURIComponent (JSON_stringify data)))
      = Some (chars (JSON_stringify data)) /\
    member "role" data = Some (JString (or_default role "user")) /\
    if truthy_opt username && truthy_opt (PASSWORD env) then
      member "username" data = Some (JString (or_default username "")) /\
      member "signature" data =
        Some (JString (hex (hmac_sha256 (encode (or_default (PASSWORD env) ""))
                                        (encode (or_default username ""))))) /\
      member "timestamp" data = Some (JNumber (clock w))
    else
      member "username" data = None /\
      member "signature" data = None /\
      member "timestamp" data = None.
Proof.
  exists (session_data env username password role includePassword (clock w)).
  split; [apply authData_returns|].
  split; [apply generateAuthCookie_returns|].
  split; [apply encodeURIComponent_url_safe|].
  split; [apply encodeURIComponent_decodes|].
  split; [reflexivity|].
  unfold session_data, password_member, signed_members.
  destruct (truthy_opt username && truthy_opt (PASSWORD env));
    destruct (includePassword && truthy_opt password); repeat split.
Qed.

(** A deployment without [PASSWORD]: Alice logs in with her stored password,
    the handle is known, and the credential carries the role alone. *)
Lemma credential_without_handle :
  fst (authData no_secret (Some "alice") (Some "pw1") (Some "user") false
         (world_of alice_and_bob))
    = Returned [("role", JString "user")] /\
  fst (generateAuthCookie no_secret (Some "alice") (Some "pw1") (Some "user") false
         (world_of alice_and_bob))
    = Returned "%7B%22role%22%3A%22user%22%7D" /\
  option_map (fun r => (body r, status r, map cookie_value (cookies r)))
    match fst (POST no_secret (login "alice" "pw1" None) (world_of alice_and_bob)) with
    | Returned r => Some r
    | Thrown _ => None
    end
  = Some ([("ok", JBool true); ("machineCodeBound", JBool false);
           ("username", JString "alice")], 200, ["%7B%22role%22%3A%22user%22%7D"]).
Proof. repeat split. Qed.

(** ** The login route: reads of the store *)

Lemma verifyUser_ok (name pass : string) (w : world) :
  fault_next w = false ->
  D1Storage.verifyUser name pass w = (Returned (password_matches name pass (store w)), after_trip w).
Proof.
  intros F. unfold D1Storage.verifyUser, try_catch, bind, ret.
  now rewrite (run_query _ (Sql.select_password name) _ w F eq_refl eq_refl).
Qed.

Lemma getUserMachineCode_ok (name : string) (w : world) :
  fault_next w = false ->
  D1Storage.getUserMachineCode name w = (Returned (bound_code name (store w)), after_trip w).
Proof.
  intros F. unfold D1Storage.getUserMachineCode, try_catch.
  now rewrite (run_query _ (Sql.select_machine_code name) _ w F eq_refl eq_refl).
Qed.

Lemma isMachineCodeBound_ok (machineCode : string) (w : world) :
  fault_next w = false ->
  D1Storage.isMachineCodeBound machineCode w =
  (Returned (code_owner machineCode (store w)), after_trip w).
Proof.
  intros F. unfold D1Storage.isMachineCodeBound, try_catch.
  now rewrite (run_query _ (Sql.select_code_owner machineCode) _ w F eq_refl eq_refl).
Qed.

Lemma or_default_truthy (s d : string) : truthy s = true -> or_default (Some s) d = s.
Proof. unfold or_default. now intros ->. Qed.

Lemma with_auth_cookie_returns (env : environment) (answer : response)
    (name pass : string) (role : option string) (w : world) :
  with_auth_cookie env answer (Some name) (Some pass) role false w =
  (Returned (session env answer name pass role (clock w)), w).
Proof.
  unfold with_auth_cookie, bind. rewrite generateAuthCookie_returns.
  unfold Date_now, ret, session. reflexivity.
Qed.

Lemma POST_ordinary (env : environment) (configUsers : list user_config)
    (name pass : string) (code : option string) (w : world) :
  ordinary env configUsers name pass ->
  POST env (login name pass code) w =
  try_catch
    (checkPasswordAndBinding env name pass code (config_user configUsers name))
    (fun _ => ret database_error) w.
Proof.
  intros [Hm Hn Hp Ho Hc Hb]. unfold POST, login, try_catch at 1.
  rewrite Hm. change (String.eqb "d1" "localstorage") with false.
  cbn [username password machineCode truthy_opt].
  rewrite Hn, Hp. cbn [negb].
  rewrite (or_default_truthy name "" Hn), (or_default_truthy pass "" Hp).
  rewrite Ho. cbn [andb]. rewrite Hc, Hb.
  unfold try_catch.
  destruct (checkPasswordAndBinding env name pass code (config_user configUsers name) w)
    as [[r|e] w']; reflexivity.
Qed.

(** ** The login route: the device binding *)

Lemma store_after_trip (w : world) : store (after_trip w) = store w.
Proof. reflexivity. Qed.

(** The route once the password has been verified and the binding read. *)
Lemma checkPasswordAndBinding_verified (env : environment) (name pass : string)
    (code : option string) (user : option user_config) (w : world) :
  calm w ->
  password_matches name pass (store w) = true ->
  checkPasswordAndBinding env name pass code user w =
  let w2 := after_trip (after_trip w) in
  let bound := bound_code name (store w) in
  let proceed :=
    with_auth_cookie env (login_ok (truthy_opt bound) name) (Some name) (Some pass)
      (Some (or_default (match user with Some u => uc_role u | None => None end) "user"))
      false in
  if truthy_opt bound then
    if negb (truthy_opt code) then (Returned code_required, w2)
    else if negb (String.eqb (toUpperCase env (or_default code ""))
                             (toUpperCase env (or_default bound "")))
    then (Returned code_mismatch, w2)
    else proceed w2
  else if truthy_opt code then
    let owner := code_owner (or_default code "") (store w) in
    if truthy_opt owner && negb (String.eqb (or_default owner "") name)
    then (Returned (code_taken (or_default owner "")), after_trip w2)
    else proceed (after_trip w2)
  else proceed w2.
Proof.
  intros Hcalm Hpw. unfold checkPasswordAndBinding, bind.
  rewrite (verifyUser_ok name pass w (calm_next w Hcalm)), Hpw. cbn [negb].
  pose proof (calm_after_trip w Hcalm) as Hcalm1.
  rewrite (getUserMachineCode_ok name _ (calm_next _ Hcalm1)), store_after_trip.
  cbv zeta.
  destruct (truthy_opt (bound_code name (store w))).
  - destruct (negb (truthy_opt code)); [reflexivity|].
    destruct (negb _); reflexivity.
  - destruct (truthy_opt code); [|reflexivity].
    pose proof (calm_after_trip _ Hcalm1) as Hcalm2.
    rewrite (isMachineCodeBound_ok _ _ (calm_next _ Hcalm2)), !store_after_trip.
    destruct (_ && _); reflexivity.
Qed.

(** C2, as the code has it.  For an ordinary login, that is by a handle other
    than the owner of the deployment, whose password matches the stored one,
    with a collaborator that answers: when the handle is bound to a code, a
    request without a code is answered [code_required], a request whose code
    differs from the bound one once [String.prototype.toUpperCase] has been
    applied to both is answered [code_mismatch], and a request whose code
    equals it then goes through; when the handle has no binding and no code
    is given, the login goes through unbound.  The case mapping is the one of
    the platform, whatever it is. *)
Theorem login_device_binding
    (env : environment) (configUsers : list user_config)
    (name pass : string) (code : option string) (w : world) :
  ordinary env configUsers name pass ->
  calm w ->
  password_matches name pass (store w) = true ->
  (forall b,
     bound_code name (store w) = Some b -> truthy b = true ->
     (truthy_opt code = false ->
      fst (POST env (login name pass code) w) = Returned code_required) /\
     (forall c, code = Some c -> truthy c = true ->
                toUpperCase env c <> toUpperCase env b ->
      fst (POST env (login name pass code) w) = Returned code_mismatch) /\
     (forall c, code = Some c -> truthy c = true ->
                toUpperCase env c = toUpperCase env b ->
      fst (POST env (login name pass code) w) =
      Returned (session env (login_ok true name) name pass
                  (role_of configUsers name) (clock w)))) /\
  (bound_code name (store w) = None -> truthy_opt code = false ->
   fst (POST env (login name pass code) w) =
   Returned (session env (login_ok false name) name pass
               (role_of configUsers name) (clock w))).
Proof.
  intros Hord Hcalm Hpw.
  rewrite (POST_ordinary env configUsers name pass code w Hord).
  unfold try_catch.
  rewrite (checkPasswordAndBinding_verified env name pass code _ w Hcalm Hpw).
  cbv zeta. split.
  - intros b Hb Htb. rewrite Hb. cbn [truthy_opt]. rewrite Htb.
    rewrite (or_default_truthy b "" Htb). repeat split.
    + intros ->. reflexivity.
    + intros c -> Hc Hne. cbn [truthy_opt]. rewrite Hc. cbn [negb].
      rewrite (or_default_truthy c "" Hc).
      apply String.eqb_neq in Hne. rewrite Hne. reflexivity.
    + intros c -> Hc He. cbn [truthy_opt]. rewrite Hc. cbn [negb].
      rewrite (or_default_truthy c "" Hc), He, String.eqb_refl. cbn [negb].
      rewrite with_auth_cookie_returns. reflexivity.
  - intros -> ->. cbn [truthy_opt]. rewrite with_auth_cookie_returns. reflexivity.
Qed.

(** Alice is bound to ABC123: without a code she is asked for one, with
    another code she is refused, with her code in lower case she is let in;
    Bob, who has no binding, is let in without a code. *)
Lemma login_device_binding_witness :
  fst (POST deployment (login "alice" "pw1" None) (world_of alice_bound))
    = Returned code_required /\
  fst (POST deployment (login "alice" "pw1" (Some "xyz789")) (world_of alice_bound))
    = Returned code_mismatch /\
  fst (POST deployment (login "alice" "pw1" (Some "abc123")) (world_of alice_bound))
    = Returned (session deployment (login_ok true "alice") "alice" "pw1"
                  (role_of [] "alice") (clock (world_of alice_bound))) /\
  fst (POST deployment (login "bob" "pw2" None) (world_of alice_bound))
    = Returned (session deployment (login_ok false "bob") "bob" "pw2"
                  (role_of [] "bob") (clock (world_of alice_bound))).
Proof.
  split; [|split; [|split]].
  - destruct (login_device_binding deployment [] "alice" "pw1" None (world_of alice_bound))
      as [H _]; [constructor; reflexivity|constructor|reflexivity|].
    destruct (H "ABC123" eq_refl eq_refl) as [H1 _]. apply H1. reflexivity.
  - destruct (login_device_binding deployment [] "alice" "pw1" (Some "xyz789")
                (world_of alice_bound))
      as [H _]; [constructor; reflexivity|constructor|reflexivity|].
    destruct (H "ABC123" eq_refl eq_refl) as [_ [H2 _]].
    apply (H2 "xyz789"); [reflexivity|reflexivity|discriminate].
  - destruct (login_device_binding deployment [] "alice" "pw1" (Some "abc123")
                (world_of alice_bound))
      as [H _]; [constructor; reflexivity|constructor|reflexivity|].
    destruct (H "ABC123" eq_refl eq_refl) as [_ [_ H3]].
    apply (H3 "abc123"); reflexivity.
  - destruct (login_device_binding deployment [] "bob" "pw2" None (world_of alice_bound))
      as [_ H]; [constructor; reflexivity|constructor|reflexivity|].
    apply H; reflexivity.
Defined.

(** The owner of the deployment is bound to a code and logs in without one:
    the owner branch answers before any binding is read. *)
Lemma owner_login_skips_binding :
  bound_code "admin" (store (world_of owner_bound)) = Some "ABC123" /\
  option_map (fun r => (body r, status r))
    (returned (fst (POST deployment (login "admin" "secret" None) (world_of owner_bound))))
  = Some ([("ok", JBool true)], 200) /\
  fst (POST deployment (login "admin" "secret" None) (world_of owner_bound))
  <> Returned code_required.
Proof. repeat split. discriminate. Qed.

(** Alice is bound to a code.  When the lookup of her binding fails, the
    lookup answers null and she logs in without a code. *)
Remark failed_lookup_lets_in :
  bound_code "alice" (store (world_of alice_bound)) = Some "ABC123" /\
  option_map body
    (returned (fst (POST deployment (login "alice" "pw1" None)
                      (set_faults [false; true] (world_of alice_bound)))))
  = Some [("ok", JBool true); ("machineCodeBound", JBool false);
          ("username", JString "alice")].
Proof. repeat split. Qed.

(** ** The login route: a code bound to another handle *)

Lemma keeps_ret (A : Type) (a : A) : keeps_bindings (ret a).
Proof. intros w. reflexivity. Qed.

Lemma keeps_throw (A : Type) (e : error) : keeps_bindings (@throw A e).
Proof. intros w. reflexivity. Qed.

Lemma keeps_bind (A B : Type) (m : M A) (k : A -> M B) :
  keeps_bindings m -> (forall a, keeps_bindings (k a)) -> keeps_bindings (bind m k).
Proof.
  intros Hm Hk w. unfold bind. specialize (Hm w).
  destruct (m w) as [[a|e] w']; simpl in *; [|assumption].
  now rewrite Hk.
Qed.

Lemma keeps_try_catch (A : Type) (m : M A) (h : error -> M A) :
  keeps_bindings m -> (forall e, keeps_bindings (h e)) -> keeps_bindings (try_catch m h).
Proof.
  intros Hm Hh w. unfold try_catch. specialize (Hm w).
  destruct (m w) as [[a|e] w']; simpl in *; [assumption|].
  now rewrite Hh.
Qed.

Lemma keeps_run (A : Type) (s : statement A) :
  (forall w a d, meaning s w = Returned (a, d) ->
                 machine_codes d = machine_codes (store w)) ->
  keeps_bindings (run s).
Proof.
  intros H w. unfold run, round_trip.
  destruct (fault_next w); [reflexivity|].
  destruct (accepted s); [|reflexivity].
  destruct (meaning s (after_trip w)) as [[a d]|e] eqn:E; [|reflexivity].
  simpl. now rewrite (H _ _ _ E).
Qed.

Lemma keeps_query (A : Type) (s : statement A) (f : database -> A) :
  meaning s = query f -> keeps_bindings (run s).
Proof.
  intros E. apply keeps_run. intros w a d. rewrite E. unfold query.
  intros H. now inversion H.
Qed.

Lemma keeps_registerUser (name pass : string) :
  keeps_bindings (D1Storage.registerUser name pass).
Proof.
  apply keeps_try_catch; [|intros; apply keeps_throw].
  apply keeps_run. intros w a d. simpl. unfold constraint.
  destruct (negb _); [|discriminate]. intros H. now inversion H.
Qed.

Lemma keeps_with_auth_cookie (env : environment) (r : response)
    (user pass role : option string) (includePassword : bool) :
  keeps_bindings (with_auth_cookie env r user pass role includePassword).
Proof.
  intros w. unfold with_auth_cookie, bind. now rewrite generateAuthCookie_returns.
Qed.

Ltac keeps :=
  repeat match goal with
         | |- keeps_bindings (ret _) => apply keeps_ret
         | |- keeps_bindings (throw _) => apply keeps_throw
         | |- keeps_bindings (with_auth_cookie _ _ _ _ _ _) => apply keeps_with_auth_cookie
         | |- keeps_bindings (D1Storage.registerUser _ _) => apply keeps_registerUser
         | |- keeps_bindings (run _) => eapply keeps_query; reflexivity
         | |- keeps_bindings (try_catch _ _) => apply keeps_try_catch; [|intros]
         | |- keeps_bindings (bind _ _) => apply keeps_bind; [|intros]
         | |- keeps_bindings (if ?b then _ else _) => destruct b
         | |- keeps_bindings (match ?x with _ => _ end) => destruct x
         end.

(** No login attempt writes the bindings table. *)
Lemma POST_keeps_bindings (env : environment) (req : option credentials) :
  keeps_bindings (POST env req).
Proof.
  unfold POST, checkPasswordAndBinding, D1Storage.checkUserExist, D1Storage.verifyUser,
    D1Storage.getUserMachineCode, D1Storage.isMachineCodeBound.
  keeps.
Qed.

(** C3, as the code has it.  The code [c] is bound to the handle [a].  An
    ordinary login by another handle [b] that has no binding of its own,
    passes the password check and supplies [c] is answered [code_taken a],
    the conflict that names [a]; and the bindings table after the attempt is
    the table before it. *)
Theorem login_code_taken
    (env : environment) (configUsers : list user_config)
    (a b pass c : string) (w : world) :
  ordinary env configUsers b pass ->
  calm w ->
  password_matches b pass (store w) = true ->
  truthy_opt (bound_code b (store w)) = false ->
  truthy c = true ->
  code_owner c (store w) = Some a ->
  truthy a = true ->
  a <> b ->
  fst (POST env (login b pass (Some c)) w) = Returned (code_taken a) /\
  status (code_taken a) = 409 /\
  machine_codes (store (snd (POST env (login b pass (Some c)) w)))
    = machine_codes (store w).
Proof.
  intros Hord Hcalm Hpw Hnone Hc Hown Ha Hab.
  split; [|split; [reflexivity|apply POST_keeps_bindings]].
  rewrite (POST_ordinary env configUsers b pass (Some c) w Hord).
  unfold try_catch.
  rewrite (checkPasswordAndBinding_verified env b pass (Some c) _ w Hcalm Hpw).
  cbv zeta. rewrite Hnone. cbn [truthy_opt]. rewrite Hc.
  rewrite (or_default_truthy c "" Hc), Hown. cbn [truthy_opt]. rewrite Ha.
  rewrite (or_default_truthy a "" Ha).
  apply String.eqb_neq in Hab. rewrite Hab. reflexivity.
Qed.

Lemma login_code_taken_witness :
  fst (POST deployment (login "bob" "pw2" (Some "ABC123")) (world_of alice_bound))
    = Returned (code_taken "alice") /\
  status (code_taken "alice") = 409 /\
  machine_codes
    (store (snd (POST deployment (login "bob" "pw2" (Some "ABC123")) (world_of alice_bound))))
    = machine_codes (store (world_of alice_bound)).
Proof.
  apply (login_code_taken deployment [] "alice" "bob" "pw2" "ABC123" (world_of alice_bound)).
  - constructor; reflexivity.
  - constructor.
  - reflexivity.
  - reflexivity.
  - reflexivity.
  - reflexivity.
  - reflexivity.
  - discriminate.
Defined.

(** The code C1 is bound to Alice and Bob is bound to D2.  Bob passes the
    password check and supplies C1: the answer is the mismatch with his own
    binding, not the conflict that names Alice. *)
Lemma bound_handle_gets_mismatch :
  code_owner "C1" (store (world_of both_bound)) = Some "alice" /\
  password_matches "bob" "pw2" (store (world_of both_bound)) = true /\
  fst (POST deployment (login "bob" "pw2" (Some "C1")) (world_of both_bound))
    = Returned code_mismatch /\
  fst (POST deployment (login "bob" "pw2" (Some "C1")) (world_of both_bound))
    <> Returned (code_taken "alice").
Proof. repeat split. discriminate. Qed.

(** ** The login route: refused credentials *)

Lemma POST_refused (env : environment) (configUsers : list user_config)
    (name pass : string) (code : option string) (w : world) :
  STORAGE_TYPE env = "d1" ->
  getConfig env = Returned configUsers ->
  calm w ->
  truthy name = true -> truthy pass = true ->
  is_owner env name && is_owner_password env pass = false ->
  password_matches name pass (store w) = false ->
  fst (POST env (login name pass code) w)
    = Returned (failure_signal env configUsers name).
Proof.
  intros Hm Hc Hcalm Hn Hp Hown Hpw.
  unfold POST, login, try_catch at 1, failure_signal.
  rewrite Hm. change (String.eqb "d1" "localstorage") with false.
  cbn [username password machineCode truthy_opt].
  rewrite Hn, Hp. cbn [negb].
  rewrite (or_default_truthy name "" Hn), (or_default_truthy pass "" Hp).
  rewrite Hown. destruct (is_owner env name); [reflexivity|].
  rewrite Hc. destruct (is_banned (config_user configUsers name)); [reflexivity|].
  unfold try_catch, checkPasswordAndBinding, bind.
  rewrite (verifyUser_ok name pass w (calm_next w Hcalm)), Hpw. reflexivity.
Qed.

(** C8, as the code has it.  With a collaborator that answers, a login that
    names a handle absent from the store and a login that names a stored
    handle with a password other than the stored one are each answered by
    [failure_signal], which looks at the configuration and never at the store:
    the generic invalid-credentials answer with status 401, or, for a handle
    the configuration bans, the banned answer with status 401.  When neither
    handle is banned the two answers are the same generic one. *)
Theorem login_failure_uniform
    (env : environment) (configUsers : list user_config)
    (absent present pass1 pass2 stored : string) (code1 code2 : option string)
    (w : world) :
  STORAGE_TYPE env = "d1" ->
  getConfig env = Returned configUsers ->
  calm w ->
  truthy absent = true -> truthy pass1 = true ->
  truthy present = true -> truthy pass2 = true ->
  stored_password absent (store w) = None ->
  stored_password present (store w) = Some stored -> stored <> pass2 ->
  is_owner env absent && is_owner_password env pass1 = false ->
  is_owner env present && is_owner_password env pass2 = false ->
  fst (POST env (login absent pass1 code1) w)
    = Returned (failure_signal env configUsers absent) /\
  fst (POST env (login present pass2 code2) w)
    = Returned (failure_signal env configUsers present) /\
  status (failure_signal env configUsers absent) = 401 /\
  status (failure_signal env configUsers present) = 401 /\
  (is_banned (config_user configUsers absent) = false ->
   is_banned (config_user configUsers present) = false ->
   fst (POST env (login absent pass1 code1) w) = Returned invalid_credentials /\
   fst (POST env (login present pass2 code2) w) = Returned invalid_credentials).
Proof.
  intros Hm Hc Hcalm Ha Hp1 Hpr Hp2 Habs Hpres Hne Ho1 Ho2.
  assert (H1 : password_matches absent pass1 (store w) = false).
  { unfold password_matches. now rewrite Habs. }
  assert (H2 : password_matches present pass2 (store w) = false).
  { unfold password_matches. rewrite Hpres. now apply String.eqb_neq. }
  pose proof (POST_refused env configUsers absent pass1 code1 w Hm Hc Hcalm Ha Hp1 Ho1 H1)
    as R1.
  pose proof (POST_refused env configUsers present pass2 code2 w Hm Hc Hcalm Hpr Hp2 Ho2 H2)
    as R2.
  rewrite R1, R2. unfold failure_signal.
  split; [reflexivity|]. split; [reflexivity|].
  split; [destruct (is_owner env absent); [|destruct (is_banned _)]; reflexivity|].
  split; [destruct (is_owner env present); [|destruct (is_banned _)]; reflexivity|].
  intros -> ->.
  destruct (is_owner env absent), (is_owner env present); split; reflexivity.
Qed.

Lemma login_failure_uniform_witness :
  fst (POST deployment (login "ghost" "guess" None) (world_of alice_and_bob))
    = Returned (failure_signal deployment [] "ghost") /\
  fst (POST deployment (login "alice" "guess" None) (world_of alice_and_bob))
    = Returned (failure_signal deployment [] "alice") /\
  status (failure_signal deployment [] "ghost") = 401 /\
  status (failure_signal deployment [] "alice") = 401 /\
  (is_banned (config_user [] "ghost") = false ->
   is_banned (config_user [] "alice") = false ->
   fst (POST deployment (login "ghost" "guess" None) (world_of alice_and_bob))
     = Returned invalid_credentials /\
   fst (POST deployment (login "alice" "guess" None) (world_of alice_and_bob))
     = Returned invalid_credentials).
Proof.
  apply (login_failure_uniform deployment [] "ghost" "alice" "guess" "guess" "pw1"
           None None (world_of alice_and_bob)).
  - reflexivity.
  - reflexivity.
  - constructor.
  - reflexivity.
  - reflexivity.
  - reflexivity.
  - reflexivity.
  - reflexivity.
  - reflexivity.
  - discriminate.
  - reflexivity.
  - reflexivity.
Defined.

(** Mallory is stored and banned, Ghost is not stored.  Both logins carry a
    wrong password; the first is answered banned, the second with the generic
    signal: the two outward failures are not the same. *)
Lemma banned_handle_is_told_apart :
  stored_password "ghost" (store (world_of with_mallory)) = None /\
  stored_password "mallory" (store (world_of with_mallory)) = Some "pw3" /\
  fst (POST mallory_banned (login "ghost" "guess" None) (world_of with_mallory))
    = Returned invalid_credentials /\
  fst (POST mallory_banned (login "mallory" "guess" None) (world_of with_mallory))
    = Returned banned_response /\
  fst (POST mallory_banned (login "ghost" "guess" None) (world_of with_mallory))
    <> fst (POST mallory_banned (login "mallory" "guess" None) (world_of with_mallory)).
Proof. repeat split. discriminate. Qed.

(** ** Invariants of the stores the class writes:
    the two shapes the properties above ask of a store, canonical friend
    edges and unique bindings, hold of the empty store and are kept by every
    write of the class, whatever the collaborator does. *)

Section Relates.

Variable R : database -> database -> Prop.
Hypothesis R_refl : forall d, R d d.
Hypothesis R_trans : forall d1 d2 d3, R d1 d2 -> R d2 d3 -> R d1 d3.

Lemma relates_rethrow (A : Type) (m : M A) :
  relates R m -> relates R (try_catch m (fun err => throw err)).
Proof.
  intros H w. specialize (H w). unfold try_catch, throw.
  destruct (m w) as [[a|e] w']; assumption.
Qed.

Lemma relates_statement (A : Type) (s : statement A) :
  (forall w a d, meaning s w = Returned (a, d) -> R (store w) d) ->
  relates R (run s).
Proof.
  intros H w. unfold run, round_trip.
  destruct (fault_next w); [apply R_refl|].
  destruct (accepted s); [|apply R_refl].
  destruct (meaning s (after_trip w)) as [[a d]|e] eqn:E; [|apply R_refl].
  simpl. exact (H (after_trip w) a d E).
Qed.

Lemma relates_batch (ss : list (statement unit)) :
  Forall (fun s => forall w a d, meaning s w = Returned (a, d) -> R (store w) d) ss ->
  relates R (batch ss).
Proof.
  intros H w. unfold batch, round_trip.
  destruct (fault_next w); [apply R_refl|].
  assert (G : forall v d, run_all ss v = Returned d -> R (store v) d).
  { clear w. induction H as [|s ss Hs _ IH]; intros v d; simpl.
    - intros E. inversion E. apply R_refl.
    - destruct (accepted s); [|discriminate].
      destruct (meaning s v) as [[a d']|e] eqn:E; [|discriminate].
      intros E'. apply (R_trans _ d'); [exact (Hs v a d' E)|].
      exact (IH (set_store d' v) d E'). }
  destruct (run_all ss (after_trip w)) as [d|e] eqn:E; [|apply R_refl].
  simpl. exact (G (after_trip w) d E).
Qed.

Lemma relates_ret (A : Type) (a : A) : relates R (ret a).
Proof. intros w. apply R_refl. Qed.

Lemma relates_throw (A : Type) (e : error) : relates R (@throw A e).
Proof. intros w. apply R_refl. Qed.

Lemma relates_Date_now : relates R Date_now.
Proof. intros w. apply R_refl. Qed.

Lemma relates_bind (A B : Type) (m : M A) (k : A -> M B) :
  relates R m -> (forall a, relates R (k a)) -> relates R (bind m k).
Proof.
  intros Hm Hk w. specialize (Hm w). unfold bind.
  destruct (m w) as [[a|e] w']; [|exact Hm].
  apply (R_trans _ (store w')); [exact Hm|apply Hk].
Qed.

Lemma relates_try_catch (A : Type) (m : M A) (h : error -> M A) :
  relates R m -> (forall e, relates R (h e)) -> relates R (try_catch m h).
Proof.
  intros Hm Hh w. specialize (Hm w). unfold try_catch.
  destruct (m w) as [[a|e] w']; [exact Hm|].
  apply (R_trans _ (store w')); [exact Hm|apply Hh].
Qed.

Lemma relates_all (ops : list operation) :
  (forall op, relates R (perform op)) ->
  forall w, R (store w) (store (perform_all ops w)).
Proof.
  intros H. induction ops as [|op ops IH]; intros w; simpl; [apply R_refl|].
  apply (R_trans _ (store (snd (perform op w)))); [apply H|apply IH].
Qed.

End Relates.

Lemma well_formed_same (d d' : database) :
  friends d' = friends d -> machine_codes d' = machine_codes d ->
  stays_well_formed d d'.
Proof.
  unfold stays_well_formed, well_formed, canonical, bindings_unique.
  intros -> ->. auto.
Qed.

Lemma well_formed_deleted (d d' : database) :
  (forall r, In r (friends d') -> In r (friends d)) ->
  (exists p, machine_codes d' = delete_where p (machine_codes d)) ->
  stays_well_formed d d'.
Proof.
  intros Hf [p Hp] [Hc [Hu Hm]]. split.
  - intros r Hr. apply Hc. auto.
  - unfold bindings_unique. rewrite Hp.
    split; now apply delete_where_keeps_NoDup.
Qed.

Lemma delete_where_all (A : Type) (l : list A) :
  l = delete_where (fun _ => false) l.
Proof.
  unfold delete_where. induction l as [|x l IH]; simpl; auto. f_equal. exact IH.
Qed.

Lemma sort2_ordered (x y a b : string) :
  sort2 x y = (a, b) -> js_leb a b = true.
Proof.
  unfold sort2. destruct (js_leb x y) eqn:E; intros H; inversion H; subst; auto.
  now apply js_leb_total.
Qed.

Ltac constrained :=
  unfold constraint, like_checked in *;
  repeat match goal with
         | H : (if ?b then _ else _) = Returned _ |- _ => destruct b; [|discriminate H]
         end;
  match goal with
  | H : Returned _ = Returned _ |- _ => inversion H; subst; clear H
  end.

Ltac each_write op :=
  destruct op as [n p|n c i|n|m|c|c|n f|n f|r|n
                 |n k r|n k|n k f|n k|n p|n k|n k|n s i c|n s i|n a|n
                 |v n d r|v i|m|c u|f s|r s|r|]; simpl;
  unfold D1Storage.registerUser, D1Storage.setUserMachineCode,
    D1Storage.deleteUserMachineCode, D1Storage.saveMessage,
    D1Storage.createConversation, D1Storage.deleteConversation,
    D1Storage.addFriend, D1Storage.removeFriend,
    D1Storage.createFriendRequest, D1Storage.deleteUser,
    D1Storage.setPlayRecord, D1Storage.deletePlayRecord,
    D1Storage.setFavorite, D1Storage.deleteFavorite,
    D1Storage.changePassword, D1Storage.addSearchHistory,
    D1Storage.deleteSearchHistory, D1Storage.setSkipConfig,
    D1Storage.deleteSkipConfig, D1Storage.setUserAvatar,
    D1Storage.deleteUserAvatar, D1Storage.saveDanmu, D1Storage.deleteDanmu,
    D1Storage.markMessageAsRead, D1Storage.updateConversation,
    D1Storage.updateFriendStatus, D1Storage.updateFriendRequest,
    D1Storage.deleteFriendRequest, D1Storage.clearAllData;
  try apply relates_rethrow.

(** A statement, whose effect on the store [close] relates to the store
    before. *)
Ltac settles close :=
  let w := fresh "w" in
  let a := fresh "a" in
  let d := fresh "d" in
  let E := fresh "E" in
  intros w a d E; simpl in E; try unfold update in E; try unfold query in E;
  constrained; close.

Ltac untouched close := apply relates_statement; [assumption|settles close].

Lemma reads_conversation (R : database -> database -> Prop) (conversationId : string) :
  (forall d, R d d) -> (forall d1 d2 d3, R d1 d2 -> R d2 d3 -> R d1 d3) ->
  relates R (D1Storage.getConversation conversationId).
Proof.
  intros Rr Rt. unfold D1Storage.getConversation.
  apply relates_try_catch; auto.
  - apply relates_bind; auto.
    + apply relates_statement; auto. intros w a d E. simpl in E.
      unfold query in E. inversion E; subst. apply Rr.
    + intros [row|]; [|now apply relates_ret].
      destruct (D1Storage.to_conversation row); [now apply relates_ret|now apply relates_throw].
  - intros e. now apply relates_ret.
Qed.

(** The writes of the class, statement by statement. *)
Ltac elsewhere close :=
  repeat match goal with
         | |- relates _ (run _) => untouched close
         | |- relates _ (ret _) => apply relates_ret; assumption
         | |- relates _ Date_now => apply relates_Date_now; assumption
         | |- relates _ (D1Storage.getConversation _) =>
             apply reads_conversation; assumption
         | |- relates _ (bind _ _) =>
             apply relates_bind; [assumption| |intros ?; cbv beta]
         | |- relates _ (match or_absent ?k with _ => _ end) => destruct (or_absent k)
         | |- relates _ (match ?c with Some _ => _ | None => _ end) => destruct c
         | |- relates _ (batch _) =>
             apply relates_batch;
             [assumption|assumption|
              repeat (apply Forall_cons; [settles close|]); apply Forall_nil]
         | |- context [sort2 ?x ?y] => destruct (sort2 x y)
         end.

Lemma stays_well_formed_refl (d : database) : stays_well_formed d d.
Proof. intros H. exact H. Qed.

Lemma stays_well_formed_trans (d1 d2 d3 : database) :
  stays_well_formed d1 d2 -> stays_well_formed d2 d3 -> stays_well_formed d1 d3.
Proof. unfold stays_well_formed. auto. Qed.

Lemma perform_stays_well_formed (op : operation) :
  relates stays_well_formed (perform op).
Proof.
  pose proof stays_well_formed_refl as Rr.
  pose proof stays_well_formed_trans as Rt.
  each_write op.
  - (* registerUser *)
    apply relates_statement; auto. intros w a d E. simpl in E. constrained.
    now apply well_formed_same.
  - (* setUserMachineCode *)
    intros w. unfold bind, Date_now.
    apply (relates_statement _ Rr _ (Sql.replace_machine_code _ _ _ _)).
    intros v a d E [Hc [Hu Hm]]. simpl in E. constrained.
    split; [exact Hc|]. unfold bindings_unique. simpl.
    fold (collides n c).
    split; rewrite map_app; simpl; apply NoDup_snoc;
      try (now apply delete_where_keeps_NoDup);
      intros Hin; apply in_map_iff in Hin; destruct Hin as (r & Hr & Hin);
      apply delete_where_In in Hin; destruct Hin as [_ Hin];
      apply collides_split in Hin; tauto.
  - (* deleteUserMachineCode *)
    apply relates_statement; auto. intros w a d E. simpl in E. unfold update in E.
    inversion E; subst. apply well_formed_deleted; simpl; eauto.
  - (* saveMessage *)
    apply relates_statement; auto. intros w a d E. simpl in E. constrained.
    now apply well_formed_same.
  - (* createConversation *)
    apply relates_statement; auto. intros w a d E. simpl in E. constrained.
    now apply well_formed_same.
  - (* deleteConversation *)
    apply relates_batch; auto.
    apply Forall_cons; [|apply Forall_cons; [|apply Forall_nil]];
      intros w a d E; simpl in E.
    + unfold update in E. inversion E; subst. now apply well_formed_same.
    + inversion E; subst. apply well_formed_same;
        unfold delete_conversations, cascade_conversations;
        destruct (foreign_keys w); reflexivity.
  - (* addFriend *)
    destruct (sort2 n (friend_username f)) as [user1 user2] eqn:S.
    apply relates_statement; auto. intros w a d E [Hc Hb]. simpl in E. constrained.
    split; [|exact Hb]. intros r Hr. simpl in Hr.
    apply in_app_or in Hr. destruct Hr as [Hr|[<-|[]]].
    + apply delete_where_In in Hr. now apply Hc.
    + simpl. exact (sort2_ordered _ _ _ _ S).
  - (* removeFriend *)
    destruct (sort2 n f) as [user1 user2].
    apply relates_statement; auto. intros w a d E. simpl in E. unfold update in E.
    inversion E; subst. apply well_formed_deleted; simpl.
    + intros r Hr. now apply delete_where_In in Hr.
    + exists (fun _ => false). apply delete_where_all.
  - (* createFriendRequest *)
    apply relates_statement; auto. intros w a d E. simpl in E. constrained.
    now apply well_formed_same.
  - (* deleteUser *)
    intros w. unfold batch, round_trip.
    destruct (fault_next w); [apply Rr|].
    rewrite deleteUser_batch. destruct (like_runs _ _); [|apply Rr]. simpl.
    intros [Hc [Hu Hm]]. split.
    + intros r Hr. unfold purge in Hr. simpl in Hr.
      apply Hc. destruct (foreign_keys w); deleted; auto.
    + unfold bindings_unique, purge. simpl.
      destruct (foreign_keys w); split; repeat apply delete_where_keeps_NoDup; auto.
  - (* setPlayRecord *) now elsewhere ltac:(now apply well_formed_same).
  - (* deletePlayRecord *) now elsewhere ltac:(now apply well_formed_same).
  - (* setFavorite *) now elsewhere ltac:(now apply well_formed_same).
  - (* deleteFavorite *) now elsewhere ltac:(now apply well_formed_same).
  - (* changePassword *) now elsewhere ltac:(now apply well_formed_same).
  - (* addSearchHistory *) now elsewhere ltac:(now apply well_formed_same).
  - (* deleteSearchHistory *) now elsewhere ltac:(now apply well_formed_same).
  - (* setSkipConfig *) now elsewhere ltac:(now apply well_formed_same).
  - (* deleteSkipConfig *) now elsewhere ltac:(now apply well_formed_same).
  - (* setUserAvatar *) now elsewhere ltac:(now apply well_formed_same).
  - (* deleteUserAvatar *) now elsewhere ltac:(now apply well_formed_same).
  - (* saveDanmu *) now elsewhere ltac:(now apply well_formed_same).
  - (* deleteDanmu *) now elsewhere ltac:(now apply well_formed_same).
  - (* markMessageAsRead *) now elsewhere ltac:(now apply well_formed_same).
  - (* updateConversation *) now elsewhere ltac:(now apply well_formed_same).
  - (* updateFriendStatus *) now elsewhere ltac:(now apply well_formed_same).
  - (* updateFriendRequest *) now elsewhere ltac:(now apply well_formed_same).
  - (* deleteFriendRequest *) now elsewhere ltac:(now apply well_formed_same).
  - (* clearAllData *)
    apply relates_batch; auto.
    repeat (apply Forall_cons; [|try apply Forall_nil]);
      try (settles ltac:(now apply well_formed_same)).
    intros w a d E. simpl in E. inversion E; subst.
    unfold delete_users, cascade_users.
    destruct (foreign_keys w); apply well_formed_deleted; simpl.
    + intros r Hr. now apply delete_where_In in Hr.
    + eauto.
    + auto.
    + exists (fun _ => false). apply delete_where_all.
Qed.

(** Every store reached from the empty one through the writes of the class
    has canonical friend edges and unique bindings. *)
Theorem reachable_well_formed (ops : list operation) (w : world) :
  store w = empty_database -> well_formed (store (perform_all ops w)).
Proof.
  intros E.
  apply (relates_all stays_well_formed stays_well_formed_refl stays_well_formed_trans ops
           perform_stays_well_formed w).
  rewrite E. split; [exact empty_canonical|]. split; constructor.
Qed.

Lemma no_new_message_refl (d : database) : no_new_message d d.
Proof. apply incl_refl. Qed.

Lemma no_new_message_trans (d1 d2 d3 : database) :
  no_new_message d1 d2 -> no_new_message d2 d3 -> no_new_message d1 d3.
Proof. unfold no_new_message. intros H12 H23. exact (incl_tran H23 H12). Qed.

Lemma no_new_message_same (d d' : database) :
  messages d' = messages d -> no_new_message d d'.
Proof. unfold no_new_message. intros ->. apply incl_refl. Qed.

Lemma no_new_message_among (d d' : database) :
  (forall m, In m (messages d') -> In m (messages d)) -> no_new_message d d'.
Proof.
  intros H i Hi. apply in_map_iff in Hi. destruct Hi as (m & <- & Hm).
  apply in_map. auto.
Qed.

Lemma no_new_message_rewritten (d d' : database) (p : message_row -> bool) :
  messages d' = update_where p Sql.as_read (messages d) -> no_new_message d d'.
Proof.
  unfold no_new_message, update_where. intros ->. rewrite map_map.
  rewrite (map_ext _ msg_id); [apply incl_refl|].
  intros r. now destruct (p r).
Qed.

Lemma perform_no_new_message (op : operation) :
  relates no_new_message (perform op).
Proof.
  pose proof no_new_message_refl as Rr.
  pose proof no_new_message_trans as Rt.
  each_write op.
  - apply relates_statement; auto. intros w a d E. simpl in E. constrained.
    now apply no_new_message_same.
  - intros w. unfold bind, Date_now.
    apply (relates_statement _ Rr _ (Sql.replace_machine_code _ _ _ _)).
    intros v a d E. simpl in E. constrained. now apply no_new_message_same.
  - apply relates_statement; auto. intros w a d E. simpl in E. unfold update in E.
    inversion E; subst. now apply no_new_message_same.
  - (* saveMessage: the statement is never run *)
    intros w. unfold run, round_trip.
    destruct (fault_next w); [apply Rr|].
    rewrite insert_message_rejected. apply Rr.
  - apply relates_statement; auto. intros w a d E. simpl in E. constrained.
    now apply no_new_message_same.
  - apply relates_batch; auto.
    apply Forall_cons; [|apply Forall_cons; [|apply Forall_nil]];
      intros w a d E; simpl in E.
    + unfold update in E. inversion E; subst.
      apply no_new_message_among. intros x Hx. simpl in Hx.
      now apply delete_where_In in Hx.
    + inversion E; subst. apply no_new_message_among. intros x Hx.
      unfold delete_conversations, cascade_conversations in Hx.
      destruct (foreign_keys w); simpl in Hx; auto.
      now apply delete_where_In in Hx.
  - destruct (sort2 n (friend_username f)) as [user1 user2].
    apply relates_statement; auto. intros w a d E. simpl in E. constrained.
    now apply no_new_message_same.
  - destruct (sort2 n f) as [user1 user2].
    apply relates_statement; auto. intros w a d E. simpl in E. unfold update in E.
    inversion E; subst. now apply no_new_message_same.
  - apply relates_statement; auto. intros w a d E. simpl in E. constrained.
    now apply no_new_message_same.
  - intros w. unfold batch, round_trip.
    destruct (fault_next w); [apply Rr|].
    rewrite deleteUser_batch. destruct (like_runs _ _); [|apply Rr]. simpl.
    apply no_new_message_among. intros x Hx. unfold purge in Hx. simpl in Hx.
    destruct (foreign_keys w); deleted; auto.
  - now elsewhere ltac:(now apply no_new_message_same).
  - now elsewhere ltac:(now apply no_new_message_same).
  - now elsewhere ltac:(now apply no_new_message_same).
  - now elsewhere ltac:(now apply no_new_message_same).
  - now elsewhere ltac:(now apply no_new_message_same).
  - now elsewhere ltac:(now apply no_new_message_same).
  - now elsewhere ltac:(now apply no_new_message_same).
  - now elsewhere ltac:(now apply no_new_message_same).
  - now elsewhere ltac:(now apply no_new_message_same).
  - now elsewhere ltac:(now apply no_new_message_same).
  - now elsewhere ltac:(now apply no_new_message_same).
  - now elsewhere ltac:(now apply no_new_message_same).
  - now elsewhere ltac:(now apply no_new_message_same).
  - (* markMessageAsRead rewrites rows in place *)
    apply relates_statement; auto. intros w a d E. simpl in E. unfold update in E.
    inversion E; subst. now apply (no_new_message_rewritten _ _ (fun r => String.eqb (msg_id r) m)).
  - now elsewhere ltac:(now apply no_new_message_same).
  - now elsewhere ltac:(now apply no_new_message_same).
  - now elsewhere ltac:(now apply no_new_message_same).
  - now elsewhere ltac:(now apply no_new_message_same).
  - apply relates_batch; auto.
    repeat (apply Forall_cons; [|try apply Forall_nil]);
      try (settles ltac:(now apply no_new_message_same)).
    intros w a d E. simpl in E. inversion E; subst.
    apply no_new_message_same.
    unfold delete_users, cascade_users. now destruct (foreign_keys w).
Qed.

(** No sequence of writes of the class puts a message in an empty store:
    [saveMessage] is the one write that would, and its statement is never
    run; [markMessageAsRead] rewrites the rows there are. *)
Theorem no_message_is_ever_stored (ops : list operation) (w : world) :
  store w = empty_database -> messages (store (perform_all ops w)) = [].
Proof.
  intros E.
  pose proof (relates_all no_new_message no_new_message_refl no_new_message_trans ops
                perform_no_new_message w) as H.
  rewrite E in H. unfold no_new_message in H. simpl in H.
  destruct (messages (store (perform_all ops w))) as [|m l]; [reflexivity|].
  destruct (H (msg_id m) (or_introl eq_refl)).
Qed.

(** ** The scenarios of the specification, run on the model *)

(** Registration twice under one handle, then a good and a bad login. *)
Example scenario_accounts :
  let w1 := D1Storage.registerUser "alice" "pw1" fresh in
  let w2 := then_run w1 (D1Storage.registerUser "alice" "pw2") in
  fst w1 = Returned tt /\
  fst w2 = Thrown (ConstraintFailed "UNIQUE constraint failed: users.username") /\
  answer (then_run w2 (POST deployment (login "alice" "pw1" None)))
    = Some ([("ok", JBool true); ("machineCodeBound", JBool false);
             ("username", JString "alice")], 200) /\
  member "role"
    (session_data deployment (Some "alice") (Some "pw1") (role_of [] "alice") false 0%Z)
    = Some (JString "user") /\
  answer (then_run w2 (POST deployment (login "alice" "wrong" None)))
    = Some ([("error", JString "用户名或密码错误")], 401).
Proof. repeat split. Qed.

(** A first login with a code and no binding, an explicit bind, then logins
    without the code and with it in another case. *)
Example scenario_binding :
  let w0 := world_of alice_and_bob in
  let first := POST deployment (login "alice" "pw1" (Some "ABC123")) w0 in
  let bind := then_run first (D1Storage.setUserMachineCode "alice" "ABC123" None) in
  answer first
    = Some ([("ok", JBool true); ("machineCodeBound", JBool false);
             ("username", JString "alice")], 200) /\
  fst bind = Returned tt /\
  fst (then_run bind (POST deployment (login "alice" "pw1" None)))
    = Returned code_required /\
  answer (then_run bind (POST deployment (login "alice" "pw1" (Some "abc123"))))
    = Some ([("ok", JBool true); ("machineCodeBound", JBool true);
             ("username", JString "alice")], 200) /\
  fst (then_run bind (POST deployment (login "bob" "pw2" (Some "ABC123"))))
    = Returned (code_taken "alice").
Proof. repeat split. Qed.

(** Conversation C of Alice and Bob is deleted with its messages; a read of C
    then finds nothing, and conversation D is as it was. *)
Example scenario_conversation :
  let deleted := D1Storage.deleteConversation "C" (world_of two_conversations) in
  fst deleted = Returned tt /\
  messages (store (snd deleted)) = [message_in "m3" "D" "bob"] /\
  conversations (store (snd deleted)) = [conversation_of "D" ["bob"; "carol"]] /\
  fst (then_run deleted (D1Storage.getConversation "C")) = Returned None /\
  option_map (option_map conv_participants)
    (returned (fst (then_run deleted (D1Storage.getConversation "D"))))
    = Some (Some ["bob"; "carol"]).
Proof. repeat split. Qed.

(** The purge of Alice from that store: her account, the conversation she
    takes part in and its messages go; Bob's conversation with Carol stays. *)
Example scenario_purge :
  let purged := D1Storage.deleteUser "alice" (world_of two_conversations) in
  fst purged = Returned tt /\
  map u_username (users (store (snd purged))) = ["bob"; "carol"] /\
  map cv_id (conversations (store (snd purged))) = ["D"] /\
  map msg_id (messages (store (snd purged))) = ["m3"] /\
  fst (then_run purged (D1Storage.checkUserExist "alice")) = Returned false /\
  fst (then_run purged (D1Storage.getConversations "alice")) = Returned [].
Proof. repeat split. Qed.

(** ** JSON: reading back what was written *)

Lemma parse_escaped_char (c : ascii) (rest : list ascii) :
  parse_json_string (json_escape_char c ++ rest) =
  match parse_json_string rest with
  | Some (s, r) => Some (c :: s, r)
  | None => None
  end.
Proof.
  destruct c as [[] [] [] [] [] [] [] []]; reflexivity.
Qed.

Lemma parse_quoted (l rest : list ascii) :
  parse_json_string (flat_map json_escape_char l ++ dquote :: rest) = Some (l, rest).
Proof.
  induction l as [|c l IH]; [reflexivity|].
  cbn [flat_map]. rewrite <- app_assoc, parse_escaped_char, IH. reflexivity.
Qed.

Lemma json_elements_rest (s : list ascii) (l : list (list ascii)) :
  json_elements (s :: l) ++ ["]"%char] = json_quote s ++ json_rest l.
Proof.
  revert s. induction l as [|t l IH]; intros s; [reflexivity|].
  change (json_elements (s :: t :: l))
    with (json_quote s ++ ","%char :: json_elements (t :: l)).
  rewrite <- app_assoc. cbn [app json_rest]. now rewrite IH.
Qed.

Lemma text_chars (s : string) : text (chars s) = s.
Proof. apply string_of_list_ascii_of_string. Qed.

Lemma parse_json_rest (l : list string) (fuel : nat) :
  List.length l < fuel ->
  parse_json_more fuel (json_rest (map chars l)) = Some l.
Proof.
  revert fuel. induction l as [|s l IH]; intros fuel Hf.
  - destruct fuel; [lia|]. reflexivity.
  - destruct fuel; [simpl in Hf; lia|].
    cbn [map json_rest parse_json_more skip_space].
    change (is_space ","%char) with false. cbv iota.
    change (Ascii.eqb ","%char "]"%char) with false.
    change (Ascii.eqb ","%char ","%char) with true. cbv iota.
    unfold json_quote. cbn [app skip_space].
    change (is_space dquote) with false. cbv iota.
    rewrite Ascii.eqb_refl.
    rewrite <- app_assoc. cbn [app]. rewrite parse_quoted.
    rewrite IH by (simpl in Hf; lia). now rewrite text_chars.
Qed.

Lemma json_rest_length (l : list (list ascii)) : List.length l < S (List.length (json_rest l)).
Proof.
  induction l as [|s l IH]; simpl; [lia|].
  rewrite length_app. simpl. lia.
Qed.

(** [JSON.parse] gives back the list [JSON.stringify] wrote: the participants
    a conversation is created with are the ones its readers get. *)
Lemma JSON_parse_stringify (l : list string) :
  JSON_parse_array (JSON_stringify_array l) = Some l.
Proof.
  unfold JSON_parse_array, JSON_stringify_array. rewrite chars_text.
  destruct l as [|s l]; [reflexivity|].
  cbn [map]. rewrite json_elements_rest.
  cbn [skip_space]. change (is_space "["%char) with false. cbv iota.
  rewrite Ascii.eqb_refl. unfold json_quote. cbn [app skip_space].
  change (is_space dquote) with false. cbv iota.
  change (Ascii.eqb dquote "]"%char) with false. cbv iota.
  rewrite Ascii.eqb_refl.
  rewrite <- app_assoc. cbn [app]. rewrite parse_quoted.
  rewrite parse_json_rest.
  - now rewrite text_chars.
  - rewrite <- (length_map chars l). apply json_rest_length.
Qed.

(** * Further properties of the code *)

(** ** Statements that run *)

Lemma run_update (s : statement unit) (f : database -> database) (w : world) :
  fault_next w = false -> accepted s = true -> meaning s = update f ->
  run s w = (Returned tt, set_store (f (store w)) (after_trip w)).
Proof.
  intros Hf Ha Hm. rewrite run_accepted by assumption. rewrite Hm.
  unfold update. now rewrite store_after_trip.
Qed.

(** The next round trip of a calm world succeeds. *)
Ltac quiet :=
  apply calm_next;
  repeat first [assumption | apply calm_after_trip | apply calm_set_store].

Ltac runs := first [reflexivity | quiet].

Lemma find_app_none (A : Type) (p : A -> bool) (l l' : list A) :
  find p l = None -> find p (l ++ l') = find p l'.
Proof.
  induction l as [|x l IH]; simpl; auto.
  destruct (p x); [discriminate|auto].
Qed.

Lemma find_delete_where (A : Type) (p : A -> bool) (l : list A) :
  find p (delete_where p l) = None.
Proof.
  apply find_none_iff. intros r Hr. now apply delete_where_In in Hr.
Qed.

Lemma filter_delete_where_other (A : Type) (p q : A -> bool) (l : list A) :
  (forall r, p r = true -> q r = false) ->
  filter p (delete_where q l) = filter p l.
Proof.
  intros H. unfold delete_where. induction l as [|x l IH]; simpl; auto.
  destruct (q x) eqn:Q; simpl.
  - destruct (p x) eqn:P; auto. apply H in P. congruence.
  - now rewrite IH.
Qed.

Lemma or_absent_twice (o : option string) : or_absent (or_absent o) = or_absent o.
Proof. destruct o as [[|c s]|]; reflexivity. Qed.

Lemma calm_world_of (d : database) : calm (world_of d).
Proof. constructor. Qed.

(** ** Play records *)

Lemma setPlayRecord_ok (userName key : string) (record : PlayRecord) (w : world) :
  fault_next w = false ->
  D1Storage.setPlayRecord userName key record w =
  (Returned tt,
   set_store
     (set_play_records
        (delete_where (Sql.play_key userName key) (play_records (store w))
         ++ [play_row userName key record (play_records (store w))])
        (store w))
     (after_trip w)).
Proof.
  intros F. unfold D1Storage.setPlayRecord, try_catch.
  erewrite run_update by (assumption || reflexivity). reflexivity.
Qed.

Lemma getPlayRecord_ok (userName key : string) (w : world) :
  fault_next w = false ->
  D1Storage.getPlayRecord userName key w =
  (Returned (option_map D1Storage.to_play_record
               (find (Sql.play_key userName key) (play_records (store w)))),
   after_trip w).
Proof.
  intros F. unfold D1Storage.getPlayRecord, try_catch, bind, ret.
  erewrite run_query by (assumption || reflexivity). cbv beta.
  destruct (find _ _); reflexivity.
Qed.

Lemma deletePlayRecord_ok (userName key : string) (w : world) :
  fault_next w = false ->
  D1Storage.deletePlayRecord userName key w =
  (Returned tt,
   set_store
     (set_play_records
        (delete_where (Sql.play_key userName key) (play_records (store w))) (store w))
     (after_trip w)).
Proof.
  intros F. unfold D1Storage.deletePlayRecord, try_catch.
  erewrite run_update by (assumption || reflexivity). reflexivity.
Qed.

Lemma play_key_iff (u k : string) (r : play_record_row) :
  Sql.play_key u k r = true <-> pr_username r = u /\ pr_key r = k.
Proof.
  unfold Sql.play_key. rewrite andb_true_iff, !String.eqb_eq. tauto.
Qed.

Lemma play_key_other (u k userName key : string) (r : play_record_row) :
  (u, k) <> (userName, key) -> Sql.play_key u k r = true -> Sql.play_key userName key r = false.
Proof.
  intros Hne H. apply play_key_iff in H. destruct H as [<- <-].
  destruct (Sql.play_key userName key r) eqn:E; auto.
  apply play_key_iff in E. destruct E as [<- <-]. congruence.
Qed.

(** Writing a row under a key: the rows of the key are replaced by the new
    one, the rows of the other keys stay. *)
Lemma upsert_own (A : Type) (mine : A -> bool) (row : A) (l : list A) :
  mine row = true ->
  filter mine (delete_where mine l ++ [row]) = [row] /\
  find mine (delete_where mine l ++ [row]) = Some row.
Proof.
  intros Hrow. split.
  - rewrite filter_app. cbn [filter]. rewrite Hrow.
    replace (filter mine (delete_where mine l)) with (@nil A); [reflexivity|].
    symmetry. apply filter_nil_iff. intros r Hr. now apply delete_where_In in Hr.
  - rewrite find_app_none by apply find_delete_where. cbn [find]. now rewrite Hrow.
Qed.

Lemma upsert_other (A : Type) (mine other : A -> bool) (row : A) (l : list A) :
  mine row = true ->
  (forall r, other r = true -> mine r = false) ->
  filter other (delete_where mine l ++ [row]) = filter other l.
Proof.
  intros Hrow Hother.
  rewrite filter_app. cbn [filter].
  destruct (other row) eqn:E; [apply Hother in E; congruence|].
  rewrite app_nil_r. now apply filter_delete_where_other.
Qed.

(** X1.  A play record written under a handle and a key is the one row the
    table holds for them and reads back as it was written, its search title
    absent when it was empty; the rows of every other handle or key are as
    they were; after [deletePlayRecord] the read gives null. *)
Theorem setPlayRecord_getPlayRecord (userName key : string) (record : PlayRecord) (w : world) :
  calm w ->
  exists w1 w2 w3 w4 row,
    D1Storage.setPlayRecord userName key record w = (Returned tt, w1) /\
    filter (Sql.play_key userName key) (play_records (store w1)) = [row] /\
    D1Storage.getPlayRecord userName key w1 = (Returned (Some (stored_record record)), w2) /\
    (forall u k, (u, k) <> (userName, key) ->
       filter (Sql.play_key u k) (play_records (store w2)) =
       filter (Sql.play_key u k) (play_records (store w))) /\
    D1Storage.deletePlayRecord userName key w2 = (Returned tt, w3) /\
    D1Storage.getPlayRecord userName key w3 = (Returned None, w4) /\
    (forall u k, (u, k) <> (userName, key) ->
       filter (Sql.play_key u k) (play_records (store w4)) =
       filter (Sql.play_key u k) (play_records (store w))).
Proof.
  intros Hcalm.
  set (row := play_row userName key record (play_records (store w))).
  assert (Hrow : Sql.play_key userName key row = true).
  { unfold Sql.play_key, row. cbn [pr_username pr_key play_row]. now rewrite !String.eqb_refl. }
  destruct (upsert_own _ (Sql.play_key userName key) row (play_records (store w)) Hrow)
    as [Hone Hfind].
  assert (Hup := fun u k (Hne : (u, k) <> (userName, key)) =>
    upsert_other _ (Sql.play_key userName key) (Sql.play_key u k) row
      (play_records (store w)) Hrow (fun r => play_key_other u k userName key r Hne)).
  eexists. eexists. eexists. eexists. exists row.
  split; [apply setPlayRecord_ok; quiet|].
  split; [exact Hone|].
  split.
  { rewrite getPlayRecord_ok by quiet.
    cbn [store set_store play_records set_play_records]. fold row. rewrite Hfind.
    cbn [option_map]. unfold D1Storage.to_play_record, stored_record, row.
    cbn [play_row pr_title pr_source_name pr_cover pr_year pr_index_episode pr_total_episodes
         pr_play_time pr_total_time pr_save_time pr_search_title].
    now rewrite or_absent_twice. }
  split.
  { intros u k Hne. now apply Hup. }
  split; [apply deletePlayRecord_ok; quiet|].
  split.
  { rewrite getPlayRecord_ok by quiet.
    cbn [store set_store after_trip set_faults play_records set_play_records].
    now rewrite find_delete_where. }
  intros u k Hne. cbn [store set_store after_trip set_faults play_records set_play_records].
  fold row.
  rewrite filter_delete_where_other by (intros r; apply play_key_other; exact Hne).
  now apply Hup.
Qed.

Lemma setPlayRecord_getPlayRecord_witness :
  exists w1 w2 w3 w4 row,
    D1Storage.setPlayRecord "alice" "src+42" a_record (world_of alice_and_bob) = (Returned tt, w1) /\
    filter (Sql.play_key "alice" "src+42") (play_records (store w1)) = [row] /\
    D1Storage.getPlayRecord "alice" "src+42" w1 = (Returned (Some (stored_record a_record)), w2) /\
    (forall u k, (u, k) <> ("alice", "src+42") ->
       filter (Sql.play_key u k) (play_records (store w2)) =
       filter (Sql.play_key u k) (play_records (store (world_of alice_and_bob)))) /\
    D1Storage.deletePlayRecord "alice" "src+42" w2 = (Returned tt, w3) /\
    D1Storage.getPlayRecord "alice" "src+42" w3 = (Returned None, w4) /\
    (forall u k, (u, k) <> ("alice", "src+42") ->
       filter (Sql.play_key u k) (play_records (store w4)) =
       filter (Sql.play_key u k) (play_records (store (world_of alice_and_bob)))).
Proof.
  apply (setPlayRecord_getPlayRecord "alice" "src+42" a_record (world_of alice_and_bob)).
  apply calm_world_of.
Defined.

(** ** Favorites *)

Lemma setFavorite_ok (userName key : string) (favorite : Favorite) (w : world) :
  fault_next w = false ->
  D1Storage.setFavorite userName key favorite w =
  (Returned tt,
   set_store
     (set_favorites
        (delete_where (Sql.favorite_key userName key) (favorites (store w))
         ++ [favorite_row_of userName key favorite (favorites (store w))])
        (store w))
     (after_trip w)).
Proof.
  intros F. unfold D1Storage.setFavorite, try_catch.
  erewrite run_update by (assumption || reflexivity). reflexivity.
Qed.

Lemma getFavorite_ok (userName key : string) (w : world) :
  fault_next w = false ->
  D1Storage.getFavorite userName key w =
  (Returned (option_map D1Storage.to_favorite
               (find (Sql.favorite_key userName key) (favorites (store w)))),
   after_trip w).
Proof.
  intros F. unfold D1Storage.getFavorite, try_catch, bind, ret.
  erewrite run_query by (assumption || reflexivity). cbv beta.
  destruct (find _ _); reflexivity.
Qed.

Lemma deleteFavorite_ok (userName key : string) (w : world) :
  fault_next w = false ->
  D1Storage.deleteFavorite userName key w =
  (Returned tt,
   set_store
     (set_favorites
        (delete_where (Sql.favorite_key userName key) (favorites (store w))) (store w))
     (after_trip w)).
Proof.
  intros F. unfold D1Storage.deleteFavorite, try_catch.
  erewrite run_update by (assumption || reflexivity). reflexivity.
Qed.

Lemma favorite_key_iff (u k : string) (r : favorite_row) :
  Sql.favorite_key u k r = true <-> fav_username r = u /\ fav_key r = k.
Proof.
  unfold Sql.favorite_key. rewrite andb_true_iff, !String.eqb_eq. tauto.
Qed.

Lemma favorite_key_other (u k userName key : string) (r : favorite_row) :
  (u, k) <> (userName, key) ->
  Sql.favorite_key u k r = true -> Sql.favorite_key userName key r = false.
Proof.
  intros Hne H. apply favorite_key_iff in H. destruct H as [<- <-].
  destruct (Sql.favorite_key userName key r) eqn:E; auto.
  apply favorite_key_iff in E. destruct E as [<- <-]. congruence.
Qed.

(** X2.  A favorite written under a handle and a key is the one row the table
    holds for them; it reads back with the fields it was written with, except
    the search title, which the table has no column for and which comes back
    absent.  The rows of every other handle or key are as they were, and
    after [deleteFavorite] the read gives null. *)
Theorem setFavorite_getFavorite (userName key : string) (favorite : Favorite) (w : world) :
  calm w ->
  exists w1 w2 w3 w4 row,
    D1Storage.setFavorite userName key favorite w = (Returned tt, w1) /\
    filter (Sql.favorite_key userName key) (favorites (store w1)) = [row] /\
    D1Storage.getFavorite userName key w1 = (Returned (Some (stored_favorite favorite)), w2) /\
    fv_search_title (stored_favorite favorite) = None /\
    (forall u k, (u, k) <> (userName, key) ->
       filter (Sql.favorite_key u k) (favorites (store w2)) =
       filter (Sql.favorite_key u k) (favorites (store w))) /\
    D1Storage.deleteFavorite userName key w2 = (Returned tt, w3) /\
    D1Storage.getFavorite userName key w3 = (Returned None, w4) /\
    (forall u k, (u, k) <> (userName, key) ->
       filter (Sql.favorite_key u k) (favorites (store w4)) =
       filter (Sql.favorite_key u k) (favorites (store w))).
Proof.
  intros Hcalm.
  set (row := favorite_row_of userName key favorite (favorites (store w))).
  assert (Hrow : Sql.favorite_key userName key row = true).
  { unfold Sql.favorite_key, row. cbn [fav_username fav_key favorite_row_of].
    now rewrite !String.eqb_refl. }
  destruct (upsert_own _ (Sql.favorite_key userName key) row (favorites (store w)) Hrow)
    as [Hone Hfind].
  assert (Hup := fun u k (Hne : (u, k) <> (userName, key)) =>
    upsert_other _ (Sql.favorite_key userName key) (Sql.favorite_key u k) row
      (favorites (store w)) Hrow (fun r => favorite_key_other u k userName key r Hne)).
  eexists. eexists. eexists. eexists. exists row.
  split; [apply setFavorite_ok; quiet|].
  split; [exact Hone|].
  split.
  { rewrite getFavorite_ok by quiet.
    cbn [store set_store favorites set_favorites]. fold row. now rewrite Hfind. }
  split; [reflexivity|].
  split.
  { intros u k Hne. now apply Hup. }
  split; [apply deleteFavorite_ok; quiet|].
  split.
  { rewrite getFavorite_ok by quiet.
    cbn [store set_store after_trip set_faults favorites set_favorites].
    now rewrite find_delete_where. }
  intros u k Hne. cbn [store set_store after_trip set_faults favorites set_favorites].
  fold row.
  rewrite filter_delete_where_other by (intros r; apply favorite_key_other; exact Hne).
  now apply Hup.
Qed.

Lemma setFavorite_getFavorite_witness :
  exists w1 w2 w3 w4 row,
    D1Storage.setFavorite "alice" "src+42" a_favorite (world_of alice_and_bob) = (Returned tt, w1) /\
    filter (Sql.favorite_key "alice" "src+42") (favorites (store w1)) = [row] /\
    D1Storage.getFavorite "alice" "src+42" w1 = (Returned (Some (stored_favorite a_favorite)), w2) /\
    fv_search_title (stored_favorite a_favorite) = None /\
    (forall u k, (u, k) <> ("alice", "src+42") ->
       filter (Sql.favorite_key u k) (favorites (store w2)) =
       filter (Sql.favorite_key u k) (favorites (store (world_of alice_and_bob)))) /\
    D1Storage.deleteFavorite "alice" "src+42" w2 = (Returned tt, w3) /\
    D1Storage.getFavorite "alice" "src+42" w3 = (Returned None, w4) /\
    (forall u k, (u, k) <> ("alice", "src+42") ->
       filter (Sql.favorite_key u k) (favorites (store w4)) =
       filter (Sql.favorite_key u k) (favorites (store (world_of alice_and_bob)))).
Proof.
  apply (setFavorite_getFavorite "alice" "src+42" a_favorite (world_of alice_and_bob)).
  apply calm_world_of.
Defined.

(** ** Skip configurations *)

Lemma setSkipConfig_ok (userName source id : string) (config : SkipConfig) (w : world) :
  fault_next w = false ->
  D1Storage.setSkipConfig userName source id config w =
  (Returned tt,
   set_store
     (set_skip_configs
        (delete_where (Sql.skip_key userName source id) (skip_configs (store w))
         ++ [skip_row userName source id config (skip_configs (store w))])
        (store w))
     (after_trip w)).
Proof.
  intros F. unfold D1Storage.setSkipConfig, try_catch.
  erewrite run_update by (assumption || reflexivity). reflexivity.
Qed.

Lemma getSkipConfig_ok (userName source id : string) (w : world) :
  fault_next w = false ->
  D1Storage.getSkipConfig userName source id w =
  (Returned (option_map D1Storage.to_skip_config
               (find (Sql.skip_key userName source id) (skip_configs (store w)))),
   after_trip w).
Proof.
  intros F. unfold D1Storage.getSkipConfig, try_catch, bind, ret.
  erewrite run_query by (assumption || reflexivity). cbv beta.
  destruct (find _ _); reflexivity.
Qed.

Lemma deleteSkipConfig_ok (userName source id : string) (w : world) :
  fault_next w = false ->
  D1Storage.deleteSkipConfig userName source id w =
  (Returned tt,
   set_store
     (set_skip_configs
        (delete_where (Sql.skip_key userName source id) (skip_configs (store w))) (store w))
     (after_trip w)).
Proof.
  intros F. unfold D1Storage.deleteSkipConfig, try_catch.
  erewrite run_update by (assumption || reflexivity). reflexivity.
Qed.

Lemma skip_key_iff (u s i : string) (r : skip_config_row) :
  Sql.skip_key u s i r = true <-> sk_username r = u /\ sk_source r = s /\ sk_id_video r = i.
Proof.
  unfold Sql.skip_key. rewrite !andb_true_iff, !String.eqb_eq. tauto.
Qed.

Lemma skip_key_other (u s i userName source id : string) (r : skip_config_row) :
  (u, s, i) <> (userName, source, id) ->
  Sql.skip_key u s i r = true -> Sql.skip_key userName source id r = false.
Proof.
  intros Hne H. apply skip_key_iff in H. destruct H as (<- & <- & <-).
  destruct (Sql.skip_key userName source id r) eqn:E; auto.
  apply skip_key_iff in E. destruct E as (<- & <- & <-). congruence.
Qed.

Lemma to_skip_config_skip_row (userName source id : string) (config : SkipConfig)
    (rows : list skip_config_row) :
  D1Storage.to_skip_config (skip_row userName source id config rows) = config.
Proof. destruct config as [[] intro outro]; reflexivity. Qed.

(** X3.  A skip configuration written for a handle, a source and a video is
    the one row the table holds for them and reads back as it was written,
    the flag [enable] passing through the integers 1 and 0; the rows of every
    other handle, source or video are as they were, and after
    [deleteSkipConfig] the read gives null. *)
Theorem setSkipConfig_getSkipConfig (userName source id : string) (config : SkipConfig)
    (w : world) :
  calm w ->
  exists w1 w2 w3 w4 row,
    D1Storage.setSkipConfig userName source id config w = (Returned tt, w1) /\
    filter (Sql.skip_key userName source id) (skip_configs (store w1)) = [row] /\
    D1Storage.getSkipConfig userName source id w1 = (Returned (Some config), w2) /\
    (forall u s i, (u, s, i) <> (userName, source, id) ->
       filter (Sql.skip_key u s i) (skip_configs (store w2)) =
       filter (Sql.skip_key u s i) (skip_configs (store w))) /\
    D1Storage.deleteSkipConfig userName source id w2 = (Returned tt, w3) /\
    D1Storage.getSkipConfig userName source id w3 = (Returned None, w4) /\
    (forall u s i, (u, s, i) <> (userName, source, id) ->
       filter (Sql.skip_key u s i) (skip_configs (store w4)) =
       filter (Sql.skip_key u s i) (skip_configs (store w))).
Proof.
  intros Hcalm.
  set (row := skip_row userName source id config (skip_configs (store w))).
  assert (Hrow : Sql.skip_key userName source id row = true).
  { unfold Sql.skip_key, row. cbn [sk_username sk_source sk_id_video skip_row].
    now rewrite !String.eqb_refl. }
  destruct (upsert_own _ (Sql.skip_key userName source id) row (skip_configs (store w)) Hrow)
    as [Hone Hfind].
  assert (Hup := fun u s i (Hne : (u, s, i) <> (userName, source, id)) =>
    upsert_other _ (Sql.skip_key userName source id) (Sql.skip_key u s i) row
      (skip_configs (store w)) Hrow (fun r => skip_key_other u s i userName source id r Hne)).
  eexists. eexists. eexists. eexists. exists row.
  split; [apply setSkipConfig_ok; quiet|].
  split; [exact Hone|].
  split.
  { rewrite getSkipConfig_ok by quiet.
    cbn [store set_store skip_configs set_skip_configs]. fold row. rewrite Hfind.
    cbn [option_map]. unfold row. now rewrite to_skip_config_skip_row. }
  split.
  { intros u s i Hne. now apply Hup. }
  split; [apply deleteSkipConfig_ok; quiet|].
  split.
  { rewrite getSkipConfig_ok by quiet.
    cbn [store set_store after_trip set_faults skip_configs set_skip_configs].
    now rewrite find_delete_where. }
  intros u s i Hne. cbn [store set_store after_trip set_faults skip_configs set_skip_configs].
  fold row.
  rewrite filter_delete_where_other by (intros r; apply skip_key_other; exact Hne).
  now apply Hup.
Qed.

Lemma setSkipConfig_getSkipConfig_witness :
  exists w1 w2 w3 w4 row,
    D1Storage.setSkipConfig "alice" "src" "42" a_skip_config (world_of alice_and_bob)
      = (Returned tt, w1) /\
    filter (Sql.skip_key "alice" "src" "42") (skip_configs (store w1)) = [row] /\
    D1Storage.getSkipConfig "alice" "src" "42" w1 = (Returned (Some a_skip_config), w2) /\
    (forall u s i, (u, s, i) <> ("alice", "src", "42") ->
       filter (Sql.skip_key u s i) (skip_configs (store w2)) =
       filter (Sql.skip_key u s i) (skip_configs (store (world_of alice_and_bob)))) /\
    D1Storage.deleteSkipConfig "alice" "src" "42" w2 = (Returned tt, w3) /\
    D1Storage.getSkipConfig "alice" "src" "42" w3 = (Returned None, w4) /\
    (forall u s i, (u, s, i) <> ("alice", "src", "42") ->
       filter (Sql.skip_key u s i) (skip_configs (store w4)) =
       filter (Sql.skip_key u s i) (skip_configs (store (world_of alice_and_bob)))).
Proof.
  apply (setSkipConfig_getSkipConfig "alice" "src" "42" a_skip_config (world_of alice_and_bob)).
  apply calm_world_of.
Defined.

(** ** Ordered results *)

Lemma insert_desc_perm (A : Type) (key : A -> Z) (x : A) (l : list A) :
  Permutation (insert_desc key x l) (x :: l).
Proof.
  induction l as [|y l IH]; cbn [insert_desc]; [reflexivity|].
  destruct (key y <=? key x)%Z; [reflexivity|].
  rewrite IH. apply perm_swap.
Qed.

Lemma order_by_desc_perm (A : Type) (key : A -> Z) (l : list A) :
  Permutation (order_by_desc key l) l.
Proof.
  induction l as [|x l IH]; [reflexivity|].
  unfold order_by_desc. cbn [fold_right]. fold (order_by_desc key l).
  rewrite insert_desc_perm. now apply perm_skip.
Qed.

Lemma insert_asc_perm (A : Type) (key : A -> Z) (x : A) (l : list A) :
  Permutation (insert_asc key x l) (x :: l).
Proof.
  induction l as [|y l IH]; cbn [insert_asc]; [reflexivity|].
  destruct (key x <=? key y)%Z; [reflexivity|].
  rewrite IH. apply perm_swap.
Qed.

Lemma order_by_asc_perm (A : Type) (key : A -> Z) (l : list A) :
  Permutation (order_by_asc key l) l.
Proof.
  induction l as [|x l IH]; [reflexivity|].
  unfold order_by_asc. cbn [fold_right]. fold (order_by_asc key l).
  rewrite insert_asc_perm. now apply perm_skip.
Qed.

(** ** Objects filled key by key *)

Lemma property_assign_same (A : Type) (k : string) (v : A) (o : list (string * A)) :
  k <> "__proto__" -> property k (assign k v o) = Some v.
Proof.
  intros Hk. apply String.eqb_neq in Hk. unfold assign. rewrite Hk.
  unfold property. induction o as [|[k' v'] o IH]; cbn [put find fst].
  - now rewrite String.eqb_refl.
  - destruct (String.eqb k' k) eqn:E; cbn [find fst].
    + now rewrite String.eqb_refl.
    + now rewrite E.
Qed.

Lemma property_assign_other (A : Type) (k k' : string) (v : A) (o : list (string * A)) :
  k' <> k -> property k (assign k' v o) = property k o.
Proof.
  intros Hne. unfold assign. destruct (String.eqb k' "__proto__"); [reflexivity|].
  apply String.eqb_neq in Hne.
  unfold property. induction o as [|[k0 v0] o IH]; cbn [put find fst].
  - now rewrite Hne.
  - destruct (String.eqb k0 k') eqn:E; cbn [find fst].
    + apply String.eqb_eq in E. subst k0. now rewrite Hne.
    + destruct (String.eqb k0 k); [reflexivity|exact IH].
Qed.

(** No assignment gives the object a member [__proto__]. *)
Lemma property_proto (A B : Type) (key : B -> string) (val : B -> A) (l : list B)
    (o : list (string * A)) :
  property "__proto__" (fold_left (fun o r => assign (key r) (val r) o) l o) =
  property "__proto__" o.
Proof.
  revert o. induction l as [|x l IH]; intros o; [reflexivity|].
  cbn [fold_left]. rewrite IH.
  destruct (String.eqb (key x) "__proto__") eqn:E.
  - unfold assign. now rewrite E.
  - apply String.eqb_neq in E. now apply property_assign_other.
Qed.

(** An object filled from rows of distinct keys holds, under a key, the value
    of the row of that key. *)
Lemma property_fold (A B : Type) (key : B -> string) (val : B -> A) (k : string)
    (l : list B) (o : list (string * A)) :
  k <> "__proto__" ->
  NoDup (map key l) ->
  property k (fold_left (fun o r => assign (key r) (val r) o) l o) =
  match find (fun r => String.eqb (key r) k) l with
  | Some r => Some (val r)
  | None => property k o
  end.
Proof.
  intros Hk. revert o. induction l as [|x l IH]; intros o Hnd; [reflexivity|].
  inversion Hnd as [|? ? Hx Hl]; subst.
  cbn [fold_left find]. rewrite IH by assumption.
  destruct (String.eqb (key x) k) eqn:E.
  - apply String.eqb_eq in E. subst k.
    replace (find _ l) with (@None B); [now apply property_assign_same|].
    symmetry. apply find_none_iff. intros r Hr. apply String.eqb_neq.
    intros E. apply Hx. rewrite <- E. now apply in_map.
  - apply String.eqb_neq in E.
    destruct (find _ l); [reflexivity|]. now apply property_assign_other.
Qed.

Lemma find_unique (A : Type) (key : A -> string) (l : list A) (r : A) :
  NoDup (map key l) -> In r l ->
  find (fun x => String.eqb (key x) (key r)) l = Some r.
Proof.
  induction l as [|x l IH]; intros Hnd Hin; [destruct Hin|].
  inversion Hnd as [|? ? Hx Hl]; subst. cbn [find].
  destruct Hin as [->|Hin]; [now rewrite String.eqb_refl|].
  destruct (String.eqb (key x) (key r)) eqn:E; [|auto].
  apply String.eqb_eq in E. exfalso. apply Hx. rewrite E. now apply in_map.
Qed.

Lemma find_same (A : Type) (p q : A -> bool) (l : list A) :
  (forall r, p r = q r) -> find p l = find q l.
Proof.
  intros H. induction l as [|x l IH]; [reflexivity|].
  cbn [find]. now rewrite H, IH.
Qed.

(** Rows with distinct full keys, restricted to those of one owner, have
    distinct keys. *)
Lemma NoDup_within (A K K' : Type) (full : A -> K) (key : A -> K') (mine : A -> bool)
    (l : list A) :
  (forall x y, In x l -> In y l -> mine x = true -> mine y = true ->
               key x = key y -> full x = full y) ->
  NoDup (map full l) -> NoDup (map key (filter mine l)).
Proof.
  induction l as [|x l IH]; intros Hinj Hnd; [constructor|].
  inversion Hnd as [|? ? Hx Hl]; subst. cbn [filter].
  assert (IH' : NoDup (map key (filter mine l))).
  { apply IH; [|assumption]. intros a b Ha Hb. apply Hinj; now right. }
  destruct (mine x) eqn:E; [|exact IH'].
  cbn [map]. constructor; [|exact IH'].
  intros Hin. apply in_map_iff in Hin. destruct Hin as (y & Hy & Hin).
  apply filter_In in Hin. destruct Hin as [Hin My].
  apply Hx. rewrite (Hinj x y (or_introl eq_refl) (or_intror Hin) E My (eq_sym Hy)).
  now apply in_map.
Qed.

Lemma find_same_in (A : Type) (p q : A -> bool) (l : list A) :
  (forall r, In r l -> p r = q r) -> find p l = find q l.
Proof.
  induction l as [|x l IH]; intros H; [reflexivity|].
  cbn [find]. rewrite (H x (or_introl eq_refl)), IH; [reflexivity|].
  intros r Hr. apply H. now right.
Qed.

(** The object filled from the rows of an owner, in any order, against the
    first row of the owner and the key. *)
Lemma object_agrees (A B : Type) (key : B -> string) (val : B -> A) (mine : B -> bool)
    (k : string) (rows sorted : list B) :
  k <> "__proto__" ->
  Permutation sorted (filter mine rows) ->
  NoDup (map key (filter mine rows)) ->
  property k (fold_left (fun o r => assign (key r) (val r) o) sorted []) =
  option_map val (find (fun r => mine r && String.eqb (key r) k) rows).
Proof.
  intros Hproto Hperm Hnd.
  assert (Hnd' : NoDup (map key sorted)).
  { eapply Permutation_NoDup; [|exact Hnd]. apply Permutation_map. now symmetry. }
  rewrite property_fold by assumption.
  destruct (find (fun r => mine r && String.eqb (key r) k) rows) as [r|] eqn:F.
  - apply find_some in F. destruct F as [Hin Hr].
    apply andb_true_iff in Hr. destruct Hr as [Hm Hk]. apply String.eqb_eq in Hk.
    clear Hproto. subst k.
    rewrite (find_unique _ key sorted r Hnd'); [reflexivity|].
    eapply Permutation_in; [symmetry; exact Hperm|]. apply filter_In. auto.
  - replace (find _ sorted) with (@None B); [reflexivity|].
    symmetry. apply find_none_iff. intros r Hr.
    apply (Permutation_in _ Hperm) in Hr. apply filter_In in Hr. destruct Hr as [Hin Hm].
    pose proof (proj1 (find_none_iff _ _ rows) F r Hin) as H.
    cbv beta in H. now rewrite Hm in H.
Qed.

Lemma getAllPlayRecords_ok (userName : string) (w : world) :
  fault_next w = false ->
  D1Storage.getAllPlayRecords userName w =
  (Returned
     (fold_left (fun o row => assign (pr_key row) (D1Storage.to_play_record row) o)
        (order_by_desc pr_save_time
           (filter (fun r => String.eqb (pr_username r) userName) (play_records (store w))))
        []),
   after_trip w).
Proof.
  intros F. unfold D1Storage.getAllPlayRecords, try_catch, bind, ret.
  erewrite run_query by (assumption || reflexivity). reflexivity.
Qed.

Lemma getAllFavorites_ok (userName : string) (w : world) :
  fault_next w = false ->
  D1Storage.getAllFavorites userName w =
  (Returned
     (fold_left (fun o row => assign (fav_key row) (D1Storage.to_favorite row) o)
        (order_by_desc fav_save_time
           (filter (fun r => String.eqb (fav_username r) userName) (favorites (store w))))
        []),
   after_trip w).
Proof.
  intros F. unfold D1Storage.getAllFavorites, try_catch, bind, ret.
  erewrite run_query by (assumption || reflexivity). reflexivity.
Qed.

(** X4.  In a store that keeps one row per handle and key, as the schema
    demands, the object [getAllPlayRecords] returns for a handle has, under
    every key but [__proto__], the member [getPlayRecord] returns for the
    handle and the key, null standing for no member; the same holds of
    [getAllFavorites] and [getFavorite].  Under [__proto__] the objects have
    no member, whatever is stored under that key. *)
Theorem bulk_reads_agree (userName key : string) (w : world) :
  calm w ->
  unique_play_keys (store w) ->
  unique_favorite_keys (store w) ->
  exists records favs record favorite w1 w2 w3 w4,
    D1Storage.getAllPlayRecords userName w = (Returned records, w1) /\
    D1Storage.getPlayRecord userName key w1 = (Returned record, w2) /\
    D1Storage.getAllFavorites userName w2 = (Returned favs, w3) /\
    D1Storage.getFavorite userName key w3 = (Returned favorite, w4) /\
    (key <> "__proto__" ->
     property key records = record /\ property key favs = favorite) /\
    property "__proto__" records = None /\
    property "__proto__" favs = None.
Proof.
  intros Hcalm Hplay Hfav.
  eexists. eexists. eexists. eexists. eexists. eexists. eexists. eexists.
  split; [apply getAllPlayRecords_ok; quiet|].
  split; [apply getPlayRecord_ok; quiet|].
  split; [apply getAllFavorites_ok; quiet|].
  split; [apply getFavorite_ok; quiet|].
  rewrite !store_after_trip.
  split; [|split; apply property_proto].
  intros Hkey. split.
  - rewrite (object_agrees _ _ pr_key D1Storage.to_play_record
               (fun r => String.eqb (pr_username r) userName) key (play_records (store w))).
    + reflexivity.
    + exact Hkey.
    + apply order_by_desc_perm.
    + apply (NoDup_within _ _ _ (fun r => (pr_username r, pr_key r))); [|exact Hplay].
      intros x y _ _ Hx Hy E. apply String.eqb_eq in Hx, Hy. congruence.
  - rewrite (object_agrees _ _ fav_key D1Storage.to_favorite
               (fun r => String.eqb (fav_username r) userName) key (favorites (store w))).
    + reflexivity.
    + exact Hkey.
    + apply order_by_desc_perm.
    + apply (NoDup_within _ _ _ (fun r => (fav_username r, fav_key r))); [|exact Hfav].
      intros x y _ _ Hx Hy E. apply String.eqb_eq in Hx, Hy. congruence.
Qed.

Lemma bulk_reads_agree_witness :
  exists records favs record favorite w1 w2 w3 w4,
    D1Storage.getAllPlayRecords "alice" (world_of stored_records) = (Returned records, w1) /\
    D1Storage.getPlayRecord "alice" "src+42" w1 = (Returned record, w2) /\
    D1Storage.getAllFavorites "alice" w2 = (Returned favs, w3) /\
    D1Storage.getFavorite "alice" "src+42" w3 = (Returned favorite, w4) /\
    ("src+42" <> "__proto__" ->
     property "src+42" records = record /\ property "src+42" favs = favorite) /\
    property "__proto__" records = None /\
    property "__proto__" favs = None.
Proof.
  apply (bulk_reads_agree "alice" "src+42" (world_of stored_records)).
  - apply calm_world_of.
  - repeat constructor; simpl; intuition discriminate.
  - repeat constructor; simpl; intuition discriminate.
Defined.

(** A record stored under the key [__proto__] is read by [getPlayRecord] and
    is no member of the object [getAllPlayRecords] returns. *)
Remark proto_record_is_no_member :
  let w := world_of (set_play_records [play_row "alice" "__proto__" a_record []]
                       alice_and_bob) in
  fst (D1Storage.getPlayRecord "alice" "__proto__" w) = Returned (Some (stored_record a_record))
  /\ fst (D1Storage.getAllPlayRecords "alice" w) = Returned [].
Proof. split; reflexivity. Qed.

(** A key of [getAllSkipConfigs] is never [__proto__]: it holds a [+]. *)
Lemma skip_key_no_proto (source id : string) :
  (source ++ "+" ++ id)%string <> "__proto__".
Proof.
  intros E.
  assert (H : In "+"%char (chars (source ++ "+" ++ id))).
  { rewrite chars_app. apply in_or_app. right. now left. }
  rewrite E in H. simpl in H. intuition discriminate.
Qed.

(** A key of [getAllSkipConfigs] splits at its first [+] when the source has
    none. *)
Lemma skip_key_splits (s1 s2 i1 i2 : string) :
  no_plus s1 -> no_plus s2 ->
  (s1 ++ "+" ++ i1 = s2 ++ "+" ++ i2)%string -> s1 = s2 /\ i1 = i2.
Proof.
  unfold no_plus, chars. revert s2.
  induction s1 as [|c s1 IH]; intros [|c' s2] H1 H2 E; cbn in *.
  - inversion E. auto.
  - inversion E. subst c'. exfalso. apply H2. now left.
  - inversion E. subst c. exfalso. apply H1. now left.
  - inversion E. subst c'. destruct (IH s2) as [-> ->]; auto.
Qed.

Lemma getAllSkipConfigs_ok (userName : string) (w : world) :
  fault_next w = false ->
  D1Storage.getAllSkipConfigs userName w =
  (Returned
     (fold_left
        (fun o row =>
           assign (sk_source row ++ "+" ++ sk_id_video row) (D1Storage.to_skip_config row) o)
        (filter (fun r => String.eqb (sk_username r) userName) (skip_configs (store w)))
        []),
   after_trip w).
Proof.
  intros F. unfold D1Storage.getAllSkipConfigs, try_catch, bind, ret.
  erewrite run_query by (assumption || reflexivity). reflexivity.
Qed.

(** X5.  [getAllSkipConfigs] keys a configuration by its source, the sign
    [+] and its video.  In a store that keeps one row per handle, source and
    video, and when the sources of the handle and the source asked for hold
    no [+], the object holds under that key what [getSkipConfig] returns for
    the source and the video, whatever the video is called. *)
Theorem getAllSkipConfigs_agrees (userName source id : string) (w : world) :
  calm w ->
  unique_skip_keys (store w) ->
  (forall r, In r (skip_configs (store w)) -> sk_username r = userName ->
             no_plus (sk_source r)) ->
  no_plus source ->
  exists configs w1 w2,
    D1Storage.getAllSkipConfigs userName w = (Returned configs, w1) /\
    D1Storage.getSkipConfig userName source id w1 =
      (Returned (property (source ++ "+" ++ id) configs), w2).
Proof.
  intros Hcalm Huniq Hplain Hsource.
  eexists. eexists. eexists.
  split; [apply getAllSkipConfigs_ok; quiet|].
  rewrite getSkipConfig_ok by quiet. rewrite store_after_trip. f_equal. f_equal.
  rewrite (object_agrees _ _ (fun r => (sk_source r ++ "+" ++ sk_id_video r)%string)
             D1Storage.to_skip_config
             (fun r => String.eqb (sk_username r) userName) (source ++ "+" ++ id)
             (skip_configs (store w))).
  - f_equal. apply find_same_in. intros r Hr. unfold Sql.skip_key.
    destruct (String.eqb (sk_username r) userName) eqn:E; [|reflexivity].
    apply String.eqb_eq in E. cbn [andb].
    destruct (String.eqb (sk_source r) source && String.eqb (sk_id_video r) id) eqn:E'.
    + apply andb_true_iff in E'. destruct E' as [E1 E2].
      apply String.eqb_eq in E1, E2. subst. symmetry. apply String.eqb_refl.
    + symmetry. apply String.eqb_neq. intros K.
      apply skip_key_splits in K; auto.
      destruct K as [K1 K2]. rewrite K1, K2, !String.eqb_refl in E'. discriminate.
  - apply skip_key_no_proto.
  - reflexivity.
  - apply (NoDup_within _ _ _ (fun r => (sk_username r, sk_source r, sk_id_video r)));
      [|exact Huniq].
    intros x y Hx Hy Mx My E. apply String.eqb_eq in Mx, My.
    apply skip_key_splits in E; auto.
    destruct E as [E1 E2]. congruence.
Qed.

Lemma getAllSkipConfigs_agrees_witness :
  exists configs w1 w2,
    D1Storage.getAllSkipConfigs "alice" (world_of stored_configs) = (Returned configs, w1) /\
    D1Storage.getSkipConfig "alice" "src" "7+1" w1 =
      (Returned (property "src+7+1" configs), w2).
Proof.
  apply (getAllSkipConfigs_agrees "alice" "src" "7+1" (world_of stored_configs)).
  - apply calm_world_of.
  - repeat constructor; simpl; intuition discriminate.
  - intros r [<-|[<-|[]]] _; unfold no_plus; simpl; intuition discriminate.
  - unfold no_plus; simpl; intuition discriminate.
Defined.

(** ** Accounts: [registerUser], [changePassword], [getAllUsers] *)

Lemma registerUser_ok (userName password : string) (w : world) :
  fault_next w = false ->
  user_exists userName (store w) = false ->
  D1Storage.registerUser userName password w =
  (Returned tt,
   set_store
     (set_users (users (store w) ++ [new_account userName password (clock w)]) (store w))
     (after_trip w)).
Proof.
  intros F E. unfold D1Storage.registerUser, try_catch.
  rewrite run_accepted by (assumption || reflexivity).
  cbn [meaning Sql.insert_user]. rewrite store_after_trip, E. reflexivity.
Qed.

Lemma registerUser_taken (userName password : string) (w : world) :
  user_exists userName (store w) = true ->
  exists e, D1Storage.registerUser userName password w = (Thrown e, after_trip w).
Proof.
  intros E. unfold D1Storage.registerUser, try_catch, throw.
  destruct (fault_next w) eqn:F.
  - rewrite run_fault by assumption. eauto.
  - rewrite run_accepted by (assumption || reflexivity).
    cbn [meaning Sql.insert_user]. rewrite store_after_trip, E. cbn. eauto.
Qed.

Lemma checkUserExist_ok (userName : string) (w : world) :
  fault_next w = false ->
  D1Storage.checkUserExist userName w =
  (Returned (user_exists userName (store w)), after_trip w).
Proof.
  intros F. unfold D1Storage.checkUserExist, try_catch, bind, ret.
  erewrite run_query by (assumption || reflexivity). cbv beta.
  unfold user_exists, Sql.name_is.
  induction (users (store w)) as [|r l IH]; [reflexivity|].
  cbn [find existsb]. destruct (String.eqb (u_username r) userName); [reflexivity|].
  cbn [orb]. cbn [option_map] in *. destruct (find _ l), (existsb _ l);
    cbn in *; congruence.
Qed.

Lemma user_exists_app (userName : string) (l : list user_row) (r : user_row) (d : database) :
  user_exists userName (set_users (l ++ [r]) d) =
  existsb (Sql.name_is userName) l || String.eqb (u_username r) userName.
Proof.
  unfold user_exists. cbn [users set_users]. rewrite existsb_app. cbn [existsb].
  now rewrite orb_false_r.
Qed.

(** X6.  An account registered under a free handle is there afterwards:
    [checkUserExist] finds it and [verifyUser] accepts exactly the password
    it was registered with.  A second registration under the handle throws,
    whatever password it carries and whatever the collaborator does, and leaves
    the store as it was, so the first password stays. *)
Theorem registerUser_verifyUser (userName password attempt : string) (w : world) :
  calm w ->
  user_exists userName (store w) = false ->
  exists w1 w2 w3,
    D1Storage.registerUser userName password w = (Returned tt, w1) /\
    D1Storage.checkUserExist userName w1 = (Returned true, w2) /\
    D1Storage.verifyUser userName attempt w2 = (Returned (String.eqb password attempt), w3) /\
    forall other oracle, exists e w4,
      D1Storage.registerUser userName other (set_faults oracle w3) = (Thrown e, w4) /\
      store w4 = store w1.
Proof.
  intros Hcalm Hfree.
  assert (Hnone : find (Sql.name_is userName) (users (store w)) = None).
  { apply find_none_iff. intros r Hr. unfold user_exists in Hfree.
    destruct (Sql.name_is userName r) eqn:E; [|reflexivity].
    assert (existsb (fun r => String.eqb (u_username r) userName) (users (store w)) = true)
      by (apply existsb_exists; exists r; auto).
    congruence. }
  eexists. eexists. eexists.
  split; [apply registerUser_ok; [quiet|exact Hfree]|].
  split.
  { rewrite checkUserExist_ok by quiet. f_equal. f_equal.
    cbn [store set_store]. rewrite user_exists_app.
    cbn [u_username new_account]. now rewrite String.eqb_refl, orb_true_r. }
  split.
  { rewrite verifyUser_ok by quiet. f_equal. f_equal.
    unfold password_matches, stored_password.
    cbn [store set_store after_trip set_faults users set_users].
    rewrite find_app_none by exact Hnone. cbn [find].
    change (Sql.name_is userName (new_account userName password (clock w)))
      with (String.eqb userName userName).
    now rewrite String.eqb_refl. }
  intros other oracle.
  match goal with |- context [set_faults oracle ?w3] =>
    destruct (registerUser_taken userName other (set_faults oracle w3)) as [e He]
  end.
  { cbn [store set_store after_trip set_faults]. rewrite user_exists_app.
    cbn [u_username new_account]. now rewrite String.eqb_refl, orb_true_r. }
  exists e. eexists. split; [exact He|reflexivity].
Qed.

Lemma registerUser_verifyUser_witness :
  exists w1 w2 w3,
    D1Storage.registerUser "carol" "pw3" (world_of alice_and_bob) = (Returned tt, w1) /\
    D1Storage.checkUserExist "carol" w1 = (Returned true, w2) /\
    D1Storage.verifyUser "carol" "pw3" w2 = (Returned (String.eqb "pw3" "pw3"), w3) /\
    forall other oracle, exists e w4,
      D1Storage.registerUser "carol" other (set_faults oracle w3) = (Thrown e, w4) /\
      store w4 = store w1.
Proof.
  apply (registerUser_verifyUser "carol" "pw3" "pw3" (world_of alice_and_bob)).
  - apply calm_world_of.
  - reflexivity.
Defined.

Lemma find_map_same (A : Type) (p : A -> bool) (g : A -> A) (l : list A) :
  (forall r, p (g r) = p r) -> find p (map g l) = option_map g (find p l).
Proof.
  intros H. induction l as [|x l IH]; [reflexivity|].
  cbn [map find]. rewrite H. destruct (p x); [reflexivity|exact IH].
Qed.

Lemma changePassword_ok (userName newPassword : string) (w : world) :
  fault_next w = false ->
  D1Storage.changePassword userName newPassword w =
  (Returned tt,
   set_store
     (set_users
        (update_where (Sql.name_is userName) (Sql.with_password newPassword)
           (users (store w)))
        (store w))
     (after_trip w)).
Proof.
  intros F. unfold D1Storage.changePassword, try_catch.
  erewrite run_update by (assumption || reflexivity). reflexivity.
Qed.

Lemma stored_password_changed (userName newPassword name : string) (l : list user_row) :
  option_map u_password
    (find (Sql.name_is name)
       (update_where (Sql.name_is userName) (Sql.with_password newPassword) l)) =
  match find (Sql.name_is name) l with
  | Some r => Some (if String.eqb name userName then newPassword else u_password r)
  | None => None
  end.
Proof.
  unfold update_where. rewrite find_map_same.
  - destruct (find (Sql.name_is name) l) as [r|] eqn:E; [|reflexivity].
    apply find_some in E. destruct E as [_ E]. unfold Sql.name_is in *.
    apply String.eqb_eq in E. cbn [option_map]. rewrite E.
    destruct (String.eqb name userName); reflexivity.
  - intros r. destruct (Sql.name_is userName r); reflexivity.
Qed.

Lemma update_where_none (A : Type) (p : A -> bool) (f : A -> A) (l : list A) :
  (forall r, In r l -> p r = false) -> update_where p f l = l.
Proof.
  intros H. unfold update_where. induction l as [|x l IH]; [reflexivity|].
  cbn [map]. rewrite (H x (or_introl eq_refl)), IH; [reflexivity|].
  intros r Hr. apply H. now right.
Qed.

Lemma user_exists_find (userName : string) (d : database) :
  user_exists userName d =
  match find (Sql.name_is userName) (users d) with Some _ => true | None => false end.
Proof.
  unfold user_exists, Sql.name_is.
  induction (users d) as [|r l IH]; [reflexivity|].
  cbn [find existsb]. destruct (String.eqb (u_username r) userName); [reflexivity|exact IH].
Qed.

(** X7.  After [changePassword] the account answers to the new password and
    to no other; every other account keeps its password, and the handles of
    the table are the same.  For a handle that has no account the call
    returns normally and the store is as it was: nothing tells the caller
    that no password was changed. *)
Theorem changePassword_verifyUser (userName newPassword attempt : string) (w : world) :
  calm w ->
  exists w1 w2,
    D1Storage.changePassword userName newPassword w = (Returned tt, w1) /\
    D1Storage.verifyUser userName attempt w1 =
      (Returned (user_exists userName (store w) && String.eqb newPassword attempt), w2) /\
    (forall other, other <> userName ->
       stored_password other (store w1) = stored_password other (store w)) /\
    map u_username (users (store w1)) = map u_username (users (store w)) /\
    (user_exists userName (store w) = false -> store w1 = store w).
Proof.
  intros Hcalm.
  eexists. eexists.
  split; [apply changePassword_ok; quiet|].
  split.
  { rewrite verifyUser_ok by quiet. f_equal. f_equal.
    unfold password_matches, stored_password.
    cbn [store set_store users set_users].
    rewrite stored_password_changed, user_exists_find.
    destruct (find (Sql.name_is userName) (users (store w))); [|reflexivity].
    now rewrite String.eqb_refl. }
  split.
  { intros other Hne. unfold stored_password.
    cbn [store set_store after_trip set_faults users set_users].
    rewrite stored_password_changed.
    apply String.eqb_neq in Hne. rewrite Hne.
    destruct (find (Sql.name_is other) (users (store w))); reflexivity. }
  split.
  { cbn [store set_store after_trip set_faults users set_users].
    unfold update_where. rewrite map_map. apply map_ext.
    intros r. destruct (Sql.name_is userName r); reflexivity. }
  intros Hnone. cbn [store set_store after_trip set_faults].
  rewrite update_where_none.
  - destruct (store w); reflexivity.
  - intros r Hr. destruct (Sql.name_is userName r) eqn:E; [|reflexivity].
    assert (user_exists userName (store w) = true)
      by (apply existsb_exists; exists r; auto).
    congruence.
Qed.

Lemma changePassword_verifyUser_witness :
  exists w1 w2,
    D1Storage.changePassword "alice" "new" (world_of alice_and_bob) = (Returned tt, w1) /\
    D1Storage.verifyUser "alice" "pw1" w1 =
      (Returned (user_exists "alice" (store (world_of alice_and_bob))
                 && String.eqb "new" "pw1"), w2) /\
    (forall other, other <> "alice" ->
       stored_password other (store w1) = stored_password other (store (world_of alice_and_bob))) /\
    map u_username (users (store w1)) = map u_username (users (store (world_of alice_and_bob))) /\
    (user_exists "alice" (store (world_of alice_and_bob)) = false ->
     store w1 = store (world_of alice_and_bob)).
Proof.
  apply (changePassword_verifyUser "alice" "new" "pw1" (world_of alice_and_bob)).
  apply calm_world_of.
Defined.

Lemma getAllUsers_ok (w : world) :
  fault_next w = false ->
  D1Storage.getAllUsers w =
  (Returned (map u_username (order_by_asc u_created_at (users (store w)))), after_trip w).
Proof.
  intros F. unfold D1Storage.getAllUsers, try_catch.
  erewrite run_query by (assumption || reflexivity). reflexivity.
Qed.

Lemma insert_asc_sorted (A : Type) (key : A -> Z) (x : A) (l : list A) :
  StronglySorted (fun a b => (key a <= key b)%Z) l ->
  StronglySorted (fun a b => (key a <= key b)%Z) (insert_asc key x l).
Proof.
  induction 1 as [|y l Hl IH Hy]; cbn [insert_asc].
  - repeat constructor.
  - destruct (key x <=? key y)%Z eqn:E.
    + apply Z.leb_le in E. constructor; [constructor; assumption|].
      constructor; [exact E|].
      eapply Forall_impl; [|exact Hy]. cbv beta. intros; lia.
    + apply Z.leb_gt in E. constructor; [exact IH|].
      eapply Permutation_Forall; [symmetry; apply insert_asc_perm|].
      constructor; [lia|exact Hy].
Qed.

Lemma order_by_asc_sorted (A : Type) (key : A -> Z) (l : list A) :
  StronglySorted (fun a b => (key a <= key b)%Z) (order_by_asc key l).
Proof.
  induction l as [|x l IH]; [constructor|].
  unfold order_by_asc. cbn [fold_right]. now apply insert_asc_sorted.
Qed.

(** X8.  [getAllUsers] lists the handles of the accounts, each account
    once, oldest first: a handle is in the list exactly when
    [checkUserExist] finds it. *)
Theorem getAllUsers_lists_accounts (w : world) :
  calm w ->
  exists rows w1,
    D1Storage.getAllUsers w = (Returned (map u_username rows), w1) /\
    Permutation rows (users (store w)) /\
    StronglySorted (fun a b => (u_created_at a <= u_created_at b)%Z) rows /\
    forall userName, exists b w2,
      D1Storage.checkUserExist userName w1 = (Returned b, w2) /\
      (b = true <-> In userName (map u_username rows)).
Proof.
  intros Hcalm.
  exists (order_by_asc u_created_at (users (store w))). eexists.
  split; [apply getAllUsers_ok; quiet|].
  split; [apply order_by_asc_perm|].
  split; [apply order_by_asc_sorted|].
  intros userName. eexists. eexists.
  split; [apply checkUserExist_ok; quiet|].
  rewrite store_after_trip. unfold user_exists. rewrite existsb_exists. split.
  - intros (r & Hr & E). apply String.eqb_eq in E. subst userName.
    apply in_map. eapply Permutation_in; [symmetry; apply order_by_asc_perm|exact Hr].
  - intros H. apply in_map_iff in H. destruct H as (r & E & Hr).
    exists r. split; [|subst; apply String.eqb_refl].
    eapply Permutation_in; [apply order_by_asc_perm|exact Hr].
Qed.

Lemma getAllUsers_lists_accounts_witness :
  exists rows w1,
    D1Storage.getAllUsers (world_of alice_and_bob) = (Returned (map u_username rows), w1) /\
    Permutation rows (users (store (world_of alice_and_bob))) /\
    StronglySorted (fun a b => (u_created_at a <= u_created_at b)%Z) rows /\
    forall userName, exists b w2,
      D1Storage.checkUserExist userName w1 = (Returned b, w2) /\
      (b = true <-> In userName (map u_username rows)).
Proof.
  apply (getAllUsers_lists_accounts (world_of alice_and_bob)).
  apply calm_world_of.
Defined.

(** ** Search history *)

Lemma next_id_fresh (ids : list Z) (z : Z) : In z ids -> (z < next_id ids)%Z.
Proof.
  unfold next_id. induction ids as [|x ids IH]; [intros []|].
  cbn [fold_right]. intros [->|H]; [lia|]. specialize (IH H). lia.
Qed.

Lemma insert_desc_top (A : Type) (key : A -> Z) (x : A) (l : list A) :
  Forall (fun z => (key z <= key x)%Z) l -> insert_desc key x l = x :: l.
Proof.
  intros H. destruct l as [|y l]; [reflexivity|].
  cbn [insert_desc]. inversion H; subst.
  destruct (key y <=? key x)%Z eqn:E; [reflexivity|]. apply Z.leb_gt in E. lia.
Qed.

Lemma insert_desc_sorted (A : Type) (key : A -> Z) (x : A) (l : list A) :
  StronglySorted (fun a b => (key b <= key a)%Z) l ->
  StronglySorted (fun a b => (key b <= key a)%Z) (insert_desc key x l).
Proof.
  induction 1 as [|y l Hl IH Hy]; cbn [insert_desc].
  - repeat constructor.
  - destruct (key y <=? key x)%Z eqn:E.
    + apply Z.leb_le in E. constructor; [constructor; assumption|].
      constructor; [exact E|].
      eapply Forall_impl; [|exact Hy]. cbv beta. intros; lia.
    + apply Z.leb_gt in E. constructor; [exact IH|].
      eapply Permutation_Forall; [symmetry; apply insert_desc_perm|].
      constructor; [lia|exact Hy].
Qed.

Lemma order_by_desc_sorted (A : Type) (key : A -> Z) (l : list A) :
  StronglySorted (fun a b => (key b <= key a)%Z) (order_by_desc key l).
Proof.
  induction l as [|x l IH]; [constructor|].
  unfold order_by_desc. cbn [fold_right]. now apply insert_desc_sorted.
Qed.

(** A row later than all the others comes first. *)
Lemma order_by_desc_latest (A : Type) (key : A -> Z) (x : A) (l : list A) :
  (forall r, In r l -> (key r < key x)%Z) ->
  order_by_desc key (l ++ [x]) = x :: order_by_desc key l.
Proof.
  induction l as [|a l IH]; intros H; [reflexivity|].
  unfold order_by_desc in *. cbn [app fold_right].
  rewrite IH by (intros r Hr; apply H; now right).
  cbn [insert_desc].
  destruct (key x <=? key a)%Z eqn:E; [|reflexivity].
  apply Z.leb_le in E. specialize (H a (or_introl eq_refl)). lia.
Qed.

(** Selecting rows commutes with ordering them. *)
Lemma filter_insert_desc (A : Type) (key : A -> Z) (p : A -> bool) (x : A) (l : list A) :
  StronglySorted (fun a b => (key b <= key a)%Z) l ->
  filter p (insert_desc key x l) =
  if p x then insert_desc key x (filter p l) else filter p l.
Proof.
  induction 1 as [|y l Hl IH Hy].
  - cbn [insert_desc filter]. destruct (p x); reflexivity.
  - cbn [insert_desc]. destruct (key y <=? key x)%Z eqn:E.
    + change (filter p (x :: y :: l))
        with (if p x then x :: filter p (y :: l) else filter p (y :: l)).
      destruct (p x); [|reflexivity].
      rewrite insert_desc_top; [reflexivity|].
      apply Z.leb_le in E.
      assert (F : Forall (fun z => (key z <= key x)%Z) (y :: l)).
      { constructor; [exact E|]. eapply Forall_impl; [|exact Hy]. cbv beta. intros; lia. }
      rewrite Forall_forall in *. intros z Hz. apply F.
      apply filter_In in Hz. apply (proj1 Hz).
    + change (filter p (y :: insert_desc key x l))
        with (if p y then y :: filter p (insert_desc key x l)
              else filter p (insert_desc key x l)).
      rewrite IH. cbn [filter]. destruct (p x), (p y); try reflexivity.
      cbn [insert_desc]. now rewrite E.
Qed.

Lemma filter_order_by_desc (A : Type) (key : A -> Z) (p : A -> bool) (l : list A) :
  filter p (order_by_desc key l) = order_by_desc key (filter p l).
Proof.
  induction l as [|x l IH]; [reflexivity|].
  unfold order_by_desc in *. cbn [fold_right filter].
  rewrite filter_insert_desc by apply order_by_desc_sorted.
  rewrite IH. destruct (p x); reflexivity.
Qed.

(** The rows whose id is among those of the first [n] are the first [n]. *)
Lemma filter_first_ids (A : Type) (id : A -> Z) (n : nat) (l : list A) :
  NoDup (map id l) ->
  filter (fun r => existsb (Z.eqb (id r)) (map id (firstn n l))) l = firstn n l.
Proof.
  revert n. induction l as [|a l IH]; intros n Hnd; [now destruct n|].
  inversion Hnd as [|? ? Ha Hl]; subst.
  destruct n as [|n].
  - cbn [firstn map existsb]. apply filter_nil_iff. reflexivity.
  - cbn [firstn map existsb filter]. rewrite Z.eqb_refl. cbn [orb]. f_equal.
    transitivity (filter (fun r => existsb (Z.eqb (id r)) (map id (firstn n l))) l);
      [|exact (IH n Hl)].
    apply filter_ext_in. intros r Hr.
    destruct (Z.eqb (id r) (id a)) eqn:E; [|reflexivity].
    apply Z.eqb_eq in E. exfalso. apply Ha. rewrite <- E. now apply in_map.
Qed.

Lemma filter_as_delete (A : Type) (p : A -> bool) (l : list A) :
  filter p l = delete_where (fun r => negb (p r)) l.
Proof.
  unfold delete_where. apply filter_ext. intros r. now rewrite negb_involutive.
Qed.

Lemma filter_filter (A : Type) (p q : A -> bool) (l : list A) :
  filter p (filter q l) = filter (fun r => q r && p r) l.
Proof.
  induction l as [|x l IH]; [reflexivity|].
  cbn [filter]. destruct (q x); cbn [filter andb]; [|exact IH].
  destruct (p x); now rewrite IH.
Qed.

Lemma latest_first (userName : string) (rows : list search_history_row) :
  Sql.latest userName D1Storage.SEARCH_HISTORY_LIMIT rows =
  firstn 20 (order_by_desc sh_created_at (filter (Sql.searched_by userName) rows)).
Proof. reflexivity. Qed.

Lemma searched_by_other (userName other : string) (r : search_history_row) :
  other <> userName -> Sql.searched_by other r = true -> Sql.searched_by userName r = false.
Proof.
  unfold Sql.searched_by. intros Hne E. apply String.eqb_eq in E.
  apply String.eqb_neq. congruence.
Qed.

(** The table after the three statements of [addSearchHistory], when ids are
    distinct and the rows of the handle are older than the new one. *)
Lemma history_after_add (userName keyword : string) (now : Z)
    (rows : list search_history_row) :
  NoDup (map sh_id rows) ->
  (forall r, In r rows -> sh_username r = userName -> (sh_created_at r < now / 1000)%Z) ->
  let rows1 := delete_where (Sql.searched userName keyword) rows in
  let new := keyword_row userName keyword now rows1 in
  let before :=
    order_by_desc sh_created_at (filter (Sql.searched_by userName) rows1) in
  let after := trimmed userName (rows1 ++ [new]) in
  Sql.latest userName D1Storage.SEARCH_HISTORY_LIMIT after = new :: firstn 19 before /\
  Permutation (filter (Sql.searched_by userName) after) (new :: firstn 19 before) /\
  NoDup (map sh_id after) /\
  forall other, other <> userName ->
    filter (Sql.searched_by other) after = filter (Sql.searched_by other) rows.
Proof.
  intros Hnd Hold rows1 new before after.
  set (mine := filter (Sql.searched_by userName) rows1) in *.
  assert (Hnew : Sql.searched_by userName new = true).
  { unfold Sql.searched_by, new. cbn [sh_username keyword_row]. apply String.eqb_refl. }
  assert (Hnd1 : NoDup (map sh_id rows1)) by now apply delete_where_keeps_NoDup.
  assert (Hfresh : forall r, In r rows1 -> sh_id r <> sh_id new).
  { intros r Hr. unfold new. cbn [sh_id keyword_row].
    pose proof (next_id_fresh (map sh_id rows1) (sh_id r) (in_map sh_id _ _ Hr)). lia. }
  assert (Hmine : filter (Sql.searched_by userName) (rows1 ++ [new]) = mine ++ [new]).
  { rewrite filter_app. cbn [filter]. now rewrite Hnew. }
  assert (Holder : forall r, In r mine -> (sh_created_at r < sh_created_at new)%Z).
  { intros r Hr. apply filter_In in Hr. destruct Hr as [Hr Hu].
    apply delete_where_In in Hr. destruct Hr as [Hr _].
    apply String.eqb_eq in Hu. unfold new. cbn [sh_created_at keyword_row]. auto. }
  assert (Hlatest : Sql.latest userName D1Storage.SEARCH_HISTORY_LIMIT (rows1 ++ [new])
                    = new :: firstn 19 before).
  { rewrite latest_first, Hmine, order_by_desc_latest by exact Holder. reflexivity. }
  assert (Hperm : Permutation before mine) by apply order_by_desc_perm.
  assert (Hnd_before : NoDup (map sh_id before)).
  { eapply Permutation_NoDup; [apply Permutation_map; symmetry; exact Hperm|].
    unfold mine. rewrite filter_as_delete. now apply delete_where_keeps_NoDup. }
  set (kept := fun r : search_history_row =>
                 existsb (Z.eqb (sh_id r)) (map sh_id (new :: firstn 19 before))).
  assert (Hafter : after =
    delete_where (fun r => Sql.searched_by userName r && negb (kept r)) (rows1 ++ [new])).
  { unfold after, trimmed. now rewrite Hlatest. }
  assert (Hkept_new : kept new = true).
  { unfold kept. cbn [map existsb]. now rewrite Z.eqb_refl. }
  assert (Hkept_mine : filter kept mine = filter kept mine /\
                       filter kept before = firstn 19 before).
  { split; [reflexivity|].
    transitivity (filter (fun r => existsb (Z.eqb (sh_id r)) (map sh_id (firstn 19 before)))
                    before);
      [|exact (filter_first_ids _ sh_id 19 before Hnd_before)].
    apply filter_ext_in. intros r Hr. unfold kept. cbn [map existsb].
    destruct (Z.eqb (sh_id r) (sh_id new)) eqn:E; [|reflexivity].
    apply Z.eqb_eq in E. exfalso. apply (Hfresh r); [|exact E].
    apply (Permutation_in _ Hperm) in Hr. apply filter_In in Hr. apply Hr. }
  destruct Hkept_mine as [_ Hkept_before].
  assert (Hmine_after : filter (Sql.searched_by userName) after = filter kept mine ++ [new]).
  { rewrite Hafter. unfold delete_where. rewrite filter_filter.
    rewrite (filter_ext _ (fun r => Sql.searched_by userName r && kept r)).
    - rewrite <- filter_filter, Hmine, filter_app. cbn [filter]. now rewrite Hkept_new.
    - intros r. destruct (Sql.searched_by userName r), (kept r); reflexivity. }
  split.
  { rewrite latest_first, Hmine_after, order_by_desc_latest.
    - rewrite <- filter_order_by_desc. fold before. rewrite Hkept_before.
      rewrite (firstn_cons 19). f_equal. rewrite firstn_firstn. reflexivity.
    - intros r Hr. apply filter_In in Hr. apply Holder, Hr. }
  split.
  { rewrite Hmine_after. rewrite Permutation_app_comm. cbn [app]. apply perm_skip.
    rewrite <- Hkept_before. unfold before. rewrite filter_order_by_desc.
    symmetry. apply order_by_desc_perm. }
  split.
  { rewrite Hafter. apply delete_where_keeps_NoDup. rewrite map_app. cbn [map].
    apply NoDup_snoc; [exact Hnd1|].
    intros Hin. apply in_map_iff in Hin. destruct Hin as (r & E & Hr).
    now apply (Hfresh r). }
  intros other Hne. rewrite Hafter.
  rewrite filter_delete_where_other.
  - rewrite filter_app. cbn [filter].
    rewrite (searched_by_other other userName new); [|congruence|].
    + rewrite app_nil_r. unfold rows1. apply filter_delete_where_other.
      intros r Hr. pose proof (searched_by_other userName other r Hne Hr) as E.
      unfold Sql.searched_by in E. unfold Sql.searched. now rewrite E.
    + exact Hnew.
  - intros r Hr. now rewrite (searched_by_other userName other r Hne Hr).
Qed.

Lemma existsb_deleted (A : Type) (p : A -> bool) (l : list A) :
  existsb p (delete_where p l) = false.
Proof.
  destruct (existsb p (delete_where p l)) eqn:E; [|reflexivity].
  apply existsb_exists in E. destruct E as (r & Hr & Hp).
  apply delete_where_In in Hr. destruct Hr. congruence.
Qed.

Lemma filter_delete_comm (A : Type) (p q : A -> bool) (l : list A) :
  filter p (delete_where q l) = delete_where q (filter p l).
Proof.
  unfold delete_where. rewrite !filter_filter. apply filter_ext.
  intros r. apply andb_comm.
Qed.

Lemma getSearchHistory_ok (userName : string) (w : world) :
  fault_next w = false ->
  D1Storage.getSearchHistory userName w =
  (Returned
     (map sh_keyword
        (Sql.latest userName D1Storage.SEARCH_HISTORY_LIMIT (search_history (store w)))),
   after_trip w).
Proof.
  intros F. unfold D1Storage.getSearchHistory, try_catch.
  erewrite run_query by (assumption || reflexivity). reflexivity.
Qed.

Lemma addSearchHistory_ok (userName keyword : string) (w : world) :
  calm w ->
  exists w1,
    D1Storage.addSearchHistory userName keyword w = (Returned tt, w1) /\
    search_history (store w1) =
      trimmed userName
        (delete_where (Sql.searched userName keyword) (search_history (store w))
         ++ [keyword_row userName keyword (clock w)
               (delete_where (Sql.searched userName keyword) (search_history (store w)))]) /\
    calm w1.
Proof.
  intros Hcalm. unfold D1Storage.addSearchHistory, try_catch, bind.
  erewrite run_update by runs.
  rewrite run_accepted by runs.
  cbn [meaning Sql.insert_keyword store set_store after_trip set_faults search_history
       set_search_history clock].
  rewrite existsb_deleted. cbn [negb constraint].
  erewrite run_update by runs.
  eexists. split; [reflexivity|]. split; [reflexivity|].
  repeat first [assumption | apply calm_after_trip | apply calm_set_store].
Qed.

(** X9.  In a store whose history rows have distinct ids, and when the rows
    of the handle are older than the second of the call: after
    [addSearchHistory] the history [getSearchHistory] returns starts with the
    keyword, followed by the earlier keywords of the handle, latest first,
    without the keyword itself, at most nineteen of them.  The handle is left
    with at most twenty rows, the history of every other handle is as it
    was, and ids are still distinct. *)
Theorem addSearchHistory_latest_first (userName keyword : string) (w : world) :
  calm w ->
  NoDup (map sh_id (search_history (store w))) ->
  (forall r, In r (history_of userName (store w)) ->
             (sh_created_at r < clock w / 1000)%Z) ->
  exists w1 w2,
    D1Storage.addSearchHistory userName keyword w = (Returned tt, w1) /\
    D1Storage.getSearchHistory userName w1 =
      (Returned (keyword :: firstn 19 (earlier_keywords userName keyword (store w))), w2) /\
    ~ In keyword (earlier_keywords userName keyword (store w)) /\
    List.length (history_of userName (store w1)) <= 20 /\
    (forall other, other <> userName ->
       history_of other (store w1) = history_of other (store w)) /\
    NoDup (map sh_id (search_history (store w1))).
Proof.
  intros Hcalm Hnd Hold.
  destruct (addSearchHistory_ok userName keyword w Hcalm) as (w1 & Hadd & Hrows & Hcalm1).
  destruct (history_after_add userName keyword (clock w) (search_history (store w)) Hnd)
    as (Hlatest & Hperm & Hnd1 & Hother).
  { intros r Hr Hu. apply Hold. apply filter_In. split; [exact Hr|].
    unfold Sql.searched_by. subst. apply String.eqb_refl. }
  cbv zeta in *. rewrite <- Hrows in *.
  exists w1. eexists.
  split; [exact Hadd|].
  split.
  { rewrite getSearchHistory_ok by now apply calm_next.
    rewrite Hlatest. cbn [map sh_keyword keyword_row].
    unfold earlier_keywords, history_of.
    now rewrite firstn_map, filter_delete_comm. }
  split.
  { unfold earlier_keywords. intros Hin. apply in_map_iff in Hin.
    destruct Hin as (r & Hk & Hr).
    apply In_order_by_desc, delete_where_In in Hr. destruct Hr as [Hr Hne].
    apply filter_In in Hr. destruct Hr as [_ Hu].
    unfold Sql.searched in Hne. unfold Sql.searched_by in Hu.
    rewrite Hu, Hk, String.eqb_refl in Hne. discriminate. }
  split.
  { unfold history_of. rewrite (Permutation_length Hperm). cbn [List.length].
    pose proof (firstn_le_length 19
      (order_by_desc sh_created_at
         (filter (Sql.searched_by userName)
            (delete_where (Sql.searched userName keyword) (search_history (store w)))))).
    lia. }
  split; [exact Hother|exact Hnd1].
Qed.

Lemma addSearchHistory_latest_first_witness :
  exists w1 w2,
    D1Storage.addSearchHistory "alice" "matrix" (world_of alice_searched) = (Returned tt, w1) /\
    D1Storage.getSearchHistory "alice" w1 =
      (Returned ("matrix" :: firstn 19 (earlier_keywords "alice" "matrix" alice_searched)), w2) /\
    ~ In "matrix" (earlier_keywords "alice" "matrix" alice_searched) /\
    List.length (history_of "alice" (store w1)) <= 20 /\
    (forall other, other <> "alice" ->
       history_of other (store w1) = history_of other alice_searched) /\
    NoDup (map sh_id (search_history (store w1))).
Proof.
  apply (addSearchHistory_latest_first "alice" "matrix" (world_of alice_searched)).
  - apply calm_world_of.
  - repeat constructor; simpl; intuition discriminate.
  - intros r [<-|[<-|[]]]; reflexivity.
Defined.

(** X10.  The three statements of [addSearchHistory] are three round trips.
    When the first succeeds and the second fails the call throws, and the
    store is left without the keyword: the row the handle had for it is gone
    and none has taken its place, every other row being as it was. *)
Theorem addSearchHistory_interrupted (userName keyword : string) (w : world) :
  fault_next w = false ->
  fault_next (after_trip w) = true ->
  exists w1,
    D1Storage.addSearchHistory userName keyword w = (Thrown StorageFailure, w1) /\
    search_history (store w1) =
      delete_where (Sql.searched userName keyword) (search_history (store w)) /\
    forall r, In r (history_of userName (store w1)) -> sh_keyword r <> keyword.
Proof.
  intros F1 F2. unfold D1Storage.addSearchHistory, try_catch, bind, throw.
  erewrite run_update by (assumption || reflexivity).
  rewrite run_fault by exact F2.
  eexists. split; [reflexivity|]. split; [reflexivity|].
  intros r Hr. apply filter_In in Hr. destruct Hr as [Hr Hu].
  cbn [store set_store after_trip set_faults search_history set_search_history] in Hr.
  apply delete_where_In in Hr. destruct Hr as [_ Hne].
  unfold Sql.searched in Hne. unfold Sql.searched_by in Hu. rewrite Hu in Hne.
  now apply String.eqb_neq.
Qed.

Lemma addSearchHistory_interrupted_witness :
  exists w1,
    D1Storage.addSearchHistory "alice" "matrix" (second_trip_fails alice_searched)
      = (Thrown StorageFailure, w1) /\
    search_history (store w1) =
      delete_where (Sql.searched "alice" "matrix") (search_history alice_searched) /\
    forall r, In r (history_of "alice" (store w1)) -> sh_keyword r <> "matrix".
Proof.
  apply (addSearchHistory_interrupted "alice" "matrix" (second_trip_fails alice_searched));
    reflexivity.
Defined.

Lemma deleteSearchHistory_ok (userName : string) (keyword : option string) (w : world) :
  fault_next w = false ->
  D1Storage.deleteSearchHistory userName keyword w =
  (Returned tt,
   set_store
     (set_search_history
        (delete_where
           (match or_absent keyword with
            | Some k => Sql.searched userName k
            | None => Sql.searched_by userName
            end)
           (search_history (store w)))
        (store w))
     (after_trip w)).
Proof.
  intros F. unfold D1Storage.deleteSearchHistory, try_catch.
  destruct (or_absent keyword); erewrite run_update by (assumption || reflexivity);
    reflexivity.
Qed.

(** X11.  [deleteSearchHistory] with a keyword removes that keyword from the
    history of the handle; with no keyword, or with the empty one, it removes
    the whole history of the handle.  The history of every other handle is as
    it was. *)
Theorem deleteSearchHistory_clears (userName : string) (keyword : option string)
    (w : world) :
  calm w ->
  exists w1 w2,
    D1Storage.deleteSearchHistory userName keyword w = (Returned tt, w1) /\
    D1Storage.getSearchHistory userName w1 =
      (Returned
         (match or_absent keyword with
          | Some k => firstn 20 (earlier_keywords userName k (store w))
          | None => []
          end), w2) /\
    (or_absent keyword = None -> history_of userName (store w1) = []) /\
    (forall other, other <> userName ->
       history_of other (store w1) = history_of other (store w)).
Proof.
  intros Hcalm. eexists. eexists.
  split; [apply deleteSearchHistory_ok; quiet|].
  split.
  { rewrite getSearchHistory_ok by quiet. f_equal. f_equal.
    cbn [store set_store search_history set_search_history].
    rewrite latest_first. destruct (or_absent keyword) as [k|].
    - unfold earlier_keywords, history_of.
      now rewrite firstn_map, filter_delete_comm.
    - replace (filter _ (delete_where _ _)) with (@nil search_history_row); [reflexivity|].
      symmetry. apply filter_nil_iff. intros r Hr. now apply delete_where_In in Hr. }
  split.
  { intros E. unfold history_of.
    cbn [store set_store after_trip set_faults search_history set_search_history].
    rewrite E. apply filter_nil_iff. intros r Hr. now apply delete_where_In in Hr. }
  intros other Hne. unfold history_of.
  cbn [store set_store after_trip set_faults search_history set_search_history].
  apply filter_delete_where_other. intros r Hr.
  pose proof (searched_by_other userName other r Hne Hr) as E.
  destruct (or_absent keyword); [|exact E].
  unfold Sql.searched. unfold Sql.searched_by in E. now rewrite E.
Qed.

Lemma deleteSearchHistory_clears_witness :
  exists w1 w2,
    D1Storage.deleteSearchHistory "alice" (Some "") (world_of alice_searched)
      = (Returned tt, w1) /\
    D1Storage.getSearchHistory "alice" w1 =
      (Returned
         (match or_absent (Some "") with
          | Some k => firstn 20 (earlier_keywords "alice" k alice_searched)
          | None => []
          end), w2) /\
    (or_absent (Some "") = None -> history_of "alice" (store w1) = []) /\
    (forall other, other <> "alice" ->
       history_of other (store w1) = history_of other alice_searched).
Proof.
  apply (deleteSearchHistory_clears "alice" (Some "") (world_of alice_searched)).
  apply calm_world_of.
Defined.

(** ** Avatars *)

Lemma setUserAvatar_throws (userName avatarData : string) (w : world) :
  exists e, D1Storage.setUserAvatar userName avatarData w = (Thrown e, after_trip w).
Proof.
  destruct (run_rejected _ (Sql.update_avatar avatarData userName) w eq_refl) as [e He].
  exists e. unfold D1Storage.setUserAvatar, try_catch, throw. now rewrite He.
Qed.

Lemma deleteUserAvatar_throws (userName : string) (w : world) :
  exists e, D1Storage.deleteUserAvatar userName w = (Thrown e, after_trip w).
Proof.
  destruct (run_rejected _ (Sql.clear_avatar userName) w eq_refl) as [e He].
  exists e. unfold D1Storage.deleteUserAvatar, try_catch, throw. now rewrite He.
Qed.

Ltac refused :=
  unfold ret; eexists; eexists; split; [reflexivity|]; split; [reflexivity|];
  cbn; auto 10.

Lemma avatar_POST_refuses (URL_parses : string -> bool) (authInfo : option auth_info)
    (body : option upload) (w : world) :
  exists r w',
    Avatar.POST URL_parses authInfo body w = (Returned r, w') /\
    store w' = store w /\ refusal r.
Proof.
  unfold Avatar.POST, try_catch, refusal.
  destruct authInfo as [info|]; [|refused].
  destruct (or_absent (auth_username info)) as [caller|]; [|refused].
  destruct body as [b|]; [|refused].
  destruct (or_absent (upload_avatar b)) as [avatar|]; [|refused].
  set (userToUpdate := match or_absent (upload_targetUser b) with
                       | Some target => target
                       | None => caller
                       end).
  destruct (String.eqb userToUpdate caller || Avatar.privileged info);
    cbn [negb]; [|refused].
  assert (Hsave : forall k : unit -> M response, exists r w',
    (let (o, w0) := bind (D1Storage.setUserAvatar userToUpdate avatar) k w in
     match o with
     | Returned a => (Returned a, w0)
     | Thrown _ => ret (json_response [("error", JString "上传头像失败")] 500) w0
     end) = (Returned r, w') /\ store w' = store w /\
    (status r = 400 \/ status r = 401 \/ status r = 403 \/ status r = 500)).
  { intros k. unfold bind.
    destruct (setUserAvatar_throws userToUpdate avatar w) as [e ->]. refused. }
  destruct (String.prefix "data:image/" avatar).
  - destruct (or_absent (Avatar.second_piece avatar)) as [base64Data|]; [|refused].
    destruct (4 * Avatar.two_megabytes <? Z.of_nat (String.length base64Data) * 3)%Z;
      [refused|apply Hsave].
  - destruct (String.prefix "http://" avatar || String.prefix "https://" avatar);
      [|refused].
    destruct (URL_parses avatar); [apply Hsave|refused].
Qed.

Lemma avatar_DELETE_refuses (authInfo : option auth_info) (user : option string) (w : world) :
  exists r w',
    Avatar.DELETE authInfo user w = (Returned r, w') /\
    store w' = store w /\ refusal r.
Proof.
  unfold Avatar.DELETE, try_catch, refusal.
  destruct authInfo as [info|]; [|refused].
  destruct (or_absent (auth_username info)) as [caller|]; [|refused].
  set (targetUser := match or_absent user with Some target => target | None => caller end).
  destruct (String.eqb targetUser caller || Avatar.privileged info);
    cbn [negb]; [|refused].
  unfold bind. destruct (deleteUserAvatar_throws targetUser w) as [e ->]. refused.
Qed.

(** X12.  The statements of [setUserAvatar] and [deleteUserAvatar] name a
    column [avatar]; the users table of the schema has [avatar_base64] and no
    [avatar].  Both methods throw for every input, in every world, and leave
    the store as it was; the upload and the removal of the avatar route never
    answer a success and never change the store. *)
Theorem avatar_writes_always_fail :
  has_column "users" "avatar" = false /\
  (forall userName avatarData w, exists e w',
     D1Storage.setUserAvatar userName avatarData w = (Thrown e, w') /\ store w' = store w) /\
  (forall userName w, exists e w',
     D1Storage.deleteUserAvatar userName w = (Thrown e, w') /\ store w' = store w) /\
  (forall URL_parses authInfo body w, exists r w',
     Avatar.POST URL_parses authInfo body w = (Returned r, w') /\
     store w' = store w /\ refusal r) /\
  (forall authInfo user w, exists r w',
     Avatar.DELETE authInfo user w = (Returned r, w') /\
     store w' = store w /\ refusal r).
Proof.
  split; [reflexivity|].
  split.
  { intros u a w. destruct (setUserAvatar_throws u a w) as [e He].
    exists e, (after_trip w). auto. }
  split.
  { intros u w. destruct (deleteUserAvatar_throws u w) as [e He].
    exists e, (after_trip w). auto. }
  split; [exact avatar_POST_refuses|exact avatar_DELETE_refuses].
Qed.

Lemma or_absent_truthy (s : string) : truthy s = true -> or_absent (Some s) = Some s.
Proof. unfold or_absent. now intros ->. Qed.

(** X13.  The avatar routes guard their writes before they reach the
    storage.  Without a handle in the cookie the upload and the removal
    answer 401; an upload without avatar data answers 400; a caller who is
    neither admin nor owner and names another handle answers 403.  In each
    case the world is untouched: no round trip to the storage was made. *)
Theorem avatar_routes_guard (URL_parses : string -> bool) (info : auth_info)
    (caller target avatar : string) (w : world) :
  auth_username info = Some caller ->
  truthy caller = true ->
  Avatar.privileged info = false ->
  truthy target = true ->
  target <> caller ->
  truthy avatar = true ->
  (forall body, Avatar.POST URL_parses None body w = (Returned Avatar.unauthorized, w)) /\
  (forall user, Avatar.DELETE None user w = (Returned Avatar.unauthorized, w)) /\
  (forall role body,
     Avatar.POST URL_parses (Some {| auth_username := None; auth_role := role |}) body w
       = (Returned Avatar.unauthorized, w)) /\
  (forall role user,
     Avatar.DELETE (Some {| auth_username := None; auth_role := role |}) user w
       = (Returned Avatar.unauthorized, w)) /\
  (forall someone,
     Avatar.POST URL_parses (Some info)
       (Some {| upload_avatar := None; upload_targetUser := someone |}) w
       = (Returned (Avatar.bad_request "头像数据不能为空且必须为字符串"), w)) /\
  Avatar.POST URL_parses (Some info)
    (Some {| upload_avatar := Some avatar; upload_targetUser := Some target |}) w
    = (Returned Avatar.permission_denied, w) /\
  Avatar.DELETE (Some info) (Some target) w = (Returned Avatar.permission_denied, w).
Proof.
  intros Hinfo Hcaller Hrole Htarget Hne Havatar.
  apply String.eqb_neq in Hne.
  apply or_absent_truthy in Hcaller, Htarget, Havatar.
  split; [reflexivity|]. split; [reflexivity|]. split; [reflexivity|].
  split; [reflexivity|].
  split.
  { intros someone. unfold Avatar.POST, try_catch. rewrite Hinfo, Hcaller. reflexivity. }
  split.
  - unfold Avatar.POST, try_catch. cbn [upload_avatar upload_targetUser].
    rewrite Hinfo, Hcaller, Havatar, Htarget, Hne, Hrole. reflexivity.
  - unfold Avatar.DELETE, try_catch. rewrite Hinfo, Hcaller, Htarget, Hne, Hrole. reflexivity.
Qed.

Lemma avatar_routes_guard_witness :
  (forall body, Avatar.POST (fun _ => true) None body (world_of alice_and_bob)
     = (Returned Avatar.unauthorized, world_of alice_and_bob)) /\
  (forall user, Avatar.DELETE None user (world_of alice_and_bob)
     = (Returned Avatar.unauthorized, world_of alice_and_bob)) /\
  (forall role body,
     Avatar.POST (fun _ => true) (Some {| auth_username := None; auth_role := role |}) body
       (world_of alice_and_bob)
       = (Returned Avatar.unauthorized, world_of alice_and_bob)) /\
  (forall role user,
     Avatar.DELETE (Some {| auth_username := None; auth_role := role |}) user
       (world_of alice_and_bob)
       = (Returned Avatar.unauthorized, world_of alice_and_bob)) /\
  (forall someone,
     Avatar.POST (fun _ => true) (Some (plain_user "alice"))
       (Some {| upload_avatar := None; upload_targetUser := someone |})
       (world_of alice_and_bob)
       = (Returned (Avatar.bad_request "头像数据不能为空且必须为字符串"),
          world_of alice_and_bob)) /\
  Avatar.POST (fun _ => true) (Some (plain_user "alice"))
    (Some {| upload_avatar := Some a_picture; upload_targetUser := Some "bob" |})
    (world_of alice_and_bob)
    = (Returned Avatar.permission_denied, world_of alice_and_bob) /\
  Avatar.DELETE (Some (plain_user "alice")) (Some "bob") (world_of alice_and_bob)
    = (Returned Avatar.permission_denied, world_of alice_and_bob).
Proof.
  apply (avatar_routes_guard (fun _ => true) (plain_user "alice") "alice" "bob" a_picture
           (world_of alice_and_bob)); try reflexivity.
  discriminate.
Defined.

(** ** Danmus *)

Lemma getDanmu_ok (videoId : string) (w : world) :
  fault_next w = false ->
  D1Storage.getDanmu videoId w =
  (Returned (order_by_asc dm_time (filter (of_video videoId) (danmus (store w)))),
   after_trip w).
Proof.
  intros F. unfold D1Storage.getDanmu, try_catch.
  erewrite run_query by (assumption || reflexivity). reflexivity.
Qed.

Lemma saveDanmu_run (videoId userName : string) (danmu : Danmu) (random : string)
    (w : world) :
  fault_next w = false ->
  D1Storage.saveDanmu videoId userName danmu random w =
  if existsb (fun x => String.eqb (dm_id x) (danmu_id (clock w) random)) (danmus (store w))
  then (Thrown (ConstraintFailed "UNIQUE constraint failed: danmus.id"), after_trip w)
  else (Returned tt,
        set_store
          (set_danmus
             (danmus (store w) ++ [danmu_row_of videoId userName danmu (clock w) random])
             (store w))
          (after_trip w)).
Proof.
  intros F. unfold D1Storage.saveDanmu, try_catch, bind, Date_now, throw.
  rewrite run_accepted by (assumption || reflexivity).
  cbn [meaning Sql.insert_danmu dm_id]. rewrite store_after_trip.
  fold (danmu_id (clock w) random).
  destruct (existsb _ (danmus (store w))); reflexivity.
Qed.

Lemma deleteDanmu_ok (videoId danmuId : string) (w : world) :
  fault_next w = false ->
  D1Storage.deleteDanmu videoId danmuId w =
  (Returned tt,
   set_store
     (set_danmus
        (delete_where
           (fun r => String.eqb (dm_id r) danmuId && String.eqb (dm_video_id r) videoId)
           (danmus (store w)))
        (store w))
     (after_trip w)).
Proof.
  intros F. unfold D1Storage.deleteDanmu, try_catch.
  erewrite run_update by (assumption || reflexivity). reflexivity.
Qed.

Lemma delete_where_nothing (A : Type) (p : A -> bool) (l : list A) :
  (forall r, In r l -> p r = false) -> delete_where p l = l.
Proof.
  intros H. unfold delete_where. induction l as [|x l IH]; [reflexivity|].
  cbn [filter]. rewrite (H x (or_introl eq_refl)). cbn [negb]. f_equal.
  apply IH. intros r Hr. apply H. now right.
Qed.

(** X14.  A danmu saved under an id that is not taken shows among the danmus
    of its video, which [getDanmu] returns by ascending time.  Saving again at
    the same instant with the same random text is refused and changes
    nothing.  Deleting the danmu under the id and the video brings the list
    of the video back to what it was. *)
Theorem saveDanmu_getDanmu (videoId userName : string) (danmu : Danmu) (random : string)
    (w : world) :
  calm w ->
  (forall r, In r (danmus (store w)) -> dm_id r <> danmu_id (clock w) random) ->
  exists w1 w2 w3 w4 shown,
    D1Storage.saveDanmu videoId userName danmu random w = (Returned tt, w1) /\
    D1Storage.getDanmu videoId w1 = (Returned shown, w2) /\
    Permutation shown
      (filter (of_video videoId) (danmus (store w))
       ++ [danmu_row_of videoId userName danmu (clock w) random]) /\
    StronglySorted (fun a b => (dm_time a <= dm_time b)%Z) shown /\
    (exists e w',
       D1Storage.saveDanmu videoId userName danmu random w2 = (Thrown e, w') /\
       store w' = store w2) /\
    D1Storage.deleteDanmu videoId (danmu_id (clock w) random) w2 = (Returned tt, w3) /\
    D1Storage.getDanmu videoId w3 =
      (Returned (order_by_asc dm_time (filter (of_video videoId) (danmus (store w)))), w4).
Proof.
  intros Hcalm Hfree.
  set (row := danmu_row_of videoId userName danmu (clock w) random).
  assert (Hnone : existsb (fun x => String.eqb (dm_id x) (danmu_id (clock w) random))
                    (danmus (store w)) = false).
  { destruct (existsb _ _) eqn:E; [|reflexivity].
    apply existsb_exists in E. destruct E as (r & Hr & E).
    apply String.eqb_eq in E. now destruct (Hfree r Hr). }
  assert (Hrow : of_video videoId row = true) by apply String.eqb_refl.
  eexists. eexists. eexists. eexists. eexists.
  split.
  { rewrite saveDanmu_run by quiet. rewrite Hnone. reflexivity. }
  split; [apply getDanmu_ok; quiet|].
  cbn [store set_store after_trip set_faults danmus set_danmus]. fold row.
  split.
  { rewrite order_by_asc_perm, filter_app. cbn [filter]. now rewrite Hrow. }
  split; [apply order_by_asc_sorted|].
  split.
  { eexists. eexists. rewrite saveDanmu_run by quiet.
    cbn [store set_store after_trip set_faults danmus set_danmus clock].
    rewrite existsb_app. cbn [existsb]. fold row.
    change (dm_id row) with (danmu_id (clock w) random).
    rewrite String.eqb_refl, orb_true_r. split; reflexivity. }
  split; [apply deleteDanmu_ok; quiet|].
  rewrite getDanmu_ok by quiet. f_equal. f_equal. f_equal.
  cbn [store set_store after_trip set_faults danmus set_danmus]. fold row.
  unfold delete_where. rewrite filter_app. cbn [filter].
  change (dm_id row) with (danmu_id (clock w) random).
  change (dm_video_id row) with videoId.
  rewrite !String.eqb_refl. cbn [andb negb]. rewrite app_nil_r. f_equal.
  apply (delete_where_nothing _
           (fun r => String.eqb (dm_id r) (danmu_id (clock w) random)
                     && String.eqb (dm_video_id r) videoId)
           (danmus (store w))).
  intros r Hr. apply andb_false_iff. left. apply String.eqb_neq. auto.
Qed.

Lemma saveDanmu_getDanmu_witness :
  exists w1 w2 w3 w4 shown,
    D1Storage.saveDanmu "v1" "alice" a_danmu "k3x9q2a1z" (world_of alice_and_bob)
      = (Returned tt, w1) /\
    D1Storage.getDanmu "v1" w1 = (Returned shown, w2) /\
    Permutation shown
      (filter (of_video "v1") (danmus (store (world_of alice_and_bob)))
       ++ [danmu_row_of "v1" "alice" a_danmu (clock (world_of alice_and_bob)) "k3x9q2a1z"]) /\
    StronglySorted (fun a b => (dm_time a <= dm_time b)%Z) shown /\
    (exists e w',
       D1Storage.saveDanmu "v1" "alice" a_danmu "k3x9q2a1z" w2 = (Thrown e, w') /\
       store w' = store w2) /\
    D1Storage.deleteDanmu "v1" (danmu_id (clock (world_of alice_and_bob)) "k3x9q2a1z") w2
      = (Returned tt, w3) /\
    D1Storage.getDanmu "v1" w3 =
      (Returned (order_by_asc dm_time
                   (filter (of_video "v1") (danmus (store (world_of alice_and_bob))))), w4).
Proof.
  apply (saveDanmu_getDanmu "v1" "alice" a_danmu "k3x9q2a1z" (world_of alice_and_bob)).
  - apply calm_world_of.
  - intros r [].
Defined.

(** ** Bindings, as the administrator lists them *)

Lemma getMachineCodeUsers_ok (w : world) :
  fault_next w = false ->
  D1Storage.getMachineCodeUsers w =
  (Returned
     (fold_left (fun o row => assign (mc_username row) (device_of row) o)
        (machine_codes (store w)) []),
   after_trip w).
Proof.
  intros F. unfold D1Storage.getMachineCodeUsers, try_catch, bind, ret.
  erewrite run_query by (assumption || reflexivity). reflexivity.
Qed.

(** X15.  In a store with one binding per handle, the object
    [getMachineCodeUsers] returns has, under every handle but [__proto__], the
    binding [getUserMachineCode] reads for it, and no member under a handle
    that has none.  Under [__proto__] it has no member, whatever is bound to
    an account of that name.  When the round trip fails the object is empty
    and no error goes up: the list then reads as if no account were bound. *)
Theorem getMachineCodeUsers_agrees (userName : string) (w : world) :
  calm w ->
  bindings_unique (store w) ->
  (exists all code w1 w2,
     D1Storage.getMachineCodeUsers w = (Returned all, w1) /\
     D1Storage.getUserMachineCode userName w1 = (Returned code, w2) /\
     (userName <> "__proto__" ->
      option_map bd_machineCode (property userName all) = code) /\
     property "__proto__" all = None) /\
  forall oracle,
    D1Storage.getMachineCodeUsers (set_faults (true :: oracle) w)
      = (Returned [], set_faults oracle w).
Proof.
  intros Hcalm [Huniq _]. split.
  - eexists. eexists. eexists. eexists.
    split; [apply getMachineCodeUsers_ok; quiet|].
    split; [apply getUserMachineCode_ok; quiet|].
    rewrite store_after_trip.
    split; [|apply (property_proto _ _ mc_username device_of)].
    intros Hname.
    rewrite (property_fold _ _ mc_username device_of) by assumption.
    unfold bound_code. destruct (find _ _); reflexivity.
  - intros oracle. unfold D1Storage.getMachineCodeUsers, try_catch, bind.
    rewrite run_fault by reflexivity. reflexivity.
Qed.

Lemma getMachineCodeUsers_agrees_witness :
  (exists all code w1 w2,
     D1Storage.getMachineCodeUsers (world_of both_bound) = (Returned all, w1) /\
     D1Storage.getUserMachineCode "bob" w1 = (Returned code, w2) /\
     ("bob" <> "__proto__" ->
      option_map bd_machineCode (property "bob" all) = code) /\
     property "__proto__" all = None) /\
  forall oracle,
    D1Storage.getMachineCodeUsers (set_faults (true :: oracle) (world_of both_bound))
      = (Returned [], set_faults oracle (world_of both_bound)).
Proof.
  apply (getMachineCodeUsers_agrees "bob" (world_of both_bound)).
  - apply calm_world_of.
  - split; repeat constructor; simpl; intuition discriminate.
Defined.

(** ** Messages of a conversation *)

Lemma getMessages_ok (conversationId : string) (limit offset : Z) (w : world) :
  fault_next w = false ->
  D1Storage.getMessages conversationId limit offset w =
  (Returned
     (rev (limit_offset limit offset
             (order_by_desc msg_timestamp
                (filter (of_conversation conversationId) (messages (store w)))))),
   after_trip w).
Proof.
  intros F. unfold D1Storage.getMessages, try_catch, bind, ret.
  erewrite run_query by (assumption || reflexivity). reflexivity.
Qed.

Lemma sorted_app (A : Type) (R : A -> A -> Prop) (l1 l2 : list A) :
  StronglySorted R (l1 ++ l2) ->
  StronglySorted R l1 /\ StronglySorted R l2 /\
  forall a b, In a l1 -> In b l2 -> R a b.
Proof.
  induction l1 as [|x l1 IH]; cbn [app]; intros H.
  - split; [constructor|]. split; [exact H|]. intros a b [].
  - inversion H as [|? ? Hs Hx]; subst. destruct (IH Hs) as (H1 & H2 & H12).
    rewrite Forall_forall in Hx.
    split; [constructor; [exact H1|]|split; [exact H2|]].
    + apply Forall_forall. intros y Hy. apply Hx. apply in_or_app. now left.
    + intros a b [<-|Ha] Hb; [apply Hx; apply in_or_app; now right|now apply H12].
Qed.

Lemma sorted_snoc (A : Type) (R : A -> A -> Prop) (l : list A) (x : A) :
  StronglySorted R l -> (forall y, In y l -> R y x) -> StronglySorted R (l ++ [x]).
Proof.
  induction 1 as [|y l Hl IH Hy]; intros Hx; cbn [app].
  - repeat constructor.
  - constructor.
    + apply IH. intros z Hz. apply Hx. now right.
    + apply Forall_app. split; [exact Hy|]. constructor; [|constructor].
      apply Hx. now left.
Qed.

Lemma sorted_rev (A : Type) (key : A -> Z) (l : list A) :
  StronglySorted (fun a b => (key b <= key a)%Z) l ->
  StronglySorted (fun a b => (key a <= key b)%Z) (rev l).
Proof.
  induction 1 as [|x l Hl IH Hx]; [constructor|].
  cbn [rev]. apply sorted_snoc; [exact IH|].
  intros y Hy. apply in_rev in Hy. rewrite Forall_forall in Hx. now apply Hx.
Qed.

(** X16.  [getMessages] returns messages of the conversation it is asked
    for, oldest first and no more than the limit; read from the start, they
    are the latest of the conversation: every message of the conversation
    that is left out is no later than each one returned. *)
Theorem getMessages_latest_in_order (conversationId : string) (limit offset : Z)
    (w : world) :
  calm w ->
  (0 <= limit)%Z ->
  exists shown w1,
    D1Storage.getMessages conversationId limit offset w = (Returned shown, w1) /\
    store w1 = store w /\
    chronological shown /\
    List.length shown <= Z.to_nat limit /\
    (forall m, In m shown ->
       In m (messages (store w)) /\ msg_conversation_id m = conversationId) /\
    ((offset <= 0)%Z ->
     forall m m', In m shown ->
       In m' (messages (store w)) -> msg_conversation_id m' = conversationId ->
       ~ In m' shown -> (msg_timestamp m' <= msg_timestamp m)%Z).
Proof.
  intros Hcalm Hlimit.
  set (all := order_by_desc msg_timestamp
                (filter (of_conversation conversationId) (messages (store w)))).
  assert (Hsorted : StronglySorted (fun a b => (msg_timestamp b <= msg_timestamp a)%Z) all)
    by apply order_by_desc_sorted.
  assert (Hshape : limit_offset limit offset all
                   = firstn (Z.to_nat limit) (skipn (Z.to_nat offset) all)).
  { unfold limit_offset. destruct (limit <? 0)%Z eqn:E; [|reflexivity].
    apply Z.ltb_lt in E. lia. }
  eexists. eexists.
  split; [apply getMessages_ok; quiet|]. fold all. rewrite Hshape.
  split; [apply store_after_trip|].
  split.
  { apply sorted_rev.
    rewrite <- (firstn_skipn (Z.to_nat offset) all) in Hsorted.
    apply sorted_app in Hsorted. destruct Hsorted as (_ & Hs & _).
    rewrite <- (firstn_skipn (Z.to_nat limit) (skipn (Z.to_nat offset) all)) in Hs.
    apply sorted_app in Hs. apply Hs. }
  split.
  { rewrite length_rev. apply firstn_le_length. }
  split.
  { intros m Hm. apply in_rev, In_firstn, In_skipn in Hm.
    apply In_order_by_desc, filter_In in Hm. destruct Hm as [Hin E].
    split; [exact Hin|]. now apply String.eqb_eq. }
  intros Hoffset m m' Hm Hm' Hconv Hout.
  replace (Z.to_nat offset) with 0 in * by lia. cbn [skipn] in *.
  apply in_rev in Hm.
  assert (Hall : In m' all).
  { eapply Permutation_in; [symmetry; apply order_by_desc_perm|].
    apply filter_In. split; [exact Hm'|]. unfold of_conversation. subst.
    apply String.eqb_refl. }
  rewrite <- (firstn_skipn (Z.to_nat limit) all) in Hall, Hsorted.
  apply in_app_or in Hall. destruct Hall as [Hin|Hin].
  - destruct Hout. now apply -> in_rev.
  - apply sorted_app in Hsorted. destruct Hsorted as (_ & _ & H). now apply H.
Qed.

Lemma getMessages_latest_in_order_witness :
  exists shown w1,
    D1Storage.getMessages "C" 2 0 (world_of long_talk) = (Returned shown, w1) /\
    store w1 = store (world_of long_talk) /\
    chronological shown /\
    List.length shown <= Z.to_nat 2 /\
    (forall m, In m shown ->
       In m (messages (store (world_of long_talk))) /\ msg_conversation_id m = "C") /\
    ((0 <= 0)%Z ->
     forall m m', In m shown ->
       In m' (messages (store (world_of long_talk))) -> msg_conversation_id m' = "C" ->
       ~ In m' shown -> (msg_timestamp m' <= msg_timestamp m)%Z).
Proof.
  apply (getMessages_latest_in_order "C" 2 0 (world_of long_talk)).
  - apply calm_world_of.
  - lia.
Defined.

(** ** Conversations: [createConversation], [updateConversation] *)

Lemma to_conversation_row_of (c : Conversation) :
  D1Storage.to_conversation (conversation_row_of c) = Some c.
Proof.
  unfold D1Storage.to_conversation, conversation_row_of. cbn [cv_participants].
  rewrite JSON_parse_stringify. destruct c; reflexivity.
Qed.

Lemma conversation_exists_find (conversationId : string) (d : database) :
  conversation_exists conversationId d = false ->
  find (is_conversation conversationId) (conversations d) = None.
Proof.
  unfold conversation_exists, is_conversation.
  induction (conversations d) as [|r l IH]; [reflexivity|].
  cbn [existsb find]. destruct (String.eqb (cv_id r) conversationId); [discriminate|exact IH].
Qed.

Lemma createConversation_ok (c : Conversation) (w : world) :
  fault_next w = false ->
  conversation_exists (conv_id c) (store w) = false ->
  D1Storage.createConversation c w =
  (Returned tt,
   set_store
     (set_conversations (conversations (store w) ++ [conversation_row_of c]) (store w))
     (after_trip w)).
Proof.
  intros F E. unfold D1Storage.createConversation, try_catch.
  rewrite run_accepted by (assumption || reflexivity).
  cbn [meaning Sql.insert_conversation]. rewrite store_after_trip, E. reflexivity.
Qed.

Lemma getConversation_ok (conversationId : string) (w : world) :
  fault_next w = false ->
  D1Storage.getConversation conversationId w =
  (Returned
     (match find (is_conversation conversationId) (conversations (store w)) with
      | Some row => D1Storage.to_conversation row
      | None => None
      end),
   after_trip w).
Proof.
  intros F. unfold D1Storage.getConversation, try_catch, bind, ret, throw.
  erewrite run_query by (assumption || reflexivity). cbv beta.
  fold (is_conversation conversationId).
  destruct (find _ _) as [row|]; [|reflexivity].
  destruct (D1Storage.to_conversation row); reflexivity.
Qed.

Lemma to_conversations_all (rows : list conversation_row) :
  (forall r, In r rows -> D1Storage.to_conversation r <> None) ->
  exists cs,
    D1Storage.to_conversations rows = Some cs /\
    forall r c, In r rows -> D1Storage.to_conversation r = Some c -> In c cs.
Proof.
  induction rows as [|x rows IH]; intros H.
  - exists []. split; [reflexivity|]. intros r c [].
  - destruct IH as (cs & E & Hcs); [intros r Hr; apply H; now right|].
    cbn [D1Storage.to_conversations]. rewrite E.
    destruct (D1Storage.to_conversation x) as [c0|] eqn:E0;
      [|now destruct (H x (or_introl eq_refl))].
    exists (c0 :: cs). split; [reflexivity|].
    intros r c [<-|Hr] Hc; [left; congruence|right; eauto].
Qed.

Lemma getConversations_ok (userName : string) (w : world) :
  fault_next w = false ->
  String.length userName <= 46 ->
  participants_parse (store w) ->
  exists cs,
    D1Storage.getConversations userName w = (Returned cs, after_trip w) /\
    forall r c, In r (conversations (store w)) ->
      LIKE (cv_participants r) (participant_pattern userName) = true ->
      D1Storage.to_conversation r = Some c -> In c cs.
Proof.
  intros F Hshort Hparse. unfold D1Storage.getConversations, try_catch, bind, ret.
  rewrite (run_like _ _ (Sql.select_conversations_like (participant_pattern userName)) _
             conversations _ w F eq_refl eq_refl).
  rewrite (like_runs_handle _ userName _ Hshort).
  destruct (to_conversations_all
              (order_by_desc cv_updated_at
                 (filter (fun r => LIKE (cv_participants r) (participant_pattern userName))
                    (conversations (store w))))) as (cs & E & Hcs).
  { intros r Hr. apply In_order_by_desc, filter_In in Hr. destruct Hr as [Hr _].
    unfold D1Storage.to_conversation. specialize (Hparse r Hr).
    destruct (JSON_parse_array (cv_participants r)); [discriminate|now destruct Hparse]. }
  rewrite E. exists cs. split; [reflexivity|].
  intros r c Hr Hlike Hc. apply (Hcs r c); [|exact Hc].
  eapply Permutation_in; [symmetry; apply order_by_desc_perm|].
  apply filter_In. auto.
Qed.

(** The read of the conversations of a handle of more than forty-six bytes,
    on a store that has a conversation: the engine refuses the pattern and the
    read answers the empty list. *)
Lemma getConversations_long (userName : string) (w : world) :
  46 < String.length userName ->
  conversations (store w) <> [] ->
  D1Storage.getConversations userName w = (Returned [], after_trip w).
Proof.
  intros Hlong Hrows. unfold D1Storage.getConversations, try_catch, bind, ret.
  destruct (fault_next w) eqn:F; [now rewrite run_fault|].
  rewrite (run_like _ _ (Sql.select_conversations_like (participant_pattern userName)) _
             conversations _ w F eq_refl eq_refl).
  unfold like_runs. rewrite length_participant_pattern.
  replace (String.length userName + 4 <=? like_pattern_limit) with false
    by (symmetry; apply Nat.leb_gt; unfold like_pattern_limit; lia).
  destruct (conversations (store w)); [now destruct Hrows|reflexivity].
Qed.

(** X17.  A conversation created under a free id reads back as it was
    created, its list of participants having gone through its JSON text.  In
    a store whose participant lists all read as JSON, every participant whose
    handle JSON writes as it is and is of at most forty-six bytes finds the
    conversation in the list [getConversations] returns for them; for a handle
    of more than forty-six bytes the engine refuses the pattern and the list
    is empty.  A second creation under the id throws and changes nothing. *)
Theorem createConversation_getConversation (c : Conversation) (w : world) :
  calm w ->
  conversation_exists (conv_id c) (store w) = false ->
  participants_parse (store w) ->
  exists w1 w2,
    D1Storage.createConversation c w = (Returned tt, w1) /\
    D1Storage.getConversation (conv_id c) w1 = (Returned (Some c), w2) /\
    (forall h, json_plain h = true -> String.length h <= 46 -> In h (conv_participants c) ->
       exists cs w3, D1Storage.getConversations h w2 = (Returned cs, w3) /\ In c cs) /\
    (forall h, 46 < String.length h ->
       exists w3, D1Storage.getConversations h w2 = (Returned [], w3)) /\
    (forall other oracle, conv_id other = conv_id c -> exists e w3,
       D1Storage.createConversation other (set_faults oracle w2) = (Thrown e, w3) /\
       store w3 = store w1).
Proof.
  intros Hcalm Hfree Hparse.
  pose proof (conversation_exists_find _ _ Hfree) as Hnone.
  eexists. eexists.
  split; [apply createConversation_ok; [quiet|exact Hfree]|].
  split.
  { rewrite getConversation_ok by quiet.
    cbn [store set_store conversations set_conversations].
    rewrite find_app_none by exact Hnone. cbn [find].
    unfold is_conversation at 1. cbn [cv_id conversation_row_of].
    now rewrite String.eqb_refl, to_conversation_row_of. }
  split.
  { intros h Hplain Hshort Hin.
    match goal with |- context [D1Storage.getConversations h ?w2] =>
      destruct (getConversations_ok h w2) as (cs & E & Hcs)
    end.
    - quiet.
    - exact Hshort.
    - intros r Hr. cbn [store set_store after_trip set_faults conversations
                        set_conversations] in Hr.
      apply in_app_or in Hr. destruct Hr as [Hr|[<-|[]]]; [now apply Hparse|].
      cbn [cv_participants conversation_row_of]. now rewrite JSON_parse_stringify.
    - exists cs. eexists. split; [exact E|].
      apply (Hcs (conversation_row_of c)).
      + cbn [store set_store after_trip set_faults conversations set_conversations].
        apply in_or_app. right. now left.
      + now apply pattern_matches_member.
      + apply to_conversation_row_of. }
  split.
  { intros h Hlong. eexists. apply getConversations_long; [exact Hlong|].
    cbn [store set_store after_trip set_faults conversations set_conversations].
    intros E. now apply app_eq_nil in E. }
  intros other oracle Hid. unfold D1Storage.createConversation, try_catch, throw.
  match goal with |- context [run ?s ?v] =>
    destruct (fault_next v) eqn:F;
      [rewrite (run_fault _ s v F)|rewrite (run_accepted _ s v F eq_refl)]
  end.
  - eexists. eexists. split; reflexivity.
  - cbn [meaning Sql.insert_conversation].
    replace (conversation_exists (conv_id other) _) with true.
    + eexists. eexists. split; reflexivity.
    + symmetry. unfold conversation_exists.
      cbn [store set_store after_trip set_faults conversations set_conversations].
      rewrite existsb_app. cbn [existsb cv_id conversation_row_of].
      rewrite Hid, String.eqb_refl. now rewrite orb_true_r.
Qed.

Lemma createConversation_getConversation_witness :
  exists w1 w2,
    D1Storage.createConversation a_conversation (world_of alice_and_bob) = (Returned tt, w1) /\
    D1Storage.getConversation (conv_id a_conversation) w1
      = (Returned (Some a_conversation), w2) /\
    (forall h, json_plain h = true -> String.length h <= 46 ->
       In h (conv_participants a_conversation) ->
       exists cs w3, D1Storage.getConversations h w2 = (Returned cs, w3) /\
                     In a_conversation cs) /\
    (forall h, 46 < String.length h ->
       exists w3, D1Storage.getConversations h w2 = (Returned [], w3)) /\
    (forall other oracle, conv_id other = conv_id a_conversation -> exists e w3,
       D1Storage.createConversation other (set_faults oracle w2) = (Thrown e, w3) /\
       store w3 = store w1).
Proof.
  apply (createConversation_getConversation a_conversation (world_of alice_and_bob)).
  - apply calm_world_of.
  - reflexivity.
  - intros r [].
Defined.

Lemma find_is_conversation (conversationId : string) (l : list conversation_row)
    (row : conversation_row) :
  find (is_conversation conversationId) l = Some row -> cv_id row = conversationId.
Proof.
  intros E. apply find_some in E. destruct E as [_ E]. now apply String.eqb_eq.
Qed.

(** X18.  [updateConversation] on a stored conversation whose participants
    read as JSON leaves, under the id it was asked for, the fields of the
    update over those of the stored conversation; an id carried by the update
    is not written.  The conversations of every other id are as they were. *)
Theorem updateConversation_merges (conversationId : string) (updates : ConversationUpdates)
    (row : conversation_row) (current : Conversation) (w : world) :
  calm w ->
  find (is_conversation conversationId) (conversations (store w)) = Some row ->
  D1Storage.to_conversation row = Some current ->
  exists w1 w2,
    D1Storage.updateConversation conversationId updates w = (Returned tt, w1) /\
    D1Storage.getConversation conversationId w1 =
      (Returned (Some (updated_conversation conversationId current updates)), w2) /\
    forall other, other <> conversationId ->
      filter (is_conversation other) (conversations (store w2)) =
      filter (is_conversation other) (conversations (store w)).
Proof.
  intros Hcalm Hfind Hrow.
  pose proof (find_is_conversation _ _ _ Hfind) as Hid.
  eexists. eexists.
  split.
  { unfold D1Storage.updateConversation, try_catch, bind.
    rewrite getConversation_ok by quiet. rewrite Hfind, Hrow.
    erewrite run_update by runs. reflexivity. }
  split.
  { rewrite getConversation_ok by quiet.
    cbn [store set_store after_trip set_faults conversations set_conversations].
    unfold update_where. rewrite find_map_same.
    - rewrite Hfind. cbn [option_map]. rewrite Hid, String.eqb_refl.
      unfold D1Storage.to_conversation. cbn [cv_participants].
      rewrite JSON_parse_stringify. unfold updated_conversation.
      reflexivity.
    - intros r. unfold is_conversation.
      destruct (String.eqb (cv_id r) conversationId) eqn:E; exact E. }
  intros other Hne.
  cbn [store set_store after_trip set_faults conversations set_conversations].
  unfold update_where. clear Hfind.
  induction (conversations (store w)) as [|r l IH]; [reflexivity|].
  cbn [map filter]. rewrite IH.
  destruct (String.eqb (cv_id r) conversationId) eqn:E; [|reflexivity].
  apply String.eqb_eq in E. unfold is_conversation. cbn [cv_id]. rewrite E.
  apply not_eq_sym, String.eqb_neq in Hne. now rewrite Hne.
Qed.

Lemma updateConversation_merges_witness :
  exists w1 w2,
    D1Storage.updateConversation "C" renamed (world_of two_conversations) = (Returned tt, w1) /\
    D1Storage.getConversation "C" w1 =
      (Returned (Some (updated_conversation "C"
                         {| conv_id := "C"; conv_name := "C";
                            conv_participants := ["alice"; "bob"]; conv_type := "direct";
                            conv_created_at := 1%Z; conv_updated_at := 1%Z |}
                         renamed)), w2) /\
    forall other, other <> "C" ->
      filter (is_conversation other) (conversations (store w2)) =
      filter (is_conversation other) (conversations (store (world_of two_conversations))).
Proof.
  apply (updateConversation_merges "C" renamed (conversation_of "C" ["alice"; "bob"])
           {| conv_id := "C"; conv_name := "C";
              conv_participants := ["alice"; "bob"]; conv_type := "direct";
              conv_created_at := 1%Z; conv_updated_at := 1%Z |}
           (world_of two_conversations)).
  - apply calm_world_of.
  - reflexivity.
  - reflexivity.
Defined.

(** X19.  [updateConversation] reads the conversation through
    [getConversation], which answers null when its round trip fails.  So when
    the storage fails at that read, or when no conversation has the id, the
    update returns normally and the store is as it was: the caller is not told
    that nothing was written. *)
Theorem updateConversation_without_current (conversationId : string)
    (updates : ConversationUpdates) (w : world) :
  fault_next w = true \/ conversation_exists conversationId (store w) = false ->
  D1Storage.updateConversation conversationId updates w = (Returned tt, after_trip w) /\
  store (after_trip w) = store w.
Proof.
  intros H. split; [|apply store_after_trip].
  unfold D1Storage.updateConversation, try_catch, bind.
  destruct (fault_next w) eqn:F.
  - unfold D1Storage.getConversation, try_catch, bind.
    rewrite run_fault by exact F. reflexivity.
  - destruct H as [H|H]; [discriminate|].
    rewrite getConversation_ok by exact F.
    now rewrite (conversation_exists_find _ _ H).
Qed.

Lemma updateConversation_without_current_witness :
  D1Storage.updateConversation "C" renamed (failing (world_of two_conversations))
    = (Returned tt, after_trip (failing (world_of two_conversations))) /\
  store (after_trip (failing (world_of two_conversations)))
    = store (failing (world_of two_conversations)).
Proof.
  apply (updateConversation_without_current "C" renamed
           (failing (world_of two_conversations))).
  left. reflexivity.
Defined.

(** ** Friend requests *)

Lemma getFriendRequests_ok (userName : string) (w : world) :
  fault_next w = false ->
  D1Storage.getFriendRequests userName w =
  (Returned (order_by_desc rq_created_at
               (filter (Sql.concerns userName) (friend_requests (store w)))),
   after_trip w).
Proof.
  intros F. unfold D1Storage.getFriendRequests, try_catch.
  erewrite run_query by (assumption || reflexivity). reflexivity.
Qed.

Lemma In_getFriendRequests (userName : string) (r : friend_request_row)
    (l : list friend_request_row) :
  In r l -> Sql.concerns userName r = true ->
  In r (order_by_desc rq_created_at (filter (Sql.concerns userName) l)).
Proof.
  intros Hin Hc. eapply Permutation_in; [symmetry; apply order_by_desc_perm|].
  apply filter_In. auto.
Qed.

Lemma update_where_app (A : Type) (p : A -> bool) (f : A -> A) (l l' : list A) :
  update_where p f (l ++ l') = update_where p f l ++ update_where p f l'.
Proof. apply map_app. Qed.

(** X20.  A friend request created under a free id, with a status the schema
    admits and between accounts that exist, shows in the requests of its
    receiver and of its sender.  [updateFriendRequest] gives it the new status
    and the time of the call and keeps its other fields; a status the schema
    does not admit makes the update throw and changes nothing.
    [deleteFriendRequest] then leaves the table as it was before the
    creation. *)
Theorem friend_request_life_cycle (request : friend_request_row) (status : string)
    (w : world) :
  calm w ->
  (forall r, In r (friend_requests (store w)) -> rq_id r <> rq_id request) ->
  valid_status (rq_status request) = true ->
  valid_status status = true ->
  (foreign_keys w = true ->
   user_exists (rq_from_user request) (store w) = true /\
   user_exists (rq_to_user request) (store w) = true) ->
  exists w1 w2 w3 w4 w5 w6 received sent afterwards,
    D1Storage.createFriendRequest request w = (Returned tt, w1) /\
    D1Storage.getFriendRequests (rq_to_user request) w1 = (Returned received, w2) /\
    In request received /\
    D1Storage.getFriendRequests (rq_from_user request) w2 = (Returned sent, w3) /\
    In request sent /\
    (forall bad, valid_status bad = false -> exists e w',
       D1Storage.updateFriendRequest (rq_id request) bad w3 = (Thrown e, w') /\
       store w' = store w3) /\
    D1Storage.updateFriendRequest (rq_id request) status w3 = (Returned tt, w4) /\
    D1Storage.getFriendRequests (rq_to_user request) w4 = (Returned afterwards, w5) /\
    In (Sql.with_status status (clock w) request) afterwards /\
    D1Storage.deleteFriendRequest (rq_id request) w5 = (Returned tt, w6) /\
    friend_requests (store w6) = friend_requests (store w).
Proof.
  intros Hcalm Hfree Hvalid Hstatus Hfk.
  assert (Hnone : existsb (fun x => String.eqb (rq_id x) (rq_id request))
                    (friend_requests (store w)) = false).
  { destruct (existsb _ _) eqn:E; [|reflexivity].
    apply existsb_exists in E. destruct E as (r & Hr & E).
    apply String.eqb_eq in E. now destruct (Hfree r Hr). }
  assert (Hothers : forall r, In r (friend_requests (store w)) ->
                      String.eqb (rq_id r) (rq_id request) = false).
  { intros r Hr. apply String.eqb_neq. auto. }
  assert (Hto : Sql.concerns (rq_to_user request) request = true).
  { unfold Sql.concerns. now rewrite String.eqb_refl. }
  assert (Hfrom : Sql.concerns (rq_from_user request) request = true).
  { unfold Sql.concerns. now rewrite String.eqb_refl, orb_true_r. }
  assert (Hcreate : D1Storage.createFriendRequest request w =
    (Returned tt,
     set_store (set_friend_requests (friend_requests (store w) ++ [request]) (store w))
       (after_trip w))).
  { unfold D1Storage.createFriendRequest, try_catch.
    rewrite run_accepted by runs.
    cbn [meaning Sql.insert_friend_request]. rewrite store_after_trip, Hnone.
    fold (valid_status (rq_status request)). rewrite Hvalid.
    unfold references. change (foreign_keys (after_trip w)) with (foreign_keys w).
    destruct (foreign_keys w); [|reflexivity].
    destruct (Hfk eq_refl) as [-> ->]. reflexivity. }
  eexists. eexists. eexists. eexists. eexists. eexists. eexists. eexists. eexists.
  split; [exact Hcreate|].
  split; [apply getFriendRequests_ok; quiet|].
  cbn [store set_store after_trip set_faults friend_requests set_friend_requests].
  split.
  { apply In_getFriendRequests; [apply in_or_app; right; now left|exact Hto]. }
  split; [apply getFriendRequests_ok; quiet|].
  cbn [store set_store after_trip set_faults friend_requests set_friend_requests].
  split.
  { apply In_getFriendRequests; [apply in_or_app; right; now left|exact Hfrom]. }
  split.
  { intros bad Hbad. unfold D1Storage.updateFriendRequest, try_catch, bind, Date_now, throw.
    rewrite run_accepted by runs.
    cbn [meaning Sql.update_friend_request store set_store after_trip set_faults
         friend_requests set_friend_requests].
    rewrite existsb_app. cbn [existsb]. rewrite String.eqb_refl, orb_true_r.
    fold (valid_status bad). rewrite Hbad. cbn.
    eexists. eexists. split; reflexivity. }
  split.
  { unfold D1Storage.updateFriendRequest, try_catch, bind, Date_now.
    rewrite run_accepted by runs.
    cbn [meaning Sql.update_friend_request store set_store after_trip set_faults
         friend_requests set_friend_requests clock].
    fold (valid_status status). rewrite Hstatus, orb_true_r. reflexivity. }
  split; [apply getFriendRequests_ok; quiet|].
  cbn [store set_store after_trip set_faults friend_requests set_friend_requests].
  rewrite update_where_app, (update_where_none _ _ _ _ Hothers).
  unfold update_where at 1. cbn [map]. rewrite String.eqb_refl.
  split.
  { apply In_getFriendRequests; [apply in_or_app; right; now left|exact Hto]. }
  split.
  { unfold D1Storage.deleteFriendRequest, try_catch.
    erewrite run_update by runs. reflexivity. }
  cbn [store set_store after_trip set_faults friend_requests set_friend_requests].
  unfold update_where, delete_where. cbn [map]. rewrite String.eqb_refl.
  rewrite filter_app. cbn [filter rq_id Sql.with_status].
  rewrite String.eqb_refl. cbn [negb]. rewrite app_nil_r.
  apply (delete_where_nothing _ (fun r => String.eqb (rq_id r) (rq_id request))).
  exact Hothers.
Qed.

Lemma friend_request_life_cycle_witness :
  exists w1 w2 w3 w4 w5 w6 received sent afterwards,
    D1Storage.createFriendRequest a_request (world_of alice_and_bob) = (Returned tt, w1) /\
    D1Storage.getFriendRequests (rq_to_user a_request) w1 = (Returned received, w2) /\
    In a_request received /\
    D1Storage.getFriendRequests (rq_from_user a_request) w2 = (Returned sent, w3) /\
    In a_request sent /\
    (forall bad, valid_status bad = false -> exists e w',
       D1Storage.updateFriendRequest (rq_id a_request) bad w3 = (Thrown e, w') /\
       store w' = store w3) /\
    D1Storage.updateFriendRequest (rq_id a_request) "accepted" w3 = (Returned tt, w4) /\
    D1Storage.getFriendRequests (rq_to_user a_request) w4 = (Returned afterwards, w5) /\
    In (Sql.with_status "accepted" (clock (world_of alice_and_bob)) a_request) afterwards /\
    D1Storage.deleteFriendRequest (rq_id a_request) w5 = (Returned tt, w6) /\
    friend_requests (store w6) = friend_requests (store (world_of alice_and_bob)).
Proof.
  apply (friend_request_life_cycle a_request "accepted" (world_of alice_and_bob)).
  - apply calm_world_of.
  - intros r [].
  - reflexivity.
  - reflexivity.
  - intros _. split; reflexivity.
Defined.

(** ** [clearAllData] *)

Lemma clearAllData_batch (w : world) :
  run_all [ Sql.delete_all_users; Sql.delete_all_play_records; Sql.delete_all_favorites;
            Sql.delete_all_search_history; Sql.delete_all_skip_configs ] w
  = Returned (cleared w).
Proof. destruct w as [d fk fs c]. destruct fk; reflexivity. Qed.

Lemma delete_where_everything (A : Type) (l : list A) : delete_where (fun _ => true) l = [].
Proof. unfold delete_where. induction l; auto. Qed.

Lemma filter_everything (A : Type) (l : list A) : filter (fun _ => true) l = l.
Proof. induction l as [|x l IH]; [reflexivity|]. cbn [filter]. now rewrite IH. Qed.

Lemma mem_usernames (name : string) (d : database) :
  mem name (map u_username (users d)) = user_exists name d.
Proof.
  unfold mem, user_exists. induction (users d) as [|r l IH]; [reflexivity|].
  cbn [map existsb]. rewrite IH. now rewrite (String.eqb_sym name).
Qed.

(** X21.  [clearAllData] is one batch over five tables.  When its round
    trip succeeds, accounts, play records, favorites, search history and skip
    configurations are empty; danmus, conversations and messages are as they
    were; and of bindings, friend edges and friend requests the rows that
    stay are rows of the store before, none of which, where the engine
    enforces the references of the schema, names an account of before: without
    that enforcement all of them stay.  When the round trip fails the store
    is untouched. *)
Theorem clearAllData_scope (w : world) :
  exists w',
    (fault_next w = false /\
     D1Storage.clearAllData w = (Returned tt, w') /\
     users (store w') = [] /\ play_records (store w') = [] /\ favorites (store w') = [] /\
     search_history (store w') = [] /\ skip_configs (store w') = [] /\
     danmus (store w') = danmus (store w) /\
     conversations (store w') = conversations (store w) /\
     messages (store w') = messages (store w) /\
     (foreign_keys w = false ->
      machine_codes (store w') = machine_codes (store w) /\
      friends (store w') = friends (store w) /\
      friend_requests (store w') = friend_requests (store w)) /\
     (foreign_keys w = true ->
      (forall r, In r (machine_codes (store w')) ->
         In r (machine_codes (store w)) /\ user_exists (mc_username r) (store w) = false) /\
      (forall r, In r (friends (store w')) ->
         In r (friends (store w)) /\ user_exists (fr_user1 r) (store w) = false
         /\ user_exists (fr_user2 r) (store w) = false) /\
      (forall r, In r (friend_requests (store w')) ->
         In r (friend_requests (store w)) /\ user_exists (rq_from_user r) (store w) = false
         /\ user_exists (rq_to_user r) (store w) = false)))
    \/
    (fault_next w = true /\
     D1Storage.clearAllData w = (Thrown StorageFailure, w') /\
     store w' = store w).
Proof.
  unfold D1Storage.clearAllData, try_catch, throw.
  destruct (fault_next w) eqn:F.
  - exists (after_trip w). right. rewrite batch_fault by assumption. auto.
  - rewrite batch_ok by assumption. rewrite clearAllData_batch.
    eexists. left. split; [reflexivity|]. split; [reflexivity|].
    cbn [store set_store cleared users play_records favorites search_history skip_configs
         danmus machine_codes conversations messages friends friend_requests].
    rewrite store_after_trip. change (foreign_keys (after_trip w)) with (foreign_keys w).
    rewrite delete_where_everything, filter_everything.
    split; [reflexivity|]. split; [reflexivity|]. split; [reflexivity|].
    split; [reflexivity|]. split; [reflexivity|]. split; [reflexivity|].
    split; [reflexivity|]. split; [reflexivity|].
    split.
    + intros ->. auto.
    + intros ->. split; [|split]; intros r Hr;
        apply delete_where_In in Hr; destruct Hr as [Hr Hg].
      * split; [exact Hr|]. now rewrite <- mem_usernames.
      * apply orb_false_iff in Hg. destruct Hg as [H1 H2].
        rewrite <- !mem_usernames. auto.
      * apply orb_false_iff in Hg. destruct Hg as [H1 H2].
        rewrite <- !mem_usernames. auto.
Qed.

(** ** Friends: both ends of an edge *)

Lemma getFriends_ok (userName : string) (w : world) :
  fault_next w = false ->
  D1Storage.getFriends userName w =
  (Returned (map (friend_across userName)
               (filter (accepted_of userName) (friends (store w)))),
   after_trip w).
Proof.
  intros F. unfold D1Storage.getFriends, try_catch, bind, ret.
  erewrite run_query by (assumption || reflexivity). reflexivity.
Qed.

Lemma removeFriend_step (a b x y : string) (w : world) :
  js_ltb a b = true ->
  (x, y) = (a, b) \/ (x, y) = (b, a) ->
  fault_next w = false ->
  D1Storage.removeFriend x y w =
  (Returned tt,
   set_store
     (set_friends (delete_where (Sql.same_edge a b) (friends (store w))) (store w))
     (after_trip w)).
Proof.
  intros Hlt Hor F. unfold D1Storage.removeFriend, try_catch.
  rewrite (sort2_either a b _ _ Hlt Hor).
  erewrite run_update by (assumption || reflexivity). reflexivity.
Qed.

(** In a canonical table without the row of [a] and [b], no row links them. *)
Lemma unlinked (a b : string) (l : list friend_row) (r : friend_row) :
  js_ltb a b = true ->
  (forall x, In x l -> js_leb (fr_user1 x) (fr_user2 x) = true) ->
  In r (delete_where (Sql.same_edge a b) l) ->
  (Sql.names a r = true -> friend_username (friend_across a r) <> b) /\
  (Sql.names b r = true -> friend_username (friend_across b r) <> a).
Proof.
  intros Hlt Hcan Hr. apply delete_where_In in Hr. destruct Hr as [Hin Hne].
  destruct (ltb_leb a b Hlt) as [_ Hba]. specialize (Hcan r Hin).
  unfold Sql.same_edge in Hne. unfold Sql.names, friend_across. cbn [friend_username].
  split; intros Hn E.
  - destruct (String.eqb (fr_user1 r) a) eqn:E1.
    + subst. now rewrite String.eqb_refl in Hne.
    + cbn [orb] in Hn. apply String.eqb_eq in Hn. congruence.
  - destruct (String.eqb (fr_user1 r) b) eqn:E1.
    + apply String.eqb_eq in E1. congruence.
    + cbn [orb] in Hn. apply String.eqb_eq in Hn. subst.
      now rewrite !String.eqb_refl in Hne.
Qed.

(** X22.  Friendship is kept as one row and read from both ends.  For
    handles [a < b] in the order of JavaScript, after [addFriend] by either of them [getFriends] shows
    [b] among the friends of [a] and [a] among the friends of [b], with the
    time of the edge and the status offline.  After [removeFriend] by either
    of them, in a store whose edges are canonical, neither list names the
    other. *)
Theorem friendship_is_mutual (a b x x' y' : string) (friend : Friend) (w : world) :
  js_ltb a b = true ->
  (x, friend_username friend) = (a, b) \/ (x, friend_username friend) = (b, a) ->
  (x', y') = (a, b) \/ (x', y') = (b, a) ->
  canonical (store w) ->
  calm w ->
  (foreign_keys w = true ->
   user_exists a (store w) = true /\ user_exists b (store w) = true) ->
  exists w1 w2 w3 w4 w5 w6 of_a of_b of_a' of_b',
    D1Storage.addFriend x friend w = (Returned tt, w1) /\
    D1Storage.getFriends a w1 = (Returned of_a, w2) /\
    In (friend_named b (friend_added_at friend)) of_a /\
    D1Storage.getFriends b w2 = (Returned of_b, w3) /\
    In (friend_named a (friend_added_at friend)) of_b /\
    D1Storage.removeFriend x' y' w3 = (Returned tt, w4) /\
    D1Storage.getFriends a w4 = (Returned of_a', w5) /\
    (forall f, In f of_a' -> friend_username f <> b) /\
    D1Storage.getFriends b w5 = (Returned of_b', w6) /\
    (forall f, In f of_b' -> friend_username f <> a).
Proof.
  intros Hlt Hor Hor' Hcan Hcalm Hfk.
  assert (Hab : String.eqb a b = false).
  { apply String.eqb_neq. intros ->. destruct (ltb_leb b b Hlt) as [H1 H2]. congruence. }
  set (t := friend_added_at friend).
  assert (Hcan1 : forall r,
    In r (delete_where (Sql.same_edge a b) (friends (store w)) ++ [edge a b t]) ->
    js_leb (fr_user1 r) (fr_user2 r) = true)
    by (intros r; now apply replace_friend_canonical).
  eexists. eexists. eexists. eexists. eexists. eexists.
  eexists. eexists. eexists. eexists.
  split; [apply (addFriend_step a b); auto; quiet|].
  split; [apply getFriends_ok; quiet|].
  cbn [store set_store after_trip set_faults friends set_friends]. fold t.
  split.
  { apply in_map_iff. exists (edge a b t). split.
    - unfold friend_across, edge, friend_named. cbn [fr_user1 fr_user2 fr_added_at].
      now rewrite String.eqb_refl.
    - apply filter_In. split; [apply in_or_app; right; now left|].
      unfold accepted_of, Sql.names, edge. cbn [fr_user1 fr_user2 fr_status].
      now rewrite String.eqb_refl. }
  split; [apply getFriends_ok; quiet|].
  cbn [store set_store after_trip set_faults friends set_friends]. fold t.
  split.
  { apply in_map_iff. exists (edge a b t). split.
    - unfold friend_across, edge, friend_named. cbn [fr_user1 fr_user2 fr_added_at].
      now rewrite Hab.
    - apply filter_In. split; [apply in_or_app; right; now left|].
      unfold accepted_of, Sql.names, edge. cbn [fr_user1 fr_user2 fr_status].
      now rewrite String.eqb_refl, orb_true_r. }
  split; [apply (removeFriend_step a b); auto; quiet|].
  split; [apply getFriends_ok; quiet|].
  cbn [store set_store after_trip set_faults friends set_friends]. fold t.
  split.
  { intros f Hf. apply in_map_iff in Hf. destruct Hf as (r & <- & Hr).
    apply filter_In in Hr. destruct Hr as [Hr Hn].
    apply andb_true_iff in Hn. destruct Hn as [Hn _].
    now apply (unlinked a b _ r Hlt Hcan1 Hr). }
  split; [apply getFriends_ok; quiet|].
  cbn [store set_store after_trip set_faults friends set_friends]. fold t.
  intros f Hf. apply in_map_iff in Hf. destruct Hf as (r & <- & Hr).
  apply filter_In in Hr. destruct Hr as [Hr Hn].
  apply andb_true_iff in Hn. destruct Hn as [Hn _].
  now apply (unlinked a b _ r Hlt Hcan1 Hr).
Qed.

Lemma friendship_is_mutual_witness :
  exists w1 w2 w3 w4 w5 w6 of_a of_b of_a' of_b',
    D1Storage.addFriend "bob" (friend_named "alice" 5%Z) (world_of alice_and_bob)
      = (Returned tt, w1) /\
    D1Storage.getFriends "alice" w1 = (Returned of_a, w2) /\
    In (friend_named "bob" (friend_added_at (friend_named "alice" 5%Z))) of_a /\
    D1Storage.getFriends "bob" w2 = (Returned of_b, w3) /\
    In (friend_named "alice" (friend_added_at (friend_named "alice" 5%Z))) of_b /\
    D1Storage.removeFriend "alice" "bob" w3 = (Returned tt, w4) /\
    D1Storage.getFriends "alice" w4 = (Returned of_a', w5) /\
    (forall f, In f of_a' -> friend_username f <> "bob") /\
    D1Storage.getFriends "bob" w5 = (Returned of_b', w6) /\
    (forall f, In f of_b' -> friend_username f <> "alice").
Proof.
  apply (friendship_is_mutual "alice" "bob" "bob" "alice" "bob" (friend_named "alice" 5%Z)
           (world_of alice_and_bob)).
  - reflexivity.
  - right. reflexivity.
  - left. reflexivity.
  - intros r [].
  - apply calm_world_of.
  - intros _. split; reflexivity.
Defined.

(** ** The login route: what it writes and what it answers *)

Lemma reads_ret (A : Type) (a : A) : reads_only (ret a).
Proof. intros w. reflexivity. Qed.

Lemma reads_throw (A : Type) (e : error) : reads_only (@throw A e).
Proof. intros w. reflexivity. Qed.

Lemma reads_bind (A B : Type) (m : M A) (k : A -> M B) :
  reads_only m -> (forall a, reads_only (k a)) -> reads_only (bind m k).
Proof.
  intros Hm Hk w. unfold bind. specialize (Hm w).
  destruct (m w) as [[a|e] w']; cbn [snd] in *; [|assumption].
  now rewrite Hk.
Qed.

Lemma reads_try_catch (A : Type) (m : M A) (h : error -> M A) :
  reads_only m -> (forall e, reads_only (h e)) -> reads_only (try_catch m h).
Proof.
  intros Hm Hh w. unfold try_catch. specialize (Hm w).
  destruct (m w) as [[a|e] w']; cbn [snd] in *; [assumption|].
  now rewrite Hh.
Qed.

Lemma reads_query (A : Type) (s : statement A) (f : database -> A) :
  meaning s = query f -> reads_only (run s).
Proof.
  intros E w. unfold run, round_trip.
  destruct (fault_next w); [reflexivity|].
  destruct (accepted s); [|reflexivity].
  rewrite E. unfold query. reflexivity.
Qed.

Lemma with_auth_cookie_total (env : environment) (r : response)
    (user pass role : option string) (includePassword : bool) (w : world) :
  with_auth_cookie env r user pass role includePassword w =
  (Returned
     (set_cookie
        (encodeURIComponent
           (JSON_stringify (session_data env user pass role includePassword (clock w))))
        (clock w + seven_days)%Z r),
   w).
Proof.
  unfold with_auth_cookie, bind. rewrite generateAuthCookie_returns. reflexivity.
Qed.

Lemma reads_with_auth_cookie (env : environment) (r : response)
    (user pass role : option string) (includePassword : bool) :
  reads_only (with_auth_cookie env r user pass role includePassword).
Proof. intros w. now rewrite with_auth_cookie_total. Qed.

Ltac reading :=
  repeat match goal with
         | |- reads_only (ret _) => apply reads_ret
         | |- reads_only (throw _) => apply reads_throw
         | |- reads_only (with_auth_cookie _ _ _ _ _ _) => apply reads_with_auth_cookie
         | |- reads_only (run _) => eapply reads_query; reflexivity
         | |- reads_only (try_catch _ _) => apply reads_try_catch; [|intros]
         | |- reads_only (bind _ _) => apply reads_bind; [|intros]
         | |- reads_only (if ?b then _ else _) => destruct b
         | |- reads_only (match ?x with _ => _ end) => destruct x
         end.

Ltac only_reads :=
  match goal with
  | |- store (snd (?m ?w)) = store ?w => revert w; change (reads_only m)
  end.

Lemma reads_checkPasswordAndBinding (env : environment) (name pass : string)
    (code : option string) (user : option user_config) :
  reads_only (checkPasswordAndBinding env name pass code user).
Proof.
  unfold checkPasswordAndBinding, D1Storage.verifyUser, D1Storage.getUserMachineCode,
    D1Storage.isMachineCodeBound.
  reading.
Qed.

(** The owner's account is looked for and, when missing, created; a failure
    of the storage is swallowed. *)
Lemma owner_sync (name pass : string) (w : world) :
  exists w',
    try_catch
      (bind (D1Storage.checkUserExist name)
         (fun ownerExists =>
            if negb ownerExists then D1Storage.registerUser name pass else ret tt))
      (fun _ => ret tt) w = (Returned tt, w') /\
    clock w' = clock w /\
    (store w' = store w \/
     user_exists name (store w) = false /\
     store w' = set_users (users (store w) ++ [new_account name pass (clock w)]) (store w)) /\
    (user_exists name (store w) = true -> store w' = store w) /\
    (calm w -> user_exists name (store w') = true).
Proof.
  unfold try_catch, bind.
  destruct (fault_next w) eqn:F.
  { unfold D1Storage.checkUserExist, try_catch, bind, throw.
    rewrite run_fault by exact F. eexists. split; [reflexivity|].
    split; [reflexivity|]. split; [left; reflexivity|]. split; [reflexivity|].
    intros Hcalm. apply calm_next in Hcalm. congruence. }
  rewrite checkUserExist_ok by exact F.
  destruct (user_exists name (store w)) eqn:E; cbn [negb].
  { eexists. split; [reflexivity|]. split; [reflexivity|].
    split; [left; apply store_after_trip|]. split; [intros _; apply store_after_trip|].
    intros _. now rewrite store_after_trip. }
  destruct (fault_next (after_trip w)) eqn:F2.
  { unfold D1Storage.registerUser, try_catch, throw.
    rewrite run_fault by exact F2. eexists. split; [reflexivity|].
    split; [reflexivity|]. split; [left; reflexivity|]. split; [discriminate|].
    intros Hcalm. apply calm_after_trip, calm_next in Hcalm. congruence. }
  rewrite registerUser_ok by (rewrite ?store_after_trip; assumption).
  eexists. split; [reflexivity|]. split; [reflexivity|].
  split; [right; split; [reflexivity|]; now rewrite !store_after_trip|].
  split; [discriminate|].
  intros _. cbn [store set_store]. rewrite user_exists_app.
  cbn [u_username new_account]. now rewrite String.eqb_refl, orb_true_r.
Qed.

Lemma owner_branch (env : environment) (name pass : string) (answer : response)
    (w : world) :
  exists w',
    bind
      (try_catch
         (bind (D1Storage.checkUserExist name)
            (fun ownerExists =>
               if negb ownerExists then D1Storage.registerUser name pass else ret tt))
         (fun _ => ret tt))
      (fun _ => with_auth_cookie env answer (Some name) (Some pass) (Some "owner") false) w
    = (Returned (session env answer name pass (Some "owner") (clock w)), w') /\
    (store w' = store w \/
     user_exists name (store w) = false /\
     store w' = set_users (users (store w) ++ [new_account name pass (clock w)]) (store w)) /\
    (user_exists name (store w) = true -> store w' = store w) /\
    (calm w -> user_exists name (store w') = true).
Proof.
  destruct (owner_sync name pass w) as (w' & E & Hclock & H).
  exists w'. split; [|exact H].
  unfold bind at 1. rewrite E, with_auth_cookie_returns, Hclock. reflexivity.
Qed.

Lemma try_catch_answers (A : Type) (m : M A) (a0 : A) (w : world) :
  try_catch m (fun _ => ret a0) w =
  (Returned (match fst (m w) with Returned a => a | Thrown _ => a0 end), snd (m w)).
Proof. unfold try_catch, ret. destruct (m w) as [[a|e] w']; reflexivity. Qed.

(** X23.  The login route never throws: every request, in every world, is
    answered.  And it never writes, with one exception: a request it takes
    for the owner of the deployment adds the owner's account, with the
    password of the request, when the account table has none under that
    handle. *)
Theorem POST_answers_and_hardly_writes (env : environment) (req : option credentials)
    (w : world) :
  exists r w',
    POST env req w = (Returned r, w') /\
    (store w' = store w \/
     owner_login env req = true /\
     exists name pass,
       option_map username req = Some (Some name) /\
       option_map password req = Some (Some pass) /\
       user_exists name (store w) = false /\
       store w' =
         set_users (users (store w) ++ [new_account name pass (clock w)]) (store w)).
Proof.
  unfold POST. rewrite try_catch_answers. eexists. eexists. split; [reflexivity|].
  unfold owner_login.
  destruct (String.eqb (STORAGE_TYPE env) "localstorage") eqn:Hmode.
  { left. only_reads. reading. }
  destruct req as [r|]; [|left; reflexivity].
  destruct (truthy_opt (username r)) eqn:Hname; [|left; reflexivity].
  destruct (truthy_opt (password r)) eqn:Hpass; [|left; reflexivity].
  cbn [negb andb] in *.
  destruct (username r) as [name|] eqn:Hu; [|discriminate].
  destruct (password r) as [pass|] eqn:Hp; [|discriminate].
  cbn [truthy_opt] in Hname, Hpass.
  rewrite (or_default_truthy name "" Hname), (or_default_truthy pass "" Hpass) in *.
  destruct (is_owner env name && is_owner_password env pass) eqn:Howner.
  - destruct (owner_branch env name pass (json_response [("ok", JBool true)] 200) w)
      as (w' & E & Hstore & _).
    rewrite E. cbn [snd].
    destruct Hstore as [Hs|[Hnone Hs]]; [left; exact Hs|].
    right. split; [reflexivity|]. exists name, pass. cbn [option_map].
    rewrite Hu, Hp. auto.
  - left. only_reads.
    destruct (is_owner env name); [apply reads_ret|].
    destruct (getConfig env) as [configUsers|e]; [|apply reads_throw].
    destruct (is_banned (config_user configUsers name)); [apply reads_ret|].
    apply reads_try_catch; [apply reads_checkPasswordAndBinding|intros; apply reads_ret].
Qed.

(** X24.  Where no database is configured the login route compares the
    password of the request with the one of the deployment and never contacts
    the storage: the world is as it was.  Without a configured password every
    request is let in and the cookie is cleared; a request without a password
    is answered 400 and a wrong password 401.  The cookie of a success holds
    the role and the password itself, as sent, and neither handle, signature
    nor timestamp; it expires after seven days. *)
Theorem POST_local_mode (env : environment) (req : option credentials) (w : world) :
  STORAGE_TYPE env = "localstorage" ->
  POST env req w = (Returned (local_answer (PASSWORD env) req (clock w)), w).
Proof.
  intros Hmode. unfold POST, local_answer. rewrite Hmode.
  change (String.eqb "localstorage" "localstorage") with true. cbv iota.
  destruct (PASSWORD env) as [[|c secret]|]; try reflexivity.
  cbn [truthy_opt truthy negb or_absent or_default].
  destruct req as [r|]; [|reflexivity].
  destruct (password r) as [p|]; [|reflexivity].
  unfold try_catch.
  destruct (String.eqb p (String c secret)) eqn:E; cbn [negb]; [|reflexivity].
  rewrite with_auth_cookie_total. apply String.eqb_eq in E. subst p. reflexivity.
Qed.

Lemma POST_local_mode_witness :
  POST (local_mode (Some "secret")) (login "" "secret" None) (world_of alice_and_bob) =
  (Returned (local_answer (PASSWORD (local_mode (Some "secret"))) (login "" "secret" None)
               (clock (world_of alice_and_bob))),
   world_of alice_and_bob).
Proof.
  apply (POST_local_mode (local_mode (Some "secret")) (login "" "secret" None)
           (world_of alice_and_bob)).
  reflexivity.
Defined.

(** X25.  A request with the handle and the password of the owner of the
    deployment is let in as owner whatever the storage does: the answer is
    the session of the owner even when every round trip fails, and the code
    of the device is not looked at.  What the storage has of the owner is
    only brought in line: an account already there is left as it is, its
    stored password included, and when the storage answers an account is
    there afterwards. *)
Theorem owner_login_syncs (env : environment) (name pass : string) (code : option string)
    (w : world) :
  String.eqb (STORAGE_TYPE env) "localstorage" = false ->
  truthy name = true ->
  truthy pass = true ->
  is_owner env name = true ->
  is_owner_password env pass = true ->
  exists w',
    POST env (login name pass code) w =
      (Returned (session env (json_response [("ok", JBool true)] 200) name pass
                   (Some "owner") (clock w)), w') /\
    (user_exists name (store w) = true -> store w' = store w) /\
    (calm w -> user_exists name (store w') = true).
Proof.
  intros Hmode Hname Hpass Howner Hsecret.
  destruct (owner_branch env name pass (json_response [("ok", JBool true)] 200) w)
    as (w' & E & _ & Hkeep & Hthere).
  exists w'. split; [|split; assumption].
  unfold POST, login. rewrite Hmode. cbn [username password truthy_opt].
  rewrite Hname, Hpass. cbn [negb].
  rewrite (or_default_truthy name "" Hname), (or_default_truthy pass "" Hpass).
  rewrite Howner, Hsecret. cbn [andb].
  unfold try_catch at 1. now rewrite E.
Qed.

Lemma owner_login_syncs_witness :
  exists w',
    POST deployment (login "admin" "secret" None) (failing (world_of alice_and_bob)) =
      (Returned (session deployment (json_response [("ok", JBool true)] 200) "admin" "secret"
                   (Some "owner") (clock (failing (world_of alice_and_bob)))), w') /\
    (user_exists "admin" (store (failing (world_of alice_and_bob))) = true ->
     store w' = store (failing (world_of alice_and_bob))) /\
    (calm (failing (world_of alice_and_bob)) -> user_exists "admin" (store w') = true).
Proof.
  apply (owner_login_syncs deployment "admin" "secret" None
           (failing (world_of alice_and_bob))); reflexivity.
Defined.

(** ** The signature *)

Lemma length_be_bytes (n : nat) (x : Z) : List.length (SHA256.be_bytes n x) = n.
Proof. induction n as [|n IH]; cbn [SHA256.be_bytes List.length]; auto. Qed.

Lemma be_bytes_are_bytes (n : nat) (x : Z) : Forall is_byte (SHA256.be_bytes n x).
Proof.
  induction n as [|n IH]; cbn [SHA256.be_bytes]; constructor; [|exact IH].
  unfold is_byte. apply Z.mod_pos_bound. lia.
Qed.

Lemma length_round (s : list Z) (kw : Z * Z) :
  List.length (SHA256.round s kw) = List.length s.
Proof.
  unfold SHA256.round.
  destruct s as [|a [|b [|c [|d [|e [|f [|g [|h [|i s]]]]]]]]]; reflexivity.
Qed.

Lemma length_rounds (l : list (Z * Z)) (s : list Z) :
  List.length (fold_left SHA256.round l s) = List.length s.
Proof.
  revert s. induction l as [|kw l IH]; intros s; [reflexivity|].
  cbn [fold_left]. now rewrite IH, length_round.
Qed.

Lemma length_plus_all (xs ys : list Z) :
  List.length xs = List.length ys ->
  List.length (SHA256.plus_all xs ys) = List.length xs.
Proof.
  revert ys. induction xs as [|x xs IH]; intros [|y ys] H; cbn in *; try congruence.
  f_equal. apply IH. congruence.
Qed.

Lemma length_compress (state block : list Z) :
  List.length (SHA256.compress state block) = List.length state.
Proof.
  unfold SHA256.compress. apply length_plus_all. now rewrite length_rounds.
Qed.

Lemma length_compressed (blocks : list (list Z)) (state : list Z) :
  List.length (fold_left SHA256.compress blocks state) = List.length state.
Proof.
  revert state. induction blocks as [|b blocks IH]; intros state; [reflexivity|].
  cbn [fold_left]. now rewrite IH, length_compress.
Qed.

Lemma length_words_bytes (ws : list Z) :
  List.length (flat_map (SHA256.be_bytes 4) ws) = 4 * List.length ws.
Proof.
  induction ws as [|x ws IH]; [reflexivity|].
  cbn [flat_map]. rewrite length_app, length_be_bytes, IH. cbn [List.length]. lia.
Qed.

Lemma digest_is_32_bytes (msg : list Z) :
  List.length (SHA256.digest msg) = 32 /\ Forall is_byte (SHA256.digest msg).
Proof.
  unfold SHA256.digest.
  set (state := fold_left SHA256.compress _ SHA256.H0).
  assert (Hlen : List.length state = 8) by (unfold state; now rewrite length_compressed).
  clearbody state. split.
  - now rewrite length_words_bytes, Hlen.
  - clear Hlen. induction state as [|x state IH]; [constructor|].
    cbn [flat_map]. apply Forall_app. split; [apply be_bytes_are_bytes|exact IH].
Qed.

Lemma hmac_is_32_bytes (key msg : list Z) :
  List.length (hmac_sha256 key msg) = 32 /\ Forall is_byte (hmac_sha256 key msg).
Proof. unfold hmac_sha256. apply digest_is_32_bytes. Qed.

Lemma hex_digit_lower (n : nat) : n < 16 -> lower_hex (hex_digit n) = true.
Proof.
  intros H. do 16 (destruct n as [|n]; [reflexivity|]). lia.
Qed.

Lemma length_text (l : list ascii) : String.length (text l) = List.length l.
Proof. induction l as [|c l IH]; cbn; auto. Qed.

Lemma hex_format (bytes : list Z) :
  Forall is_byte bytes ->
  String.length (hex bytes) = 2 * List.length bytes /\
  forallb lower_hex (chars (hex bytes)) = true.
Proof.
  intros H. unfold hex. rewrite length_text, chars_text.
  induction H as [|b bytes Hb _ IH]; [split; reflexivity|].
  destruct IH as [IH1 IH2]. cbn [flat_map app List.length forallb].
  rewrite IH1, IH2. unfold is_byte in Hb.
  rewrite !hex_digit_lower.
  - split; [lia|reflexivity].
  - apply Nat2Z.inj_lt. rewrite Z2Nat.id by (apply Z.mod_pos_bound; lia).
    change (Z.of_nat 16) with 16%Z. apply Z.mod_pos_bound. lia.
  - apply Nat2Z.inj_lt. rewrite Z2Nat.id by (apply Z.div_pos; lia).
    change (Z.of_nat 16) with 16%Z. apply Z.div_lt_upper_bound; lia.
Qed.

(** X26.  Under a secret that is not empty, [generateSignature] returns, for
    every text, sixty-four lower-case hexadecimal digits, the thirty-two bytes
    of the HMAC, and leaves the world as it was. *)
Theorem generateSignature_format (data secret : string) (w : world) :
  truthy secret = true ->
  exists signature,
    generateSignature data secret w = (Returned signature, w) /\
    signature = hex (hmac_sha256 (encode secret) (encode data)) /\
    List.length (hmac_sha256 (encode secret) (encode data)) = 32 /\
    String.length signature = 64 /\
    forallb lower_hex (chars signature) = true.
Proof.
  intros Hs. unfold generateSignature. rewrite Hs.
  eexists. split; [reflexivity|]. split; [reflexivity|].
  destruct (hmac_is_32_bytes (encode secret) (encode data)) as [Hlen Hbytes].
  destruct (hex_format _ Hbytes) as [H1 H2].
  split; [exact Hlen|]. split; [|exact H2]. rewrite H1, Hlen. reflexivity.
Qed.

Lemma generateSignature_format_witness :
  exists signature,
    generateSignature "alice" "secret" (world_of alice_and_bob)
      = (Returned signature, world_of alice_and_bob) /\
    signature = hex (hmac_sha256 (encode "secret") (encode "alice")) /\
    List.length (hmac_sha256 (encode "secret") (encode "alice")) = 32 /\
    String.length signature = 64 /\
    forallb lower_hex (chars signature) = true.
Proof.
  apply (generateSignature_format "alice" "secret" (world_of alice_and_bob)).
  reflexivity.
Defined.

(** ** The login route: cookies *)

Lemma answers_ret (A : Type) (Q : A -> Prop) (a : A) : Q a -> answers Q (ret a).
Proof. intros H w b w' E. inversion E. now subst. Qed.

Lemma answers_throw (A : Type) (Q : A -> Prop) (e : error) : answers Q (@throw A e).
Proof. intros w b w' E. discriminate. Qed.

Lemma answers_bind (A B : Type) (Q : B -> Prop) (m : M A) (k : A -> M B) :
  (forall a, answers Q (k a)) -> answers Q (bind m k).
Proof.
  intros Hk w b w' E. unfold bind in E.
  destruct (m w) as [[a|e] w1]; [|discriminate]. exact (Hk a w1 b w' E).
Qed.

Lemma answers_try_catch (A : Type) (Q : A -> Prop) (m : M A) (h : error -> M A) :
  answers Q m -> (forall e, answers Q (h e)) -> answers Q (try_catch m h).
Proof.
  intros Hm Hh w b w' E. unfold try_catch in E.
  destruct (m w) as [[a|e] w1] eqn:Em.
  - inversion E; subst. exact (Hm w b w' Em).
  - exact (Hh e w1 b w' E).
Qed.

Lemma answers_with_auth_cookie (Q : response -> Prop) (env : environment) (r : response)
    (user pass role : option string) (includePassword : bool) :
  (forall value expires, Q (set_cookie value expires r)) ->
  answers Q (with_auth_cookie env r user pass role includePassword).
Proof.
  intros H w b w' E. rewrite with_auth_cookie_total in E. inversion E. apply H.
Qed.

Lemma success_sets_cookie (b : list (string * json)) (value : string) (expires : Z) :
  cookie_with_success (set_cookie value expires (json_response b 200)).
Proof.
  left. split; [reflexivity|]. eexists. split; [reflexivity|].
  repeat split.
Qed.

Lemma refusal_sets_none (b : list (string * json)) (s : nat) :
  s <> 200 -> cookie_with_success (json_response b s).
Proof. intros H. right. split; [exact H|reflexivity]. Qed.

Ltac leaf :=
  first [ apply success_sets_cookie
        | apply refusal_sets_none; discriminate ].

Ltac answering :=
  repeat match goal with
         | |- answers _ (ret _) => apply answers_ret; leaf
         | |- answers _ (throw _) => apply answers_throw
         | |- answers _ (with_auth_cookie _ _ _ _ _ _) =>
             apply answers_with_auth_cookie; intros; leaf
         | |- answers _ (try_catch _ _) => apply answers_try_catch; [|intros]
         | |- answers _ (bind _ _) => apply answers_bind; intros
         | |- answers _ (if ?b then _ else _) => destruct b
         | |- answers _ (match ?x with _ => _ end) => destruct x
         end.

(** X27.  Every answer of the login route that is a success, status 200,
    carries exactly one cookie, and every other answer carries none: a refused
    login never sets a credential.  The cookie is named auth, for the path /,
    same-site lax, readable by scripts and not restricted to secure
    transport. *)
Theorem POST_cookie_with_success (env : environment) (req : option credentials)
    (w : world) :
  exists r w', POST env req w = (Returned r, w') /\ cookie_with_success r.
Proof.
  assert (H : answers cookie_with_success (POST env req)).
  { unfold POST, checkPasswordAndBinding, invalid_credentials, banned_response,
      code_required, code_mismatch, code_taken, login_ok.
    answering. }
  unfold POST in *. rewrite try_catch_answers in *.
  eexists. eexists. split; [reflexivity|].
  eapply H. rewrite try_catch_answers. reflexivity.
Qed.

(** ** The route of the public configuration *)

(** X28.  The route of the public configuration always answers 200 with the
    one member [EnableChat], whatever the storage does.  The member is false
    only when a configuration is stored whose site section sets it to false;
    a missing configuration, a missing section, a missing flag and a failure
    of the storage all give true. *)
Theorem public_config_defaults (getAdminConfig : M (option PublicConfig.AdminConfig))
    (w : world) :
  exists enabled,
    PublicConfig.GET getAdminConfig w =
      (Returned (json_response [("EnableChat", JBool enabled)] 200),
       snd (getAdminConfig w)) /\
    (enabled = false <->
     exists config site,
       fst (getAdminConfig w) = Returned (Some config) /\
       PublicConfig.SiteConfig_of config = Some site /\
       PublicConfig.EnableChat site = Some false).
Proof.
  unfold PublicConfig.GET, try_catch, bind, ret.
  destruct (getAdminConfig w) as [[config|e] w']; cbn [fst snd].
  - destruct config as [[[[[[|]|]]|]]|];
      eexists; (split; [reflexivity|]);
      (split;
       [intros H; try discriminate H; eexists; eexists; repeat split
       |intros (c & s & E1 & E2 & E3); inversion E1; subst; cbn in E2;
        try discriminate E2; inversion E2; subst; cbn in E3;
        try discriminate E3; reflexivity]).
  - eexists. split; [reflexivity|].
    split; [discriminate|]. intros (c & s & E1 & _). discriminate.
Qed.

(** ** What every write of the class keeps *)

Lemma keeps_refl (P : database -> Prop) (d : database) : keeps P d d.
Proof. intros H. exact H. Qed.

Lemma keeps_trans (P : database -> Prop) (d1 d2 d3 : database) :
  keeps P d1 d2 -> keeps P d2 d3 -> keeps P d1 d3.
Proof. unfold keeps. auto. Qed.

Section Distinct.

Variables Row Key : Type.
Variable rows : database -> list Row.
Variable key : Row -> Key.

Lemma distinct_same (d d' : database) :
  rows d' = rows d -> keeps (distinct rows key) d d'.
Proof. unfold keeps, distinct. now intros ->. Qed.

Lemma distinct_emptied (d d' : database) :
  rows d' = [] -> keeps (distinct rows key) d d'.
Proof. unfold keeps, distinct. intros -> _. constructor. Qed.

Lemma distinct_deleted (d d' : database) :
  (exists p, rows d' = delete_where p (rows d)) -> keeps (distinct rows key) d d'.
Proof.
  unfold keeps, distinct. intros [p ->]. apply delete_where_keeps_NoDup.
Qed.

Lemma distinct_rewritten (d d' : database) (p : Row -> bool) (f : Row -> Row) :
  (forall r, key (f r) = key r) ->
  rows d' = update_where p f (rows d) -> keeps (distinct rows key) d d'.
Proof.
  unfold keeps, distinct, update_where. intros Hf ->. rewrite map_map.
  rewrite (map_ext (fun r => key (if p r then f r else r)) key); [auto|].
  intros r. destruct (p r); auto.
Qed.

Lemma distinct_replaced (d d' : database) (p : Row -> bool) (r : Row) :
  rows d' = delete_where p (rows d) ++ [r] ->
  ~ In (key r) (map key (delete_where p (rows d))) ->
  keeps (distinct rows key) d d'.
Proof.
  unfold keeps, distinct. intros -> Hr H. rewrite map_app. apply NoDup_snoc; [|exact Hr].
  now apply delete_where_keeps_NoDup.
Qed.

Lemma distinct_added (d d' : database) (r : Row) :
  rows d' = rows d ++ [r] -> ~ In (key r) (map key (rows d)) ->
  keeps (distinct rows key) d d'.
Proof.
  unfold keeps, distinct. intros -> Hr H. rewrite map_app. now apply NoDup_snoc.
Qed.

End Distinct.

(** A statement that leaves the table alone, empties it or deletes from it. *)
Ltac stays :=
  unfold delete_users, cascade_users, delete_conversations, cascade_conversations;
  try match goal with |- context [foreign_keys ?w] => destruct (foreign_keys w) end;
  first [ now apply distinct_same
        | now apply distinct_emptied
        | apply distinct_deleted; simpl; eauto; fail ].

Lemma existsb_key_none (Row : Type) (key : Row -> string) (h : string) (l : list Row) :
  existsb (fun r => String.eqb (key r) h) l = false -> ~ In h (map key l).
Proof.
  intros E H. apply in_map_iff in H. destruct H as (r & <- & Hr).
  assert (X : existsb (fun x => String.eqb (key x) (key r)) l = true).
  { apply existsb_exists. exists r. split; [exact Hr|apply String.eqb_refl]. }
  congruence.
Qed.

Lemma next_id_new (Row : Type) (id : Row -> Z) (p : Row -> bool) (l : list Row) :
  ~ In (next_id (map id l)) (map id (delete_where p l)).
Proof.
  intros H. apply in_map_iff in H. destruct H as (r & E & Hr).
  apply delete_where_In in Hr. destruct Hr as [Hr _].
  pose proof (next_id_fresh (map id l) (id r) (in_map id l r Hr)). lia.
Qed.

Lemma next_id_unused (Row : Type) (id : Row -> Z) (l : list Row) :
  ~ In (next_id (map id l)) (map id l).
Proof. intros H. pose proof (next_id_fresh _ _ H). lia. Qed.

(** A write through one statement, whose effect on a store is at hand. *)
Ltac written :=
  apply relates_statement; [assumption|];
  let w := fresh "w" in
  let a := fresh "a" in
  let d := fresh "d" in
  let E := fresh "E" in
  intros w a d E; simpl in E; try unfold update in E.

(** The constraint of an insertion held when it went through. *)
Ltac passed E C :=
  unfold constraint in E;
  match type of E with
  | (if negb ?b then _ else _) = _ => destruct b eqn:C; [discriminate E|]; simpl in E
  end;
  constrained.

Lemma perform_keeps_users (op : operation) :
  relates (keeps (distinct users u_username)) (perform op).
Proof.
  pose proof (keeps_refl (distinct users u_username)) as Rr.
  pose proof (keeps_trans (distinct users u_username)) as Rt.
  each_write op; try (now elsewhere ltac:(stays)).
  - (* registerUser *)
    written. passed E C.
    eapply distinct_added; [reflexivity|]. now apply existsb_key_none.
  - (* changePassword *)
    written. inversion E; subst.
    now apply (distinct_rewritten _ _ _ _ _ _ (Sql.name_is n) (Sql.with_password p)).
  - (* setUserAvatar *)
    written. inversion E; subst.
    now apply (distinct_rewritten _ _ _ _ _ _ (Sql.name_is n) (Sql.with_avatar (Some a))).
  - (* deleteUserAvatar *)
    written. inversion E; subst.
    now apply (distinct_rewritten _ _ _ _ _ _ (Sql.name_is n) (Sql.with_avatar None)).
Qed.

Lemma perform_keeps_play_ids (op : operation) :
  relates (keeps (distinct play_records pr_id)) (perform op).
Proof.
  pose proof (keeps_refl (distinct play_records pr_id)) as Rr.
  pose proof (keeps_trans (distinct play_records pr_id)) as Rt.
  each_write op; try (now elsewhere ltac:(stays)).
  written. inversion E; subst.
  eapply distinct_replaced; [reflexivity|]. apply next_id_new.
Qed.

Lemma perform_keeps_play_keys (op : operation) :
  relates (keeps (distinct play_records (fun r => (pr_username r, pr_key r)))) (perform op).
Proof.
  pose proof (keeps_refl (distinct play_records (fun r => (pr_username r, pr_key r)))) as Rr.
  pose proof (keeps_trans (distinct play_records (fun r => (pr_username r, pr_key r)))) as Rt.
  each_write op; try (now elsewhere ltac:(stays)).
  written. inversion E; subst.
  eapply distinct_replaced; [reflexivity|]. simpl.
  intros H. apply in_map_iff in H. destruct H as (x & Hx & Hin).
  apply delete_where_In in Hin. destruct Hin as [_ Hin].
  inversion Hx as [[Hu Hk]]. unfold Sql.play_key in Hin.
  now rewrite Hu, Hk, !String.eqb_refl in Hin.
Qed.

Lemma perform_keeps_favorite_ids (op : operation) :
  relates (keeps (distinct favorites fav_id)) (perform op).
Proof.
  pose proof (keeps_refl (distinct favorites fav_id)) as Rr.
  pose proof (keeps_trans (distinct favorites fav_id)) as Rt.
  each_write op; try (now elsewhere ltac:(stays)).
  written. inversion E; subst.
  eapply distinct_replaced; [reflexivity|]. apply next_id_new.
Qed.

Lemma perform_keeps_favorite_keys (op : operation) :
  relates (keeps (distinct favorites (fun r => (fav_username r, fav_key r)))) (perform op).
Proof.
  pose proof (keeps_refl (distinct favorites (fun r => (fav_username r, fav_key r)))) as Rr.
  pose proof (keeps_trans (distinct favorites (fun r => (fav_username r, fav_key r)))) as Rt.
  each_write op; try (now elsewhere ltac:(stays)).
  written. inversion E; subst.
  eapply distinct_replaced; [reflexivity|]. simpl.
  intros H. apply in_map_iff in H. destruct H as (x & Hx & Hin).
  apply delete_where_In in Hin. destruct Hin as [_ Hin].
  inversion Hx as [[Hu Hk]]. unfold Sql.favorite_key in Hin.
  now rewrite Hu, Hk, !String.eqb_refl in Hin.
Qed.

Lemma perform_keeps_skip_ids (op : operation) :
  relates (keeps (distinct skip_configs sk_id)) (perform op).
Proof.
  pose proof (keeps_refl (distinct skip_configs sk_id)) as Rr.
  pose proof (keeps_trans (distinct skip_configs sk_id)) as Rt.
  each_write op; try (now elsewhere ltac:(stays)).
  written. inversion E; subst.
  eapply distinct_replaced; [reflexivity|]. apply next_id_new.
Qed.

Lemma perform_keeps_skip_keys (op : operation) :
  relates (keeps (distinct skip_configs
                    (fun r => (sk_username r, sk_source r, sk_id_video r)))) (perform op).
Proof.
  pose proof (keeps_refl (distinct skip_configs
                            (fun r => (sk_username r, sk_source r, sk_id_video r)))) as Rr.
  pose proof (keeps_trans (distinct skip_configs
                             (fun r => (sk_username r, sk_source r, sk_id_video r)))) as Rt.
  each_write op; try (now elsewhere ltac:(stays)).
  written. inversion E; subst.
  eapply distinct_replaced; [reflexivity|]. simpl.
  intros H. apply in_map_iff in H. destruct H as (x & Hx & Hin).
  apply delete_where_In in Hin. destruct Hin as [_ Hin].
  inversion Hx as [[Hu Hs Hk]]. unfold Sql.skip_key in Hin.
  now rewrite Hu, Hs, Hk, !String.eqb_refl in Hin.
Qed.

Lemma perform_keeps_history_ids (op : operation) :
  relates (keeps (distinct search_history sh_id)) (perform op).
Proof.
  pose proof (keeps_refl (distinct search_history sh_id)) as Rr.
  pose proof (keeps_trans (distinct search_history sh_id)) as Rt.
  each_write op; try (now elsewhere ltac:(stays)).
  apply relates_bind; [assumption|untouched ltac:(stays)|intros _].
  apply relates_bind; [assumption| |intros _; untouched ltac:(stays)].
  written. passed E C.
  eapply distinct_added; [reflexivity|]. apply next_id_unused.
Qed.

Lemma perform_keeps_history_keys (op : operation) :
  relates (keeps (distinct search_history (fun r => (sh_username r, sh_keyword r))))
    (perform op).
Proof.
  pose proof (keeps_refl (distinct search_history
                            (fun r => (sh_username r, sh_keyword r)))) as Rr.
  pose proof (keeps_trans (distinct search_history
                             (fun r => (sh_username r, sh_keyword r)))) as Rt.
  each_write op; try (now elsewhere ltac:(stays)).
  apply relates_bind; [assumption|untouched ltac:(stays)|intros _].
  apply relates_bind; [assumption| |intros _; untouched ltac:(stays)].
  written. passed E C.
  eapply distinct_added; [reflexivity|]. simpl.
  intros H. apply in_map_iff in H. destruct H as (x & Hx & Hin).
  inversion Hx as [[Hu Hk]].
  assert (X : existsb (Sql.searched n k) (search_history (store w)) = true).
  { apply existsb_exists. exists x. split; [exact Hin|].
    unfold Sql.searched. now rewrite Hu, Hk, !String.eqb_refl. }
  congruence.
Qed.

Lemma perform_keeps_danmu_ids (op : operation) :
  relates (keeps (distinct danmus dm_id)) (perform op).
Proof.
  pose proof (keeps_refl (distinct danmus dm_id)) as Rr.
  pose proof (keeps_trans (distinct danmus dm_id)) as Rt.
  each_write op; try (now elsewhere ltac:(stays)).
  apply relates_bind; [assumption|apply relates_Date_now; assumption|intros now].
  written. passed E C.
  eapply distinct_added; [reflexivity|]. now apply existsb_key_none.
Qed.

Lemma perform_keeps_conversation_ids (op : operation) :
  relates (keeps (distinct conversations cv_id)) (perform op).
Proof.
  pose proof (keeps_refl (distinct conversations cv_id)) as Rr.
  pose proof (keeps_trans (distinct conversations cv_id)) as Rt.
  each_write op; try (now elsewhere ltac:(stays)).
  - (* createConversation *)
    written. passed E C.
    eapply distinct_added; [reflexivity|]. now apply existsb_key_none.
  - (* updateConversation *)
    apply relates_bind; [assumption|now apply reads_conversation|].
    intros [current|]; [|now apply relates_ret].
    written. inversion E; subst.
    eapply distinct_rewritten; [|reflexivity]. reflexivity.
Qed.

Lemma perform_keeps_friend_keys (op : operation) :
  relates (keeps (distinct friends (fun r => (fr_user1 r, fr_user2 r)))) (perform op).
Proof.
  pose proof (keeps_refl (distinct friends (fun r => (fr_user1 r, fr_user2 r)))) as Rr.
  pose proof (keeps_trans (distinct friends (fun r => (fr_user1 r, fr_user2 r)))) as Rt.
  each_write op; try (now elsewhere ltac:(stays)).
  destruct (sort2 n (friend_username f)) as [user1 user2].
  written. constrained.
  eapply distinct_replaced; [reflexivity|]. simpl.
  intros H. apply in_map_iff in H. destruct H as (x & Hx & Hin).
  apply delete_where_In in Hin. destruct Hin as [_ Hin].
  inversion Hx as [[Hu Hk]]. unfold Sql.same_edge in Hin.
  now rewrite Hu, Hk, !String.eqb_refl in Hin.
Qed.

Lemma perform_keeps_request_ids (op : operation) :
  relates (keeps (distinct friend_requests rq_id)) (perform op).
Proof.
  pose proof (keeps_refl (distinct friend_requests rq_id)) as Rr.
  pose proof (keeps_trans (distinct friend_requests rq_id)) as Rt.
  each_write op; try (now elsewhere ltac:(stays)).
  - (* createFriendRequest *)
    written. passed E C.
    eapply distinct_added; [reflexivity|]. now apply existsb_key_none.
  - (* updateFriendRequest *)
    apply relates_bind; [assumption|apply relates_Date_now; assumption|intros now].
    written. constrained.
    eapply distinct_rewritten; [|reflexivity]. reflexivity.
Qed.

Lemma parse_same (d d' : database) :
  conversations d' = conversations d -> keeps participants_parse d d'.
Proof. unfold keeps, participants_parse. now intros ->. Qed.

Lemma parse_deleted (d d' : database) :
  (exists p, conversations d' = delete_where p (conversations d)) ->
  keeps participants_parse d d'.
Proof.
  unfold keeps, participants_parse. intros [p ->] H r Hr.
  apply delete_where_In in Hr. now apply H.
Qed.

Ltac parses :=
  unfold delete_users, cascade_users, delete_conversations, cascade_conversations;
  try match goal with |- context [foreign_keys ?w] => destruct (foreign_keys w) end;
  first [ now apply parse_same | apply parse_deleted; simpl; eauto; fail ].

Lemma perform_keeps_participants (op : operation) :
  relates (keeps participants_parse) (perform op).
Proof.
  pose proof (keeps_refl participants_parse) as Rr.
  pose proof (keeps_trans participants_parse) as Rt.
  each_write op; try (now elsewhere ltac:(parses)).
  - (* createConversation *)
    written. constrained. intros H r Hr. simpl in Hr.
    apply in_app_or in Hr. destruct Hr as [Hr|[<-|[]]]; [now apply H|].
    simpl. now rewrite JSON_parse_stringify.
  - (* updateConversation *)
    apply relates_bind; [assumption|now apply reads_conversation|].
    intros [current|]; [|now apply relates_ret].
    written. inversion E; subst. intros H r Hr. simpl in Hr.
    unfold update_where in Hr. apply in_map_iff in Hr. destruct Hr as (x & <- & Hx).
    destruct (String.eqb (cv_id x) c); [|now apply H].
    simpl. now rewrite JSON_parse_stringify.
Qed.

Lemma empty_sound : sound empty_database.
Proof.
  split; [|split].
  - split; [exact empty_canonical|]. split; constructor.
  - repeat split; constructor.
  - intros r [].
Qed.

Lemma reached (P : database -> Prop) (ops : list operation) (w : world) :
  (forall op, relates (keeps P) (perform op)) ->
  P (store w) -> P (store (perform_all ops w)).
Proof.
  intros H. exact (relates_all (keeps P) (keeps_refl P) (keeps_trans P) ops H w).
Qed.

(** X29.  Every write of the class keeps a store sound, whatever the
    collaborator does and whether the write succeeds, fails or throws: the
    keys the schema declares unique stay unique (handles of accounts; ids and
    handle-key pairs of play records, favorites, search history and skip
    configurations; ids of danmus, conversations and friend requests; pairs of
    friend edges; handles and codes of bindings), friend edges stay canonical
    and every stored list of participants stays readable as JSON.  So the
    stores reached from the empty one meet what the reads above ask of
    them. *)
Theorem writes_keep_sound (ops : list operation) (w : world) :
  sound (store w) -> sound (store (perform_all ops w)).
Proof.
  intros (Hw & (K1 & K2 & K3 & K4 & K5 & K6 & K7 & K8 & K9 & K10 & K11 & K12 & K13) & Hp).
  split; [|split].
  - exact (relates_all stays_well_formed stays_well_formed_refl stays_well_formed_trans
             ops perform_stays_well_formed w Hw).
  - unfold schema_keys.
    repeat match goal with |- _ /\ _ => split end.
    + exact (reached _ ops w perform_keeps_users K1).
    + exact (reached _ ops w perform_keeps_play_ids K2).
    + exact (reached _ ops w perform_keeps_play_keys K3).
    + exact (reached _ ops w perform_keeps_favorite_ids K4).
    + exact (reached _ ops w perform_keeps_favorite_keys K5).
    + exact (reached _ ops w perform_keeps_history_ids K6).
    + exact (reached _ ops w perform_keeps_history_keys K7).
    + exact (reached _ ops w perform_keeps_skip_ids K8).
    + exact (reached _ ops w perform_keeps_skip_keys K9).
    + exact (reached _ ops w perform_keeps_danmu_ids K10).
    + exact (reached _ ops w perform_keeps_conversation_ids K11).
    + exact (reached _ ops w perform_keeps_friend_keys K12).
    + exact (reached _ ops w perform_keeps_request_ids K13).
  - exact (reached _ ops w perform_keeps_participants Hp).
Qed.

Lemma writes_keep_sound_witness :
  sound (store fresh) /\ sound (store (perform_all some_writes fresh)).
Proof.
  split; [exact empty_sound|].
  apply (writes_keep_sound some_writes fresh). exact empty_sound.
Defined.

(** X30.  No write of the class adds a message: after any sequence of
    writes, whatever the collaborator does, the ids of the stored messages
    are ids of messages that were stored before.  [saveMessage], the one
    write that inserts, has a statement the engine never runs, and
    [markMessageAsRead] rewrites rows in place. *)
Theorem writes_add_no_message (ops : list operation) (w : world) :
  no_new_message (store w) (store (perform_all ops w)).
Proof.
  exact (relates_all no_new_message no_new_message_refl no_new_message_trans ops
           perform_no_new_message w).
Qed.
